(* ===== verification/_CoqProject ===== *)
-Q . S2P
Prelude.v
StdMap.v
Buffer.v
ByteStream.v
WrappingIntegers.v
StreamReassembler.v
Parser.v
Checksum.v
TCPSegment.v
TCPReceiver.v
TCPSender.v
TCPState.v
TCPConnection.v
Closing.v
EndToEnd.v
IPv4.v
Ethernet.v
Random.v
Mersenne.v
Clock.v
Format.v
Printing.v
Address.v
NetworkInterface.v
Router.v
Adapters.v
Carrier.v
NetworkSimulator.v
Link.v
Simulation.v
FileDescriptor.v
Handles.v
EventLoop.v
Kernel.v
StreamCopy.v
SpongeSocket.v
Sockets.v
Program.v
Transfer.v
Exchange.v
Benchmark.v
Progress.v
Opening.v
Completion.v
Tcpdump.v
Tun.v
SocketThread.v
Options.v
Apps.v
