(* ===== verification/Prelude.v ===== *)
(** * A verification of the sponge TCP/IP stack

    The repository implements TCP over IP in user space: a reliable byte stream
    between two applications, built from small classes, each of which owns the
    next. Under [src/libsponge]: [ByteStream] (a bounded queue of bytes),
    [StreamReassembler] (puts substrings in order into a [ByteStream]),
    [TCPReceiver] (a reassembler driven by segments), [TCPSender] (cuts a stream
    into segments, keeps those outstanding, retransmits), [TCPConnection] (a
    sender and a receiver, the connection's state machine), the headers and their
    wire formats ([tcp_header], [ipv4_header], [ethernet_header], [arp_message]),
    [NetworkInterface] (datagrams over Ethernet, with ARP), [Router], the adapters
    that carry segments over UDP, a TUN or a TAP device, [EventLoop], and
    [TCPSpongeSocket], which runs a connection between its owner and an adapter.
    [src/apps] holds programs that use the library.

    ** Files

    Each file follows the source files named in its first comment; a member
    [_x] of a class is the field [x] of a record, with a prefix for the class, and
    a function or method is a definition of the same name where that is possible.

    - [Prelude]: machine integers, the outcomes of C++ functions, bytes and
      strings as lists, and the lemmas and tactics all files share.
    - [StdMap]: [std::map] with integer keys, as a sorted association list.
    - [Buffer], [ByteStream]: [util/buffer], [byte_stream].
    - [WrappingIntegers]: [wrapping_integers].
    - [StreamReassembler]: [stream_reassembler].
    - [Parser], [Checksum]: [util/parser] and the checksum of [util/util].
    - [TCPSegment]: [tcp_helpers/tcp_header], [tcp_segment].
    - [TCPReceiver], [TCPSender], [TCPState], [TCPConnection]: the files of the
      same names.
    - [Closing]: sequences of calls of a connection, and how they end it.
    - [EndToEnd]: two connections and a network between them.
    - [IPv4], [Ethernet]: the formats of datagrams, frames and ARP messages.
    - [Random]: random numbers, a class, and random Ethernet addresses.
      [Mersenne]: the generator of [util/util], an instance. [Clock]: its clock.
    - [Format], [Printing]: the formatting of numbers and text, [hexdump], and
      the printing functions of headers and messages.
    - [Address]: [util/address], with the resolution of names as a class.
    - [NetworkInterface], [Router]: [network_interface], [router].
    - [Adapters]: [tcp_over_ip], [fd_adapter], [tuntap_adapter],
      [lossy_fd_adapter]. The class [FdAdapter] is what the stack uses of an
      adapter, [LawfulAdapter] what an adapter promises; the four adapters of the
      source are instances of both. [Carrier]: the class [CarryingAdapter], what
      comes out of the adapter at the other end.
    - [NetworkSimulator], [Link], [Simulation]: [apps/network_simulator], links
      on which interfaces exchange frames, and the run of the program.
    - [FileDescriptor]: [util/file_descriptor], [util/socket] and [SystemCall].
      [Handles]: the objects that share a descriptor, and the reference counts.
    - [EventLoop]: [util/eventloop]. [rule_ok] is what a rule promises to the
      loop.
    - [Kernel]: the kernel's side of descriptors that do not block.
    - [StreamCopy]: [apps/bidirectional_stream_copy].
    - [SpongeSocket]: the loop of [tcp_helpers/tcp_sponge_socket]. [Sockets]: two
      of them, with their owners and the network between their devices.
    - [Program]: the standard streams, [exit] and the arguments of programs.
    - [Benchmark]: [apps/tcp_benchmark]. [Transfer], [Exchange], [Progress],
      [Opening] and [Completion] prove that it ends: what a batch of segments does
      to the endpoint that takes it, a batch in each direction, a round of the
      loop in the middle of a transfer, the first two rounds, and the last ones
      with the whole program.
    - [Tcpdump], [Tun]: [apps/udp_tcpdump]; [util/tun] and [apps/tun].
    - [SocketThread]: how a [TCPSpongeSocket] is made and taken down, with its
      thread, and the two sockets with fixed configurations.
    - [Options], [Apps]: command lines, and the programs [tcp_ipv4], [tcp_udp],
      [tcp_ip_ethernet], [tcp_native] and [webget].

    ** Conventions

    An unsigned integer of [w] bits is a [Z] with the wrap-around written out
    ([u8], [u16], [u32], [u64]); a conversion the compiler inserts is written
    where it can change the value. Sizes of strings in memory are exact. A
    function that can throw or run into undefined behaviour has a result of type
    [outcome]: [Ret], [Throw], [Undef] (an index out of bounds, a dangling
    iterator, a signed overflow) or [Diverge] (a loop ran out of fuel, or a call
    blocks for ever). State is passed and returned explicitly; [returns m P] says
    that [m] ends normally in a result that satisfies [P], so it also says that no
    exception, no undefined behaviour and no endless loop occurs. Output for
    debugging is left out. The operating system, the clock and random numbers are
    outside: what they deliver is an argument, what is written to a device is part
    of the result, and what a theorem relies on is a hypothesis about those
    arguments.

    Fuel: the folding loop of the checksum has three rounds, which is enough for a
    sum of 32 bits; the loop of [fill_window] has one round for each byte
    buffered, since every round takes one out; [route] has one round for each
    datagram that waits; a loop over command-line arguments has one for each
    argument, the loop over IPv6 extension headers one for each captured byte, and
    the loop that writes into a connection one for each byte left. The two loops of
    the benchmark take their fuel as an argument. That the fuel is enough is proved
    ([checksum_value], [fill_window_fills], [route_spec], [command_line_grammar],
    [tcpdump_survives], [connections_deliver]). The other loops recurse on their
    data.

    ** What is proved

    - Reliability. [end_to_end]: over a network that loses, repeats, delays and
      reorders, what an application reads is a prefix of what the other one wrote,
      and no segment that can arrive makes a connection fail. It rests on the
      invariants of the reassembler ([push_substring_safe],
      [reassembler_prefix]), the receiver ([receiver_delivers]) and the sender
      ([sender_invariant], [ack_received_window], [fill_window_fills],
      [retransmission_backoff]) and on [unwrap_closest]. Streams are shorter than
      2^31 bytes there: with longer ones a segment delayed for a whole cycle of
      sequence numbers is taken for a new one. [sockets_reliable] says the same of
      two sockets as a whole, with their event loops, adapters, devices and owners:
      an adapter only has to be a [CarryingAdapter], and the connection's
      invariant is that of [sponge_socket_safe].
    - The connection: it survives any segment ([connection_robust]), answers what
      it must ([segment_answered]), and goes through its states as it should
      ([three_way_handshake], [reset_received], [gives_up],
      [sender_summary_spec]), whatever calls lead there: the side that closes first
      lingers, the other does not ([lingers]); what it sends fits
      ([segments_fit]).
    - Formats: parsing what was serialized gives it back
      ([tcp_segment_roundtrip], [ipv4_datagram_roundtrip],
      [arp_frame_roundtrip], [tun_roundtrip]); the parser of IPv4 headers accepts
      well-formed headers only ([ip_header_parse_sound]).
    - Below TCP: an interface loses no datagram, sends each to an address that
      was announced for its next hop, and resolves addresses
      ([interface_conserves], [arp_resolution]); a router takes the longest
      matching prefix ([route_longest_prefix]) and, unless a datagram that waits is
      malformed, empties its queues ([route_spec]); the adapters keep
      their promises ([ethernet_adapter_total], [lossy_lawful]).
    - Around TCP: the event loop serves rules that keep their promise
      ([wait_next_event_safe]) and throws when one of their descriptors is in error
      ([wait_next_event_error]); its two clients keep the promise, and move bytes
      without loss ([sponge_socket_safe], [stream_copy_safe], [stream_copy_exit]).
      Descriptors are not leaked, nor closed while in use ([descriptors_managed]).
    - Containers: a [ByteStream] refines a bounded queue ([bytestream_fifo]).
    - Progress. [connections_deliver]: two connections that exchange their
      segments in batches, in order or reversed, get every string across and then
      close, in a number of rounds bounded by its length; so the benchmark ends
      ([benchmark_succeeds]). [network_simulator_succeeds]: so does the simulation,
      for all random numbers that give distinct addresses. [sockets_live_and_end]
      runs two sockets from the handshake to the end of their loops.
    - Programs: what they print and where they fail ([tcpdump_shows],
      [tcpdump_survives], [tun_main_any], [webget_prints_response]), the grammar of
      their command lines and the configuration they build
      ([command_line_grammar], [ipv4_config_roundtrip], [full_stack_connects]), and
      text formats ([hexdump_layout], [address_text_roundtrip], [to_string_inj]).
    - Surroundings: the time handed to a connection adds up ([ticks_add_up]), the
      generator of random numbers is properly seeded ([random_generator_ok]).
    - Behaviour that is not what it should be, on concrete runs:
      [premature_eof], [sticky_fin], [acknowledgments_lost],
      [router_throws_on_bad_datagram], [reset_while_writing],
      [stream_copy_cut_off], [tcpdump_fails], [equal_addresses_fail],
      [closed_twice], [written_after_end], [listen_reset],
      [connect_after_reset], [repeated_syn_unanswered], [loopback_skipped], and the
      lemmas named after the case
      ([segment_parse_ignores_header_error], [as_string_out_of_bounds],
      [poll_error_ignored], [reset_not_sent] and others).

    ** Not modelled

    What only the outside can say: readings of the clock and the words of
    [random_device]. The kernel of [Kernel] fails a read or write of the socket
    pair, standard input and output only for the lack of data or room: a broken
    pipe or a connection reset by the kernel, on which [SystemCall] throws, do not
    occur in the runs of [StreamCopy], [SpongeSocket] and [Sockets]. Runs go on
    only through polls that report no descriptor in error, since on one the event
    loop throws. Output for debugging. The interleaving of the threads of a
    [TCPSpongeSocket] is that of its owner's steps and the iterations of the loop:
    they meet only in the socket pair, whose two ends are in the model, and in the
    abort flag, an argument of each iteration. Tests and examples for the
    documentation. *)
From stdpp Require Export base tactics list gmap strings.
From Stdlib Require Export ZArith Lia.
From Stdlib Require Export Init.Byte.
From Stdlib Require Import Strings.Byte.
Open Scope Z_scope.

(** ** Machine integers

    An unsigned C++ integer of width [w] is a [Z]; every operation of the
    source that can leave the range is followed by the truncation of its
    type. *)

Definition u8 (z : Z) : Z := z mod 2 ^ 8.
Definition u16 (z : Z) : Z := z mod 2 ^ 16.
Definition u32 (z : Z) : Z := z mod 2 ^ 32.
Definition u64 (z : Z) : Z := z mod 2 ^ 64.

(** The value of a [w]-bit two's complement integer. *)
Definition i32 (z : Z) : Z := (z + 2 ^ 31) mod 2 ^ 32 - 2 ^ 31.

(** [is_uN z]: the value fits the type. *)
Definition is_u8 (z : Z) : Prop := 0 <= z < 2 ^ 8.
Definition is_u16 (z : Z) : Prop := 0 <= z < 2 ^ 16.
Definition is_u32 (z : Z) : Prop := 0 <= z < 2 ^ 32.
Definition is_u64 (z : Z) : Prop := 0 <= z < 2 ^ 64.

(** Unfolds the machine-integer vocabulary and lets [lia] treat the
    remaining [mod] and [/] by constants. *)
Ltac unfold_uint :=
  unfold is_u8, is_u16, is_u32, is_u64, u8, u16, u32, u64, i32 in *.
Ltac uint_lia :=
  unfold_uint;
  change (2 ^ 8) with 256 in *; change (2 ^ 16) with 65536 in *;
  change (2 ^ 31) with 2147483648 in *; change (2 ^ 32) with 4294967296 in *;
  change (2 ^ 64) with 18446744073709551616 in *;
  Z.to_euclidean_division_equations; lia.

Lemma u8_range z : is_u8 (u8 z).
Proof. apply Z.mod_pos_bound. lia. Qed.
Lemma u16_range z : is_u16 (u16 z).
Proof. apply Z.mod_pos_bound. lia. Qed.
Lemma u32_range z : is_u32 (u32 z).
Proof. apply Z.mod_pos_bound. lia. Qed.
Lemma u64_range z : is_u64 (u64 z).
Proof. apply Z.mod_pos_bound. lia. Qed.

Lemma u8_id z : is_u8 z -> u8 z = z.
Proof. apply Z.mod_small. Qed.
Lemma u16_id z : is_u16 z -> u16 z = z.
Proof. apply Z.mod_small. Qed.
Lemma u32_id z : is_u32 z -> u32 z = z.
Proof. apply Z.mod_small. Qed.
Lemma u64_id z : is_u64 z -> u64 z = z.
Proof. apply Z.mod_small. Qed.

Create HintDb uint.
#[export] Hint Resolve u8_range u16_range u32_range u64_range : uint.
#[export] Hint Extern 2 (is_u8 _) => unfold is_u8 in *; lia : uint.
#[export] Hint Extern 2 (is_u16 _) => unfold is_u16 in *; lia : uint.
#[export] Hint Extern 2 (is_u32 _) => unfold is_u32 in *; lia : uint.
#[export] Hint Extern 2 (is_u64 _) => unfold is_u64 in *; lia : uint.

(** ** Outcomes

    The result of running a C++ function: a value, an exception, undefined
    behaviour (a dangling iterator is read, a signed integer overflows, an
    index is out of bounds) or, for a loop run with bounded fuel, the fuel
    running out. *)

Inductive exn :=
| out_of_range (what : string)
| runtime_error (what : string)
| length_error (what : string)
| unix_error (attempt : string) (errno : Z)
| tagged_error (attempt : string) (code : Z).

Inductive outcome (A : Type) :=
| Ret (a : A)
| Throw (e : exn)
| Undef
| Diverge.
Arguments Ret {A} a.
Arguments Throw {A} e.
Arguments Undef {A}.
Arguments Diverge {A}.

#[export] Instance outcome_ret : MRet outcome := @Ret.
#[export] Instance outcome_bind : MBind outcome := λ A B f m,
  match m with
  | Ret a => f a
  | Throw e => Throw e
  | Undef => Undef
  | Diverge => Diverge
  end.
#[export] Instance outcome_fmap : FMap outcome := λ A B f m,
  match m with
  | Ret a => Ret (f a)
  | Throw e => Throw e
  | Undef => Undef
  | Diverge => Diverge
  end.

(** [returns m P]: the computation terminates normally, in a result that
    satisfies [P]; neither an exception nor undefined behaviour occurs. *)
Definition returns {A} (m : outcome A) (P : A -> Prop) : Prop :=
  ∃ a, m = Ret a ∧ P a.

Lemma returns_ret {A} (a : A) (P : A -> Prop) : P a -> returns (Ret a) P.
Proof. eexists; eauto. Qed.

Lemma returns_bind {A B} (m : outcome A) (k : A -> outcome B) P Q :
  returns m P -> (∀ a, P a -> returns (k a) Q) -> returns (m ≫= k) Q.
Proof. intros (a & -> & HP) HQ. exact (HQ a HP). Qed.

Lemma returns_mono {A} (m : outcome A) (P Q : A -> Prop) :
  returns m P -> (∀ a, P a -> Q a) -> returns m Q.
Proof. intros (a & Hm & HP) HPQ. exists a. auto. Qed.

Lemma bind_ret_inv {A B} (m : outcome A) (k : A -> outcome B) b :
  m ≫= k = Ret b -> ∃ a, m = Ret a ∧ k a = Ret b.
Proof. destruct m; try discriminate. simpl. eauto. Qed.

(** ** Bytes and strings *)

Abbreviation byte := Byte.byte.

#[export] Instance byte_eq_dec : EqDecision byte := Byte.byte_eq_dec.

Definition byte_val (b : byte) : Z := Z.of_N (Byte.to_N b).
Definition byte_of (z : Z) : byte :=
  match Byte.of_N (Z.to_N (u8 z)) with
  | Some b => b
  | None => x00
  end.

Lemma byte_val_range b : is_u8 (byte_val b).
Proof.
  pose proof (Byte.to_N_bounded b). unfold byte_val, is_u8. lia.
Qed.

Lemma byte_val_of z : byte_val (byte_of z) = u8 z.
Proof.
  pose proof (u8_range z) as Hz. unfold byte_val, byte_of.
  destruct (Byte.of_N (Z.to_N (u8 z))) as [b|] eqn:Hb.
  - apply Byte.to_of_N in Hb. rewrite Hb. unfold is_u8 in Hz. lia.
  - apply Byte.of_N_None_iff in Hb. unfold is_u8 in Hz. lia.
Qed.

Lemma byte_of_val b : byte_of (byte_val b) = b.
Proof.
  unfold byte_of. rewrite (u8_id _ (byte_val_range b)). unfold byte_val.
  rewrite N2Z.id, Byte.of_to_N. done.
Qed.

Lemma byte_val_inj b1 b2 : byte_val b1 = byte_val b2 -> b1 = b2.
Proof. intros H. rewrite <- (byte_of_val b1), H. apply byte_of_val. Qed.

(** ** Lists indexed by [Z] *)

Definition zlen {A} (l : list A) : Z := Z.of_nat (length l).
Definition ztake {A} (n : Z) (l : list A) : list A := take (Z.to_nat n) l.
Definition zdrop {A} (n : Z) (l : list A) : list A := drop (Z.to_nat n) l.

#[global] Arguments zlen : simpl never.
#[global] Arguments ztake : simpl never.
#[global] Arguments zdrop : simpl never.

Section zlist.
Context {A : Type}.
Implicit Types (l k : list A) (n m : Z).

Lemma zlen_nonneg l : 0 <= zlen l.
Proof. unfold zlen. lia. Qed.
Lemma zlen_nil : zlen (@nil A) = 0.
Proof. done. Qed.
Lemma zlen_cons x l : zlen (x :: l) = 1 + zlen l.
Proof. unfold zlen. simpl. lia. Qed.
Lemma zlen_app l k : zlen (l ++ k) = zlen l + zlen k.
Proof. unfold zlen. rewrite length_app. lia. Qed.
Lemma zlen_ztake n l : zlen (ztake n l) = Z.max 0 (Z.min n (zlen l)).
Proof. unfold zlen, ztake. rewrite length_take. lia. Qed.
Lemma zlen_zdrop n l : zlen (zdrop n l) = Z.max 0 (zlen l - Z.max 0 n).
Proof. unfold zlen, zdrop. rewrite length_drop. lia. Qed.

Lemma zlen_0_nil l : zlen l <= 0 -> l = [].
Proof. destruct l; [done|]. rewrite zlen_cons. pose proof (zlen_nonneg l). lia. Qed.
Lemma zlen_pos_ne l : 0 < zlen l <-> l ≠ [].
Proof.
  destruct l; rewrite ?zlen_nil, ?zlen_cons; [naive_solver lia|].
  pose proof (zlen_nonneg l). split; [done|lia].
Qed.

Lemma ztake_ge n l : zlen l <= n -> ztake n l = l.
Proof. unfold zlen, ztake. intros. apply take_ge. lia. Qed.
Lemma ztake_le_0 n l : n <= 0 -> ztake n l = [].
Proof. unfold ztake. intros. by replace (Z.to_nat n) with 0%nat by lia. Qed.
Lemma zdrop_le_0 n l : n <= 0 -> zdrop n l = l.
Proof. unfold zdrop. intros. by replace (Z.to_nat n) with 0%nat by lia. Qed.
Lemma zdrop_ge n l : zlen l <= n -> zdrop n l = [].
Proof. unfold zlen, zdrop. intros. apply drop_ge. lia. Qed.
Lemma zdrop_nil n : zdrop n (@nil A) = [].
Proof. apply drop_nil. Qed.
Lemma ztake_nil n : ztake n (@nil A) = [].
Proof. apply take_nil. Qed.
Lemma ztake_zdrop n l : ztake n l ++ zdrop n l = l.
Proof. apply take_drop. Qed.

Lemma zdrop_zdrop n m l : 0 <= n -> 0 <= m -> zdrop n (zdrop m l) = zdrop (m + n) l.
Proof. unfold zdrop. intros. rewrite drop_drop. f_equal. lia. Qed.
Lemma ztake_ztake n m l : ztake n (ztake m l) = ztake (Z.min n m) l.
Proof. unfold ztake. rewrite take_take. f_equal. lia. Qed.
Lemma zdrop_ztake n m l : 0 <= m -> zdrop m (ztake n l) = ztake (n - m) (zdrop m l).
Proof.
  unfold ztake, zdrop. intros. rewrite skipn_firstn_comm. f_equal. lia.
Qed.
Lemma ztake_app_le n l k : n <= zlen l -> ztake n (l ++ k) = ztake n l.
Proof. unfold zlen, ztake. intros. apply take_app_le. lia. Qed.
Lemma ztake_app_ge n l k :
  zlen l <= n -> ztake n (l ++ k) = l ++ ztake (n - zlen l) k.
Proof.
  unfold zlen, ztake. intros. rewrite take_app_ge by lia. do 2 f_equal. lia.
Qed.
Lemma zdrop_app_le n l k : n <= zlen l -> zdrop n (l ++ k) = zdrop n l ++ k.
Proof. unfold zlen, zdrop. intros. apply drop_app_le. lia. Qed.
Lemma zdrop_app_ge n l k : zlen l <= n -> zdrop n (l ++ k) = zdrop (n - zlen l) k.
Proof.
  unfold zlen, zdrop. intros. rewrite drop_app_ge by lia. f_equal. lia.
Qed.
Lemma ztake_add n m l :
  0 <= n -> 0 <= m -> ztake (n + m) l = ztake n l ++ ztake m (zdrop n l).
Proof.
  intros. rewrite <- (ztake_zdrop n l) at 1.
  destruct (Z.le_gt_cases n (zlen l)).
  - assert (zlen (ztake n l) = n) by (rewrite zlen_ztake; lia).
    rewrite ztake_app_ge by lia. repeat f_equal. lia.
  - rewrite (zdrop_ge n l), (ztake_ge n l), app_nil_r by lia.
    rewrite ztake_ge, (ztake_ge m []) by (rewrite ?zlen_nil; lia).
    by rewrite app_nil_r.
Qed.
Lemma zlen_ztake_le n l : 0 <= n <= zlen l -> zlen (ztake n l) = n.
Proof. rewrite zlen_ztake. lia. Qed.
Lemma zlen_zdrop_le n l : 0 <= n <= zlen l -> zlen (zdrop n l) = zlen l - n.
Proof. rewrite zlen_zdrop. lia. Qed.

(** [slice S a b]: the elements of [S] at the indices [a <= i < b]. *)
Definition slice l (a b : Z) : list A := ztake (b - a) (zdrop a l).

Lemma zlen_slice l a b :
  0 <= a <= b -> b <= zlen l -> zlen (slice l a b) = b - a.
Proof. intros. unfold slice. rewrite zlen_ztake, zlen_zdrop. lia. Qed.
Lemma slice_nil l a b : b <= a -> slice l a b = [].
Proof. intros. apply ztake_le_0. lia. Qed.
Lemma slice_app l a b c :
  0 <= a <= b -> b <= c -> slice l a c = slice l a b ++ slice l b c.
Proof.
  intros. unfold slice. replace (c - a) with ((b - a) + (c - b)) by lia.
  rewrite ztake_add, zdrop_zdrop by lia. repeat f_equal; lia.
Qed.
Lemma slice_slice l a b i j :
  0 <= a -> 0 <= i -> j <= b - a ->
  slice (slice l a b) i j = slice l (a + i) (a + j).
Proof.
  intros. unfold slice. rewrite zdrop_ztake, ztake_ztake, zdrop_zdrop by lia.
  f_equal. lia.
Qed.
Lemma slice_full l : slice l 0 (zlen l) = l.
Proof. unfold slice. rewrite zdrop_le_0, ztake_ge by lia. done. Qed.
Lemma slice_prefix l k a b :
  0 <= a -> b <= zlen l -> slice (l ++ k) a b = slice l a b.
Proof.
  intros. destruct (Z.le_gt_cases b a); [by rewrite !slice_nil by lia|].
  unfold slice. rewrite zdrop_app_le by lia. apply ztake_app_le.
  rewrite zlen_zdrop. lia.
Qed.
Lemma ztake_slice n l a b : 0 <= n <= b - a -> ztake n (slice l a b) = slice l a (a + n).
Proof. intros. unfold slice. rewrite ztake_ztake. f_equal. lia. Qed.
Lemma zdrop_slice n l a b : 0 <= a -> 0 <= n -> zdrop n (slice l a b) = slice l (a + n) b.
Proof.
  intros. unfold slice. rewrite zdrop_ztake, zdrop_zdrop by lia. f_equal. lia.
Qed.
End zlist.

Lemma slice_0_prefix {A} (l : list A) k : slice l 0 k `prefix_of` l.
Proof. exists (zdrop (k - 0) l). unfold slice. by rewrite (zdrop_le_0 0 l), ztake_zdrop by lia. Qed.

Create Rewrite HintDb zlen.
#[export] Hint Rewrite @zlen_nil @zlen_cons @zlen_app @zlen_ztake @zlen_zdrop : zlen.

(** Normalises lengths everywhere, remembers that lengths are non-negative
    and calls [lia]. *)
Ltac zlen_facts :=
  repeat match goal with
  | |- context [zlen ?l] =>
      lazymatch goal with
      | _ : 0 <= zlen l |- _ => fail
      | _ => pose proof (zlen_nonneg l)
      end
  | _ : context [zlen ?l] |- _ =>
      lazymatch goal with
      | _ : 0 <= zlen l |- _ => fail
      | _ => pose proof (zlen_nonneg l)
      end
  end.
Ltac zlen_lia := autorewrite with zlen in *; zlen_facts; lia.

(** [std::string::substr]: throws when the position is past the end. *)
Definition substr {A} (s : list A) (pos n : Z) : outcome (list A) :=
  if zlen s <? pos then Throw (out_of_range "basic_string::substr")
  else Ret (ztake n (zdrop pos s)).

Lemma substr_ret {A} (s : list A) pos n :
  pos <= zlen s -> substr s pos n = Ret (ztake n (zdrop pos s)).
Proof. intros. unfold substr. destruct (Z.ltb_spec (zlen s) pos); [lia|done]. Qed.

Lemma zlen_replicate {A} (x : A) n : zlen (replicate n x) = Z.of_nat n.
Proof. unfold zlen. by rewrite length_replicate. Qed.

(** [std::string::resize] to [n] characters, padding with zero bytes. *)
Definition resize (s : list byte) (n : Z) : list byte :=
  ztake n s ++ replicate (Z.to_nat (n - zlen s)) x00.

(** [static_cast<bool>(x & mask)] *)
Definition flag (x mask : Z) : bool := negb (Z.land x mask =? 0).

(** Case analysis on the first boolean test of the goal, or of a hypothesis;
    the test is kept as an equation that [lia] can read. *)
Ltac case_test :=
  match goal with
  | |- context [if ?b then _ else _] =>
      lazymatch b with context [if _ then _ else _] => fail | _ => idtac end;
      destruct b eqn:?
  end.
Ltac case_test_in H :=
  match type of H with
  | context [if ?b then _ else _] =>
      lazymatch b with context [if _ then _ else _] => fail | _ => idtac end;
      destruct b eqn:?
  end.

Lemma Forall_sublist {A} (P : A -> Prop) l k : l `sublist_of` k -> Forall P k -> Forall P l.
Proof. induction 1; inversion_clear 1; auto. Qed.

Lemma ForallOrdPairs_sublist {A} (R : A -> A -> Prop) l k :
  l `sublist_of` k -> List.ForallOrdPairs R k -> List.ForallOrdPairs R l.
Proof.
  induction 1 as [|x l k Hs IH|x l k Hs IH]; [done| |]; inversion_clear 1; [|by apply IH].
  constructor; [by eapply Forall_sublist|by apply IH].
Qed.
