(* ===== verification/StdMap.v ===== *)
(** [std::map] with unsigned keys, iterated in key order.

    The containers of the source that are walked from [begin()] to [end()]
    are association lists kept in strictly increasing key order; [insert]
    follows [std::map::insert], which leaves an existing binding alone. *)
From S2P Require Import Prelude.

Section stdmap.
Context {V : Type}.
Implicit Types (m pre post : list (Z * V)) (k : Z) (v : V).

Fixpoint find k m : option V :=
  match m with
  | [] => None
  | (k', v) :: m' => if k =? k' then Some v else find k m'
  end.

Fixpoint insert k v m : list (Z * V) :=
  match m with
  | [] => [(k, v)]
  | (k', v') :: m' =>
      if k <? k' then (k, v) :: m
      else if k =? k' then m
      else (k', v') :: insert k v m'
  end.

Fixpoint erase k m : list (Z * V) :=
  match m with
  | [] => []
  | (k', v') :: m' => if k =? k' then m' else (k', v') :: erase k m'
  end.

(** The ranges [begin(), find(k)) and [find(k), end()). *)
Fixpoint before k m : list (Z * V) :=
  match m with
  | [] => []
  | (k', v') :: m' => if k =? k' then [] else (k', v') :: before k m'
  end.

Fixpoint from k m : list (Z * V) :=
  match m with
  | [] => []
  | (k', v') :: m' => if k =? k' then m else from k m'
  end.

(** [sorted_above lo m]: the keys of [m] are strictly increasing, the first
    one greater than [lo]. *)
Fixpoint sorted_above (lo : Z) m : Prop :=
  match m with
  | [] => True
  | (k, _) :: m' => lo < k ∧ sorted_above k m'
  end.

Definition keys_lt k m : Prop := Forall (λ p, p.1 < k) m.
Definition keys_gt k m : Prop := Forall (λ p, k < p.1) m.

Lemma insert_between pre post k v :
  keys_lt k pre -> keys_gt k post -> insert k v (pre ++ post) = pre ++ (k, v) :: post.
Proof.
  intros Hpre Hpost. induction Hpre as [|[k' v'] pre Hk _ IH]; simpl in *.
  - destruct Hpost as [|[k' v'] post Hk _]; simpl in *; [done|].
    by destruct (Z.ltb_spec k k'); [|lia].
  - destruct (Z.ltb_spec k k'); [lia|]. destruct (Z.eqb_spec k k'); [lia|].
    by rewrite IH.
Qed.

Lemma erase_between pre post k v :
  keys_lt k pre -> erase k (pre ++ (k, v) :: post) = pre ++ post.
Proof.
  induction 1 as [|[k' v'] pre Hk _ IH]; simpl in *.
  - by rewrite Z.eqb_refl.
  - destruct (Z.eqb_spec k k'); [lia|]. by rewrite IH.
Qed.

Lemma find_between pre post k v :
  keys_lt k pre -> find k (pre ++ (k, v) :: post) = Some v.
Proof.
  induction 1 as [|[k' v'] pre Hk _ IH]; simpl in *.
  - by rewrite Z.eqb_refl.
  - by destruct (Z.eqb_spec k k'); [lia|].
Qed.

Lemma before_between pre post k v :
  keys_lt k pre -> before k (pre ++ (k, v) :: post) = pre.
Proof.
  induction 1 as [|[k' v'] pre Hk _ IH]; simpl in *; [by rewrite Z.eqb_refl|].
  destruct (Z.eqb_spec k k'); [lia|]. by rewrite IH.
Qed.

Lemma from_between pre post k v :
  keys_lt k pre -> from k (pre ++ (k, v) :: post) = (k, v) :: post.
Proof.
  induction 1 as [|[k' v'] pre Hk _ IH]; simpl in *; [by rewrite Z.eqb_refl|].
  by destruct (Z.eqb_spec k k'); [lia|].
Qed.

Lemma find_None m k : find k m = None <-> Forall (λ p, p.1 ≠ k) m.
Proof.
  induction m as [|[k' v'] m IH]; simpl; [by split|]. rewrite Forall_cons. simpl.
  destruct (Z.eqb_spec k k'); [naive_solver|]. rewrite IH. naive_solver.
Qed.

Lemma sorted_above_weaken lo lo' m : lo' <= lo -> sorted_above lo m -> sorted_above lo' m.
Proof. destruct m as [|[k v] m]; simpl; [done|]. intros ? []. split; [lia|done]. Qed.

Lemma sorted_above_keys_gt lo m : sorted_above lo m -> keys_gt lo m.
Proof.
  revert lo. induction m as [|[k v] m IH]; intros lo; simpl; [constructor|].
  intros [Hk Hm]. constructor; [done|]. apply IH.
  eapply sorted_above_weaken; [|done]. lia.
Qed.

(** The binding found splits a sorted map around its key. *)
Lemma find_split lo m k v :
  sorted_above lo m -> find k m = Some v ->
  ∃ pre post, m = pre ++ (k, v) :: post ∧ keys_lt k pre ∧ keys_gt k post.
Proof.
  revert lo. induction m as [|[k' v'] m IH]; intros lo; simpl; [done|].
  intros [Hk Hm]. destruct (Z.eqb_spec k k') as [->|Hne].
  - intros [= ->]. exists [], m. split_and!; [done|constructor|].
    by apply sorted_above_keys_gt.
  - intros Hf. destruct (IH k' Hm Hf) as (pre & post & -> & Hpre & Hpost).
    exists ((k', v') :: pre), post. split_and!; [done| |done].
    constructor; [|done]. simpl.
    apply sorted_above_keys_gt in Hm. unfold keys_gt in Hm.
    rewrite Forall_app, Forall_cons in Hm. simpl in Hm. lia.
Qed.

Lemma find_above lo m k v : sorted_above lo m -> find k m = Some v -> lo < k.
Proof.
  intros Hs Hf. destruct (find_split _ _ _ _ Hs Hf) as (pre & post & -> & _ & _).
  apply sorted_above_keys_gt in Hs. unfold keys_gt in Hs.
  rewrite Forall_app, Forall_cons in Hs. destruct Hs as (_ & Hk & _). exact Hk.
Qed.
End stdmap.

#[export] Hint Resolve sorted_above_keys_gt : core.
