(* ===== verification/Buffer.v ===== *)
(** [util/buffer.hh], [util/buffer.cc]: reference-counted strings that
    discard bytes from the front.

    The shared storage of a [Buffer] is immutable, so a [shared_ptr] to it is
    modelled by the string itself ([None] for the null pointer). *)
From S2P Require Import Prelude.

(** ** Buffer *)

Record Buffer := mkBuffer {
  buf_storage : option (list byte);
  buf_starting_offset : Z
}.

Definition Buffer_default : Buffer := mkBuffer None 0.
Definition Buffer_of_string (str : list byte) : Buffer := mkBuffer (Some str) 0.

Definition str (b : Buffer) : list byte :=
  match buf_storage b with
  | None => []
  | Some s => ztake (zlen s - buf_starting_offset b) (zdrop (buf_starting_offset b) s)
  end.

(** [std::string_view::at] throws past the end. *)
Definition at_ (b : Buffer) (n : Z) : outcome Z :=
  match str b !! Z.to_nat n with
  | Some c => Ret (byte_val c)
  | None => Throw (out_of_range "basic_string_view::at")
  end.

Definition size (b : Buffer) : Z := zlen (str b).
Definition copy (b : Buffer) : list byte := str b.

Definition remove_prefix (b : Buffer) (n : Z) : outcome Buffer :=
  if zlen (str b) <? n then Throw (out_of_range "Buffer::remove_prefix")
  else
    let off := u64 (buf_starting_offset b + n) in
    match buf_storage b with
    | Some s => if off =? zlen s then Ret (mkBuffer None off) else Ret (mkBuffer (Some s) off)
    | None => Ret (mkBuffer None off)
    end.

(** ** BufferList *)

Definition BufferList := list Buffer.

Definition append (bl other : BufferList) : BufferList := bl ++ other.

(** The conversion operator to a single [Buffer]. *)
Definition to_Buffer (bl : BufferList) : outcome Buffer :=
  match bl with
  | [] => Ret Buffer_default
  | [b] => Ret b
  | _ => Throw (runtime_error
      "BufferList: please use concatenate() to combine a multi-Buffer BufferList into one Buffer")
  end.

Fixpoint concatenate (bl : BufferList) : list byte :=
  match bl with
  | [] => []
  | b :: bl' => str b ++ concatenate bl'
  end.

Fixpoint list_size (bl : BufferList) : Z :=
  match bl with
  | [] => 0
  | b :: bl' => size b + list_size bl'
  end.

(** [BufferList::remove_prefix]: every round of the loop either finishes or
    pops the front buffer. *)
Fixpoint list_remove_prefix (bl : BufferList) (n : Z) : outcome BufferList :=
  if 0 <? n then
    match bl with
    | [] => Throw (out_of_range "BufferList::remove_prefix")
    | b :: bl' =>
        if n <? zlen (str b) then b' ← remove_prefix b n; Ret (b' :: bl')
        else list_remove_prefix bl' (n - zlen (str b))
    end
  else Ret bl.

(** ** BufferViewList: the same loops over string views *)

Definition BufferViewList := list (list byte).

Definition view_of_list (bl : BufferList) : BufferViewList := map str bl.

Fixpoint view_size (vl : BufferViewList) : Z :=
  match vl with
  | [] => 0
  | v :: vl' => zlen v + view_size vl'
  end.

(** An [iovec] points to bytes, of which the system call may use [iov_len]. *)
Record iovec := mkIovec {
  iov_base : list byte;
  iov_len : Z
}.

Definition as_iovecs (vl : BufferViewList) : list iovec := map (λ x, mkIovec x (zlen x)) vl.

(** The bytes that [writev(2)] and [sendmsg(2)] are offered. *)
Definition gathered (iovecs : list iovec) : list byte := concat (map (λ v, ztake (iov_len v) (iov_base v)) iovecs).

Fixpoint view_remove_prefix (vl : BufferViewList) (n : Z) : outcome BufferViewList :=
  if 0 <? n then
    match vl with
    | [] => Throw (out_of_range "BufferListView::remove_prefix")
    | v :: vl' =>
        if n <? zlen v then Ret (zdrop n v :: vl')
        else view_remove_prefix vl' (n - zlen v)
    end
  else Ret vl.

(** ** Invariant *)

(** The offset of a live buffer points into its storage. *)
Definition buffer_ok (b : Buffer) : Prop :=
  match buf_storage b with
  | None => True
  | Some s => 0 <= buf_starting_offset b <= zlen s ∧ zlen s < 2 ^ 64
  end.
Definition list_ok (bl : BufferList) : Prop := Forall buffer_ok bl.

Lemma str_of_string s : str (Buffer_of_string s) = s.
Proof. unfold str; simpl. rewrite zdrop_le_0 by lia. apply ztake_ge. lia. Qed.

Lemma buffer_ok_of_string s : zlen s < 2 ^ 64 -> buffer_ok (Buffer_of_string s).
Proof. unfold buffer_ok. simpl. pose proof (zlen_nonneg s). lia. Qed.

Lemma list_size_concatenate bl : list_size bl = zlen (concatenate bl).
Proof.
  induction bl as [|b bl IH]; simpl; [done|]. rewrite zlen_app, IH. done.
Qed.

Lemma concatenate_app bl1 bl2 : concatenate (bl1 ++ bl2) = concatenate bl1 ++ concatenate bl2.
Proof.
  induction bl1 as [|b bl1 IH]; simpl; [done|]. by rewrite IH, app_assoc.
Qed.

(** [Buffer::remove_prefix] drops the first [n] bytes, or throws when there
    are fewer. *)
Lemma remove_prefix_spec b n :
  buffer_ok b -> 0 <= n <= size b ->
  returns (remove_prefix b n) (λ b', str b' = zdrop n (str b) ∧ buffer_ok b').
Proof.
  intros Hok Hn. unfold remove_prefix, size in *.
  destruct (Z.ltb_spec (zlen (str b)) n); [lia|].
  unfold buffer_ok, str in *. destruct (buf_storage b) as [s|] eqn:Hs.
  - set (o := buf_starting_offset b) in *.
    assert (zlen (ztake (zlen s - o) (zdrop o s)) = zlen s - o) as Hl
      by (rewrite zlen_ztake, zlen_zdrop; lia).
    rewrite Hl in *. rewrite (u64_id (o + n)) by (unfold is_u64; lia).
    rewrite (ztake_ge (zlen s - o)) by (rewrite zlen_zdrop; lia).
    rewrite zdrop_zdrop by lia.
    destruct (Z.eqb_spec (o + n) (zlen s)); apply returns_ret; simpl.
    + rewrite zdrop_ge by lia. done.
    + split; [|lia]. apply ztake_ge. rewrite zlen_zdrop. lia.
  - apply returns_ret. simpl. split; [|done].
    rewrite zlen_nil in *. by rewrite zdrop_le_0 by lia.
Qed.

Lemma remove_prefix_throws b n :
  size b < n -> remove_prefix b n = Throw (out_of_range "Buffer::remove_prefix").
Proof.
  intros. unfold remove_prefix, size in *. by destruct (Z.ltb_spec (zlen (str b)) n); [|lia].
Qed.

(** [BufferList::remove_prefix] drops the first [n] bytes of the
    concatenation. *)
Lemma list_remove_prefix_spec bl n :
  list_ok bl -> n <= list_size bl ->
  returns (list_remove_prefix bl n)
    (λ bl', concatenate bl' = zdrop n (concatenate bl) ∧ list_ok bl').
Proof.
  revert n. induction bl as [|b bl IH]; intros n Hok Hn; simpl in *.
  - destruct (Z.ltb_spec 0 n); [lia|]. apply returns_ret. by rewrite zdrop_nil.
  - inversion_clear Hok as [|? ? Hb Hbl]. unfold size in *.
    destruct (Z.ltb_spec 0 n);
      [|apply returns_ret; rewrite zdrop_le_0 by lia; split; [done|by constructor]].
    destruct (Z.ltb_spec n (zlen (str b))).
    + eapply returns_bind; [apply (remove_prefix_spec b n Hb); unfold size; lia|].
      intros b' [Hs Hb']. apply returns_ret. simpl.
      rewrite zdrop_app_le, Hs by lia. split; [done|by constructor].
    + eapply returns_mono; [apply IH; [done|lia]|]. intros bl' [-> ?].
      by rewrite zdrop_app_ge by lia.
Qed.

Lemma list_remove_prefix_throws bl n :
  list_ok bl -> list_size bl < n -> list_remove_prefix bl n = Throw (out_of_range "BufferList::remove_prefix").
Proof.
  revert n. induction bl as [|b bl IH]; intros n Hok Hn; simpl in *.
  - by destruct (Z.ltb_spec 0 n); [|lia].
  - inversion_clear Hok as [|? ? Hb Hbl]. unfold size in *.
    assert (0 <= list_size bl) by (rewrite list_size_concatenate; apply zlen_nonneg).
    pose proof (zlen_nonneg (str b)).
    destruct (Z.ltb_spec 0 n); [|lia].
    destruct (Z.ltb_spec n (zlen (str b))); [lia|]. apply IH; [done|lia].
Qed.

(** The two classes agree: dropping from a view list is dropping from the
    list it was taken from. *)
Lemma view_remove_prefix_spec vl n :
  n <= view_size vl ->
  returns (view_remove_prefix vl n) (λ vl', concat vl' = zdrop n (concat vl)).
Proof.
  revert n. induction vl as [|v vl IH]; intros n Hn; simpl in *.
  - destruct (Z.ltb_spec 0 n); [lia|]. apply returns_ret. by rewrite zdrop_nil.
  - destruct (Z.ltb_spec 0 n); [|apply returns_ret; by rewrite zdrop_le_0 by lia].
    destruct (Z.ltb_spec n (zlen v)).
    + apply returns_ret. simpl. by rewrite zdrop_app_le by lia.
    + eapply returns_mono; [apply IH; lia|]. intros vl' ->.
      by rewrite zdrop_app_ge by lia.
Qed.

Lemma gathered_iovecs vl : gathered (as_iovecs vl) = concat vl.
Proof. unfold gathered, as_iovecs. induction vl as [|v vl IH]; cbn; [done|]. by rewrite IH, ztake_ge by lia. Qed.
