(* ===== verification/ByteStream.v ===== *)
(** [byte_stream.hh], [byte_stream.cc]: the flow-controlled in-order byte
    stream, its invariant, and its refinement of a bounded FIFO queue. *)
From S2P Require Import Prelude Buffer.

Record ByteStream := mkByteStream {
  bs_buf : BufferList;
  bs_cap : Z;
  bs_total_written : Z;
  bs_total_read : Z;
  bs_input_ended : bool;
  bs_error : bool
}.

Definition new_ByteStream (capacity : Z) : ByteStream :=
  mkByteStream [] capacity 0 0 false false.

Definition remaining_capacity (bs : ByteStream) : Z :=
  if bs_cap bs <? list_size (bs_buf bs) then 0 else bs_cap bs - list_size (bs_buf bs).

(** Returns the stream and the number of bytes accepted. *)
Definition write (bs : ByteStream) (data : list byte) : ByteStream * Z :=
  let len := zlen data in
  let rem_cap := remaining_capacity bs in
  if 0 <? rem_cap then
    let n := if rem_cap <? len then rem_cap else len in
    (mkByteStream (append (bs_buf bs) [Buffer_of_string (ztake n data)]) (bs_cap bs)
       (u64 (bs_total_written bs + n)) (bs_total_read bs) (bs_input_ended bs) (bs_error bs), n)
  else (bs, 0).

Definition buffer_size (bs : ByteStream) : Z := list_size (bs_buf bs).
Definition buffer_empty (bs : ByteStream) : bool := list_size (bs_buf bs) =? 0.

Definition peek_output (bs : ByteStream) (len : Z) : list byte :=
  let buf := concatenate (bs_buf bs) in
  let blen := if len <? buffer_size bs then len else buffer_size bs in
  ztake blen buf.

Definition pop_output (bs : ByteStream) (len : Z) : outcome ByteStream :=
  let size := buffer_size bs in
  let n := if len <? size then len else size in
  buf ← list_remove_prefix (bs_buf bs) n;
  Ret (mkByteStream buf (bs_cap bs) (bs_total_written bs) (u64 (bs_total_read bs + n))
         (bs_input_ended bs) (bs_error bs)).

Definition read (bs : ByteStream) (len : Z) : outcome (ByteStream * list byte) :=
  let read_bytes := peek_output bs len in
  bs' ← pop_output bs len;
  Ret (bs', read_bytes).

Definition end_input (bs : ByteStream) : ByteStream :=
  mkByteStream (bs_buf bs) (bs_cap bs) (bs_total_written bs) (bs_total_read bs) true (bs_error bs).

Definition set_error (bs : ByteStream) : ByteStream :=
  mkByteStream (bs_buf bs) (bs_cap bs) (bs_total_written bs) (bs_total_read bs)
    (bs_input_ended bs) true.

Definition input_ended (bs : ByteStream) : bool := bs_input_ended bs.
Definition error (bs : ByteStream) : bool := bs_error bs.
Definition eof (bs : ByteStream) : bool := input_ended bs && buffer_empty bs.
Definition bytes_written (bs : ByteStream) : Z := bs_total_written bs.
Definition bytes_read (bs : ByteStream) : Z := bs_total_read bs.

(** ** Invariant and the specification of each operation *)

(** The bytes waiting to be read. *)
Definition contents (bs : ByteStream) : list byte := concatenate (bs_buf bs).

Record bs_ok (bs : ByteStream) : Prop := {
  ok_buf : list_ok (bs_buf bs);
  ok_cap : is_u64 (bs_cap bs);
  ok_fits : zlen (contents bs) <= bs_cap bs;
  ok_written : is_u64 (bs_total_written bs);
  ok_read : is_u64 (bs_total_read bs);
  ok_balance : bs_total_written bs = u64 (bs_total_read bs + zlen (contents bs))
}.

Lemma buffer_size_contents bs : buffer_size bs = zlen (contents bs).
Proof. apply list_size_concatenate. Qed.

Lemma buffer_empty_contents bs : buffer_empty bs = true <-> contents bs = [].
Proof.
  unfold buffer_empty. rewrite list_size_concatenate, Z.eqb_eq. fold (contents bs).
  split; [intros; apply zlen_0_nil; lia|by intros ->].
Qed.

Lemma eof_spec bs : eof bs = true <-> bs_input_ended bs = true ∧ contents bs = [].
Proof. unfold eof, input_ended. rewrite andb_true_iff, buffer_empty_contents. done. Qed.

Lemma new_ok capacity : is_u64 capacity -> bs_ok (new_ByteStream capacity).
Proof.
  intros Hc. split; simpl; try done; [constructor|apply Hc].
Qed.

Lemma remaining_capacity_spec bs :
  bs_ok bs -> remaining_capacity bs = bs_cap bs - zlen (contents bs).
Proof.
  intros [_ _ Hf _ _ _]. unfold remaining_capacity. rewrite list_size_concatenate.
  fold (contents bs). by destruct (Z.ltb_spec (bs_cap bs) (zlen (contents bs))); [lia|].
Qed.

(** [write] stores the longest prefix that fits and reports its length. *)
Lemma write_spec bs data bs' n :
  bs_ok bs -> write bs data = (bs', n) ->
  n = Z.min (zlen data) (remaining_capacity bs) ∧
  contents bs' = contents bs ++ ztake n data ∧
  bs_total_written bs' = u64 (bs_total_written bs + n) ∧
  bs_cap bs' = bs_cap bs ∧ bs_total_read bs' = bs_total_read bs ∧
  bs_input_ended bs' = bs_input_ended bs ∧ bs_error bs' = bs_error bs.
Proof.
  intros Hok. pose proof (zlen_nonneg data). pose proof (ok_fits _ Hok).
  pose proof (remaining_capacity_spec _ Hok). unfold write.
  destruct (Z.ltb_spec 0 (remaining_capacity bs)).
  - intros [= <- <-]. split.
    { destruct (Z.ltb_spec (remaining_capacity bs) (zlen data)); lia. }
    unfold contents at 1. simpl. rewrite concatenate_app. simpl.
    rewrite str_of_string, app_nil_r. done.
  - intros [= <- <-]. split; [lia|]. rewrite ztake_le_0, app_nil_r by lia.
    rewrite Z.add_0_r, u64_id by apply Hok. done.
Qed.

Lemma write_ok bs data : bs_ok bs -> bs_ok (write bs data).1.
Proof.
  intros Hok. destruct (write bs data) as [bs' n] eqn:Hw. simpl.
  destruct (write_spec _ _ _ _ Hok Hw) as (Hn & Hc & Ht & Hcap & Hr & _ & _).
  pose proof (remaining_capacity_spec _ Hok) as Hrc.
  destruct Hok as [Hb Hcp Hf Hwr Hrd Hbal].
  pose proof (zlen_nonneg data). pose proof (zlen_nonneg (contents bs)).
  assert (zlen (contents bs') = zlen (contents bs) + n) as Hl
    by (rewrite Hc, zlen_app, zlen_ztake; lia).
  split; rewrite ?Hcap, ?Hr, ?Hl; try done; try lia.
  - unfold write in Hw. destruct (Z.ltb_spec 0 (remaining_capacity bs));
      injection Hw as <- _; [|done].
    simpl. apply Forall_app; split; [done|]. constructor; [|constructor].
    apply buffer_ok_of_string. unfold is_u64 in Hcp.
    destruct (Z.ltb_spec (remaining_capacity bs) (zlen data)); rewrite zlen_ztake; lia.
  - rewrite Ht. auto with uint.
  - rewrite Ht, Hbal. unfold u64. rewrite Zplus_mod_idemp_l. f_equal. lia.
Qed.

(** [pop_output] never throws: it asks for at most what is buffered. *)
Lemma pop_output_spec bs len :
  bs_ok bs -> 0 <= len ->
  returns (pop_output bs len) (λ bs',
    contents bs' = zdrop len (contents bs) ∧
    bs_total_read bs' = u64 (bs_total_read bs + Z.min len (zlen (contents bs))) ∧
    bs_cap bs' = bs_cap bs ∧ bs_total_written bs' = bs_total_written bs ∧
    bs_input_ended bs' = bs_input_ended bs ∧ bs_error bs' = bs_error bs ∧ bs_ok bs').
Proof.
  intros Hok Hlen. unfold pop_output. rewrite buffer_size_contents.
  set (n := if len <? _ then _ else _).
  assert (n = Z.min len (zlen (contents bs))) as Hn
    by (subst n; destruct (Z.ltb_spec len (zlen (contents bs))); lia).
  clearbody n. pose proof (zlen_nonneg (contents bs)).
  eapply returns_bind; [apply list_remove_prefix_spec; [apply Hok|]|].
  { rewrite list_size_concatenate. fold (contents bs). lia. }
  intros buf [Hc Hb]. apply returns_ret. unfold contents at 1. simpl. rewrite Hc.
  fold (contents bs).
  assert (zdrop n (contents bs) = zdrop len (contents bs)) as Hd.
  { destruct (Z.le_gt_cases len (zlen (contents bs))); [f_equal; lia|].
    by rewrite !zdrop_ge by lia. }
  split_and!; try done; [by rewrite Hn|]. destruct Hok as [_ Hcp Hf Hwr Hrd Hbal].
  assert (zlen (zdrop n (contents bs)) = zlen (contents bs) - n) as Hl
    by (rewrite zlen_zdrop; lia).
  split; unfold contents; simpl; rewrite ?Hc; fold (contents bs); rewrite ?Hl; try done; try lia.
  - auto with uint.
  - rewrite Hbal. unfold u64. rewrite Zplus_mod_idemp_l. f_equal. lia.
Qed.

Lemma peek_output_spec bs len : peek_output bs len = ztake len (contents bs).
Proof.
  unfold peek_output. rewrite buffer_size_contents. fold (contents bs).
  destruct (Z.ltb_spec len (zlen (contents bs))); [done|].
  by rewrite !ztake_ge by lia.
Qed.

Lemma read_spec bs len :
  bs_ok bs -> 0 <= len ->
  returns (read bs len) (λ '(bs', s),
    s = ztake len (contents bs) ∧ contents bs' = zdrop len (contents bs) ∧
    bs_total_read bs' = u64 (bs_total_read bs + Z.min len (zlen (contents bs))) ∧
    bs_cap bs' = bs_cap bs ∧ bs_total_written bs' = bs_total_written bs ∧
    bs_input_ended bs' = bs_input_ended bs ∧ bs_error bs' = bs_error bs ∧ bs_ok bs').
Proof.
  intros Hok Hlen. unfold read.
  eapply returns_bind; [by apply pop_output_spec|]. intros bs' H.
  apply returns_ret. by rewrite peek_output_spec.
Qed.

Lemma end_input_ok bs : bs_ok bs -> bs_ok (end_input bs).
Proof. intros []. by split. Qed.
Lemma set_error_ok bs : bs_ok bs -> bs_ok (set_error bs).
Proof. intros []. by split. Qed.

#[export] Hint Resolve new_ok write_ok end_input_ok set_error_ok : core.

(** ** Sequences of operations and the FIFO they implement *)

Inductive bs_op :=
| OpWrite (data : list byte)
| OpPop (len : Z)
| OpRead (len : Z)
| OpEndInput
| OpSetError.

(** One call: the new stream, the bytes accepted and the bytes removed. *)
Definition bs_step (bs : ByteStream) (o : bs_op) : outcome (ByteStream * list byte * list byte) :=
  match o with
  | OpWrite data => let '(bs', n) := write bs data in Ret (bs', ztake n data, [])
  | OpPop len => bs' ← pop_output bs len; Ret (bs', [], peek_output bs len)
  | OpRead len => '(bs', s) ← read bs len; Ret (bs', [], s)
  | OpEndInput => Ret (end_input bs, [], [])
  | OpSetError => Ret (set_error bs, [], [])
  end.

Fixpoint bs_run (bs : ByteStream) (ops : list bs_op) : outcome (ByteStream * list byte * list byte) :=
  match ops with
  | [] => Ret (bs, [], [])
  | o :: ops' =>
      '(bs', w, r) ← bs_step bs o;
      '(bs'', w', r') ← bs_run bs' ops';
      Ret (bs'', w ++ w', r ++ r')
  end.

(** [size_t] arguments are non-negative. *)
Definition op_ok (o : bs_op) : Prop :=
  match o with OpPop len | OpRead len => 0 <= len | _ => True end.

Lemma bs_step_spec bs o :
  bs_ok bs -> op_ok o ->
  returns (bs_step bs o) (λ '(bs', w, r),
    bs_ok bs' ∧ contents bs ++ w = r ++ contents bs' ∧ bs_cap bs' = bs_cap bs ∧
    bs_total_written bs' = u64 (bs_total_written bs + zlen w) ∧
    bs_total_read bs' = u64 (bs_total_read bs + zlen r)).
Proof.
  intros Hok Ho.
  assert (∀ bs', bs_total_written bs' = bs_total_written bs ->
     bs_total_written bs' = u64 (bs_total_written bs + 0)) as HW
    by (intros ? ->; rewrite Z.add_0_r, u64_id; [done|apply Hok]).
  assert (∀ bs', bs_total_read bs' = bs_total_read bs ->
     bs_total_read bs' = u64 (bs_total_read bs + 0)) as HR
    by (intros ? ->; rewrite Z.add_0_r, u64_id; [done|apply Hok]).
  assert (∀ len l, 0 <= len -> Z.min len (zlen l) = zlen (ztake len (l : list byte))) as HL
    by (intros ? l ?; rewrite zlen_ztake; pose proof (zlen_nonneg l); lia).
  destruct o as [data|len|len| |]; simpl in *.
  - destruct (write bs data) as [bs' n] eqn:Hw. apply returns_ret.
    pose proof (write_ok bs data Hok) as Hok'. rewrite Hw in Hok'.
    destruct (write_spec _ _ _ _ Hok Hw) as (Hn & Hc & Ht & Hcap & Hr & _ & _).
    pose proof (remaining_capacity_spec _ Hok). pose proof (ok_fits _ Hok).
    pose proof (zlen_nonneg data).
    split_and!; auto. rewrite Ht, zlen_ztake. do 2 f_equal. lia.
  - eapply returns_bind; [by apply pop_output_spec|].
    intros bs' (Hc & Hr & Hcap & Hw & _ & _ & Hok'). apply returns_ret.
    rewrite peek_output_spec, app_nil_r, Hc, ztake_zdrop.
    split_and!; auto. rewrite Hr, HL by done. done.
  - eapply returns_bind; [by apply read_spec|].
    intros [bs' s] (-> & Hc & Hr & Hcap & Hw & _ & _ & Hok'). apply returns_ret.
    rewrite app_nil_r, Hc, ztake_zdrop. split_and!; auto. rewrite Hr, HL by done. done.
  - apply returns_ret. rewrite app_nil_r. split_and!; auto.
  - apply returns_ret. rewrite app_nil_r. split_and!; auto.
Qed.

Lemma bs_run_spec ops bs :
  bs_ok bs -> Forall op_ok ops ->
  returns (bs_run bs ops) (λ '(bs', w, r),
    bs_ok bs' ∧ contents bs ++ w = r ++ contents bs' ∧ bs_cap bs' = bs_cap bs ∧
    bs_total_written bs' = u64 (bs_total_written bs + zlen w) ∧
    bs_total_read bs' = u64 (bs_total_read bs + zlen r)).
Proof.
  revert bs. induction ops as [|o ops IH]; intros bs Hok Hops; simpl.
  - apply returns_ret. rewrite app_nil_r, !Z.add_0_r, !u64_id by apply Hok. done.
  - inversion_clear Hops as [|? ? Ho Hops']. eapply returns_bind; [by apply bs_step_spec|].
    intros [[bs1 w1] r1] (Hok1 & Hc1 & Hcap1 & Hw1 & Hr1).
    eapply returns_bind; [by apply IH|].
    intros [[bs2 w2] r2] (Hok2 & Hc2 & Hcap2 & Hw2 & Hr2). apply returns_ret.
    split_and!; [done|by rewrite app_assoc, Hc1, <- app_assoc, Hc2, app_assoc|congruence| |];
      rewrite ?Hw2, ?Hr2, ?Hw1, ?Hr1, zlen_app; unfold u64;
      rewrite Zplus_mod_idemp_l; f_equal; lia.
Qed.

(** *** The specification: a bounded queue of bytes *)
Record fifo := mkFifo {
  fifo_queue : list byte;
  fifo_ended : bool;
  fifo_failed : bool
}.

(** A call: the queue after it, the bytes taken in and the bytes handed out. As many
    bytes are taken in as fit, and as many handed out as are asked for and there. *)
Definition fifo_step (cap : Z) (f : fifo) (o : bs_op) : fifo * list byte * list byte :=
  match o with
  | OpWrite data =>
      let w := ztake (cap - zlen (fifo_queue f)) data in (mkFifo (fifo_queue f ++ w) (fifo_ended f) (fifo_failed f), w, [])
  | OpPop len | OpRead len => (mkFifo (zdrop len (fifo_queue f)) (fifo_ended f) (fifo_failed f), [], ztake len (fifo_queue f))
  | OpEndInput => (mkFifo (fifo_queue f) true (fifo_failed f), [], [])
  | OpSetError => (mkFifo (fifo_queue f) (fifo_ended f) true, [], [])
  end.

Fixpoint fifo_run (cap : Z) (f : fifo) (ops : list bs_op) : fifo * list byte * list byte :=
  match ops with
  | [] => (f, [], [])
  | o :: ops' =>
      let '(f, w, r) := fifo_step cap f o in
      let '(f, w', r') := fifo_run cap f ops' in (f, w ++ w', r ++ r')
  end.

Definition fifo_of (bs : ByteStream) : fifo := mkFifo (contents bs) (bs_input_ended bs) (bs_error bs).

Lemma bs_step_refines bs o bs' w r :
  bs_ok bs -> op_ok o -> bs_step bs o = Ret (bs', w, r) -> fifo_step (bs_cap bs) (fifo_of bs) o = (fifo_of bs', w, r).
Proof.
  intros Hok Ho. destruct o as [data|len|len| |]; cbn [bs_step fifo_step fifo_of fifo_queue fifo_ended fifo_failed] in *.
  - destruct (write bs data) as [bs1 n] eqn:Hw. intros [= <- <- <-].
    destruct (write_spec _ _ _ _ Hok Hw) as (Hn & Hc & _ & _ & _ & Hie & Her). rewrite (remaining_capacity_spec _ Hok) in Hn.
    unfold fifo_of. rewrite Hc, Hie, Her.
    enough (ztake (bs_cap bs - zlen (contents bs)) data = ztake n data) as -> by done.
    destruct (Z.le_gt_cases (zlen data) (bs_cap bs - zlen (contents bs))); [by rewrite !ztake_ge by lia|f_equal; lia].
  - intros (bs1 & Hp & [= <- <- <-])%bind_ret_inv. destruct (pop_output_spec bs len Hok Ho) as (bs2 & Hp2 & Hc & _ & _ & _ & Hie & Her & _).
    rewrite Hp in Hp2. injection Hp2 as <-. unfold fifo_of. by rewrite peek_output_spec, Hc, Hie, Her.
  - intros ([bs1 s] & Hp & [= <- <- <-])%bind_ret_inv. destruct (read_spec bs len Hok Ho) as ([bs2 s2] & Hp2 & -> & Hc & _ & _ & _ & Hie & Her & _).
    rewrite Hp in Hp2. injection Hp2 as <- ->. unfold fifo_of. by rewrite Hc, Hie, Her.
  - by intros [= <- <- <-].
  - by intros [= <- <- <-].
Qed.

Lemma bs_run_refines ops bs bs' w r :
  bs_ok bs -> Forall op_ok ops -> bs_run bs ops = Ret (bs', w, r) -> fifo_run (bs_cap bs) (fifo_of bs) ops = (fifo_of bs', w, r).
Proof.
  revert bs w r. induction ops as [|o ops IH]; intros bs w r Hok Hops; cbn [bs_run fifo_run]; [by intros [= <- <- <-]|].
  inversion_clear Hops as [|? ? Ho Hops']. intros ([[bs1 w1] r1] & Hs & Hr)%bind_ret_inv.
  apply bind_ret_inv in Hr as ([[bs2 w2] r2] & Hr & [= <- <- <-]). rewrite (bs_step_refines _ _ _ _ _ Hok Ho Hs).
  destruct (bs_step_spec bs o Hok Ho) as (x & Hs2 & Hx). rewrite Hs in Hs2. injection Hs2 as <-. destruct Hx as (Hok1 & _ & Hcap & _).
  rewrite <- Hcap. by rewrite (IH bs1 w2 r2 Hok1 Hops' Hr).
Qed.

(** C21: A stream built with capacity [cap] implements a bounded FIFO queue under
    every sequence of calls: no call throws, and the calls take in and hand out
    the bytes that the queue of the specification takes in and hands out, a write
    as many as fit; afterwards the stream shows what the queue holds (the next
    bytes, their number, the free room, whether the end is reached and whether an
    error was signalled), what was taken in is what was handed out followed by
    what is buffered, at most [cap] bytes, and the two counters count accepted
    and removed bytes (modulo 2^64). *)
Theorem bytestream_fifo cap ops :
  is_u64 cap -> Forall op_ok ops ->
  ∃ bs accepted removed,
    bs_run (new_ByteStream cap) ops = Ret (bs, accepted, removed) ∧
    let '(f, taken, given) := fifo_run cap (mkFifo [] false false) ops in
    accepted = taken ∧ removed = given ∧ taken = given ++ fifo_queue f ∧
    (∀ len, peek_output bs len = ztake len (fifo_queue f)) ∧
    buffer_size bs = zlen (fifo_queue f) ∧ buffer_size bs <= cap ∧ remaining_capacity bs = cap - zlen (fifo_queue f) ∧
    eof bs = fifo_ended f && bool_decide (fifo_queue f = []) ∧ input_ended bs = fifo_ended f ∧ error bs = fifo_failed f ∧
    bytes_written bs = u64 (zlen accepted) ∧ bytes_read bs = u64 (zlen removed).
Proof.
  intros Hcap Hops.
  destruct (bs_run_spec ops _ (new_ok cap Hcap) Hops)
    as ([[bs w] r] & Hrun & Hok & Hc & Hcap' & Hw & Hr).
  exists bs, w, r. split; [done|]. pose proof (bs_run_refines _ _ _ _ _ (new_ok cap Hcap) Hops Hrun) as Href.
  change (fifo_run cap (mkFifo [] false false) ops = (fifo_of bs, w, r)) in Href. rewrite Href.
  rewrite buffer_size_contents, (remaining_capacity_spec _ Hok), Hcap'.
  pose proof (ok_fits _ Hok). simpl in *. split_and!; try done; try (by intros; apply peek_output_spec); [lia|].
  unfold eof, input_ended. f_equal. apply Bool.eq_iff_eq_true. by rewrite buffer_empty_contents, bool_decide_eq_true.
Qed.

Lemma bytestream_fifo_witness :
  ∃ bs accepted removed,
    bs_run (new_ByteStream 2) [OpWrite [x61; x62; x63]; OpRead 1] = Ret (bs, accepted, removed) ∧
    accepted = [x61; x62] ∧ removed = [x61] ∧ remaining_capacity bs = 1.
Proof.
  destruct (bytestream_fifo 2 [OpWrite [x61; x62; x63]; OpRead 1]) as (bs & w & r & Hrun & Hf).
  - unfold is_u64. lia.
  - repeat constructor; simpl; lia.
  - exists bs, w, r. split; [exact Hrun|]. destruct Hf as (-> & -> & _ & _ & _ & _ & -> & _). split_and!; reflexivity.
Defined.

(** The end of the input does not keep [write] from accepting more, although the
    class says that then no more bytes can be written; a stream that was at its
    end no longer is. *)
Theorem written_after_end :
  eof (end_input (new_ByteStream 2)) = true ∧
  write (end_input (new_ByteStream 2)) [x61] =
    (mkByteStream [Buffer_of_string [x61]] 2 1 0 true false, 1) ∧
  eof (write (end_input (new_ByteStream 2)) [x61]).1 = false.
Proof. split_and!; reflexivity. Qed.
