(* ===== verification/WrappingIntegers.v ===== *)
(** [wrapping_integers.hh], [wrapping_integers.cc]: 32-bit sequence numbers
    and their conversion from and to 64-bit absolute ones. *)
From S2P Require Import Prelude.

Record WrappingInt32 := mkWrap { raw_value : Z }.

#[export] Instance wrapping_eq_dec : EqDecision WrappingInt32.
Proof. solve_decision. Defined.

(** The [uint32_t] inside. *)
Definition wint_ok (a : WrappingInt32) : Prop := is_u32 (raw_value a).

Definition wrap (n : Z) (isn : WrappingInt32) : WrappingInt32 :=
  let isn_64t := raw_value isn in
  let sn_32t := u32 (u64 (isn_64t + n) mod 2 ^ 32) in
  mkWrap sn_32t.

Definition unwrap (n isn : WrappingInt32) (checkpoint : Z) : Z :=
  let re_sq := u32 (raw_value n - raw_value isn) in
  let MAX32_T := 2 ^ 32 in
  let HALF_MAX32_T := 2 ^ 31 in
  let k := checkpoint / MAX32_T in
  if checkpoint <=? re_sq then re_sq
  else if u64 (checkpoint + HALF_MAX32_T) <? u64 (re_sq + u64 (MAX32_T * k)) then
    u64 (re_sq + u64 (MAX32_T * u64 (k - 1)))
  else if u64 (u64 (re_sq + u64 (MAX32_T * k)) + HALF_MAX32_T) <? checkpoint then
    u64 (re_sq + u64 (MAX32_T * u64 (k + 1)))
  else u64 (re_sq + u64 (MAX32_T * k)).

(** [operator-] on two wrapping integers: the signed 32-bit offset. *)
Definition wint_sub (a b : WrappingInt32) : Z := i32 (u32 (raw_value a - raw_value b)).
Definition wint_eqb (a b : WrappingInt32) : bool := raw_value a =? raw_value b.
Definition wint_neqb (a b : WrappingInt32) : bool := negb (wint_eqb a b).
Definition wint_add (a : WrappingInt32) (b : Z) : WrappingInt32 :=
  mkWrap (u32 (raw_value a + b)).
Definition wint_sub_u32 (a : WrappingInt32) (b : Z) : WrappingInt32 :=
  wint_add a (u32 (- b)).

Lemma wrap_ok n isn : wint_ok (wrap n isn).
Proof. unfold wint_ok, wrap. simpl. auto with uint. Qed.
#[export] Hint Resolve wrap_ok : core.

Lemma wrap_value n isn : raw_value (wrap n isn) = u32 (raw_value isn + n).
Proof. unfold wrap. simpl. uint_lia. Qed.

Lemma wint_ext a b : raw_value a = raw_value b -> a = b.
Proof. destruct a, b. simpl. by intros ->. Qed.

(** The absolute number [unwrap] returns, when no intermediate sum leaves
    64 bits: the representative of the residue nearest the checkpoint. *)
Lemma unwrap_cases n isn checkpoint :
  0 <= checkpoint < 2 ^ 64 - 2 ^ 33 ->
  let m := unwrap n isn checkpoint in
  let re_sq := u32 (raw_value n - raw_value isn) in
  0 <= m ∧ m mod 2 ^ 32 = re_sq ∧
  (checkpoint - 2 ^ 31 <= m <= checkpoint + 2 ^ 31 ∨ m = re_sq ∧ checkpoint <= re_sq).
Proof.
  intros Hc m re. subst m. unfold unwrap. fold re.
  pose proof (u32_range (raw_value n - raw_value isn)) as Hre. fold re in Hre.
  clearbody re. unfold is_u32 in Hre.
  assert (checkpoint = 2 ^ 32 * (checkpoint / 2 ^ 32) + checkpoint mod 2 ^ 32) as Hk
    by (apply Z.div_mod; lia).
  pose proof (Z.mod_pos_bound checkpoint (2 ^ 32) ltac:(lia)) as Hm.
  set (k := checkpoint / 2 ^ 32) in *. set (r := checkpoint mod 2 ^ 32) in *.
  clearbody k r.
  assert (∀ j, (re + 2 ^ 32 * j) mod 2 ^ 32 = re) as Hmod.
  { intros j. rewrite Z.mul_comm, Z_mod_plus_full. apply Z.mod_small. lia. }
  destruct (Z.leb_spec checkpoint re).
  { split_and!; [lia|by apply Z.mod_small|lia]. }
  rewrite (u64_id (2 ^ 32 * k)) by (unfold is_u64; lia).
  rewrite (u64_id (re + 2 ^ 32 * k)) by (unfold is_u64; lia).
  rewrite (u64_id (checkpoint + 2 ^ 31)) by (unfold is_u64; lia).
  rewrite (u64_id (re + 2 ^ 32 * k + 2 ^ 31)) by (unfold is_u64; lia).
  destruct (Z.ltb_spec (checkpoint + 2 ^ 31) (re + 2 ^ 32 * k)).
  { rewrite (u64_id (k - 1)), (u64_id (2 ^ 32 * (k - 1))), u64_id by (unfold is_u64; lia).
    rewrite Hmod. lia. }
  destruct (Z.ltb_spec (re + 2 ^ 32 * k + 2 ^ 31) checkpoint).
  { rewrite (u64_id (k + 1)), (u64_id (2 ^ 32 * (k + 1))), u64_id by (unfold is_u64; lia).
    rewrite Hmod. lia. }
  rewrite Hmod. lia.
Qed.

(** Two absolute numbers with the same residue that are less than 2^32 apart
    are equal. *)
Lemma same_residue a b :
  a mod 2 ^ 32 = b mod 2 ^ 32 -> -2 ^ 32 < a - b < 2 ^ 32 -> a = b.
Proof. intros. uint_lia. Qed.

(** C20: [unwrap] returns an absolute sequence number that wraps to the given
    relative one, and no other non-negative absolute number with that property
    is closer to the checkpoint. *)
Theorem unwrap_closest n isn checkpoint :
  wint_ok n -> wint_ok isn -> 0 <= checkpoint < 2 ^ 64 - 2 ^ 33 ->
  wrap (unwrap n isn checkpoint) isn = n ∧
  ∀ m, 0 <= m -> wrap m isn = n ->
    Z.abs (unwrap n isn checkpoint - checkpoint) <= Z.abs (m - checkpoint).
Proof.
  intros Hn Hi Hc. destruct (unwrap_cases n isn checkpoint Hc) as (H0 & Hr & Hnear).
  set (a := unwrap n isn checkpoint) in *. clearbody a. unfold wint_ok in *. split.
  - apply wint_ext. rewrite wrap_value. uint_lia.
  - intros m Hm0 Hm. apply (f_equal raw_value) in Hm. rewrite wrap_value in Hm.
    destruct n as [n], isn as [i]; simpl in *.
    assert (m mod 2 ^ 32 = a mod 2 ^ 32) as Heq by uint_lia.
    destruct (Z.le_gt_cases (Z.abs (a - checkpoint)) (Z.abs (m - checkpoint))); [done|].
    assert (m = a) as ->; [|lia].
    destruct Hnear as [?|[-> ?]]; [apply same_residue; [done|lia]|].
    unfold is_u32, u32 in *.
    pose proof (Z.mod_pos_bound (n - i) (2 ^ 32) ltac:(lia)).
    apply same_residue; [done|lia].
Qed.

Lemma unwrap_closest_witness :
  wrap (unwrap (mkWrap 3) (mkWrap 4294967295) (2 ^ 33)) (mkWrap 4294967295) = mkWrap 3 ∧
  ∀ m, 0 <= m -> wrap m (mkWrap 4294967295) = mkWrap 3 ->
    Z.abs (unwrap (mkWrap 3) (mkWrap 4294967295) (2 ^ 33) - 2 ^ 33) <= Z.abs (m - 2 ^ 33).
Proof.
  apply (unwrap_closest (mkWrap 3) (mkWrap 4294967295) (2 ^ 33));
    unfold wint_ok, is_u32; simpl; lia.
Defined.

(** Round trip: an absolute number within 2^31 of the checkpoint is
    recovered from its wrapped form. *)
Theorem unwrap_wrap n isn checkpoint :
  0 <= n < 2 ^ 64 -> 0 <= checkpoint < 2 ^ 64 - 2 ^ 33 ->
  -2 ^ 31 < n - checkpoint < 2 ^ 31 ->
  unwrap (wrap n isn) isn checkpoint = n.
Proof.
  intros Hn Hc Hd. destruct (unwrap_cases (wrap n isn) isn checkpoint Hc) as (H0 & Hr & Hnear).
  rewrite wrap_value in Hr, Hnear. set (a := unwrap _ isn checkpoint) in *. clearbody a.
  assert (u32 (u32 (raw_value isn + n) - raw_value isn) = n mod 2 ^ 32) as Hs by uint_lia.
  rewrite Hs in *. apply same_residue.
  - rewrite Hr. done.
  - pose proof (Z.mod_pos_bound n (2 ^ 32) ltac:(lia)).
    destruct Hnear as [?|[-> ?]]; [lia|].
    assert (n mod 2 ^ 32 <= n) by (apply Z.mod_le; lia). uint_lia.
Qed.

Lemma unwrap_wrap_witness : unwrap (wrap (2 ^ 33 + 5) (mkWrap 7)) (mkWrap 7) (2 ^ 33) = 2 ^ 33 + 5.
Proof. apply (unwrap_wrap (2 ^ 33 + 5) (mkWrap 7) (2 ^ 33)); lia. Defined.

Lemma wint_add_wrap n k isn :
  wint_add (wrap n isn) k = wrap (n + k) isn.
Proof. apply wint_ext. rewrite wrap_value. unfold wint_add. simpl. uint_lia. Qed.

Lemma wint_sub_add a b : is_u32 b -> wint_ok a -> wint_sub_u32 (wint_add a b) b = a.
Proof.
  unfold wint_ok. intros. apply wint_ext. unfold wint_sub_u32, wint_add. simpl. uint_lia.
Qed.

Lemma wint_sub_offset a d :
  wint_ok a -> -2 ^ 31 <= d < 2 ^ 31 -> wint_sub (wint_add a d) a = d.
Proof. unfold wint_ok, wint_sub, wint_add. simpl. intros. uint_lia. Qed.
