(* ===== verification/StreamReassembler.v ===== *)
(** [stream_reassembler.hh], [stream_reassembler.cc]: reassembly of an
    in-order byte stream from substrings that arrive in any order.

    [merge] is the loop of the source with its local variables as a record;
    the iterators it queues for deletion are the entries they point to. *)
From S2P Require Import Prelude StdMap Buffer ByteStream.

Record StreamReassembler := mkSR {
  sr_output : ByteStream;
  sr_capacity : Z;
  sr_unassembled_bytes : Z;
  sr_expected_index : Z;
  sr_buf : list (Z * list byte);
  sr_input_ended : bool
}.

Definition new_StreamReassembler (capacity : Z) : StreamReassembler :=
  mkSR (new_ByteStream capacity) capacity 0 0 [] false.

Definition unassembled_bytes (r : StreamReassembler) : Z := sr_unassembled_bytes r.
Definition empty (r : StreamReassembler) : bool := sr_unassembled_bytes r =? 0.

Definition merge_string (str1 : list byte) (ind1 : Z) (str2 : list byte) (ind2 : Z) : outcome (list byte) :=
  if (ind1 <? ind2) && (u64 (ind1 + zlen str1) <? ind2) then Ret []
  else if (ind2 <? ind1) && (u64 (ind2 + zlen str2) <? ind1) then Ret []
  else if ind1 <=? ind2 then
    let overlapped := u64 (ind1 + zlen str1 - ind2) in
    if overlapped <? zlen str2 then
      t ← substr str2 overlapped (u64 (zlen str2 - overlapped)); Ret (str1 ++ t)
    else Ret str1
  else
    let overlapped := u64 (ind2 + zlen str2 - ind1) in
    if overlapped <? zlen str1 then
      t ← substr str1 overlapped (u64 (zlen str1 - overlapped)); Ret (str2 ++ t)
    else Ret str2.

(** The locals of [merge]: [_first], [_index] (uninitialised until [_first]),
    [s], [_to_be_deleted] and [it_prev] (uninitialised until the first
    iteration completes). *)
Record merge_locals := mkML {
  ml_first : bool;
  ml_index : option Z;
  ml_s : list byte;
  ml_to_be_deleted : list (Z * list byte);
  ml_prev : option (Z * list byte)
}.

(** Body of the [if] that finds an overlapping or adjacent element. *)
Definition merge_hit (data : list byte) (index : Z) (k : Z) (v : list byte) (st : merge_locals) : outcome merge_locals :=
  st1 ← (if negb (ml_first st) then
           if index <? k then
             Ret (mkML true (Some index) (ml_s st) (ml_to_be_deleted st) (ml_prev st))
           else
             s ← merge_string v k data index;
             Ret (mkML true (Some k) s (ml_to_be_deleted st) (ml_prev st))
         else Ret st);
  Ret (mkML (ml_first st1) (ml_index st1) (ml_s st1)
         (ml_to_be_deleted st1 ++ [(k, v)]) (ml_prev st1)).

Fixpoint merge_scan (data : list byte) (index : Z) (l : list (Z * list byte)) (st : merge_locals) : outcome merge_locals :=
  match l with
  | [] => Ret st
  | (k, v) :: l' =>
      st' ← (if (index <=? u64 (k + zlen v)) && (k <=? u64 (index + zlen data))
             then merge_hit data index k v st else Ret st);
      if u64 (index + zlen data) <? k then Ret st'
      else merge_scan data index l'
             (mkML (ml_first st') (ml_index st') (ml_s st') (ml_to_be_deleted st') (Some (k, v)))
  end.

Definition total_len (l : list (Z * list byte)) : Z := foldr (λ p acc, zlen p.2 + acc) 0 l.

Definition merge (r : StreamReassembler) (data : list byte) (index : Z) : outcome StreamReassembler :=
  st ← merge_scan data index (sr_buf r) (mkML false None [] [] None);
  s ← (if ml_first st then
         match ml_prev st with
         | None => Undef
         | Some (pk, pv) =>
             if zlen (ml_s st) =? 0 then merge_string data index pv pk
             else match ml_index st with
                  | None => Undef
                  | Some _index => merge_string (ml_s st) _index pv pk
                  end
         end
       else Ret (ml_s st));
  match ml_to_be_deleted st with
  | _ :: _ =>
      match ml_index st with
      | None => Undef
      | Some _index =>
          let tot := total_len (ml_to_be_deleted st) in
          let buf := foldl (λ m p, erase p.1 m) (sr_buf r) (ml_to_be_deleted st) in
          Ret (mkSR (sr_output r) (sr_capacity r)
                 (u64 (sr_unassembled_bytes r - u64 (tot - zlen s))) (sr_expected_index r)
                 (insert _index s buf) (sr_input_ended r))
      end
  | [] =>
      Ret (mkSR (sr_output r) (sr_capacity r)
             (u64 (sr_unassembled_bytes r + zlen data)) (sr_expected_index r)
             (insert index data (sr_buf r)) (sr_input_ended r))
  end.

(** The branch for a head element longer than the remaining capacity erases
    the element and then reads [it->second] through the erased iterator. *)
Definition reorder_buffer (r : StreamReassembler) : outcome StreamReassembler :=
  match sr_buf r with
  | [] => Ret r
  | (k, v) :: _ =>
      let bs_rem_cap := remaining_capacity (sr_output r) in
      if (k =? sr_expected_index r) && (0 <? bs_rem_cap) then
        if bs_rem_cap <? zlen v then Undef
        else
          Ret (mkSR (write (sr_output r) v).1 (sr_capacity r)
                 (u64 (sr_unassembled_bytes r - zlen v))
                 (u64 (sr_expected_index r + zlen v))
                 (erase k (sr_buf r)) (sr_input_ended r))
      else Ret r
  end.

(** Returns the clipped data, its index, the eof flag and [verified]. *)
Definition validate (r : StreamReassembler) (data : list byte) (index : Z) (eof : bool)
    : outcome (list byte * Z * bool * bool) :=
  let expected := sr_expected_index r in
  let upper := u64 (expected + remaining_capacity (sr_output r)) in
  let len := zlen data in
  if remaining_capacity (sr_output r) =? 0 then Ret ([], 0, eof, true)
  else if len =? 0 then Ret ([], 0, eof, true)
  else if upper <=? index then Ret ([], 0, false, false)
  else if u64 (index + len) <=? expected then Ret ([], 0, false, false)
  else
    let '(mod_index, len', mod_data_s, eof') :=
      if index <=? expected then
        if upper <? u64 (index + len) then
          (expected, u64 (upper - expected), u64 (expected - index), false)
        else (expected, u64 (len + index - expected), u64 (expected - index), eof)
      else
        if upper <? u64 (index + len) then (index, u64 (upper - index), 0, false)
        else (index, len, 0, eof) in
    mod_data ← substr data mod_data_s len';
    Ret (mod_data, mod_index, eof', true).

(** The end of [push_substring]: record the eof flag, and end the output once
    nothing is left to assemble. *)
Definition push_finish (r1 : StreamReassembler) (eof' : bool) : StreamReassembler :=
  let r2 := if eof' then mkSR (sr_output r1) (sr_capacity r1) (sr_unassembled_bytes r1)
                           (sr_expected_index r1) (sr_buf r1) true
            else r1 in
  if sr_input_ended r2 && empty r2 then
    mkSR (end_input (sr_output r2)) (sr_capacity r2) (sr_unassembled_bytes r2)
      (sr_expected_index r2) (sr_buf r2) (sr_input_ended r2)
  else r2.

Definition push_substring (r : StreamReassembler) (data : list byte) (index : Z) (eof : bool)
    : outcome StreamReassembler :=
  '(mdata, mindex, eof', verified) ← validate r data index eof;
  if negb verified then Ret r
  else
    r1 ← (if negb (zlen mdata =? 0) then r0 ← merge r mdata mindex; reorder_buffer r0 else Ret r);
    Ret (push_finish r1 eof').

(** The owner's access to the stream through [stream_out()]. *)
Definition with_output (r : StreamReassembler) (bs : ByteStream) : StreamReassembler :=
  mkSR bs (sr_capacity r) (sr_unassembled_bytes r) (sr_expected_index r) (sr_buf r) (sr_input_ended r).

(** ** Provenance of the bytes

    What the reassembler needs of a property "string [s] may stand at index
    [i]" to preserve it: closure under substrings and under joining adjacent
    strings. *)
Class Provenance (ok : Z -> list byte -> Prop) := {
  prov_sub i s m n :
    ok i s -> 0 <= m -> 0 <= n -> m + n <= zlen s -> ok (i + m) (ztake n (zdrop m s));
  prov_join i s t : ok i s -> ok (i + zlen s) t -> ok i (s ++ t)
}.

(** No requirement on the bytes. *)
Definition any_bytes (_ : Z) (_ : list byte) : Prop := True.
#[export] Instance any_bytes_prov : Provenance any_bytes.
Proof. by split. Qed.

(** The bytes are those of the stream [S] at that index. *)
Definition slice_of (S : list byte) (i : Z) (s : list byte) : Prop :=
  0 <= i ∧ i + zlen s <= zlen S ∧ s = slice S i (i + zlen s).
#[export] Instance slice_of_prov S : Provenance (slice_of S).
Proof.
  split.
  - intros i s m n (Hi & Hle & Hs) Hm Hn Hmn.
    assert (zlen (ztake n (zdrop m s)) = n) as Hl by zlen_lia. unfold slice_of.
    split_and!; [lia|lia|]. rewrite Hl, Hs, zdrop_slice, ztake_slice by lia. done.
  - intros i s t (Hi & Hle & Hs) (_ & Hle' & Ht). unfold slice_of. rewrite zlen_app.
    split_and!; [done|lia|]. rewrite (slice_app S i (i + zlen s)) by zlen_lia.
    rewrite <- Hs. f_equal. rewrite Ht at 1. f_equal. lia.
Qed.

Lemma slice_of_slice S a b : 0 <= a <= b -> b <= zlen S -> slice_of S a (slice S a b).
Proof.
  intros. unfold slice_of. rewrite zlen_slice by lia. split_and!; [lia|lia|].
  f_equal. lia.
Qed.

(** ** The stored segments *)

Definition seg_end (p : Z * list byte) : Z := p.1 + zlen p.2.

(** [segs ok lo hi l]: non-empty segments in increasing order, no two
    overlapping or adjacent, the first one starting after [lo], the last one
    ending by [hi], each satisfying [ok]. *)
Fixpoint segs (ok : Z -> list byte -> Prop) (lo hi : Z) (l : list (Z * list byte)) : Prop :=
  match l with
  | [] => True
  | p :: l' => lo < p.1 ∧ 0 < zlen p.2 ∧ ok p.1 p.2 ∧ seg_end p <= hi ∧ segs ok (seg_end p) hi l'
  end.

(** The end of the last segment, or [lo]. *)
Fixpoint last_end (lo : Z) (l : list (Z * list byte)) : Z :=
  match l with
  | [] => lo
  | p :: l' => last_end (seg_end p) l'
  end.

Definition covers (l : list (Z * list byte)) (i : Z) : Prop :=
  Exists (λ p, p.1 <= i < seg_end p) l.

Lemma last_end_app lo l1 l2 : last_end lo (l1 ++ l2) = last_end (last_end lo l1) l2.
Proof. revert lo. induction l1 as [|p l1 IH]; intros lo; simpl; [done|apply IH]. Qed.

Lemma total_len_app l1 l2 : total_len (l1 ++ l2) = total_len l1 + total_len l2.
Proof. induction l1 as [|p l1 IH]; simpl in *; [lia|]. rewrite IH. lia. Qed.

Lemma covers_app l1 l2 i : covers (l1 ++ l2) i <-> covers l1 i ∨ covers l2 i.
Proof. apply Exists_app. Qed.
Lemma covers_cons p l i : covers (p :: l) i <-> p.1 <= i < seg_end p ∨ covers l i.
Proof. apply Exists_cons. Qed.

Section segs.
Context (ok : Z -> list byte -> Prop).

Lemma segs_app lo hi l1 l2 :
  segs ok lo hi (l1 ++ l2) <-> segs ok lo hi l1 ∧ segs ok (last_end lo l1) hi l2.
Proof.
  revert lo. induction l1 as [|p l1 IH]; intros lo; simpl; [tauto|]. rewrite IH. tauto.
Qed.

Lemma segs_lo lo lo' hi l : lo' <= lo -> segs ok lo hi l -> segs ok lo' hi l.
Proof. destruct l; simpl; [done|]. intros ? (? & ?). split; [lia|done]. Qed.

Lemma segs_hi lo hi hi' l : hi <= hi' -> segs ok lo hi l -> segs ok lo hi' l.
Proof.
  intros Hh. revert lo. induction l as [|p l IH]; intros lo; simpl; [done|].
  intros (? & ? & ? & ? & ?). split_and!; auto. lia.
Qed.

Lemma segs_last_end lo hi l : segs ok lo hi l -> lo <= last_end lo l ∧ (l ≠ [] -> last_end lo l <= hi).
Proof.
  revert lo. induction l as [|p l IH]; intros lo; simpl; [split; [lia|done]|].
  intros (Hlo & Hlen & _ & Hhi & Hl). destruct (IH _ Hl) as [H1 H2]. unfold seg_end in *.
  split; [lia|]. intros _. destruct l; simpl in *; [lia|]. by apply H2.
Qed.

Lemma segs_in lo hi l p :
  segs ok lo hi l -> p ∈ l -> lo < p.1 ∧ 0 < zlen p.2 ∧ seg_end p <= last_end lo l.
Proof.
  revert lo. induction l as [|q l IH]; intros lo; simpl; [by intros _ ?%not_elem_of_nil|].
  intros (Hlo & Hlen & _ & Hhi & Hl). destruct (segs_last_end _ _ _ Hl) as [Hle _].
  unfold seg_end in *.
  intros [->|Hin]%elem_of_cons; [by split_and!|].
  destruct (IH _ Hl Hin) as (? & ? & ?). split_and!; [lia|done|done].
Qed.

Lemma segs_covers_range lo hi l i : segs ok lo hi l -> covers l i -> lo < i < last_end lo l.
Proof.
  intros Hs (p & Hin & Hi)%Exists_exists.
  destruct (segs_in _ _ _ _ Hs Hin) as (? & ? & ?). lia.
Qed.

Lemma segs_total lo hi l : segs ok lo hi l -> 0 <= total_len l <= last_end lo l - lo.
Proof.
  revert lo. induction l as [|p l IH]; intros lo; simpl; [lia|].
  intros (Hlo & Hlen & _ & Hhi & Hl). specialize (IH _ Hl). unfold seg_end in *. lia.
Qed.

Lemma segs_keys_lt lo hi l k :
  segs ok lo hi l -> last_end lo l <= k -> keys_lt k l.
Proof.
  intros Hs Hk. apply Forall_forall. intros p Hin.
  destruct (segs_in _ _ _ _ Hs Hin) as (? & ? & ?). unfold seg_end in *. lia.
Qed.

Lemma segs_keys_gt lo hi l : segs ok lo hi l -> keys_gt lo l.
Proof.
  intros Hs. apply Forall_forall. intros p Hin.
  by destruct (segs_in _ _ _ _ Hs Hin) as (? & ? & ?).
Qed.

(** The segments before, touching and after the interval [a, b]. *)
Lemma segs_split lo hi l a b :
  a <= b -> segs ok lo hi l ->
  ∃ pre mid post, l = pre ++ mid ++ post ∧
    Forall (λ p, seg_end p < a) pre ∧
    Forall (λ p, a <= seg_end p ∧ p.1 <= b) mid ∧
    match post with [] => True | p :: _ => b < p.1 end.
Proof.
  intros Hab. revert lo. induction l as [|p l IH]; intros lo; simpl.
  { intros _. by exists [], [], []. }
  intros (Hlo & Hlen & _ & Hhi & Hl). destruct (IH _ Hl) as (pre & mid & post & -> & H1 & H2 & H3).
  unfold seg_end in *. destruct (Z.lt_ge_cases (p.1 + zlen p.2) a).
  { exists (p :: pre), mid, post. split_and!; auto. }
  assert (pre = []) as ->.
  { destruct pre as [|q pre]; [done|]. exfalso. inversion_clear H1. simpl in Hl. lia. }
  destruct (Z.le_gt_cases p.1 b).
  { exists [], (p :: mid), post. split_and!; auto. }
  assert (mid = []) as ->.
  { destruct mid as [|q mid]; [done|]. exfalso. inversion_clear H2. simpl in Hl. lia. }
  by exists [], [], (p :: post).
Qed.
End segs.

(** ** [merge_string] *)

Section with_prov.
Context (ok : Z -> list byte -> Prop) `{!Provenance ok}.

(** Two strings that overlap or touch are merged into one that spans
    both. *)
Lemma merge_string_spec s i t j :
  ok i s -> ok j t -> 0 <= i -> 0 <= j ->
  i <= j + zlen t -> j <= i + zlen s -> i + zlen s < 2 ^ 64 -> j + zlen t < 2 ^ 64 ->
  returns (merge_string s i t j) (λ u,
    ok (Z.min i j) u ∧ zlen u = Z.max (i + zlen s) (j + zlen t) - Z.min i j).
Proof.
  intros Hs Ht Hi Hj Hij Hji Hs64 Ht64. pose proof (zlen_nonneg s). pose proof (zlen_nonneg t).
  unfold merge_string.
  rewrite (u64_id (i + zlen s)), (u64_id (j + zlen t)) by (unfold is_u64; lia).
  destruct (Z.ltb_spec (i + zlen s) j), (Z.ltb_spec (j + zlen t) i); try lia.
  rewrite !andb_false_r. destruct (Z.leb_spec i j).
  - rewrite (u64_id (i + zlen s - j)) by (unfold is_u64; lia).
    set (o := i + zlen s - j). destruct (Z.ltb_spec o (zlen t)).
    + rewrite u64_id, substr_ret by (unfold is_u64; lia). apply returns_ret.
      split; [|zlen_lia]. replace (Z.min i j) with i by lia. apply prov_join; [done|].
      replace (i + zlen s) with (j + o) by lia. apply prov_sub; [done|lia..].
    + apply returns_ret. replace (Z.min i j) with i by lia. split; [done|lia].
  - rewrite (u64_id (j + zlen t - i)) by (unfold is_u64; lia).
    set (o := j + zlen t - i). destruct (Z.ltb_spec o (zlen s)).
    + rewrite u64_id, substr_ret by (unfold is_u64; lia). apply returns_ret.
      split; [|zlen_lia]. replace (Z.min i j) with j by lia. apply prov_join; [done|].
      replace (j + zlen t) with (i + o) by lia. apply prov_sub; [done|lia..].
    + apply returns_ret. replace (Z.min i j) with j by lia. split; [done|lia].
Qed.
End with_prov.

(** ** The loop of [merge] *)

Definition seg_u64 (p : Z * list byte) : Prop := 0 <= p.1 ∧ seg_end p < 2 ^ 64.

Lemma seg_u64_end p : seg_u64 p -> u64 (p.1 + zlen p.2) = seg_end p.
Proof.
  intros [H1 H2]. unfold seg_end in *. apply u64_id. unfold is_u64.
  pose proof (zlen_nonneg p.2). lia.
Qed.

Section merge_loop.
Context (data : list byte) (a b : Z).
Hypothesis (Hb : b = a + zlen data) (Ha : 0 <= a) (Hb64 : b < 2 ^ 64).

Lemma merge_u64_b : u64 (a + zlen data) = b.
Proof. rewrite <- Hb. apply u64_id. unfold is_u64. pose proof (zlen_nonneg data). lia. Qed.

(** Segments wholly before the data are stepped over. *)
Lemma merge_scan_before pre l f ix s d pv :
  Forall seg_u64 pre -> Forall (λ p, seg_end p < a) pre ->
  ∃ pv', merge_scan data a (pre ++ l) (mkML f ix s d pv) = merge_scan data a l (mkML f ix s d pv').
Proof.
  revert pv. induction pre as [|[k v] pre IH]; intros pv H64 Hpre; [by exists pv|].
  inversion_clear H64 as [|? ? Hk H64']. inversion_clear Hpre as [|? ? Hlt Hpre'].
  simpl. pose proof (seg_u64_end _ Hk) as He. simpl in He. rewrite He, merge_u64_b.
  unfold seg_end in *. simpl in *. pose proof (zlen_nonneg v). pose proof (zlen_nonneg data).
  destruct (Z.leb_spec a (k + zlen v)); [lia|]. simpl.
  destruct (Z.ltb_spec b k); [lia|]. by apply IH.
Qed.

(** Once [_first] is set, the touching segments are only queued. *)
Lemma merge_scan_touching mid post ix s d pv :
  Forall seg_u64 mid -> Forall (λ p, a <= seg_end p ∧ p.1 <= b) mid ->
  match post with [] => True | p :: _ => b < p.1 end ->
  merge_scan data a (mid ++ post) (mkML true ix s d pv) =
    Ret (mkML true ix s (d ++ mid) (from_option Some pv (last mid))).
Proof.
  intros H64 Hmid Hpost. revert d pv H64 Hmid.
  induction mid as [|[k v] mid IH]; intros d pv H64 Hmid; rewrite ?last_cons; simpl.
  - rewrite app_nil_r. destruct post as [|[k v] post]; simpl; [done|].
    rewrite merge_u64_b. simpl in Hpost. destruct (Z.leb_spec k b); [lia|].
    rewrite andb_false_r. simpl. by destruct (Z.ltb_spec b k); [|lia].
  - inversion_clear H64 as [|? ? Hk H64']. inversion_clear Hmid as [|? ? [Hk1 Hk2] Hmid'].
    pose proof (seg_u64_end _ Hk) as He. unfold seg_end in *. simpl in *.
    rewrite He, merge_u64_b.
    destruct (Z.leb_spec a (k + zlen v)), (Z.leb_spec k b); try lia. simpl.
    destruct (Z.ltb_spec b k); [lia|]. rewrite IH by done. rewrite <- app_assoc. simpl.
    by destruct (last mid).
Qed.

Lemma merge_scan_none pre post :
  Forall seg_u64 pre -> Forall (λ p, seg_end p < a) pre ->
  match post with [] => True | p :: _ => b < p.1 end ->
  ∃ pv, merge_scan data a (pre ++ post) (mkML false None [] [] None) = Ret (mkML false None [] [] pv).
Proof.
  intros H64 Hpre Hpost.
  destruct (merge_scan_before pre post false None [] [] None H64 Hpre) as [pv ->].
  exists pv. destruct post as [|[k v] post]; simpl; [done|].
  rewrite merge_u64_b. simpl in Hpost. destruct (Z.leb_spec k b); [lia|].
  rewrite andb_false_r. simpl. by destruct (Z.ltb_spec b k); [|lia].
Qed.

(** The state of the locals when the loop stops after touching segments. *)
Lemma merge_scan_some pre k v mid post pl :
  Forall seg_u64 (pre ++ (k, v) :: mid) -> Forall (λ p, seg_end p < a) pre ->
  Forall (λ p, a <= seg_end p ∧ p.1 <= b) ((k, v) :: mid) ->
  match post with [] => True | p :: _ => b < p.1 end ->
  last ((k, v) :: mid) = Some pl ->
  merge_scan data a (pre ++ ((k, v) :: mid) ++ post) (mkML false None [] [] None) =
    (s ← (if a <? k then Ret [] else merge_string v k data a);
     Ret (mkML true (Some (Z.min a k)) s ((k, v) :: mid) (Some pl))).
Proof.
  intros H64 Hpre Hmid Hpost Hlast. apply Forall_app in H64 as [H64 H64'].
  destruct (merge_scan_before pre (((k, v) :: mid) ++ post) false None [] [] None H64 Hpre) as [pv ->].
  inversion_clear H64' as [|? ? Hk H64m]. inversion_clear Hmid as [|? ? [Hk1 Hk2] Hmid'].
  pose proof (seg_u64_end _ Hk) as He. unfold seg_end in *. simpl in *.
  rewrite He, merge_u64_b.
  destruct (Z.leb_spec a (k + zlen v)), (Z.leb_spec k b); try lia. simpl.
  assert (from_option Some (Some (k, v)) (last mid) = Some pl) as Hl.
  { rewrite last_cons in Hlast. by destruct (last mid). }
  unfold merge_hit. simpl. destruct (Z.ltb_spec a k); simpl.
  - destruct (Z.ltb_spec b k); [lia|].
    rewrite merge_scan_touching, Hl by done. simpl. do 3 f_equal. lia.
  - destruct (merge_string v k data a) as [s| | |]; simpl; try done.
    destruct (Z.ltb_spec b k); [lia|].
    rewrite merge_scan_touching, Hl by done. simpl. do 3 f_equal. lia.
Qed.
End merge_loop.

(** Erasing the queued iterators one by one removes the touching block. *)
Lemma erase_block ok lo hi pre mid post :
  segs ok lo hi (pre ++ mid ++ post) ->
  foldl (λ m p, erase p.1 m) (pre ++ mid ++ post) mid = pre ++ post.
Proof.
  revert pre. induction mid as [|[k v] mid IH]; intros pre Hs; simpl; [done|].
  pose proof Hs as Hs'. apply segs_app in Hs as [Hpre Hmid]. simpl in Hmid.
  destruct Hmid as (Hlo & Hlen & _ & Hhi & Hrest). unfold seg_end in *. simpl in *.
  rewrite erase_between by (eapply segs_keys_lt; [done|lia]).
  apply IH. apply segs_app. split; [done|].
  eapply segs_lo; [|done]. lia.
Qed.

Definition with_buf (r : StreamReassembler) (buf : list (Z * list byte)) : StreamReassembler :=
  mkSR (sr_output r) (sr_capacity r) (total_len buf) (sr_expected_index r) buf (sr_input_ended r).

Lemma last_end_last lo l p : last l = Some p -> last_end lo l = seg_end p.
Proof.
  revert lo. induction l as [|q l IH]; intros lo; [done|]. rewrite last_cons. simpl.
  destruct (last l) as [p'|] eqn:Hl; intros [= <-]; [by apply IH|].
  by apply last_None in Hl as ->.
Qed.

Section merge.
Context (ok : Z -> list byte -> Prop) `{!Provenance ok}.

Lemma segs_seg_u64 lo hi l : -1 <= lo -> hi < 2 ^ 64 -> segs ok lo hi l -> Forall seg_u64 l.
Proof.
  intros Hlo Hhi Hs. apply Forall_forall. intros p Hin.
  destruct (segs_in _ _ _ _ _ Hs Hin) as (? & ? & ?).
  destruct (segs_last_end _ _ _ _ Hs) as [_ Hle].
  split; [lia|]. specialize (Hle ltac:(by destruct l; [apply not_elem_of_nil in Hin|])). lia.
Qed.

(** The two calls of [merge_string]: the first and the last touching
    segment absorb the data. *)
Lemma merge_block_string data a k v pl :
  ok a data -> ok k v -> ok pl.1 pl.2 -> 0 <= a -> 0 <= k -> 0 < zlen v -> 0 < zlen data ->
  k <= pl.1 -> k + zlen v <= seg_end pl -> seg_end pl < 2 ^ 64 -> a + zlen data < 2 ^ 64 ->
  a <= k + zlen v -> pl.1 <= a + zlen data ->
  returns (s ← (if a <? k then Ret [] else merge_string v k data a);
           if zlen s =? 0 then merge_string data a pl.2 pl.1
           else merge_string s (Z.min a k) pl.2 pl.1)
    (λ u, ok (Z.min a k) u ∧ zlen u = Z.max (a + zlen data) (seg_end pl) - Z.min a k).
Proof.
  unfold seg_end. intros Hd Hv Hp Ha Hk Hvl Hdl Hkp Hvp Hp64 Hd64 Hav Hpa.
  pose proof (zlen_nonneg pl.2). destruct (Z.ltb_spec a k).
  - eapply returns_bind; [apply (returns_ret _ (λ s, s = [])); done|]. intros ? ->. simpl.
    eapply returns_mono; [apply (merge_string_spec ok); try done; lia|].
    intros u [Hu Hl]. replace (Z.min a k) with a by lia.
    replace (Z.min a pl.1) with a in * by lia. split; [done|lia].
  - eapply returns_bind; [apply (merge_string_spec ok); try done; lia|].
    intros s [Hs Hl]. replace (Z.min k a) with k in * by lia.
    replace (Z.min a k) with k by lia.
    destruct (Z.eqb_spec (zlen s) 0); [lia|].
    eapply returns_mono; [apply (merge_string_spec ok); try done; lia|].
    intros u [Hu Hul]. replace (Z.min k pl.1) with k in * by lia. split; [done|lia].
Qed.

(** The first and the last segment of a touching block. *)
Lemma block_last lo hi l p q :
  segs ok lo hi (p :: l) -> last (p :: l) = Some q ->
  q ∈ p :: l ∧ p.1 <= q.1 ∧ 0 < zlen q.2 ∧ ok q.1 q.2 ∧ seg_end p <= seg_end q ∧ seg_end q <= hi.
Proof.
  revert lo p. induction l as [|p' l IH]; intros lo p Hs.
  - intros [= <-]. simpl in Hs. destruct Hs as (? & ? & ? & ? & _). split_and!; try done; try lia. apply elem_of_cons. by left.
  - rewrite last_cons. destruct (last (p' :: l)) as [q'|] eqn:Hq; [|by apply last_None in Hq].
    intros [= <-]. destruct Hs as (Hlo & Hpl & _ & _ & Hs).
    destruct (IH (seg_end p) p' Hs Hq) as (H1 & H2 & H3 & H4 & H5 & H6).
    destruct Hs as (Hlt & Hp' & _). unfold seg_end in *.
    split_and!; try done; try lia. apply elem_of_cons. by right.
Qed.

Lemma last_end_before lo pre a :
  lo < a -> Forall (λ p, seg_end p < a) pre -> last_end lo pre < a.
Proof.
  intros Hlo Hpre. destruct (last pre) as [q|] eqn:Hq.
  - rewrite (last_end_last _ _ _ Hq). apply last_Some in Hq as [l' ->].
    apply Forall_app in Hpre as [_ Hq]. by inversion_clear Hq.
  - by apply last_None in Hq as ->.
Qed.

(** Replacing the touching block by one segment keeps the order and covers
    exactly the old segments and the data. *)
Lemma merge_block_segs lo hi pre k v mid post pl a b u :
  segs ok lo hi (pre ++ ((k, v) :: mid) ++ post) ->
  Forall (λ p, seg_end p < a) pre ->
  Forall (λ p, a <= seg_end p ∧ p.1 <= b) ((k, v) :: mid) ->
  match post with [] => True | p :: _ => b < p.1 end ->
  last ((k, v) :: mid) = Some pl -> lo < a -> a < b -> b <= hi ->
  ok (Z.min a k) u -> zlen u = Z.max b (seg_end pl) - Z.min a k ->
  segs ok lo hi (pre ++ (Z.min a k, u) :: post) ∧
  ∀ i, covers (pre ++ (Z.min a k, u) :: post) i <->
       covers (pre ++ ((k, v) :: mid) ++ post) i ∨ a <= i < b.
Proof.
  intros Hs Hpre Hmid Hpost Hlast Hlo Hab Hbh Hu Hul.
  apply segs_app in Hs as [Hsp Hs]. apply segs_app in Hs as [Hsm Hsq].
  set (lo1 := last_end lo pre) in *.
  destruct (block_last _ _ _ _ _ Hsm Hlast) as (Hpin & Hkp & Hpl & _ & Hep & Hph).
  assert (a <= seg_end pl ∧ pl.1 <= b) as [Hp1 Hp2] by (rewrite Forall_forall in Hmid; auto).
  assert (a <= seg_end (k, v) ∧ k <= b) as [Hk1 Hk2] by by inversion_clear Hmid.
  pose proof (last_end_before lo pre a ltac:(lia) Hpre) as Hlo1. fold lo1 in Hlo1.
  assert (∀ i, covers ((k, v) :: mid) i -> k <= i < seg_end pl) as Hin.
  { intros i Hi. pose proof (segs_covers_range _ _ _ _ _ Hsm Hi) as [_ Hi2].
    rewrite (last_end_last _ _ _ Hlast) in Hi2. split; [|done].
    apply covers_cons in Hi as [Hi|Hi]; [simpl in Hi; lia|].
    simpl in Hsm. destruct Hsm as (_ & Hvl & _ & _ & Hsm).
    pose proof (segs_covers_range _ _ _ _ _ Hsm Hi). unfold seg_end in *. simpl in *. lia. }
  assert (lo1 < k ∧ 0 < zlen v) as [Hk Hvl] by (simpl in Hsm; tauto).
  rewrite (last_end_last _ _ _ Hlast) in Hsq. unfold seg_end in Hk1; simpl in Hk1.
  split.
  - apply segs_app. split; [done|]. simpl. unfold seg_end at 1 2. simpl. rewrite Hul.
    split_and!; [lia|lia|done|lia|].
    destruct post as [|q post]; simpl in *; [done|].
    destruct Hsq as (Hq1 & Hq2). split; [lia|done].
  - intros i. rewrite !covers_app, covers_cons. unfold seg_end at 1. simpl. rewrite Hul.
    assert (Z.min a k <= i < Z.min a k + (Z.max b (seg_end pl) - Z.min a k) <->
            covers ((k, v) :: mid) i ∨ a <= i < b); [|tauto]. split.
    + intros Hi. destruct (Z.lt_ge_cases i a); [|destruct (Z.lt_ge_cases i b); [right; lia|]].
      * left. apply covers_cons. left. unfold seg_end. simpl. lia.
      * left. apply Exists_exists. exists pl. split; [done|lia].
    + intros [Hi%Hin|Hi]; lia.
Qed.

(** Putting a segment between two blocks: what [insert] makes of it. *)
Lemma insert_segs lo hi pre post a u :
  segs ok lo hi (pre ++ (a, u) :: post) -> insert a u (pre ++ post) = pre ++ (a, u) :: post.
Proof.
  intros Hs. apply segs_app in Hs as [Hs1 Hs2]. simpl in Hs2.
  destruct Hs2 as (Hlo & _ & _ & _ & Hs2). apply insert_between.
  - eapply segs_keys_lt; [done|lia].
  - apply segs_keys_gt in Hs2. eapply Forall_impl; [done|]. unfold seg_end. simpl.
    pose proof (zlen_nonneg u). lia.
Qed.

Lemma segs_total_u64 lo hi l :
  -1 <= lo -> hi < 2 ^ 64 -> lo < hi -> segs ok lo hi l -> is_u64 (total_len l).
Proof.
  intros Hlo Hhi Hlh Hs. destruct (segs_last_end _ _ _ _ Hs) as [_ Hl]. unfold is_u64.
  destruct l as [|p l]; [simpl; lia|]. specialize (Hl ltac:(done)).
  simpl in *. destruct Hs as (Hp & Hlen & _ & _ & Hs).
  pose proof (segs_total _ _ _ _ Hs). unfold seg_end in *. lia.
Qed.

Section merge_cases.
Context (r : StreamReassembler) (data : list byte) (a lo hi : Z).
Context (pre post : list (Z * list byte)).
Hypothesis (Hun : sr_unassembled_bytes r = total_len (sr_buf r)).
Hypothesis (Hd : ok a data) (Hdl : 0 < zlen data).
Hypothesis (Hlo : -1 <= lo < a) (Hhi : a + zlen data <= hi) (Hhi64 : hi < 2 ^ 64).
Hypothesis (Hpre : Forall (λ p, seg_end p < a) pre).
Hypothesis (Hpost : match post with [] => True | p :: _ => a + zlen data < p.1 end).

Let merged (r' : StreamReassembler) : Prop := ∃ buf', r' = with_buf r buf' ∧ segs ok lo hi buf' ∧
  ∀ i, covers buf' i <-> covers (sr_buf r) i ∨ a <= i < a + zlen data.

(** No stored segment touches the data: it is inserted. *)
Lemma merge_disjoint :
  sr_buf r = pre ++ post -> segs ok lo hi (sr_buf r) -> returns (merge r data a) merged.
Proof.
  intros Hb Hs. unfold merge. rewrite Hb in *.
  pose proof (segs_seg_u64 lo hi _ ltac:(lia) ltac:(lia) Hs) as H64.
  apply Forall_app in H64 as [H64 _].
  destruct (merge_scan_none data a (a + zlen data) eq_refl ltac:(lia) ltac:(lia) pre post H64 Hpre Hpost)
    as [pv ->]. simpl. apply returns_ret.
  pose proof (last_end_before lo pre a ltac:(lia) Hpre) as Hpa.
  pose proof Hs as Hs'. apply segs_app in Hs' as [Hs1 Hs2].
  assert (segs ok lo hi (pre ++ (a, data) :: post)) as Hnew.
  { apply segs_app. split; [done|]. unfold seg_end; simpl. split_and!; try done; try lia.
    destruct post as [|q post']; simpl in *; [done|]. unfold seg_end in *. simpl in *. destruct Hs2 as (? & ?). split; [lia|done]. }
  exists (pre ++ (a, data) :: post). split_and!; [|done|].
  - rewrite ?Hb, (insert_segs _ _ _ _ _ _ Hnew). unfold with_buf. f_equal.
    pose proof (segs_total_u64 lo hi _ ltac:(lia) ltac:(lia) ltac:(lia) Hnew) as Ht.
    rewrite Hun, !total_len_app in *. simpl in *. unfold is_u64 in Ht.
    rewrite u64_id; [lia|]. unfold is_u64. lia.
  - intros i. rewrite ?Hb, !covers_app, covers_cons. unfold seg_end. simpl. tauto.
Qed.

(** A block of stored segments touches the data: one segment replaces
    it. *)
Lemma merge_touching k v mid :
  sr_buf r = pre ++ ((k, v) :: mid) ++ post -> segs ok lo hi (sr_buf r) ->
  Forall (λ p, a <= seg_end p ∧ p.1 <= a + zlen data) ((k, v) :: mid) ->
  returns (merge r data a) merged.
Proof.
  intros Hb Hs Hmid. unfold merge. rewrite Hb in *.
  pose proof (segs_seg_u64 lo hi _ ltac:(lia) ltac:(lia) Hs) as H64.
  destruct (last ((k, v) :: mid)) as [pl|] eqn:Hlast; [|by apply last_None in Hlast].
  pose proof Hs as Hs'. apply segs_app in Hs' as [Hs1 Hs2]. apply segs_app in Hs2 as [Hs2 Hs3].
  destruct (block_last _ _ _ _ _ Hs2 Hlast) as (Hpin & Hkp & Hpl & Hpok & Hep & Hph).
  assert (a <= seg_end (k, v) ∧ k <= a + zlen data) as [Hk1 Hk2] by by inversion_clear Hmid.
  assert (pl.1 <= a + zlen data) by (rewrite Forall_forall in Hmid; by apply Hmid).
  assert (ok k v ∧ 0 < zlen v ∧ last_end lo pre < k) as (Hkv & Hvl & Hklo)
    by (simpl in Hs2; tauto).
  pose proof (segs_last_end _ _ _ _ Hs1) as [Hlp _].
  rewrite (merge_scan_some data a (a + zlen data) eq_refl ltac:(lia) ltac:(lia) pre k v mid post pl);
    try done; [|by rewrite app_assoc in H64; apply Forall_app in H64 as [? _]].
  destruct (merge_block_string data a k v pl) as (u & Hu & Huok & Hul); try done; try lia.
  apply bind_ret_inv in Hu as (s & Hs0 & Hu). rewrite Hs0. simpl.
  destruct pl as [pk pv]. simpl in Hu. rewrite Hu. simpl. apply returns_ret.
  destruct (merge_block_segs _ _ _ _ _ _ _ _ _ _ _ Hs Hpre Hmid Hpost Hlast ltac:(lia) ltac:(lia) Hhi Huok Hul)
    as [Hnew Hcov].
  exists (pre ++ (Z.min a k, u) :: post). split_and!; [|done|by rewrite ?Hb].
  pose proof (erase_block _ _ _ _ _ _ Hs) as He. simpl in He.
  rewrite ?Hb, He, (insert_segs _ _ _ _ _ _ Hnew). unfold with_buf. f_equal.
  pose proof (segs_total_u64 lo hi _ ltac:(lia) ltac:(lia) ltac:(lia) Hnew) as Ht.
  rewrite Hun, !total_len_app in *. simpl in *. unfold is_u64 in Ht.
  unfold u64. rewrite Zminus_mod_idemp_r, Z.mod_small; lia.
Qed.
End merge_cases.

(** [merge] keeps the segments ordered, non-adjacent and counted, and the
    indices stored afterwards are exactly the old ones and those of the
    data. *)
Lemma merge_spec r data a lo hi :
  segs ok lo hi (sr_buf r) -> sr_unassembled_bytes r = total_len (sr_buf r) ->
  ok a data -> 0 < zlen data -> -1 <= lo < a -> a + zlen data <= hi -> hi < 2 ^ 64 ->
  returns (merge r data a) (λ r', ∃ buf', r' = with_buf r buf' ∧ segs ok lo hi buf' ∧
    ∀ i, covers buf' i <-> covers (sr_buf r) i ∨ a <= i < a + zlen data).
Proof.
  intros Hs Hun Hd Hdl Hlo Hhi Hhi64.
  destruct (segs_split ok lo hi (sr_buf r) a (a + zlen data)) as (pre & mid & post & Hb & H1 & H2 & H3);
    [lia|done|].
  destruct mid as [|[k v] mid].
  - eapply merge_disjoint; eauto.
  - eapply merge_touching; eauto.
Qed.
End merge.

(** ** Invariant of the reassembler *)

(** First index that does not fit any more. *)
Definition upper (r : StreamReassembler) : Z :=
  sr_expected_index r + remaining_capacity (sr_output r).

(** An index has been received: it is assembled, or stored. *)
Definition received (r : StreamReassembler) (i : Z) : Prop :=
  0 <= i < sr_expected_index r ∨ covers (sr_buf r) i.

(** [sr_inv ok lo r]: the stored segments start after [lo]. Between calls
    [lo] is the expected index; inside [push_substring] the first segment may
    start at it. *)
Record sr_inv (ok : Z -> list byte -> Prop) (lo : Z) (r : StreamReassembler) : Prop := {
  inv_out : bs_ok (sr_output r);
  inv_pos : 0 <= sr_expected_index r;
  inv_u64 : upper r < 2 ^ 64;
  inv_segs : segs ok lo (upper r) (sr_buf r);
  inv_count : sr_unassembled_bytes r = total_len (sr_buf r);
  inv_written : bytes_written (sr_output r) = sr_expected_index r
}.
Definition sr_ok (ok : Z -> list byte -> Prop) (r : StreamReassembler) : Prop :=
  sr_inv ok (sr_expected_index r) r.

(** From [r] to [r'] the string [w] was written to the output. *)
Record advanced (r r' : StreamReassembler) (w : list byte) : Prop := {
  adv_contents : contents (sr_output r') = contents (sr_output r) ++ w;
  adv_expected : sr_expected_index r' = sr_expected_index r + zlen w;
  adv_upper : upper r' = upper r;
  adv_cap : bs_cap (sr_output r') = bs_cap (sr_output r);
  adv_read : bs_total_read (sr_output r') = bs_total_read (sr_output r);
  adv_error : bs_error (sr_output r') = bs_error (sr_output r)
}.

Lemma advanced_refl r : advanced r r [].
Proof. split; rewrite ?app_nil_r, ?zlen_nil; try done; lia. Qed.

Lemma sr_empty_spec ok lo r : sr_inv ok lo r -> empty r = true <-> sr_buf r = [].
Proof.
  intros Hinv. unfold empty. rewrite Z.eqb_eq, (inv_count _ _ _ Hinv).
  pose proof (inv_segs _ _ _ Hinv) as Hs. destruct (sr_buf r) as [|p l]; simpl in *; [done|].
  destruct Hs as (? & Hl & _ & _ & Hs). pose proof (segs_total _ _ _ _ Hs). split; [lia|done].
Qed.

Lemma new_sr_ok ok capacity : is_u64 capacity -> sr_ok ok (new_StreamReassembler capacity).
Proof.
  intros Hc. pose proof (new_ok _ Hc) as Hn. split; simpl; auto; [lia|].
  unfold upper; simpl. rewrite (remaining_capacity_spec _ Hn). simpl. unfold is_u64 in Hc.
  change (zlen (contents (new_ByteStream capacity))) with 0. lia.
Qed.

Lemma remaining_nonneg bs : bs_ok bs -> 0 <= remaining_capacity bs.
Proof. intros H. rewrite remaining_capacity_spec by done. pose proof (ok_fits _ H). lia. Qed.

Section reassembler.
Context (ok : Z -> list byte -> Prop) `{!Provenance ok}.

(** [reorder_buffer] never reaches the branch that reads through the erased
    iterator; it writes the head segment if it is next, and afterwards no
    stored segment starts at the expected index. *)
Lemma reorder_buffer_spec r :
  sr_inv ok (sr_expected_index r - 1) r ->
  returns (reorder_buffer r) (λ r', sr_ok ok r' ∧ (∀ i, received r' i <-> received r i) ∧
    sr_input_ended r' = sr_input_ended r ∧
    bs_input_ended (sr_output r') = bs_input_ended (sr_output r) ∧
    ∃ w, advanced r r' w ∧ (w = [] ∨ ok (sr_expected_index r) w)).
Proof.
  intros [Hout Hpos Hu64 Hs Hc Hw]. unfold reorder_buffer, sr_ok.
  pose proof (remaining_nonneg _ Hout) as Hrn. unfold upper in *.
  destruct (sr_buf r) as [|[k v] buf] eqn:Hb.
  { apply returns_ret. split_and!; try done; [|exists []; split; [apply advanced_refl|by left]].
    split; try done; by rewrite Hb. }
  simpl in Hs. destruct Hs as (Hlo & Hvl & Hkv & Hhi & Hs). unfold seg_end in *. simpl in *.
  destruct (Z.eqb_spec k (sr_expected_index r)) as [->|Hne]; simpl.
  - destruct (Z.ltb_spec 0 (remaining_capacity (sr_output r))); [|lia].
    destruct (Z.ltb_spec (remaining_capacity (sr_output r)) (zlen v)); [lia|].
    apply returns_ret. rewrite Z.eqb_refl.
    destruct (write (sr_output r) v) as [bs n] eqn:Hwr. simpl.
    pose proof (write_ok _ v Hout) as Hok'. rewrite Hwr in Hok'. simpl in Hok'.
    destruct (write_spec _ _ _ _ Hout Hwr) as (Hn & Hcon & Htw & Hcap & Htr & Hie & Her).
    assert (n = zlen v) as -> by lia. rewrite ztake_ge in Hcon by lia.
    assert (remaining_capacity bs = remaining_capacity (sr_output r) - zlen v) as Hrem.
    { rewrite !remaining_capacity_spec, Hcon, zlen_app, Hcap by done. lia. }
    rewrite !u64_id by (pose proof (segs_total _ _ _ _ Hs); unfold is_u64 in *;
      destruct (segs_last_end _ _ _ _ Hs) as [? Hl]; destruct buf; simpl in *; [lia|specialize (Hl ltac:(done)); lia]).
    split_and!; try done.
    + split; unfold upper; simpl; rewrite ?Hrem; try done; try lia.
      * eapply segs_hi; [|done]. lia.
      * unfold bytes_written in *. rewrite Htw, Hw. apply u64_id. unfold is_u64. lia.
    + intros i. unfold received. simpl. rewrite Hb, covers_cons. unfold seg_end. simpl.
      assert (0 <= i < sr_expected_index r + zlen v <->
        0 <= i < sr_expected_index r ∨ sr_expected_index r <= i < sr_expected_index r + zlen v) by lia.
      tauto.
    + exists v. split; [|by right]. split; simpl; try done. unfold upper. simpl. lia.
  - apply returns_ret. split_and!; try done; [|exists []; split; [apply advanced_refl|by left]].
    split; try done; rewrite Hb; [|done]. simpl. unfold upper. by split_and!; [lia|..].
Qed.
End reassembler.

(** ** [validate] and [push_substring] *)

(** The part of the data that fits between the expected index and [upper]. *)
Definition clip_lo (r : StreamReassembler) (index : Z) : Z := Z.max index (sr_expected_index r).
Definition clip_hi (r : StreamReassembler) (data : list byte) (index : Z) : Z :=
  Z.min (index + zlen data) (upper r).
Definition clipped (r : StreamReassembler) (data : list byte) (index : Z) : list byte :=
  ztake (clip_hi r data index - clip_lo r index) (zdrop (clip_lo r index - index) data).

(** Does the call set the reassembler's own [input_ended]? *)
Definition takes_eof (r : StreamReassembler) (data : list byte) (index : Z) (eof : bool) : bool :=
  eof && ((remaining_capacity (sr_output r) =? 0) || (zlen data =? 0) ||
          ((index <? upper r) && (sr_expected_index r <? index + zlen data) &&
           (index + zlen data <=? upper r))).

(** Is the call ignored? *)
Definition rejected (r : StreamReassembler) (data : list byte) (index : Z) : bool :=
  negb (remaining_capacity (sr_output r) =? 0) && negb (zlen data =? 0) &&
  ((upper r <=? index) || (index + zlen data <=? sr_expected_index r)).

Section push.
Context (ok : Z -> list byte -> Prop) `{!Provenance ok}.

(** The four results of [validate]. *)
Lemma validate_spec r data index eof :
  sr_ok ok r -> is_u64 index -> upper r + zlen data < 2 ^ 64 ->
  validate r data index eof =
    if (remaining_capacity (sr_output r) =? 0) || (zlen data =? 0) then Ret ([], 0, eof, true)
    else if rejected r data index then Ret ([], 0, false, false)
    else Ret (clipped r data index, clip_lo r index, takes_eof r data index eof, true).
Proof.
  intros Hok Hi Hb. pose proof (inv_pos _ _ _ Hok) as Hpos.
  pose proof (remaining_nonneg _ (inv_out _ _ _ Hok)) as Hrc.
  unfold validate, rejected, takes_eof, clipped, clip_hi, clip_lo.
  unfold upper in *. set (e := sr_expected_index r) in *.
  set (c := remaining_capacity (sr_output r)) in *. clearbody e c.
  pose proof (zlen_nonneg data). unfold is_u64 in Hi.
  rewrite (u64_id (e + c)) by (unfold is_u64; lia).
  destruct (Z.eqb_spec c 0); simpl; [done|].
  destruct (Z.eqb_spec (zlen data) 0); simpl; [done|].
  destruct (Z.leb_spec (e + c) index); simpl; [done|].
  rewrite (u64_id (index + zlen data)) by (unfold is_u64; lia).
  destruct (Z.leb_spec (index + zlen data) e); simpl; [done|].
  destruct (Z.ltb_spec index (e + c)); [|lia].
  destruct (Z.ltb_spec e (index + zlen data)); [|lia]. simpl.
  destruct (Z.leb_spec index e), (Z.ltb_spec (e + c) (index + zlen data)),
    (Z.leb_spec (index + zlen data) (e + c)); try lia; simpl;
    rewrite ?u64_id, substr_ret by (unfold is_u64; lia); simpl;
    rewrite ?andb_true_r, ?andb_false_r; repeat f_equal; lia.
Qed.

Lemma push_finish_spec r eof lo :
  sr_inv ok lo r ->
  let r' := push_finish r eof in
  sr_inv ok lo r' ∧ (∀ i, received r' i <-> received r i) ∧ advanced r r' [] ∧
  sr_input_ended r' = sr_input_ended r || eof ∧
  bs_input_ended (sr_output r') = bs_input_ended (sr_output r) || (sr_input_ended r' && empty r').
Proof.
  intros Hinv. unfold push_finish. pose proof (end_input_ok _ (inv_out _ _ _ Hinv)).
  destruct Hinv as [H1 H2 H3 H4 H5 H6].
  destruct r as [o c u e b ie], eof, ie; unfold empty; simpl in *;
    destruct (u =? 0) eqn:Hu; simpl; rewrite ?Hu;
    (split_and!; [by split| |split; rewrite ?app_nil_r, ?Z.add_0_r|..]); simpl;
    rewrite ?app_nil_r, ?zlen_nil, ?Z.add_0_r, ?orb_false_r, ?orb_true_r; done.
Qed.

Lemma advanced_trans r r1 r' w : advanced r r1 w -> advanced r1 r' [] -> advanced r r' w.
Proof.
  intros [A1 A2 A3 A4 A5 A6] [B1 B2 B3 B4 B5 B6]. rewrite app_nil_r in B1. rewrite zlen_nil in B2.
  split; try congruence. lia.
Qed.

(** The data that survives [validate]: non-empty, in place, and the indices
    it adds are those of the data below [upper]. *)
Lemma clipped_facts r data index :
  sr_ok ok r -> (data ≠ [] -> ok index data) -> is_u64 index -> upper r + zlen data < 2 ^ 64 ->
  (remaining_capacity (sr_output r) =? 0) || (zlen data =? 0) = false ->
  rejected r data index = false ->
  0 < zlen (clipped r data index) ∧
  sr_expected_index r <= clip_lo r index ∧
  clip_lo r index + zlen (clipped r data index) <= upper r ∧
  ok (clip_lo r index) (clipped r data index) ∧
  ∀ i, received r i ∨ clip_lo r index <= i < clip_lo r index + zlen (clipped r data index) <->
       received r i ∨ index <= i < index + zlen data ∧ i < upper r.
Proof.
  intros Hok Hd Hi Hb Hskip Hrej. pose proof (inv_pos _ _ _ Hok) as Hpos.
  pose proof (remaining_nonneg _ (inv_out _ _ _ Hok)) as Hrc.
  pose proof (zlen_nonneg data). unfold rejected, upper in *. unfold is_u64 in Hi.
  assert (zlen (clipped r data index) = clip_hi r data index - clip_lo r index) as Hl.
  { unfold clipped, clip_hi, clip_lo, upper. zlen_lia. }
  rewrite Hl. unfold received. split_and!.
  - unfold clip_hi, clip_lo, upper in *. lia.
  - unfold clip_lo. lia.
  - unfold clip_hi, clip_lo, upper. lia.
  - assert (ok index data) as Hdo by (apply Hd; intros ->; rewrite zlen_nil in *; lia).
    replace (clip_lo r index) with (index + (clip_lo r index - index)) by lia.
    unfold clipped. unfold clip_hi, clip_lo, upper in *.
    apply prov_sub; try done; lia.
  - intros i. unfold clip_hi, clip_lo, upper. split; (intros [Hr|Hr]; [by left|]).
    + right. lia.
    + destruct (Z.lt_ge_cases i (sr_expected_index r)); [left; left; lia|right; lia].
Qed.

Lemma push_merge r data index :
  sr_ok ok r -> (data ≠ [] -> ok index data) -> is_u64 index -> upper r + zlen data < 2 ^ 64 ->
  (remaining_capacity (sr_output r) =? 0) || (zlen data =? 0) = false ->
  rejected r data index = false ->
  returns (merge r (clipped r data index) (clip_lo r index)) (λ r0, ∃ buf, r0 = with_buf r buf ∧
    sr_inv ok (sr_expected_index r0 - 1) r0 ∧
    ∀ i, covers buf i <-> covers (sr_buf r) i ∨
      clip_lo r index <= i < clip_lo r index + zlen (clipped r data index)).
Proof.
  intros Hok Hd Hi Hb Hskip Hrej.
  destruct (clipped_facts _ _ _ Hok Hd Hi Hb Hskip Hrej) as (Hl & Hlo & Hhi & Hcok & _).
  destruct Hok as [H1 H2 H3 H4 H5 H6].
  eapply returns_mono; [apply (merge_spec ok r _ _ (sr_expected_index r - 1) (upper r));
    try done; try lia; eapply segs_lo; [|done]; lia|].
  intros r0 (buf & -> & Hs & Hc). exists buf. split_and!; [done| |done].
  by split.
Qed.

(** What one call does to the stored indices, the output and the two
    end-of-input flags. *)
Lemma push_substring_spec r data index eof :
  sr_ok ok r -> (data ≠ [] -> ok index data) -> is_u64 index -> upper r + zlen data < 2 ^ 64 ->
  returns (push_substring r data index eof) (λ r', sr_ok ok r' ∧
    (∀ i, received r' i <-> received r i ∨ index <= i < index + zlen data ∧ i < upper r) ∧
    (∃ w, advanced r r' w ∧ (w = [] ∨ ok (sr_expected_index r) w)) ∧
    sr_input_ended r' = sr_input_ended r || takes_eof r data index eof ∧
    bs_input_ended (sr_output r') = bs_input_ended (sr_output r) ||
      negb (rejected r data index) && (sr_input_ended r' && empty r')).
Proof.
  intros Hok Hd Hi Hb. pose proof (zlen_nonneg data) as Hdl.
  unfold push_substring. rewrite validate_spec by done.
  pose proof (remaining_nonneg _ (inv_out _ _ _ Hok)) as Hrc.
  destruct ((remaining_capacity (sr_output r) =? 0) || (zlen data =? 0)) eqn:Hskip.
  - simpl. apply returns_ret.
    destruct (push_finish_spec r eof _ Hok) as (Hok' & Hr & Hadv & Hie & Hoe).
    assert (takes_eof r data index eof = eof) as ->
      by (unfold takes_eof; rewrite Hskip; apply andb_true_r).
    assert (rejected r data index = false) as ->
      by (unfold rejected; rewrite <- negb_orb, Hskip; done).
    split_and!; [|intros i; rewrite Hr|exists []; split; [done|by left]|done|done].
    + unfold sr_ok. by rewrite (adv_expected _ _ _ Hadv), zlen_nil, Z.add_0_r.
    + split; [by left|]. intros [?|?]; [done|]. left. unfold upper, is_u64 in *. lia.
  - destruct (rejected r data index) eqn:Hrej; simpl.
    + apply returns_ret. unfold rejected in Hrej. split_and!; [done| | | |].
      * intros i. split; [by left|]. intros [?|?]; [done|]. left. unfold is_u64 in *. lia.
      * exists []. split; [apply advanced_refl|by left].
      * unfold takes_eof. rewrite Hskip.
        assert ((index <? upper r) && (sr_expected_index r <? index + zlen data) = false) as -> by lia.
        by rewrite andb_false_r, orb_false_r.
      * by rewrite orb_false_r.
    + pose proof (clipped_facts _ _ _ Hok Hd Hi Hb Hskip Hrej) as (Hcl & _ & _ & _ & Hcov).
      destruct (Z.eqb_spec (zlen (clipped r data index)) 0); [lia|]. simpl.
      destruct (push_merge _ _ _ Hok Hd Hi Hb Hskip Hrej) as (r0 & Hm & buf & -> & Hinv & Hc).
      rewrite Hm. simpl.
      destruct (reorder_buffer_spec ok _ Hinv) as (r1 & Hre & Hok1 & Hr1 & Hie1 & Hoe1 & w & Hadv1 & Hw).
      rewrite Hre. simpl. apply returns_ret.
      destruct (push_finish_spec r1 (takes_eof r data index eof) _ Hok1) as (Hok' & Hr & Hadv & Hie & Hoe).
      split_and!.
      * unfold sr_ok. by rewrite (adv_expected _ _ _ Hadv), zlen_nil, Z.add_0_r.
      * intros i. rewrite Hr, Hr1, <- Hcov. unfold received. simpl. rewrite Hc. tauto.
      * exists w. split; [|done]. eapply advanced_trans; [|done]. by destruct Hadv1.
      * by rewrite Hie, Hie1.
      * by rewrite Hoe, Hoe1.
Qed.
End push.

(** ** Properties *)

(** C5: whatever bytes arrive, [push_substring] terminates normally (in
    particular [reorder_buffer] never reads through the iterator it erased,
    no [substr] throws, and [merge] never uses an uninitialised local), keeps
    the stored segments sorted, disjoint and non-adjacent, counts them
    exactly, and after the call the received indices are the previous ones
    and those of the substring below the capacity limit. *)
Theorem push_substring_safe r data index eof :
  sr_ok any_bytes r -> is_u64 index -> upper r + zlen data < 2 ^ 64 ->
  ∃ r', push_substring r data index eof = Ret r' ∧ sr_ok any_bytes r' ∧
    unassembled_bytes r' = total_len (sr_buf r') ∧
    ∀ i, received r' i <-> received r i ∨ index <= i < index + zlen data ∧ i < upper r.
Proof.
  intros Hok Hi Hb.
  destruct (push_substring_spec any_bytes r data index eof Hok) as (r' & Hp & Hok' & Hr & _); try done.
  exists r'. split_and!; try done. apply Hok'.
Qed.

Lemma push_substring_safe_witness :
  ∃ r', push_substring (new_StreamReassembler 8) [x61; x62] 3 false = Ret r' ∧ sr_ok any_bytes r' ∧
    unassembled_bytes r' = total_len (sr_buf r') ∧
    ∀ i, received r' i <-> received (new_StreamReassembler 8) i ∨
      3 <= i < 3 + zlen [x61; x62] ∧ i < upper (new_StreamReassembler 8).
Proof.
  apply (push_substring_safe (new_StreamReassembler 8) [x61; x62] 3 false).
  - apply new_sr_ok. unfold is_u64. lia.
  - unfold is_u64. lia.
  - vm_compute. reflexivity.
Defined.

(** The owner drains the output, or marks it erroneous. *)
Inductive sr_op :=
| Push (data : list byte) (index : Z) (eof : bool)
| Drain (len : Z)
| Fail.

Definition sr_step (r : StreamReassembler) (o : sr_op) : outcome (StreamReassembler * list byte) :=
  match o with
  | Push data index eof => r' ← push_substring r data index eof; Ret (r', [])
  | Drain len => '(bs, s) ← read (sr_output r) len; Ret (with_output r bs, s)
  | Fail => Ret (with_output r (set_error (sr_output r)), [])
  end.

Fixpoint sr_run (r : StreamReassembler) (ops : list sr_op) : outcome (StreamReassembler * list byte) :=
  match ops with
  | [] => Ret (r, [])
  | o :: ops' =>
      '(r', s) ← sr_step r o; '(r'', s') ← sr_run r' ops'; Ret (r'', s ++ s')
  end.

(** Every substring pushed is part of the stream [S]. *)
Definition sr_op_of (S : list byte) (o : sr_op) : Prop :=
  match o with
  | Push data index _ => slice_of S index data
  | Drain len => 0 <= len
  | Fail => True
  end.

(** The state of a reassembler that has delivered [out] of the stream [S]. *)
Record sr_tracks (S : list byte) (cap : Z) (r : StreamReassembler) (out : list byte) : Prop := {
  tr_ok : sr_ok (slice_of S) r;
  tr_cap : bs_cap (sr_output r) = cap;
  tr_le : sr_expected_index r <= zlen S;
  tr_out : out ++ contents (sr_output r) = slice S 0 (sr_expected_index r)
}.

Lemma sr_tracks_upper S cap r out : sr_tracks S cap r out -> upper r <= zlen S + cap.
Proof.
  intros [Hok Hc Hle _]. unfold upper. rewrite remaining_capacity_spec by apply Hok.
  pose proof (zlen_nonneg (contents (sr_output r))). lia.
Qed.

(** Taking bytes out of the output stream moves the window. *)
Lemma with_output_ok ok r bs :
  sr_ok ok r -> bs_ok bs -> bs_total_written bs = bs_total_written (sr_output r) ->
  remaining_capacity (sr_output r) <= remaining_capacity bs ->
  sr_expected_index r + remaining_capacity bs < 2 ^ 64 ->
  sr_ok ok (with_output r bs).
Proof.
  intros [H1 H2 H3 H4 H5 H6] Hbs Hw Hrc Hu. split; simpl; try done.
  - unfold upper in *. simpl. eapply segs_hi; [|done]. lia.
  - unfold bytes_written in *. congruence.
Qed.

Lemma sr_step_tracks S cap r out o :
  2 * zlen S + cap < 2 ^ 64 -> sr_tracks S cap r out -> sr_op_of S o ->
  returns (sr_step r o) (λ '(r', s), sr_tracks S cap r' (out ++ s)).
Proof.
  intros Hbig Htr Ho. pose proof (sr_tracks_upper _ _ _ _ Htr) as Hup.
  destruct Htr as [Hok Hcap Hle Hout]. pose proof (zlen_nonneg (contents (sr_output r))).
  pose proof (ok_cap _ (inv_out _ _ _ Hok)) as Hc64. unfold is_u64 in Hc64.
  destruct o as [data index eof|len|]; simpl in *.
  - pose proof Ho as (Hi & Hdl & _). pose proof (zlen_nonneg data).
    destruct (push_substring_spec (slice_of S) r data index eof Hok)
      as (r' & -> & Hok' & _ & (w & Hadv & Hw) & _); [done|unfold is_u64; lia|lia|].
    simpl. apply returns_ret. rewrite app_nil_r. pose proof (adv_expected _ _ _ Hadv) as He.
    pose proof (inv_pos _ _ _ Hok).
    split; [done|by rewrite (adv_cap _ _ _ Hadv)| |].
    + destruct Hw as [->|(_ & Hw & _)]; [rewrite zlen_nil in He|]; lia.
    + rewrite (adv_contents _ _ _ Hadv), app_assoc, Hout.
      destruct Hw as [->|(_ & Hwl & Hw)].
      * rewrite zlen_nil in He. rewrite app_nil_r. f_equal. lia.
      * rewrite He, (slice_app S 0 (sr_expected_index r) (sr_expected_index r + zlen w)) by zlen_lia. f_equal. exact Hw.
  - eapply returns_bind; [apply read_spec; [apply Hok|done]|].
    intros [bs s] (-> & Hc & _ & Hcap' & Hw & _ & _ & Hbs). apply returns_ret.
    split; simpl; [|congruence|done|].
    + apply with_output_ok; try done;
        rewrite !remaining_capacity_spec, Hc, Hcap' by (done || apply Hok); zlen_lia.
    + rewrite <- Hout, <- app_assoc, Hc, ztake_zdrop. done.
  - apply returns_ret. rewrite app_nil_r.
    split; simpl; [|done|done|done].
    assert (remaining_capacity (set_error (sr_output r)) = remaining_capacity (sr_output r)) as Hr by done.
    apply with_output_ok; [done|apply set_error_ok, Hok|done|lia|]. rewrite Hr. apply Hok.
Qed.

(** C4: reliability of the reassembler. Fed with any sequence of substrings
    of a stream [S], in any order, with any overlaps and repetitions, and
    drained at any moments, it never fails, what was read followed by what is
    readable is exactly the prefix of [S] up to the expected index, the
    expected index is the first one not received, and no more than [cap]
    bytes are ever held. *)
Theorem reassembler_prefix S cap ops :
  is_u64 cap -> 2 * zlen S + cap < 2 ^ 64 -> Forall (sr_op_of S) ops ->
  ∃ r out, sr_run (new_StreamReassembler cap) ops = Ret (r, out) ∧
    out ++ contents (sr_output r) = slice S 0 (sr_expected_index r) ∧
    ~ received r (sr_expected_index r) ∧
    buffer_size (sr_output r) + unassembled_bytes r <= cap.
Proof.
  intros Hcap Hbig Hops.
  assert (∀ r out, sr_tracks S cap r out ->
    returns (sr_run r ops) (λ '(r', s), sr_tracks S cap r' (out ++ s))) as Hrun.
  { induction Hops as [|o ops Ho _ IH]; intros r out Htr; simpl.
    - apply returns_ret. by rewrite app_nil_r.
    - eapply returns_bind; [by apply (sr_step_tracks S cap)|]. intros [r1 s1] H1.
      eapply returns_bind; [by apply IH|]. intros [r2 s2] H2. apply returns_ret.
      by rewrite app_assoc. }
  destruct (Hrun (new_StreamReassembler cap) []) as ([r out] & Hr & Htr).
  { split; [by apply new_sr_ok|done|apply zlen_nonneg|done]. }
  exists r, out. destruct Htr as [Hok Hc Hle Hout]. split_and!; try done.
  - intros [?|Hc'%(segs_covers_range _ _ _ _ _ (inv_segs _ _ _ Hok))]; lia.
  - pose proof (segs_total _ _ _ _ (inv_segs _ _ _ Hok)) as Ht.
    destruct (segs_last_end _ _ _ _ (inv_segs _ _ _ Hok)) as [_ Hl].
    unfold unassembled_bytes. rewrite (inv_count _ _ _ Hok), buffer_size_contents.
    pose proof (remaining_capacity_spec _ (inv_out _ _ _ Hok)) as Hrem.
    pose proof (ok_fits _ (inv_out _ _ _ Hok)).
    destruct (sr_buf r) as [|p l]; simpl in *; [lia|]. specialize (Hl ltac:(done)).
    unfold upper in Hl. lia.
Qed.

Lemma reassembler_prefix_witness :
  ∃ r out, sr_run (new_StreamReassembler 4)
      [Push [x62] 1 false; Push [x61; x62] 0 false; Drain 1; Push [x62; x63] 1 true] = Ret (r, out) ∧
    out ++ contents (sr_output r) = slice [x61; x62; x63] 0 (sr_expected_index r) ∧
    ~ received r (sr_expected_index r) ∧
    buffer_size (sr_output r) + unassembled_bytes r <= 4.
Proof.
  apply (reassembler_prefix [x61; x62; x63] 4).
  - unfold is_u64. lia.
  - vm_compute. reflexivity.
  - repeat constructor; try (vm_compute; congruence); try lia; reflexivity.
Defined.

(** ** End of input *)

(** The reassembler knows the end of [S] only if the last byte has arrived. *)
Definition eof_ok (S : list byte) (r : StreamReassembler) : Prop :=
  sr_input_ended r = true -> sr_expected_index r = zlen S ∨ received r (zlen S - 1).

Lemma received_last_done S r :
  sr_ok (slice_of S) r -> sr_expected_index r <= zlen S -> sr_buf r = [] ->
  sr_expected_index r = zlen S ∨ received r (zlen S - 1) -> sr_expected_index r = zlen S.
Proof.
  intros Hok Hle Hb [?|[?|Hc]]; [done|lia|]. rewrite Hb in Hc. by apply Exists_nil in Hc.
Qed.

(** The output ends exactly at the end of the stream, provided every
    end-of-stream mark comes with the last byte of [S] (or after all of [S]
    was assembled) and fits the window: a marked call leaves the output open
    unless all of [S] is assembled, and closes it when it is. *)
Theorem push_eof_complete S r data index eof :
  sr_ok (slice_of S) r -> eof_ok S r -> sr_expected_index r <= zlen S ->
  bs_input_ended (sr_output r) = false ->
  slice_of S index data -> upper r + zlen data < 2 ^ 64 -> zlen S < 2 ^ 64 ->
  (eof = true -> index + zlen data = zlen S ∧ zlen S <= upper r ∧
     (data ≠ [] ∨ sr_expected_index r = zlen S)) ->
  ∃ r', push_substring r data index eof = Ret r' ∧ eof_ok S r' ∧
    (bs_input_ended (sr_output r') = true -> sr_expected_index r' = zlen S) ∧
    (eof = true -> rejected r data index = false ->
     sr_expected_index r' = zlen S -> bs_input_ended (sr_output r') = true).
Proof.
  intros Hok Heof Hle Hopen Hd Hb HS Hmark. pose proof Hd as (Hi & Hdl & _).
  pose proof (zlen_nonneg data). pose proof (inv_pos _ _ _ Hok).
  destruct (push_substring_spec (slice_of S) r data index eof Hok)
    as (r' & Hp & Hok' & Hr & (w & Hadv & Hw) & Hie & Hoe); [done|unfold is_u64; lia|done|].
  exists r'. pose proof (adv_expected _ _ _ Hadv) as He. pose proof (zlen_nonneg w).
  assert (sr_expected_index r' <= zlen S) as Hle'.
  { destruct Hw as [->|(_ & Hw & _)]; [rewrite zlen_nil in He|]; lia. }
  assert (eof_ok S r') as Heof'.
  { intros Hend. rewrite Hie in Hend. apply orb_true_iff in Hend as [Hend|Hend].
    - destruct (Heof Hend) as [?|Hrec]; [left; lia|]. right. apply Hr. by left.
    - unfold takes_eof in Hend. apply andb_true_iff in Hend as [-> _].
      destruct (Hmark eq_refl) as (Hidx & Hup & Hne).
      destruct Hne as [Hne%zlen_pos_ne|Hdone]; [|left; lia].
      destruct (Z.eq_dec (zlen S) (sr_expected_index r')); [by left|].
      right. apply Hr. right. lia. }
  split_and!; [done|done| |].
  - rewrite Hoe, Hopen. simpl. intros (_ & [Hend Hemp]%andb_true_iff)%andb_true_iff.
    apply (received_last_done S); [done|done| |by apply Heof'].
    by apply (sr_empty_spec _ _ _ Hok').
  - intros -> Hrej Hdone. rewrite Hoe, Hrej, Hopen. simpl. apply andb_true_iff. split.
    + rewrite Hie. apply orb_true_iff. right. unfold takes_eof, rejected in *.
      destruct (Hmark eq_refl) as (Hidx & Hup & _). lia.
    + apply (sr_empty_spec _ _ _ Hok'). destruct (sr_buf r') as [|p l] eqn:Hbuf; [done|].
      pose proof (inv_segs _ _ _ Hok') as Hs. rewrite Hbuf in Hs. simpl in Hs.
      destruct Hs as (? & ? & (_ & Hend & _) & _). lia.
Qed.

Lemma push_eof_complete_witness :
  ∃ r', push_substring (new_StreamReassembler 4) [x61; x62] 0 true = Ret r' ∧
    eof_ok [x61; x62] r' ∧
    (bs_input_ended (sr_output r') = true -> sr_expected_index r' = zlen [x61; x62]) ∧
    (true = true -> rejected (new_StreamReassembler 4) [x61; x62] 0 = false ->
     sr_expected_index r' = zlen [x61; x62] -> bs_input_ended (sr_output r') = true).
Proof.
  apply (push_eof_complete [x61; x62] (new_StreamReassembler 4) [x61; x62] 0 true).
  - apply new_sr_ok. unfold is_u64. lia.
  - intros H. discriminate H.
  - vm_compute. congruence.
  - reflexivity.
  - split_and!; vm_compute; congruence.
  - vm_compute. reflexivity.
  - vm_compute. reflexivity.
  - intros _. split_and!; [reflexivity|vm_compute; congruence|left; discriminate].
Defined.

(** Outside those conditions the stream is cut short. When the window is
    full, a substring marked as last is dropped but its mark is kept, and the
    output is ended although the byte at index 2 was never assembled; an empty
    substring marked as last ends the output although the bytes before it are
    still missing. *)
Theorem premature_eof :
  (∃ r r', push_substring (new_StreamReassembler 2) [x61; x62] 0 false = Ret r ∧
     push_substring r [x63] 2 true = Ret r' ∧
     bs_input_ended (sr_output r') = true ∧ sr_expected_index r' = 2 ∧ sr_buf r' = []) ∧
  (∃ r', push_substring (new_StreamReassembler 8) [] 3 true = Ret r' ∧
     bs_input_ended (sr_output r') = true ∧ sr_expected_index r' = 0).
Proof.
  split.
  - eexists. eexists. split; [vm_compute; reflexivity|]. split; [vm_compute; reflexivity|].
    split_and!; reflexivity.
  - eexists. split; [vm_compute; reflexivity|]. split_and!; reflexivity.
Qed.
