(* ===== verification/Parser.v ===== *)
(** [util/parser.hh], [util/parser.cc]: reading and writing integers in
    network byte order. The parser object is threaded as state. *)
From S2P Require Import Prelude Buffer.

Inductive ParseResult :=
| NoError
| BadChecksum
| PacketTooShort
| WrongIPVersion
| HeaderTooShort
| TruncatedPacket
| Unsupported.

#[export] Instance parse_result_eq_dec : EqDecision ParseResult.
Proof. solve_decision. Defined.

(** The enumerators' values index the array of names, which has six. *)
Definition parse_result_code (r : ParseResult) : nat :=
  match r with
  | NoError => 0 | BadChecksum => 1 | PacketTooShort => 2 | WrongIPVersion => 3
  | HeaderTooShort => 4 | TruncatedPacket => 5 | Unsupported => 6
  end.

Definition names : list string :=
  ["NoError"; "BadChecksum"; "PacketTooShort"; "WrongIPVersion"; "HeaderTooShort"; "TruncatedPacket"].

Definition as_string (r : ParseResult) : outcome string :=
  match names !! parse_result_code r with
  | Some s => Ret s
  | None => Undef
  end.

(** ** NetParser *)

Record NetParser := mkNetParser {
  np_buffer : Buffer;
  np_error : ParseResult
}.

Definition new_NetParser (buffer : Buffer) : NetParser := mkNetParser buffer NoError.
Definition get_error (p : NetParser) : ParseResult := np_error p.
Definition set_error (p : NetParser) (res : ParseResult) : NetParser := mkNetParser (np_buffer p) res.
Definition error (p : NetParser) : bool := negb (bool_decide (np_error p = NoError)).

(** A method of the parser: it may change the parser, and returns a value. *)
Definition parserM (A : Type) : Type := NetParser -> outcome (A * NetParser).
#[export] Instance parserM_ret : MRet parserM := λ A a p, Ret (a, p).
#[export] Instance parserM_bind : MBind parserM := λ A B f m p,
  match m p with
  | Ret (a, p') => f a p'
  | Throw e => Throw e
  | Undef => Undef
  | Diverge => Diverge
  end.

Definition _check_size (p : NetParser) (size : Z) : NetParser :=
  if Buffer.size (np_buffer p) <? size then set_error p PacketTooShort else p.

(** The accumulation loop, in the width [8 * len] of the result type; [todo]
    counts the remaining iterations. *)
Fixpoint parse_loop (b : Buffer) (len : nat) (todo : nat) (ret : Z) : outcome Z :=
  match todo with
  | O => Ret ret
  | S todo' =>
      let i := Z.of_nat (len - todo) in
      let w := 2 ^ (8 * Z.of_nat len) in
      c ← at_ b i;
      parse_loop b len todo' ((Z.shiftl ret 8 mod w + c) mod w)
  end.

Definition _parse_int (len : nat) : parserM Z := λ p,
  let p1 := _check_size p (Z.of_nat len) in
  if error p1 then Ret (0, p1)
  else
    ret ← parse_loop (np_buffer p1) len len 0;
    b ← remove_prefix (np_buffer p1) (Z.of_nat len);
    Ret (ret, mkNetParser b (np_error p1)).

Definition get_u32 : parserM Z := _parse_int 4.
Definition get_u16 : parserM Z := _parse_int 2.
Definition get_u8 : parserM Z := _parse_int 1.

Definition parser_remove_prefix (n : Z) : parserM unit := λ p,
  let p1 := _check_size p n in
  if error p1 then Ret (tt, p1)
  else b ← remove_prefix (np_buffer p1) n; Ret (tt, mkNetParser b (np_error p1)).

(** ** NetUnparser *)

Fixpoint unparse_loop (len todo : nat) (s : list byte) (val : Z) : list byte :=
  match todo with
  | O => s
  | S todo' =>
      let i := Z.of_nat (len - todo) in
      let the_byte := Z.land (Z.shiftr val ((Z.of_nat len - i - 1) * 8)) 0xff in
      unparse_loop len todo' (s ++ [byte_of the_byte]) val
  end.

Definition _unparse_int (len : nat) (s : list byte) (val : Z) : list byte := unparse_loop len len s val.
Definition put_u32 (s : list byte) (val : Z) : list byte := _unparse_int 4 s (u32 val).
Definition put_u16 (s : list byte) (val : Z) : list byte := _unparse_int 2 s (u16 val).
Definition put_u8 (s : list byte) (val : Z) : list byte := _unparse_int 1 s (u8 val).

(** ** Big-endian numbers *)

Definition be_val (l : list byte) : Z := foldl (λ acc b, acc * 256 + byte_val b) 0 l.

Fixpoint be_bytes (n : nat) (v : Z) : list byte :=
  match n with
  | O => []
  | S n' => byte_of (v / 256 ^ Z.of_nat n') :: be_bytes n' v
  end.

Lemma be_val_snoc l b : be_val (l ++ [b]) = be_val l * 256 + byte_val b.
Proof. unfold be_val. by rewrite foldl_app. Qed.

Lemma be_val_range l : 0 <= be_val l < 256 ^ zlen l.
Proof.
  induction l as [|b l IH] using rev_ind; [by vm_compute|].
  rewrite be_val_snoc, zlen_app. change (zlen [b]) with 1.
  rewrite Z.pow_add_r by (pose proof (zlen_nonneg l); lia).
  pose proof (byte_val_range b) as Hb. unfold is_u8 in Hb. change (256 ^ 1) with 256. lia.
Qed.

Lemma zlen_be_bytes n v : zlen (be_bytes n v) = Z.of_nat n.
Proof. induction n as [|n IH]; simpl; [done|]. rewrite zlen_cons, IH. lia. Qed.

Lemma foldl_be_shift l acc :
  foldl (λ acc b, acc * 256 + byte_val b) acc l = acc * 256 ^ zlen l + be_val l.
Proof.
  induction l as [|b l IH] using rev_ind; [unfold be_val; simpl; rewrite zlen_nil; lia|].
  rewrite foldl_app, be_val_snoc, zlen_app, IH. simpl. change (zlen [b]) with 1.
  rewrite Z.pow_add_r by (pose proof (zlen_nonneg l); lia). lia.
Qed.

Lemma be_val_cons b l : be_val (b :: l) = byte_val b * 256 ^ zlen l + be_val l.
Proof. unfold be_val at 1. simpl. by rewrite foldl_be_shift. Qed.

(** Writing then reading a number of [n] bytes. *)
Lemma be_val_bytes n v : be_val (be_bytes n v) = v mod 256 ^ Z.of_nat n.
Proof.
  induction n as [|n IH]; simpl; [by rewrite Z.mod_1_r|].
  rewrite be_val_cons, IH, byte_val_of, zlen_be_bytes. unfold u8. change (2 ^ 8) with 256.
  rewrite Nat2Z.inj_succ, Z.pow_succ_r by lia.
  set (P := 256 ^ Z.of_nat n). assert (0 < P) by (apply Z.pow_pos_nonneg; lia).
  rewrite (Z.mul_comm 256 P), Z.rem_mul_r by lia. lia.
Qed.


Lemma be_val_bytes_id n v : 0 <= v < 256 ^ Z.of_nat n -> be_val (be_bytes n v) = v.
Proof. intros. rewrite be_val_bytes. by apply Z.mod_small. Qed.

(** The unparser appends the big-endian bytes. *)
Lemma unparse_loop_spec len todo s v :
  (todo <= len)%nat -> unparse_loop len todo s v = s ++ be_bytes todo v.
Proof.
  revert s. induction todo as [|n IH]; intros s Hle; simpl; [by rewrite app_nil_r|].
  rewrite IH, <- app_assoc by lia. simpl. do 2 f_equal.
  change 0xff with (Z.ones 8). rewrite Z.land_ones by lia.
  replace ((Z.of_nat len - Z.of_nat (len - S n) - 1) * 8) with (8 * Z.of_nat n) by lia.
  rewrite Z.shiftr_div_pow2, Z.pow_mul_r by lia. change (2 ^ 8) with 256.
  apply byte_val_inj. rewrite !byte_val_of. unfold u8. change (2 ^ 8) with 256.
  by rewrite Zmod_mod.
Qed.

#[global] Arguments be_bytes : simpl never.

Lemma put_u8_spec s v : put_u8 s v = s ++ be_bytes 1 (u8 v).
Proof. by apply unparse_loop_spec. Qed.
Lemma put_u16_spec s v : put_u16 s v = s ++ be_bytes 2 (u16 v).
Proof. by apply unparse_loop_spec. Qed.
Lemma put_u32_spec s v : put_u32 s v = s ++ be_bytes 4 (u32 v).
Proof. by apply unparse_loop_spec. Qed.

(** ** The parser reads what is at the front of its buffer *)

Definition parser_ok (p : NetParser) : Prop := buffer_ok (np_buffer p).

(** The parser is in good standing in front of the bytes [l]. *)
Definition at_bytes (p : NetParser) (l : list byte) : Prop :=
  parser_ok p ∧ np_error p = NoError ∧ str (np_buffer p) = l.

Lemma new_parser_at s : zlen s < 2 ^ 64 -> at_bytes (new_NetParser (Buffer_of_string s)) s.
Proof. intros. split_and!; [by apply buffer_ok_of_string|done|apply str_of_string]. Qed.

Lemma parse_loop_spec b len l todo acc :
  str b = l -> (Z.of_nat len <= zlen l) -> (todo <= len)%nat ->
  acc = be_val (take (len - todo) l) ->
  parse_loop b len todo acc = Ret (be_val (take len l)).
Proof.
  intros Hb Hl. revert acc. induction todo as [|n IH]; intros acc Hle ->; simpl.
  - by rewrite Nat.sub_0_r.
  - unfold zlen in Hl. unfold at_. rewrite Hb, Nat2Z.id.
    destruct (lookup_lt_is_Some_2 l (len - S n)) as [c Hc]; [lia|]. rewrite Hc. simpl.
    apply IH; [lia|]. replace (len - n)%nat with (S (len - S n)) by lia.
    rewrite (take_S_r _ _ _ Hc), be_val_snoc. rewrite Z.shiftl_mul_pow2 by lia.
    set (t := take (len - S n) l). pose proof (be_val_range t) as Ht.
    assert (zlen t = Z.of_nat (len - S n)) as Htl by (unfold zlen, t; rewrite length_take; lia).
    rewrite Htl in Ht. pose proof (byte_val_range c) as Hcr. unfold is_u8 in Hcr.
    rewrite Z.pow_mul_r by lia. change (2 ^ 8) with 256 in *.
    assert (be_val t * 256 + byte_val c < 256 ^ Z.of_nat len).
    { assert (256 ^ Z.of_nat (len - S n) * 256 <= 256 ^ Z.of_nat len); [|lia].
      rewrite Z.mul_comm, <- Z.pow_succ_r by lia. apply Z.pow_le_mono_r; lia. }
    rewrite (Z.mod_small (be_val t * 256)), Z.mod_small by lia. done.
Qed.

Lemma parse_int_at len p l :
  at_bytes p l -> Z.of_nat len <= zlen l ->
  returns (_parse_int len p) (λ '(v, p'), v = be_val (take len l) ∧ at_bytes p' (drop len l)).
Proof.
  intros (Hok & He & Hs) Hl. unfold _parse_int, _check_size.
  unfold size. rewrite Hs. destruct (Z.ltb_spec (zlen l) (Z.of_nat len)); [lia|].
  unfold error. rewrite He. simpl.
  rewrite (parse_loop_spec _ _ l) by (done || lia || by rewrite Nat.sub_diag). simpl.
  eapply returns_bind; [apply remove_prefix_spec; [done|unfold size; rewrite Hs; lia]|].
  intros b [Hb Hbok]. apply returns_ret. split; [done|].
  split_and!; [done|done|]. simpl. rewrite Hb, Hs. unfold zdrop. by rewrite Nat2Z.id.
Qed.

(** Reading back what the unparser wrote. *)
Lemma parse_int_bytes len p v rest :
  at_bytes p (be_bytes len v ++ rest) -> 0 <= v < 256 ^ Z.of_nat len ->
  returns (_parse_int len p) (λ '(v', p'), v' = v ∧ at_bytes p' rest).
Proof.
  intros Hp Hv. pose proof (zlen_be_bytes len v) as Hl. unfold zlen in Hl.
  eapply returns_mono; [apply (parse_int_at _ _ _ Hp)|].
  - rewrite zlen_app, zlen_be_bytes. pose proof (zlen_nonneg rest). lia.
  - intros [v' p'] [-> Hp']. rewrite take_app_length', be_val_bytes_id by (done || lia).
    split; [done|]. by rewrite drop_app_length' in Hp' by lia.
Qed.

(** Too few bytes: the error is recorded, nothing is consumed, 0 is
    returned. *)
Lemma parse_int_short len p :
  size (np_buffer p) < Z.of_nat len ->
  _parse_int len p = Ret (0, set_error p PacketTooShort).
Proof.
  intros Hl. unfold _parse_int, _check_size.
  by destruct (Z.ltb_spec (size (np_buffer p)) (Z.of_nat len)); [|lia].
Qed.

Lemma parser_remove_prefix_at p l n :
  at_bytes p l -> 0 <= n <= zlen l ->
  returns (parser_remove_prefix n p) (λ '(_, p'), at_bytes p' (zdrop n l)).
Proof.
  intros (Hok & He & Hs) Hn. unfold parser_remove_prefix, _check_size.
  unfold size. rewrite Hs. destruct (Z.ltb_spec (zlen l) n); [lia|].
  unfold error. rewrite He. simpl.
  eapply returns_bind; [apply remove_prefix_spec; [done|unfold size; rewrite Hs; lia]|].
  intros b [Hb Hbok]. apply returns_ret. split_and!; [done|done|]. simpl. by rewrite Hb, Hs.
Qed.

Lemma parse_int_any n p l :
  at_bytes p l -> Z.of_nat n <= zlen l ->
  returns (_parse_int n p) (λ '(v, p'), at_bytes p' (drop n l) ∧ 0 <= v < 256 ^ Z.of_nat n).
Proof.
  intros Hp Hl. eapply returns_mono; [by apply parse_int_at|]. intros [v p'] [-> Hp']. split; [done|].
  pose proof (be_val_range (take n l)) as Hr.
  assert (zlen (take n l) = Z.of_nat n) as Ht by (unfold zlen in *; rewrite length_take; lia). by rewrite Ht in Hr.
Qed.

(** On any well-formed buffer the parser runs to the end, whether or not the
    bytes suffice. *)
Lemma parse_int_safe n p :
  parser_ok p -> returns (_parse_int n p) (λ '(v, p'), parser_ok p' ∧ 0 <= v < 256 ^ Z.of_nat n).
Proof.
  intros Hok. assert (0 < 256 ^ Z.of_nat n) by (apply Z.pow_pos_nonneg; lia).
  unfold _parse_int, _check_size, error. destruct (Z.ltb_spec (size (np_buffer p)) (Z.of_nat n)) as [|Hn].
  { apply returns_ret. cbn. split; [done|lia]. }
  case_bool_decide as He; cbn [negb]; [|apply returns_ret; split; [done|lia]].
  eapply returns_bind; [exact (ex_intro _ _ (conj (parse_loop_spec _ n _ n 0 eq_refl Hn ltac:(lia)
    ltac:(by rewrite Nat.sub_diag)) eq_refl))|]. intros v <-.
  eapply returns_bind; [apply remove_prefix_spec; [done|lia]|]. intros b [_ Hb]. apply returns_ret. split; [done|].
  pose proof (be_val_range (take n (str (np_buffer p)))) as Hr.
  assert (zlen (take n (str (np_buffer p))) = Z.of_nat n) as Ht by (unfold size, zlen in *; rewrite length_take; lia).
  by rewrite Ht in Hr.
Qed.

Lemma parser_remove_prefix_safe n p :
  parser_ok p -> 0 <= n -> returns (parser_remove_prefix n p) (λ '(_, p'), parser_ok p').
Proof.
  intros Hok Hn. unfold parser_remove_prefix, _check_size, error.
  destruct (Z.ltb_spec (size (np_buffer p)) n); [by apply returns_ret|].
  case_bool_decide; cbn [negb]; [|by apply returns_ret].
  eapply returns_bind; [apply remove_prefix_spec; [done|lia]|]. intros b [_ Hb]. by apply returns_ret.
Qed.

Lemma parser_bind_returns {A B} (m : parserM A) (k : A -> parserM B) p P Q :
  returns (m p) (λ '(a, p'), P a p') -> (∀ a p', P a p' -> returns (k a p') Q) ->
  returns ((m ≫= k) p) Q.
Proof.
  intros ([a p'] & Hm & HP) HQ. unfold mbind, parserM_bind. rewrite Hm. by apply HQ.
Qed.

(** One field written by the unparser is read back. *)
Ltac parse_field Hp :=
  eapply parser_bind_returns;
  [eapply parse_int_bytes; [rewrite <- ?app_assoc in Hp; exact Hp|unfold_uint; lia]|];
  let v := fresh "v" in let p' := fresh "p" in
  clear Hp; cbv beta; intros v p' [-> Hp].

(** The array of names has no entry for [Unsupported]: [as_string] reads
    past its end on that value, and only on it. *)
Theorem as_string_out_of_bounds r :
  (as_string r = Undef <-> r = Unsupported) ∧
  (r ≠ Unsupported -> ∃ s, as_string r = Ret s).
Proof. destruct r; vm_compute; split; try split; try congruence; intros; eexists; reflexivity. Qed.
