(* ===== verification/Checksum.v ===== *)
(** [util/util.hh], [util/util.cc]: the Internet checksum. *)
From S2P Require Import Prelude Parser.

Record InternetChecksum := mkChecksum {
  ck_sum : Z;
  ck_parity : bool
}.

Definition new_InternetChecksum (initial_sum : Z) : InternetChecksum := mkChecksum initial_sum false.

(** One iteration of the loop of [add]. *)
Definition add_byte (c : InternetChecksum) (b : byte) : InternetChecksum :=
  let val := byte_val b in
  let val := if negb (ck_parity c) then u16 (Z.shiftl val 8) else val in
  mkChecksum (u32 (ck_sum c + val)) (negb (ck_parity c)).

Definition add (c : InternetChecksum) (data : list byte) : InternetChecksum := foldl add_byte c data.

(** The folding loop of [value]; two rounds are always enough
    ([fold_loop_fuel]), the third confirms that the condition is false. *)
Fixpoint fold_loop (fuel : nat) (ret : Z) : outcome Z :=
  match fuel with
  | O => Diverge
  | S fuel' =>
      if 0xffff <? ret then fold_loop fuel' (u32 (Z.shiftr ret 16 + Z.land ret 0xffff))
      else Ret ret
  end.

Definition value (c : InternetChecksum) : outcome Z :=
  ret ← fold_loop 3 (ck_sum c); Ret (u16 (Z.lnot ret)).

#[global] Arguments add : simpl never.
#[global] Arguments value : simpl never.

(** ** The sum of 16-bit words *)

(** The exact sum [add] accumulates, starting at the given parity. *)
Fixpoint word_sum (parity : bool) (l : list byte) : Z :=
  match l with
  | [] => 0
  | b :: l' => (if parity then byte_val b else 256 * byte_val b) + word_sum (negb parity) l'
  end.

Lemma word_sum_range parity l : 0 <= word_sum parity l <= 65280 * zlen l.
Proof.
  revert parity. induction l as [|b l IH]; intros parity; simpl; [rewrite (@zlen_nil byte); lia|].
  rewrite zlen_cons. specialize (IH (negb parity)).
  pose proof (byte_val_range b) as Hb. unfold is_u8 in Hb. destruct parity; lia.
Qed.

Lemma word_sum_app parity l k :
  word_sum parity (l ++ k) = word_sum parity l + word_sum (xorb parity (Z.odd (zlen l))) k.
Proof.
  revert parity. induction l as [|b l IH]; intros parity; cbn [word_sum app].
  - change (Z.odd (zlen [])) with false. by rewrite xorb_false_r.
  - rewrite IH, zlen_cons, Z.odd_add. change (Z.odd 1) with true.
    replace (xorb (negb parity) (Z.odd (zlen l))) with (xorb parity (xorb true (Z.odd (zlen l))))
      by (by destruct parity, (Z.odd (zlen l))).
    destruct parity; lia.
Qed.

(** A 16-bit field at an even offset contributes its value. *)
Lemma word_sum_u16 v : is_u16 v -> word_sum false (be_bytes 2 v) = v.
Proof.
  intros Hv. unfold be_bytes. cbn [word_sum negb]. rewrite !byte_val_of. unfold u8, is_u16 in *.
  change (256 ^ Z.of_nat 1) with 256. change (256 ^ Z.of_nat 0) with 1. rewrite Z.div_1_r.
  uint_lia.
Qed.

Lemma add_spec c l :
  is_u32 (ck_sum c) ->
  add c l = mkChecksum (u32 (ck_sum c + word_sum (ck_parity c) l)) (xorb (ck_parity c) (Z.odd (zlen l))).
Proof.
  unfold add. revert c. induction l as [|b l IH]; intros c Hc; cbn [word_sum foldl].
  - rewrite Z.add_0_r, u32_id by done. by destruct c as [s []].
  - rewrite IH by (unfold add_byte; simpl; auto with uint). unfold add_byte. cbn [ck_sum ck_parity].
    pose proof (byte_val_range b) as Hb. unfold is_u8 in Hb.
    rewrite zlen_cons, Z.odd_add. change (Z.odd 1) with true. f_equal.
    + rewrite Z.shiftl_mul_pow2 by lia. change (2 ^ 8) with 256.
      rewrite (u16_id (byte_val b * 256)) by (unfold is_u16; lia).
      unfold u32. rewrite Zplus_mod_idemp_l. f_equal. destruct (ck_parity c); simpl; lia.
    + by destruct (ck_parity c), (Z.odd (zlen l)).
Qed.

(** ** [value]: the complement of the end-around-carry sum *)

(** The 16-bit ones'-complement representative of a sum: [0] only for [0]. *)
Definition ones_fold (s : Z) : Z := if s =? 0 then 0 else (s - 1) mod 65535 + 1.

Lemma fold_step s :
  is_u32 s -> 65535 < s ->
  let s' := u32 (Z.shiftr s 16 + Z.land s 0xffff) in
  s' = s - 65535 * (s / 65536) ∧ 0 < s' < s ∧ is_u32 s' ∧ s' <= 131070 ∧ ones_fold s' = ones_fold s.
Proof.
  intros Hs Hlt s'.
  assert (s' = s - 65535 * (s / 65536)) as Heq.
  { subst s'. rewrite (Z.land_ones s 16 ltac:(lia) : Z.land s 0xffff = _).
    rewrite Z.shiftr_div_pow2 by lia. change (2 ^ 16) with 65536. uint_lia. }
  assert (0 < s' < s) as Hpos by (unfold is_u32 in Hs; rewrite Heq; Z.to_euclidean_division_equations; lia).
  split_and!; [done|lia|lia|unfold is_u32 in *; lia| |].
  - rewrite Heq. unfold is_u32 in Hs. Z.to_euclidean_division_equations; lia.
  - unfold ones_fold. destruct (Z.eqb_spec s' 0), (Z.eqb_spec s 0); try lia. f_equal.
    rewrite Heq. replace (s - 65535 * (s / 65536) - 1) with (s - 1 + (- (s / 65536)) * 65535) by lia.
    apply Z_mod_plus_full.
Qed.

Lemma ones_fold_small s : 0 <= s <= 65535 -> ones_fold s = s.
Proof.
  intros. unfold ones_fold. destruct (Z.eqb_spec s 0); [lia|]. rewrite Z.mod_small; lia.
Qed.

Lemma fold_loop_fuel s : is_u32 s -> fold_loop 3 s = Ret (ones_fold s).
Proof.
  intros Hs. assert (∀ n t, is_u32 t -> t <= 65535 -> fold_loop (S n) t = Ret (ones_fold t)) as Hdone.
  { intros n t Ht Hle. cbn [fold_loop]. destruct (Z.ltb_spec 65535 t); [lia|].
    by rewrite ones_fold_small by (unfold is_u32 in *; lia). }
  destruct (Z.le_gt_cases s 65535); [by apply Hdone|].
  destruct (fold_step s Hs ltac:(lia)) as (H1 & H2 & H3 & H4 & H5).
  cbn [fold_loop]. destruct (Z.ltb_spec 65535 s); [|lia].
  set (t := u32 (Z.shiftr s 16 + Z.land s 65535)) in *. rewrite <- H5.
  destruct (Z.ltb_spec 65535 t).
  - destruct (fold_step t H3 ltac:(lia)) as (G1 & G2 & G3 & G4 & G5).
    set (v := u32 (Z.shiftr t 16 + Z.land t 65535)) in *. rewrite <- G5.
    assert (v <= 65535) by (rewrite G1; Z.to_euclidean_division_equations; lia).
    destruct (Z.ltb_spec 65535 v); [lia|]. by rewrite ones_fold_small by lia.
  - by rewrite ones_fold_small by (unfold is_u32 in *; lia).
Qed.

Lemma ones_fold_range s : 0 <= s -> 0 <= ones_fold s <= 65535.
Proof.
  intros. unfold ones_fold. destruct (Z.eqb_spec s 0); [lia|].
  pose proof (Z.mod_pos_bound (s - 1) 65535). lia.
Qed.

Lemma value_sum s p : is_u32 s -> value (mkChecksum s p) = Ret (65535 - ones_fold s).
Proof.
  intros Hs. unfold value. simpl ck_sum. rewrite (fold_loop_fuel _ Hs). simpl.
  pose proof (ones_fold_range s ltac:(unfold is_u32 in *; lia)).
  do 2 f_equal. unfold Z.lnot. rewrite <- Z.sub_1_r. uint_lia.
Qed.

(** Even where the 32-bit sum wraps around, [value] returns. *)
Lemma value_returns initial data : is_u32 initial -> ∃ v, value (add (new_InternetChecksum initial) data) = Ret v.
Proof. intros Hi. rewrite add_spec by done. eexists. apply value_sum, u32_range. Qed.

Lemma value_add initial data :
  is_u32 initial -> initial + word_sum false data < 2 ^ 32 ->
  value (add (new_InternetChecksum initial) data) = Ret (65535 - ones_fold (initial + word_sum false data)).
Proof.
  intros Hi Hs. pose proof (word_sum_range false data).
  rewrite add_spec by done. simpl ck_sum. simpl ck_parity.
  rewrite u32_id by (unfold is_u32 in *; lia). apply value_sum. unfold is_u32 in *. lia.
Qed.

(** C19: [value] terminates on every accumulated sum, and is the complement of
    the 16-bit ones'-complement sum of the words added. *)
Theorem checksum_value initial data :
  is_u32 initial -> initial + word_sum false data < 2 ^ 32 ->
  value (add (new_InternetChecksum initial) data) = Ret (65535 - ones_fold (initial + word_sum false data)) ∧
  (ones_fold (initial + word_sum false data) - (initial + word_sum false data)) mod 65535 = 0.
Proof.
  intros Hi Hs. split; [by apply value_add|]. pose proof (word_sum_range false data). unfold is_u32 in Hi.
  unfold ones_fold. destruct (Z.eqb_spec (initial + word_sum false data) 0) as [->|]; [done|].
  set (x := initial + word_sum false data) in *. pose proof (Z.div_mod (x - 1) 65535 ltac:(lia)).
  replace ((x - 1) mod 65535 + 1 - x) with (- ((x - 1) / 65535) * 65535) by lia. by apply Z.mod_mul.
Qed.

Lemma checksum_value_witness :
  value (add (new_InternetChecksum 5) [xff; xff; x01]) =
    Ret (65535 - ones_fold (5 + word_sum false [xff; xff; x01])) ∧
  (ones_fold (5 + word_sum false [xff; xff; x01]) - (5 + word_sum false [xff; xff; x01])) mod 65535 = 0.
Proof.
  apply (checksum_value 5 [xff; xff; x01]); [unfold is_u32; lia|vm_compute; reflexivity].
Defined.

Lemma even_odd_4 n : Z.odd (4 * n) = false.
Proof. rewrite Z.odd_mul. done. Qed.

(** Adding to a sum the checksum computed over it gives a sum that checks. *)
Lemma ones_fold_complement s : 0 <= s -> ones_fold (s + (65535 - ones_fold s)) = 65535.
Proof.
  intros Hs. pose proof (ones_fold_range s Hs).
  destruct (Z.eq_dec s 0) as [->|Hne]; [done|].
  unfold ones_fold at 1. destruct (Z.eqb_spec (s + (65535 - ones_fold s)) 0); [lia|].
  unfold ones_fold. destruct (Z.eqb_spec s 0); [lia|].
  Z.to_euclidean_division_equations. lia.
Qed.

Lemma value_checks s p :
  is_u32 (s + (65535 - ones_fold s)) -> 0 <= s ->
  value (mkChecksum (s + (65535 - ones_fold s)) p) = Ret 0.
Proof. intros. by rewrite value_sum, ones_fold_complement by done. Qed.
