(* ===== verification/TCPSegment.v ===== *)
(** [tcp_helpers/tcp_header.hh|cc], [tcp_helpers/tcp_segment.hh|cc]: TCP
    headers and segments, their wire format and checksum. *)
From S2P Require Import Prelude Buffer WrappingIntegers Parser Checksum.

(** ** TCPHeader *)

Definition LENGTH : Z := 20.

Record TCPHeader := mkTCPHeader {
  sport : Z;
  dport : Z;
  seqno : WrappingInt32;
  ackno : WrappingInt32;
  doff : Z;
  urg : bool;
  ack : bool;
  psh : bool;
  rst : bool;
  syn : bool;
  fin : bool;
  win : Z;
  cksum : Z;
  uptr : Z
}.

Definition default_header : TCPHeader :=
  mkTCPHeader 0 0 (mkWrap 0) (mkWrap 0) (LENGTH / 4) false false false false false false 0 0 0.

(** Assignments to one field. *)
Definition set_ports (s d : Z) (h : TCPHeader) : TCPHeader :=
  mkTCPHeader s d (seqno h) (ackno h) (doff h) (urg h) (ack h) (psh h) (rst h) (syn h) (fin h)
    (win h) (cksum h) (uptr h).
Definition set_seqno (x : WrappingInt32) (h : TCPHeader) : TCPHeader :=
  mkTCPHeader (sport h) (dport h) x (ackno h) (doff h) (urg h) (ack h) (psh h) (rst h) (syn h) (fin h)
    (win h) (cksum h) (uptr h).
Definition set_ackno (x : WrappingInt32) (h : TCPHeader) : TCPHeader :=
  mkTCPHeader (sport h) (dport h) (seqno h) x (doff h) (urg h) (ack h) (psh h) (rst h) (syn h) (fin h)
    (win h) (cksum h) (uptr h).
Definition set_ack (x : bool) (h : TCPHeader) : TCPHeader :=
  mkTCPHeader (sport h) (dport h) (seqno h) (ackno h) (doff h) (urg h) x (psh h) (rst h) (syn h) (fin h)
    (win h) (cksum h) (uptr h).
Definition set_rst (x : bool) (h : TCPHeader) : TCPHeader :=
  mkTCPHeader (sport h) (dport h) (seqno h) (ackno h) (doff h) (urg h) (ack h) (psh h) x (syn h) (fin h)
    (win h) (cksum h) (uptr h).
Definition set_syn (x : bool) (h : TCPHeader) : TCPHeader :=
  mkTCPHeader (sport h) (dport h) (seqno h) (ackno h) (doff h) (urg h) (ack h) (psh h) (rst h) x (fin h)
    (win h) (cksum h) (uptr h).
Definition set_fin (x : bool) (h : TCPHeader) : TCPHeader :=
  mkTCPHeader (sport h) (dport h) (seqno h) (ackno h) (doff h) (urg h) (ack h) (psh h) (rst h) (syn h) x
    (win h) (cksum h) (uptr h).
Definition set_win (x : Z) (h : TCPHeader) : TCPHeader :=
  mkTCPHeader (sport h) (dport h) (seqno h) (ackno h) (doff h) (urg h) (ack h) (psh h) (rst h) (syn h) (fin h)
    x (cksum h) (uptr h).
Definition set_cksum (x : Z) (h : TCPHeader) : TCPHeader :=
  mkTCPHeader (sport h) (dport h) (seqno h) (ackno h) (doff h) (urg h) (ack h) (psh h) (rst h) (syn h) (fin h)
    (win h) x (uptr h).

(** Every field is assigned before the first return. *)
Definition header_parse : parserM (TCPHeader * ParseResult) :=
  f_sport ← get_u16;
  f_dport ← get_u16;
  f_seqno ← get_u32;
  f_ackno ← get_u32;
  f_doff8 ← get_u8;
  let f_doff := Z.shiftr f_doff8 4 in
  fl_b ← get_u8;
  f_win ← get_u16;
  f_cksum ← get_u16;
  f_uptr ← get_u16;
  let h := mkTCPHeader f_sport f_dport (mkWrap f_seqno) (mkWrap f_ackno) f_doff
    (flag fl_b 32) (flag fl_b 16) (flag fl_b 8) (flag fl_b 4) (flag fl_b 2) (flag fl_b 1)
    f_win f_cksum f_uptr in
  if f_doff <? 5 then mret (h, HeaderTooShort)
  else
    _ ← parser_remove_prefix (f_doff * 4 - LENGTH);
    ((λ p, if error p then Ret ((h, get_error p), p) else Ret ((h, NoError), p))
       : parserM (TCPHeader * ParseResult)).

Definition flag_byte (h : TCPHeader) : Z :=
  Z.lor (Z.lor (Z.lor (Z.lor (Z.lor (if urg h then 32 else 0) (if ack h then 16 else 0))
    (if psh h then 8 else 0)) (if rst h then 4 else 0)) (if syn h then 2 else 0)) (if fin h then 1 else 0).

Definition header_serialize (h : TCPHeader) : outcome (list byte) :=
  if doff h <? 5 then Throw (runtime_error "TCP header too short")
  else
    let ret := [] in
    let ret := put_u16 ret (sport h) in
    let ret := put_u16 ret (dport h) in
    let ret := put_u32 ret (raw_value (seqno h)) in
    let ret := put_u32 ret (raw_value (ackno h)) in
    let ret := put_u8 ret (Z.shiftl (doff h) 4) in
    let ret := put_u8 ret (flag_byte h) in
    let ret := put_u16 ret (win h) in
    let ret := put_u16 ret (cksum h) in
    let ret := put_u16 ret (uptr h) in
    Ret (resize ret (4 * doff h)).

(** [operator==]: ports and checksum are not compared. *)
Definition header_eqb (h other : TCPHeader) : bool :=
  wint_eqb (seqno h) (seqno other) && wint_eqb (ackno h) (ackno other) &&
  (doff h =? doff other) && Bool.eqb (urg h) (urg other) && Bool.eqb (ack h) (ack other) &&
  Bool.eqb (psh h) (psh other) && Bool.eqb (rst h) (rst other) && Bool.eqb (syn h) (syn other) &&
  Bool.eqb (fin h) (fin other) && (win h =? win other) && (uptr h =? uptr other).

(** ** TCPSegment *)

Record TCPSegment := mkTCPSegment {
  header : TCPHeader;
  payload : Buffer
}.

Definition default_segment : TCPSegment := mkTCPSegment default_header Buffer_default.

(** Updates through the reference returned by [header()]. *)
Definition on_header (f : TCPHeader -> TCPHeader) (seg : TCPSegment) : TCPSegment :=
  mkTCPSegment (f (header seg)) (payload seg).
Definition set_payload (b : Buffer) (seg : TCPSegment) : TCPSegment := mkTCPSegment (header seg) b.

Definition length_in_sequence_space (seg : TCPSegment) : Z :=
  zlen (str (payload seg)) + (if syn (header seg) then 1 else 0) + (if fin (header seg) then 1 else 0).

(** The result of [_header.parse(p)] is discarded by the source. *)
Definition segment_parse (seg : TCPSegment) (buffer : Buffer) (datagram_layer_checksum : Z)
    : outcome (TCPSegment * ParseResult) :=
  v ← value (add (new_InternetChecksum datagram_layer_checksum) (str buffer));
  if negb (v =? 0) then Ret (seg, BadChecksum)
  else
    '((h, _), p) ← header_parse (new_NetParser buffer);
    Ret (mkTCPSegment h (np_buffer p), get_error p).

Definition segment_serialize (seg : TCPSegment) (datagram_layer_checksum : Z) : outcome BufferList :=
  let header_out := set_cksum 0 (header seg) in
  s0 ← header_serialize header_out;
  let check := add (add (new_InternetChecksum datagram_layer_checksum) s0) (str (payload seg)) in
  c ← value check;
  s1 ← header_serialize (set_cksum c header_out);
  Ret (append [Buffer_of_string s1] [payload seg]).

#[global] Arguments header_parse : simpl never.
#[global] Arguments header_serialize : simpl never.
#[global] Arguments segment_parse : simpl never.
#[global] Arguments segment_serialize : simpl never.

(** ** Wire format *)

(** The fields fit their types and the header length its four bits. *)
Record header_ok (h : TCPHeader) : Prop := {
  hok_sport : is_u16 (sport h);
  hok_dport : is_u16 (dport h);
  hok_seqno : is_u32 (raw_value (seqno h));
  hok_ackno : is_u32 (raw_value (ackno h));
  hok_doff : 5 <= doff h <= 15;
  hok_win : is_u16 (win h);
  hok_cksum : is_u16 (cksum h);
  hok_uptr : is_u16 (uptr h)
}.

Lemma default_header_ok : header_ok default_header.
Proof. split; unfold is_u16, is_u32; vm_compute; by split. Qed.
Lemma set_seqno_ok x h : wint_ok x -> header_ok h -> header_ok (set_seqno x h).
Proof. by intros ? []; split. Qed.
Lemma set_ackno_ok x h : wint_ok x -> header_ok h -> header_ok (set_ackno x h).
Proof. by intros ? []; split. Qed.
Lemma set_win_ok x h : is_u16 x -> header_ok h -> header_ok (set_win x h).
Proof. by intros ? []; split. Qed.
Lemma set_ack_ok x h : header_ok h -> header_ok (set_ack x h).
Proof. by intros []; split. Qed.
Lemma set_rst_ok x h : header_ok h -> header_ok (set_rst x h).
Proof. by intros []; split. Qed.
Lemma set_syn_ok x h : header_ok h -> header_ok (set_syn x h).
Proof. by intros []; split. Qed.
Lemma set_fin_ok x h : header_ok h -> header_ok (set_fin x h).
Proof. by intros []; split. Qed.

Create HintDb header.
#[export] Hint Resolve default_header_ok set_seqno_ok set_ackno_ok set_win_ok set_ack_ok set_rst_ok set_syn_ok set_fin_ok wrap_ok : header.

(** The bytes before the checksum field, and those after it. *)
Definition header_front (h : TCPHeader) : list byte :=
  be_bytes 2 (sport h) ++ be_bytes 2 (dport h) ++ be_bytes 4 (raw_value (seqno h)) ++
  be_bytes 4 (raw_value (ackno h)) ++ be_bytes 1 (doff h * 16) ++ be_bytes 1 (flag_byte h) ++
  be_bytes 2 (win h).
Definition header_back (h : TCPHeader) : list byte :=
  be_bytes 2 (uptr h) ++ replicate (Z.to_nat (4 * doff h - 20)) x00.
Definition header_bytes (h : TCPHeader) : list byte :=
  header_front h ++ be_bytes 2 (cksum h) ++ header_back h.

#[global] Arguments header_bytes : simpl never.
#[global] Arguments word_sum : simpl never.

Lemma flag_byte_range h : 0 <= flag_byte h < 64.
Proof.
  unfold flag_byte. destruct (urg h), (ack h), (psh h), (rst h), (syn h), (fin h); vm_compute; split; congruence.
Qed.

Lemma zlen_header_front h : zlen (header_front h) = 16.
Proof. unfold header_front. by rewrite !zlen_app, !zlen_be_bytes. Qed.

Lemma zlen_header_bytes h : 5 <= doff h -> zlen (header_bytes h) = 4 * doff h.
Proof.
  intros. unfold header_bytes, header_back.
  rewrite !zlen_app, zlen_header_front, !zlen_be_bytes, zlen_replicate. lia.
Qed.

Lemma header_serialize_spec h : header_ok h -> header_serialize h = Ret (header_bytes h).
Proof.
  intros [H1 H2 H3 H4 H5 H6 H7 H8]. unfold header_serialize.
  destruct (Z.ltb_spec (doff h) 5); [lia|]. cbv zeta.
  rewrite !put_u16_spec, !put_u32_spec, !put_u8_spec, Z.shiftl_mul_pow2 by lia.
  change (2 ^ 4) with 16. pose proof (flag_byte_range h).
  rewrite !u16_id, !u32_id, (u8_id (doff h * 16)), (u8_id (flag_byte h)) by (done || unfold is_u8; lia).
  unfold resize. rewrite !app_nil_l.
  set (l := be_bytes 2 (sport h)). rewrite !zlen_app. subst l. rewrite !zlen_be_bytes.
  rewrite ztake_ge by (rewrite !zlen_app, !zlen_be_bytes; lia).
  unfold header_bytes, header_front, header_back. rewrite <- !app_assoc. do 10 f_equal.
Qed.

Lemma flag_byte_flags h :
  flag (flag_byte h) 32 = urg h ∧ flag (flag_byte h) 16 = ack h ∧ flag (flag_byte h) 8 = psh h ∧
  flag (flag_byte h) 4 = rst h ∧ flag (flag_byte h) 2 = syn h ∧ flag (flag_byte h) 1 = fin h.
Proof.
  unfold flag_byte. destruct (urg h), (ack h), (psh h), (rst h), (syn h), (fin h); by vm_compute.
Qed.

Lemma header_parse_bytes h p rest :
  header_ok h -> at_bytes p (header_bytes h ++ rest) ->
  returns (header_parse p) (λ '(r, p'), r = (h, NoError) ∧ at_bytes p' rest).
Proof.
  intros [H1 H2 H3 H4 H5 H6 H7 H8] Hp. pose proof (flag_byte_range h).
  unfold header_parse, get_u16, get_u32, get_u8, header_bytes, header_front, header_back in *.
  do 9 parse_field Hp.
  rewrite Z.shiftr_div_pow2 by lia. change (2 ^ 4) with 16. rewrite Z.div_mul by lia.
  destruct (Z.ltb_spec (doff h) 5); [lia|].
  eapply parser_bind_returns; [eapply parser_remove_prefix_at; [exact Hp|]|].
  { rewrite zlen_app, zlen_replicate. unfold LENGTH. pose proof (zlen_nonneg rest). lia. }
  intros u q Hq. cbv beta in Hq.
  rewrite zdrop_app_ge, zlen_replicate in Hq by (rewrite zlen_replicate; unfold LENGTH; lia).
  rewrite zdrop_le_0 in Hq by (unfold LENGTH; lia).
  pose proof Hq as (_ & He & _). unfold error. rewrite He. simpl. apply returns_ret.
  split; [|done]. destruct (flag_byte_flags h) as (-> & -> & -> & -> & -> & ->).
  by destruct h as [? ? [] [] ? ? ? ? ? ? ? ? ? ?].
Qed.

(** A TCP header survives the wire: parsing what [serialize] produced,
    followed by any payload, gives back every field and leaves exactly the
    payload. *)
Theorem tcp_header_roundtrip h rest :
  header_ok h -> zlen rest < 2 ^ 63 ->
  ∃ s p, header_serialize h = Ret s ∧ zlen s = 4 * doff h ∧
    header_parse (new_NetParser (Buffer_of_string (s ++ rest))) = Ret ((h, NoError), p) ∧
    str (np_buffer p) = rest.
Proof.
  intros Hh Hr. exists (header_bytes h). pose proof (hok_doff _ Hh).
  destruct (header_parse_bytes h (new_NetParser (Buffer_of_string (header_bytes h ++ rest))) rest Hh)
    as ([r p] & Hp & -> & _ & _ & Hs).
  { apply new_parser_at. rewrite zlen_app, zlen_header_bytes by lia. lia. }
  exists p. split_and!; [by apply header_serialize_spec|apply zlen_header_bytes; lia|done|done].
Qed.

Definition sample_header : TCPHeader :=
  mkTCPHeader 80 4660 (mkWrap 4294967295) (mkWrap 7) 6 false true false false true false 1000 0 3.

Lemma sample_header_ok : header_ok sample_header.
Proof. split; unfold is_u16, is_u32; simpl; lia. Qed.

Lemma tcp_header_roundtrip_witness :
  ∃ s p, header_serialize sample_header = Ret s ∧ zlen s = 4 * doff sample_header ∧
    header_parse (new_NetParser (Buffer_of_string (s ++ [x01; x02]))) = Ret ((sample_header, NoError), p) ∧
    str (np_buffer p) = [x01; x02].
Proof.
  apply (tcp_header_roundtrip sample_header [x01; x02] sample_header_ok). vm_compute. reflexivity.
Defined.

(** Errors of [serialize]: a header whose length field is below the
    minimum is refused. *)
Lemma header_serialize_short h :
  doff h < 5 -> header_serialize h = Throw (runtime_error "TCP header too short").
Proof. intros. unfold header_serialize. by destruct (Z.ltb_spec (doff h) 5); [|lia]. Qed.

(** ** Checksum of a segment *)

(** The sum over a header is the sum without the checksum plus the
    checksum. *)
Lemma word_sum_header h c :
  5 <= doff h -> is_u16 c ->
  word_sum false (header_bytes (set_cksum c h)) = word_sum false (header_bytes (set_cksum 0 h)) + c.
Proof.
  intros Hd Hc. unfold header_bytes.
  change (header_front (set_cksum c h)) with (header_front h).
  change (header_front (set_cksum 0 h)) with (header_front h).
  change (header_back (set_cksum c h)) with (header_back h).
  change (header_back (set_cksum 0 h)) with (header_back h).
  rewrite !word_sum_app, zlen_header_front, !zlen_be_bytes. simpl xorb. change (Z.odd 16) with false.
  change (Z.odd (Z.of_nat 2)) with false. cbn [xorb].
  simpl cksum. rewrite word_sum_u16, word_sum_u16 by (done || unfold is_u16; lia). lia.
Qed.

Lemma header_ok_cksum h c : header_ok h -> is_u16 c -> header_ok (set_cksum c h).
Proof. intros [] ?. by split. Qed.

Lemma set_cksum_twice c d h : set_cksum c (set_cksum d h) = set_cksum c h.
Proof. done. Qed.

(** The pieces of [segment_serialize] when no 32-bit sum overflows. *)
Definition segment_sum (seg : TCPSegment) (dlc : Z) : Z :=
  dlc + word_sum false (header_bytes (set_cksum 0 (header seg))) + word_sum false (str (payload seg)).

Lemma segment_sum_pos seg dlc : is_u32 dlc -> 0 <= segment_sum seg dlc.
Proof.
  intros Hd. unfold segment_sum, is_u32 in *.
  pose proof (word_sum_range false (header_bytes (set_cksum 0 (header seg)))).
  pose proof (word_sum_range false (str (payload seg))). lia.
Qed.

Lemma segment_serialize_spec seg dlc :
  header_ok (header seg) -> is_u32 dlc -> segment_sum seg dlc < 2 ^ 32 - 2 ^ 16 ->
  let c := 65535 - ones_fold (segment_sum seg dlc) in
  segment_serialize seg dlc =
    Ret [Buffer_of_string (header_bytes (set_cksum c (header seg))); payload seg] ∧ is_u16 c.
Proof.
  intros Hh Hd Hs c. pose proof (segment_sum_pos seg dlc Hd) as Hpos.
  pose proof (ones_fold_range (segment_sum seg dlc) Hpos) as Hf. pose proof (hok_doff _ Hh).
  assert (is_u16 c) as Hc by (subst c; unfold is_u16; lia). split; [|done].
  unfold segment_serialize. rewrite header_serialize_spec by (apply header_ok_cksum; [done|unfold is_u16; lia]).
  simpl. rewrite add_spec by (rewrite add_spec by exact Hd; simpl; auto with uint).
  rewrite add_spec by exact Hd. cbn [ck_sum ck_parity new_InternetChecksum].
  rewrite zlen_header_bytes by (simpl; lia). rewrite even_odd_4. cbn [xorb].
  pose proof (word_sum_range false (str (payload seg))).
  pose proof (word_sum_range false (header_bytes (set_cksum 0 (header seg)))).
  unfold segment_sum, is_u32 in *. rewrite (u32_id (dlc + _)), u32_id by (unfold is_u32; lia).
  rewrite value_sum by (unfold is_u32; lia). simpl.
  rewrite set_cksum_twice, header_serialize_spec by by apply header_ok_cksum. done.
Qed.

Lemma segment_parse_bytes seg0 b h pl dlc :
  header_ok h -> is_u32 dlc -> at_bytes (new_NetParser b) (header_bytes h ++ pl) ->
  dlc + word_sum false (header_bytes h ++ pl) < 2 ^ 32 ->
  ones_fold (dlc + word_sum false (header_bytes h ++ pl)) = 65535 ->
  returns (segment_parse seg0 b dlc) (λ '(seg, res), res = NoError ∧ header seg = h ∧ str (payload seg) = pl).
Proof.
  intros Hh Hd Hat Hlt Hck. unfold segment_parse. pose proof Hat as (_ & _ & Hb). cbn [np_buffer new_NetParser] in Hb. rewrite Hb.
  rewrite value_add by done. rewrite Hck. change (65535 - 65535) with 0.
  unfold mbind, outcome_bind. change (negb (0 =? 0)) with false. cbv iota.
  destruct (header_parse_bytes h (new_NetParser b) pl Hh Hat) as ([r p] & Hp & -> & _ & He & Hs).
  rewrite Hp. cbv iota beta. apply returns_ret. by split_and!.
Qed.

(** What the wire carries: the serialized bytes, and what parsing a buffer
    that holds them gives. *)
Lemma segment_wire seg dlc :
  header_ok (header seg) -> is_u32 dlc -> segment_sum seg dlc < 2 ^ 32 - 2 ^ 16 ->
  ∃ c, is_u16 c ∧
    segment_serialize seg dlc = Ret [Buffer_of_string (header_bytes (set_cksum c (header seg))); payload seg] ∧
    ∀ seg0 b, at_bytes (new_NetParser b) (header_bytes (set_cksum c (header seg)) ++ str (payload seg)) ->
      returns (segment_parse seg0 b dlc) (λ '(seg', res),
        res = NoError ∧ header seg' = set_cksum c (header seg) ∧ str (payload seg') = str (payload seg)).
Proof.
  intros Hh Hd Hs. destruct (segment_serialize_spec seg dlc Hh Hd Hs) as [Hser Hc].
  set (c := 65535 - ones_fold (segment_sum seg dlc)) in *. pose proof (hok_doff _ Hh).
  pose proof (segment_sum_pos seg dlc Hd) as Hpos. exists c. split_and!; [done|exact Hser|].
  assert (dlc + word_sum false (header_bytes (set_cksum c (header seg)) ++ str (payload seg))
          = segment_sum seg dlc + c) as Hsum.
  { rewrite word_sum_app, zlen_header_bytes, even_odd_4, word_sum_header by (simpl; lia || done).
    unfold segment_sum. cbn [xorb]. lia. }
  intros seg0 b Hb. apply segment_parse_bytes; [by apply header_ok_cksum|done|done|..]; rewrite Hsum.
  - unfold is_u16 in Hc. lia.
  - by apply ones_fold_complement.
Qed.

(** C18: A segment survives the wire: parsing the serialized segment with the
    same pseudo-header checksum succeeds and gives back the header (with the
    checksum filled in) and the payload. *)
Theorem tcp_segment_roundtrip seg0 seg dlc :
  header_ok (header seg) -> is_u32 dlc -> segment_sum seg dlc < 2 ^ 32 - 2 ^ 16 ->
  zlen (str (payload seg)) < 2 ^ 63 ->
  ∃ bl seg' c, segment_serialize seg dlc = Ret bl ∧
    segment_parse seg0 (Buffer_of_string (concatenate bl)) dlc = Ret (seg', NoError) ∧
    header seg' = set_cksum c (header seg) ∧ str (payload seg') = str (payload seg).
Proof.
  intros Hh Hd Hs Hl. destruct (segment_wire seg dlc Hh Hd Hs) as (c & Hc & Hser & Hparse). pose proof (hok_doff _ Hh).
  destruct (Hparse seg0 (Buffer_of_string (header_bytes (set_cksum c (header seg)) ++ str (payload seg))))
    as ([seg' res] & Hp & -> & Hh' & Hpl).
  { apply new_parser_at. rewrite zlen_app, zlen_header_bytes by (cbn; lia). cbn [doff set_cksum]. lia. }
  eexists _, seg', c. split_and!; [exact Hser| |done|done]. cbn [concatenate]. by rewrite str_of_string, app_nil_r.
Qed.

(** Parsing any bytes as a segment. *)
Lemma segment_parse_safe seg0 b dlc :
  buffer_ok b -> is_u32 dlc ->
  returns (segment_parse seg0 b dlc) (λ '(seg, res), res = NoError -> is_u16 (sport (header seg)) ∧ is_u16 (dport (header seg))).
Proof.
  intros Hb Hd. unfold segment_parse. destruct (value_returns dlc (str b) Hd) as [v ->].
  unfold mbind at 1, outcome_bind. destruct (negb (v =? 0)); [by apply returns_ret|].
  cut (returns (header_parse (new_NetParser b)) (λ '((h, _), _), is_u16 (sport h) ∧ is_u16 (dport h))).
  { intros ([[h r] p] & -> & Hh). by apply returns_ret. }
  assert (parser_ok (new_NetParser b)) as Hp by done. revert Hp. generalize (new_NetParser b) as p0. intros p0 Hp.
  unfold header_parse, get_u8, get_u16, get_u32.
  do 9 (eapply parser_bind_returns; [apply parse_int_safe; exact Hp|]; clear Hp; cbv beta;
    let v := fresh "v" in let p := fresh "p" in intros v p [Hp ?]).
  cbv zeta. destruct (Z.ltb_spec (Z.shiftr v4 4) 5); [by apply returns_ret|].
  eapply parser_bind_returns; [apply parser_remove_prefix_safe; [exact Hp|unfold LENGTH; lia]|]. intros _ q _.
  cbv beta. destruct (error q); by apply returns_ret.
Qed.

Definition sample_segment : TCPSegment := mkTCPSegment sample_header (Buffer_of_string [x68; x69; x21]).

Lemma tcp_segment_roundtrip_witness :
  ∃ bl seg' c, segment_serialize sample_segment 77 = Ret bl ∧
    segment_parse default_segment (Buffer_of_string (concatenate bl)) 77 = Ret (seg', NoError) ∧
    header seg' = set_cksum c (header sample_segment) ∧
    str (payload seg') = str (payload sample_segment).
Proof.
  apply (tcp_segment_roundtrip default_segment sample_segment 77 sample_header_ok).
  - unfold is_u32. lia.
  - vm_compute. reflexivity.
  - vm_compute. reflexivity.
Defined.

(** [TCPSegment::parse] discards the result of [TCPHeader::parse]: a
    segment whose header claims a length below the minimum is refused by the
    header parser ([HeaderTooShort]) and accepted ([NoError]) by the segment
    parser. *)
Theorem segment_parse_ignores_header_error :
  let bytes := replicate 12 x00 ++ [x40; x00; x00; x00; xbf; xff; x00; x00] in
  (∃ h p, header_parse (new_NetParser (Buffer_of_string bytes)) = Ret ((h, HeaderTooShort), p)) ∧
  (∃ seg, segment_parse default_segment (Buffer_of_string bytes) 0 = Ret (seg, NoError) ∧
     doff (header seg) = 4).
Proof.
  split.
  - eexists _, _. vm_compute. reflexivity.
  - eexists. split; [vm_compute; reflexivity|reflexivity].
Qed.
