(* ===== verification/TCPReceiver.v ===== *)
(** [tcp_receiver.hh], [tcp_receiver.cc]: the receiving half of a TCP
    endpoint. *)
From S2P Require Import Prelude Buffer ByteStream StreamReassembler WrappingIntegers TCPSegment.

Record TCPReceiver := mkReceiver {
  rc_reassembler : StreamReassembler;
  rc_capacity : Z;
  rc_ack : WrappingInt32;
  rc_isn : WrappingInt32;
  rc_exp_ack : Z;
  rc_checkpoint : Z;
  rc_syn : bool;
  rc_end : bool
}.

Definition new_TCPReceiver (capacity : Z) : TCPReceiver :=
  mkReceiver (new_StreamReassembler capacity) capacity (mkWrap 0) (mkWrap 0) 0 0 false false.

Definition stream_out (r : TCPReceiver) : ByteStream := sr_output (rc_reassembler r).

(** The owner's access to the inbound stream. *)
Definition with_stream_out (r : TCPReceiver) (bs : ByteStream) : TCPReceiver :=
  mkReceiver (with_output (rc_reassembler r) bs) (rc_capacity r) (rc_ack r) (rc_isn r) (rc_exp_ack r)
    (rc_checkpoint r) (rc_syn r) (rc_end r).

Definition segment_received (r : TCPReceiver) (seg : TCPSegment) : outcome TCPReceiver :=
  if syn (header seg) && rc_syn r then Ret r
  else
    let isn := if syn (header seg) then seqno (header seg) else rc_isn r in
    let syn' := if syn (header seg) then true else rc_syn r in
    if syn' then
      let checkpoint := unwrap (seqno (header seg)) isn (rc_checkpoint r) in
      let data := copy (payload seg) in
      let end' := if fin (header seg) then true else rc_end r in
      sr ← push_substring (rc_reassembler r) data
             (if syn (header seg) then 0 else u64 (checkpoint - 1)) end';
      let bf_bytes_written := bytes_written (sr_output sr) in
      let exp_ack := u64 (bf_bytes_written + 1) in
      let exp_ack := if end' && empty sr then u64 (exp_ack + 1) else exp_ack in
      Ret (mkReceiver sr (rc_capacity r) (wrap exp_ack isn) isn exp_ack checkpoint true end')
    else Ret r.

Definition ackno (r : TCPReceiver) : option WrappingInt32 :=
  if rc_syn r then Some (rc_ack r) else None.

Definition window_size (r : TCPReceiver) : Z := u64 (rc_capacity r - buffer_size (stream_out r)).

Definition unassembled_bytes (r : TCPReceiver) : Z :=
  StreamReassembler.unassembled_bytes (rc_reassembler r).

(** ** The receiver and the stream it is sent *)

(** The number of sequence numbers acknowledged: the SYN, the assembled
    bytes, and the FIN once nothing is left to assemble. *)
Definition acked (r : TCPReceiver) : Z :=
  1 + sr_expected_index (rc_reassembler r) +
  (if rc_end r && empty (rc_reassembler r) then 1 else 0).

(** The index in the stream of the first payload byte of a segment whose
    absolute sequence number is [abs]. *)
Definition stream_index (seg : TCPSegment) (abs : Z) : Z := if syn (header seg) then 0 else u64 (abs - 1).

(** [seg] is a segment of the connection that carries [S] from [isn], with
    absolute sequence number [abs]. *)
Record seg_of (S : list byte) (isn : WrappingInt32) (abs : Z) (seg : TCPSegment) : Prop := {
  so_seqno : seqno (header seg) = wrap abs isn;
  so_syn : syn (header seg) = true -> abs = 0;
  so_le : 0 <= abs <= zlen S + 2;
  so_payload : str (payload seg) ≠ [] -> slice_of S (stream_index seg abs) (str (payload seg))
}.

Record rcv_ok (S : list byte) (isn : WrappingInt32) (r : TCPReceiver) : Prop := {
  ro_sr : sr_ok (slice_of S) (rc_reassembler r);
  ro_cap : bs_cap (stream_out r) = rc_capacity r;
  ro_le : sr_expected_index (rc_reassembler r) <= zlen S;
  ro_isn : rc_syn r = true -> rc_isn r = isn;
  ro_checkpoint : 0 <= rc_checkpoint r <= zlen S + 2;
  ro_first : rc_syn r = false -> rc_checkpoint r = 0;
  ro_ack : rc_syn r = true -> rc_ack r = wrap (acked r) isn
}.

Lemma new_rcv_ok S isn capacity : is_u64 capacity -> rcv_ok S isn (new_TCPReceiver capacity).
Proof.
  intros Hc. pose proof (zlen_nonneg S). split; simpl; try done; [by apply new_sr_ok|lia].
Qed.

Lemma rcv_upper S isn r : rcv_ok S isn r -> upper (rc_reassembler r) <= zlen S + rc_capacity r.
Proof.
  intros [Hsr Hc Hle _ _ _ _]. unfold upper. rewrite remaining_capacity_spec by apply Hsr.
  unfold stream_out in *. pose proof (zlen_nonneg (contents (sr_output (rc_reassembler r)))). lia.
Qed.

Lemma rcv_cap S isn r : rcv_ok S isn r -> is_u64 (rc_capacity r).
Proof. intros H. rewrite <- (ro_cap _ _ _ H). apply (inv_out _ _ _ (ro_sr _ _ _ H)). Qed.

Lemma seg_of_range S isn abs seg :
  seg_of S isn abs seg -> is_u64 (stream_index seg abs) ∧ 0 <= zlen (str (payload seg)) <= zlen S.
Proof.
  intros [_ Hsyn Hle Hpl]. split.
  - unfold stream_index. destruct (syn (header seg)); [unfold is_u64; lia|apply u64_range].
  - pose proof (zlen_nonneg S). destruct (str (payload seg)) as [|b s] eqn:Hs.
    + rewrite (@zlen_nil byte). lia.
    + destruct (Hpl ltac:(done)) as (? & ? & _). zlen_lia.
Qed.

Lemma wrap_zero isn : wint_ok isn -> wrap 0 isn = isn.
Proof. intros. apply wint_ext. rewrite wrap_value, Z.add_0_r. by apply u32_id. Qed.

(** The receiver ignores a second SYN, and everything before the first. *)
Definition ignored (r : TCPReceiver) (seg : TCPSegment) : bool :=
  syn (header seg) && rc_syn r || negb (syn (header seg) || rc_syn r).

Lemma segment_ignored r seg : ignored r seg = true -> segment_received r seg = Ret r.
Proof.
  unfold ignored, segment_received. by destruct (syn (header seg)), (rc_syn r).
Qed.

(** Where a segment of the connection is placed. *)
Lemma segment_placed S isn r seg abs :
  rcv_ok S isn r -> seg_of S isn abs seg -> wint_ok isn -> ignored r seg = false ->
  2 * zlen S + rc_capacity r < 2 ^ 63 -> -2 ^ 31 < abs - rc_checkpoint r < 2 ^ 31 ->
  segment_received r seg =
    (let end' := fin (header seg) || rc_end r in
     sr ← push_substring (rc_reassembler r) (str (payload seg)) (stream_index seg abs) end';
     let exp_ack := u64 (bytes_written (sr_output sr) + 1) in
     let exp_ack := if end' && empty sr then u64 (exp_ack + 1) else exp_ack in
     Ret (mkReceiver sr (rc_capacity r) (wrap exp_ack isn) isn exp_ack abs true end')).
Proof.
  intros Hr Hseg Hisn Hig Hbig Hnear. pose proof (rcv_cap _ _ _ Hr) as Hc64.
  pose proof (seg_of_range _ _ _ _ Hseg) as [Hi Hl]. destruct Hseg as [Hsq Hsyn Habs Hpl].
  unfold stream_index, is_u64 in *. pose proof (ro_checkpoint _ _ _ Hr).
  assert (unwrap (seqno (header seg)) isn (rc_checkpoint r) = abs) as Hun.
  { rewrite Hsq. apply unwrap_wrap; lia. }
  unfold segment_received, ignored, copy in *. rewrite orb_comm in Hig.
  destruct (syn (header seg)) eqn:Hs; simpl in *.
  - rewrite Hig, Hsq, (Hsyn eq_refl), wrap_zero in *; try done. rewrite Hun.
    by destruct (fin (header seg)).
  - apply orb_false_iff in Hig as [Hrs%negb_false_iff _]. rewrite Hrs.
    rewrite (ro_isn _ _ _ Hr Hrs), Hun.
    by destruct (fin (header seg)).
Qed.

(** A segment of the connection that is close enough to the last one handled
    keeps the receiver in step with the stream; its bytes below the window's
    end count as received, and what is assembled is the next part of the
    stream. *)
Lemma segment_received_spec S isn r seg abs :
  rcv_ok S isn r -> seg_of S isn abs seg -> wint_ok isn -> ignored r seg = false ->
  2 * zlen S + rc_capacity r < 2 ^ 63 -> -2 ^ 31 < abs - rc_checkpoint r < 2 ^ 31 ->
  returns (segment_received r seg) (λ r', rcv_ok S isn r' ∧ rc_capacity r' = rc_capacity r ∧
    rc_syn r' = true ∧ rc_checkpoint r' = abs ∧ rc_end r' = fin (header seg) || rc_end r ∧
    upper (rc_reassembler r') = upper (rc_reassembler r) ∧
    (∀ i, received (rc_reassembler r') i <-> received (rc_reassembler r) i ∨
       stream_index seg abs <= i < stream_index seg abs + zlen (str (payload seg)) ∧
       i < upper (rc_reassembler r)) ∧
    sr_expected_index (rc_reassembler r) <= sr_expected_index (rc_reassembler r') ∧
    contents (stream_out r') = contents (stream_out r) ++
      slice S (sr_expected_index (rc_reassembler r)) (sr_expected_index (rc_reassembler r'))).
Proof.
  intros Hr Hseg Hisn Hig Hbig Hnear. rewrite (segment_placed S isn r seg abs) by done.
  pose proof (rcv_upper _ _ _ Hr) as Hup. pose proof (rcv_cap _ _ _ Hr) as Hc64.
  pose proof (seg_of_range _ _ _ _ Hseg) as [Hi Hl]. destruct Hseg as [Hsq Hsyn Habs Hpl].
  unfold is_u64 in Hc64.
  pose proof Hr as [Hsr Hcap Hle Hri Hck Hfirst Hack].
  cbv zeta. set (e := fin (header seg) || rc_end r).
  destruct (push_substring_spec (slice_of S) (rc_reassembler r) (str (payload seg)) (stream_index seg abs) e Hsr)
    as (sr & -> & Hsr' & Hrec & (w & Hadv & Hw) & _); [done|done|lia|].
  simpl. apply returns_ret. pose proof (adv_expected _ _ _ Hadv) as He.
  pose proof (inv_pos _ _ _ Hsr). pose proof (zlen_nonneg w).
  assert (sr_expected_index sr <= zlen S ∧ w = slice S (sr_expected_index (rc_reassembler r)) (sr_expected_index sr))
    as [Hle' Hwd].
  { destruct Hw as [->|(_ & Hwl & Hwd)]; rewrite ?(@zlen_nil byte) in He.
    - split; [lia|]. by rewrite slice_nil by lia.
    - split; [lia|]. by rewrite He. }
  unfold stream_index in *.
  split_and!; try done; [|apply (adv_upper _ _ _ Hadv)|simpl; lia|].
  - split; simpl; try done.
    + unfold stream_out in *. simpl. by rewrite (adv_cap _ _ _ Hadv).
    + intros _. unfold acked. simpl. rewrite (inv_written _ _ _ Hsr').
      destruct (e && empty sr); rewrite !u64_id by (rewrite ?u64_id; unfold is_u64; lia); f_equal; lia.
  - unfold stream_out. simpl. rewrite (adv_contents _ _ _ Hadv). by rewrite <- Hwd.
Qed.

Lemma segment_received_any S isn r seg abs :
  rcv_ok S isn r -> seg_of S isn abs seg -> wint_ok isn ->
  2 * zlen S + rc_capacity r < 2 ^ 63 -> -2 ^ 31 < abs - rc_checkpoint r < 2 ^ 31 ->
  returns (segment_received r seg) (λ r', rcv_ok S isn r' ∧ rc_capacity r' = rc_capacity r ∧
    sr_expected_index (rc_reassembler r) <= sr_expected_index (rc_reassembler r') ∧
    contents (stream_out r') = contents (stream_out r) ++
      slice S (sr_expected_index (rc_reassembler r)) (sr_expected_index (rc_reassembler r'))).
Proof.
  intros Hr Hseg Hisn Hbig Hnear. destruct (ignored r seg) eqn:Hig.
  - rewrite segment_ignored by done. apply returns_ret. split_and!; [done|done|lia|].
    by rewrite slice_nil, app_nil_r by lia.
  - eapply returns_mono; [by apply (segment_received_spec S isn r seg abs)|]. tauto.
Qed.

(** The owner takes bytes from the inbound stream. *)
Lemma rcv_drop_ok S isn r n bs :
  rcv_ok S isn r -> 0 <= n -> 2 * zlen S + rc_capacity r < 2 ^ 63 ->
  bs_ok bs -> bs_cap bs = bs_cap (stream_out r) -> bs_total_written bs = bs_total_written (stream_out r) ->
  contents bs = zdrop n (contents (stream_out r)) -> rcv_ok S isn (with_stream_out r bs).
Proof.
  intros Hr Hn Hbig Hbs Hcap' Hw Hc. pose proof Hr as [Hsr Hcap Hle Hri Hck Hfirst Hack].
  pose proof (rcv_cap _ _ _ Hr) as Hc64. unfold is_u64 in Hc64.
  split; simpl; try done; [|unfold stream_out; simpl; congruence].
  pose proof (zlen_nonneg (contents (stream_out r))).
  apply with_output_ok; try done; unfold stream_out in *;
    rewrite !remaining_capacity_spec, Hc, Hcap' by (done || apply Hsr); zlen_lia.
Qed.

Lemma rcv_read_ok S isn r len bs s :
  rcv_ok S isn r -> 0 <= len -> 2 * zlen S + rc_capacity r < 2 ^ 63 ->
  read (stream_out r) len = Ret (bs, s) ->
  rcv_ok S isn (with_stream_out r bs) ∧ s ++ contents bs = contents (stream_out r).
Proof.
  intros Hr Hlen Hbig Hread.
  destruct (read_spec (stream_out r) len (inv_out _ _ _ (ro_sr _ _ _ Hr)) Hlen)
    as ([bs' s'] & Hrd & Hs & Hc & _ & Hcap' & Hw & _ & _ & Hbs).
  rewrite Hread in Hrd. injection Hrd as <- <-. split; [|by rewrite Hs, Hc, ztake_zdrop]. by eapply rcv_drop_ok.
Qed.

(** ** Any segments *)

(** What holds whatever the peer sends: the reassembler is well formed and the
    acknowledgment stored is the one due. *)
Record rcv_safe (r : TCPReceiver) : Prop := {
  rs_sr : sr_ok any_bytes (rc_reassembler r);
  rs_cap : bs_cap (stream_out r) = rc_capacity r;
  rs_ack : rc_syn r = true -> rc_ack r = wrap (acked r) (rc_isn r)
}.

Lemma new_rcv_safe capacity : is_u64 capacity -> rcv_safe (new_TCPReceiver capacity).
Proof. intros. split; simpl; try done. by apply new_sr_ok. Qed.

Lemma wrap_u64 n isn : wrap (u64 n) isn = wrap n isn.
Proof. apply wint_ext. rewrite !wrap_value. uint_lia. Qed.

Lemma window_size_spec ok r :
  sr_ok ok (rc_reassembler r) -> bs_cap (stream_out r) = rc_capacity r ->
  window_size r = rc_capacity r - zlen (contents (stream_out r)) ∧ 0 <= window_size r <= rc_capacity r.
Proof.
  intros Hsr Hcap. unfold window_size, stream_out in *. rewrite buffer_size_contents.
  pose proof (inv_out _ _ _ Hsr) as Hbs. pose proof (ok_fits _ Hbs). pose proof (ok_cap _ Hbs).
  zlen_facts. rewrite u64_id by (unfold is_u64 in *; lia). lia.
Qed.

Lemma ackno_spec r isn :
  (rc_syn r = true -> rc_ack r = wrap (acked r) isn) ->
  ackno r = if rc_syn r then Some (wrap (acked r) isn) else None.
Proof. unfold ackno. intros H. destruct (rc_syn r); [by rewrite H|done]. Qed.

Lemma acked_wrap sr cap isn end' checkpoint ack :
  bytes_written (sr_output sr) = sr_expected_index sr ->
  let exp_ack := u64 (bytes_written (sr_output sr) + 1) in
  let exp_ack := if end' && empty sr then u64 (exp_ack + 1) else exp_ack in
  wrap exp_ack isn = wrap (acked (mkReceiver sr cap ack isn exp_ack checkpoint true end')) isn.
Proof.
  intros ->. unfold acked. simpl. apply wint_ext. rewrite !wrap_value.
  destruct (end' && empty sr); uint_lia.
Qed.

(** One segment, whatever it holds. *)
Lemma rcv_safe_step r seg :
  rcv_safe r -> upper (rc_reassembler r) + size (payload seg) < 2 ^ 64 ->
  returns (segment_received r seg) (λ r', rcv_safe r' ∧ rc_capacity r' = rc_capacity r ∧
    rc_syn r' = rc_syn r || syn (header seg) ∧
    sr_expected_index (rc_reassembler r) <= sr_expected_index (rc_reassembler r') ∧
    (ignored r seg = true -> r' = r)).
Proof.
  intros [Hsr Hcap Hack] Hb. destruct (ignored r seg) eqn:Hig.
  - rewrite segment_ignored by done. apply returns_ret. split_and!; try done.
    unfold ignored in Hig. by destruct (syn (header seg)), (rc_syn r).
  - assert (syn (header seg) && rc_syn r = false ∧ rc_syn r || syn (header seg) = true) as [H1 Hany]
      by (unfold ignored in Hig; by destruct (syn (header seg)), (rc_syn r)).
    unfold segment_received. rewrite H1. cbv zeta.
    assert ((if syn (header seg) then true else rc_syn r) = true) as ->
      by (by destruct (syn (header seg)), (rc_syn r)).
    set (isn := if syn (header seg) then _ else rc_isn r).
    set (cp := unwrap _ isn _). set (e := if fin (header seg) then true else rc_end r).
    set (index := if syn (header seg) then 0 else _).
    assert (is_u64 index) as Hi
      by (unfold index; destruct (syn (header seg)); [unfold is_u64; lia|apply u64_range]).
    destruct (push_substring_spec any_bytes (rc_reassembler r) (copy (payload seg)) index e Hsr)
      as (sr & -> & Hsr' & _ & (w & Hadv & _) & _); [done|done|done|].
    simpl. set (x := if e && empty sr then _ else _). apply returns_ret. rewrite Hany.
    split_and!; try done; [|simpl; rewrite (adv_expected _ _ _ Hadv); zlen_lia].
    split; [done| |].
    + unfold stream_out in *. simpl. by rewrite (adv_cap _ _ _ Hadv).
    + intros _. apply (acked_wrap sr _ isn e cp (wrap x isn)), Hsr'.
Qed.

(** Whatever segment arrives, the receiver handles it without failing;
    afterwards the acknowledgment number is absent exactly when no SYN has been
    seen and otherwise counts the SYN, the assembled bytes and a FIN that
    leaves nothing to assemble; the advertised window is the free capacity, with
    no underflow; and a segment before the SYN or a second SYN changes nothing. *)
Theorem segment_received_safe r seg :
  rcv_safe r -> upper (rc_reassembler r) + size (payload seg) < 2 ^ 64 ->
  ∃ r', segment_received r seg = Ret r' ∧ rcv_safe r' ∧
    ackno r' = (if rc_syn r || syn (header seg) then Some (wrap (acked r') (rc_isn r')) else None) ∧
    window_size r' = rc_capacity r - buffer_size (stream_out r') ∧
    0 <= window_size r' <= rc_capacity r ∧
    sr_expected_index (rc_reassembler r) <= sr_expected_index (rc_reassembler r') ∧
    (ignored r seg = true -> r' = r).
Proof.
  intros Hr Hb. destruct (rcv_safe_step r seg Hr Hb) as (r' & Hrun & Hr' & Hc & Hs & Hmono & Hig).
  exists r'. pose proof Hr' as [Hsr' Hcap' Hack']. rewrite <- Hs, <- Hc.
  pose proof (window_size_spec _ _ Hsr' Hcap') as [Hw Hw']. rewrite <- buffer_size_contents in Hw.
  split_and!; try done; [|lia..]. by apply ackno_spec.
Qed.

Definition syn_segment (isn : WrappingInt32) : TCPSegment :=
  on_header (λ h, set_syn true (set_seqno isn h)) default_segment.

Lemma segment_received_safe_witness :
  ∃ r', segment_received (new_TCPReceiver 8) (syn_segment (mkWrap 9)) = Ret r' ∧ rcv_safe r' ∧
    ackno r' = Some (wrap (acked r') (rc_isn r')) ∧
    window_size r' = 8 - buffer_size (stream_out r') ∧ 0 <= window_size r' <= 8 ∧
    0 <= sr_expected_index (rc_reassembler r') ∧
    (ignored (new_TCPReceiver 8) (syn_segment (mkWrap 9)) = true -> r' = new_TCPReceiver 8).
Proof.
  apply (segment_received_safe (new_TCPReceiver 8) (syn_segment (mkWrap 9))).
  - apply new_rcv_safe. unfold is_u64. lia.
  - vm_compute. reflexivity.
Defined.

(** ** Segments of one connection *)

Inductive rcv_op :=
| Arrive (seg : TCPSegment)
| Consume (len : Z).

Definition rcv_step (r : TCPReceiver) (o : rcv_op) : outcome (TCPReceiver * list byte) :=
  match o with
  | Arrive seg => r' ← segment_received r seg; Ret (r', [])
  | Consume len => '(bs, s) ← read (stream_out r) len; Ret (with_stream_out r bs, s)
  end.

Fixpoint rcv_run (r : TCPReceiver) (ops : list rcv_op) : outcome (TCPReceiver * list byte) :=
  match ops with
  | [] => Ret (r, [])
  | o :: ops' => '(r', s) ← rcv_step r o; '(r'', s') ← rcv_run r' ops'; Ret (r'', s ++ s')
  end.

Definition rcv_op_of (S : list byte) (isn : WrappingInt32) (o : rcv_op) : Prop :=
  match o with
  | Arrive seg => ∃ abs, seg_of S isn abs seg
  | Consume len => 0 <= len
  end.

(** The receiver has delivered [out] of the stream [S]. *)
Record rcv_tracks (S : list byte) (isn : WrappingInt32) (cap : Z) (r : TCPReceiver) (out : list byte) : Prop := {
  rt_ok : rcv_ok S isn r;
  rt_cap : rc_capacity r = cap;
  rt_out : out ++ contents (stream_out r) = slice S 0 (sr_expected_index (rc_reassembler r))
}.

Lemma rcv_step_tracks S isn cap r out o :
  wint_ok isn -> cap < 2 ^ 62 -> zlen S + 2 < 2 ^ 31 ->
  rcv_tracks S isn cap r out -> rcv_op_of S isn o ->
  returns (rcv_step r o) (λ '(r', s), rcv_tracks S isn cap r' (out ++ s)).
Proof.
  intros Hisn Hcap HS [Hok <- Hout] Ho. pose proof (zlen_nonneg S).
  destruct o as [seg|len]; simpl in *.
  - destruct Ho as [abs Hseg].
    pose proof (so_le _ _ _ _ Hseg). pose proof (ro_checkpoint _ _ _ Hok).
    eapply returns_bind; [apply (segment_received_any S isn r seg abs); done || lia|].
    intros r' (Hok' & Hc & Hmono & Hcon). apply returns_ret. rewrite app_nil_r.
    pose proof (inv_pos _ _ _ (ro_sr _ _ _ Hok)).
    split; [done|done|]. rewrite Hcon, app_assoc, Hout. by rewrite <- slice_app by lia.
  - pose proof (inv_out _ _ _ (ro_sr _ _ _ Hok)) as Hbs.
    destruct (read_spec _ len Hbs Ho) as ([bs s] & Hrd & _). unfold stream_out in *. rewrite Hrd.
    simpl. apply returns_ret.
    destruct (rcv_read_ok S isn r len bs s Hok Ho) as [Hok' Hs]; [lia|done|].
    split; [done|done|]. simpl. unfold stream_out in *. simpl in *. by rewrite <- app_assoc, Hs.
Qed.

Lemma rcv_run_tracks S isn cap ops r out :
  wint_ok isn -> cap < 2 ^ 62 -> zlen S + 2 < 2 ^ 31 ->
  rcv_tracks S isn cap r out -> Forall (rcv_op_of S isn) ops ->
  returns (rcv_run r ops) (λ '(r', s), rcv_tracks S isn cap r' (out ++ s)).
Proof.
  intros Hisn Hcap HS Htr Hops. revert r out Htr.
  induction Hops as [|o ops Ho _ IH]; intros r out Htr; simpl.
  - apply returns_ret. by rewrite app_nil_r.
  - eapply returns_bind; [by apply (rcv_step_tracks S isn cap)|]. intros [r1 s1] H1.
    eapply returns_bind; [by apply IH|]. intros [r2 s2] H2. apply returns_ret. by rewrite app_assoc.
Qed.

(** What the peer has sent so far, as far as the receiver takes notice: a SYN, and
    after it a FIN. *)
Fixpoint saw_syn (ops : list rcv_op) : bool :=
  match ops with
  | [] => false
  | Arrive seg :: ops => syn (header seg) || saw_syn ops
  | Consume _ :: ops => saw_syn ops
  end.

Fixpoint saw_fin (started : bool) (ops : list rcv_op) : bool :=
  match ops with
  | [] => false
  | Arrive seg :: ops =>
      fin (header seg) && xorb (syn (header seg)) started || saw_fin (syn (header seg) || started) ops
  | Consume _ :: ops => saw_fin started ops
  end.

Lemma run_flags ops r r' out :
  rcv_run r ops = Ret (r', out) -> rc_syn r' = rc_syn r || saw_syn ops ∧ rc_end r' = rc_end r || saw_fin (rc_syn r) ops.
Proof.
  revert r out. induction ops as [|o ops IH]; intros r out; cbn [rcv_run saw_syn saw_fin]; [intros [= <- _]; by rewrite !orb_false_r|].
  intros ([r1 s1] & Ho & H)%bind_ret_inv. apply bind_ret_inv in H as ([r2 s2] & Hr & [= <- _]). destruct (IH _ _ Hr) as [-> ->].
  destruct o as [seg|len]; cbn [rcv_step] in Ho.
  - apply bind_ret_inv in Ho as (r3 & Hseg & [= <- _]). unfold segment_received in Hseg.
    destruct (syn (header seg)) eqn:Hs, (rc_syn r) eqn:Hrs; cbn [andb orb xorb] in *; cbv zeta in Hseg.
    + injection Hseg as <-. by rewrite Hrs, andb_false_r.
    + apply bind_ret_inv in Hseg as (sr & _ & [= <-]). cbn. by destruct (fin (header seg)), (rc_end r).
    + apply bind_ret_inv in Hseg as (sr & _ & [= <-]). cbn. by destruct (fin (header seg)), (rc_end r).
    + injection Hseg as <-. by rewrite Hrs, andb_false_r.
  - by apply bind_ret_inv in Ho as ([bs s] & _ & [= <- _]).
Qed.

(** A FIN that the window can take: it comes with the last byte of [S], or after
    all of [S] has been assembled. *)
Definition fin_fits (S : list byte) (r : TCPReceiver) (seg : TCPSegment) (abs : Z) : Prop :=
  ignored r seg = false -> fin (header seg) = true ->
  stream_index seg abs + zlen (str (payload seg)) = zlen S ∧ zlen S <= upper (rc_reassembler r) ∧
  (str (payload seg) ≠ [] ∨ sr_expected_index (rc_reassembler r) = zlen S).

Fixpoint fins_fit (S : list byte) (isn : WrappingInt32) (r : TCPReceiver) (ops : list rcv_op) : Prop :=
  match ops with
  | [] => True
  | o :: ops =>
      match o with Arrive seg => ∀ abs, seg_of S isn abs seg -> fin_fits S r seg abs | Consume _ => True end ∧
      ∀ r' s, rcv_step r o = Ret (r', s) -> fins_fit S isn r' ops
  end.

(** Once a FIN has been noticed, the last byte is there. *)
Definition end_ok (S : list byte) (r : TCPReceiver) : Prop :=
  rc_end r = true -> sr_expected_index (rc_reassembler r) = zlen S ∨ received (rc_reassembler r) (zlen S - 1).

Lemma segment_end_ok S isn r seg abs r' :
  rcv_ok S isn r -> seg_of S isn abs seg -> wint_ok isn -> 2 * zlen S + rc_capacity r < 2 ^ 63 ->
  -2 ^ 31 < abs - rc_checkpoint r < 2 ^ 31 -> fin_fits S r seg abs -> end_ok S r ->
  segment_received r seg = Ret r' -> end_ok S r'.
Proof.
  intros Hr Hseg Hisn Hbig Hnear Hfit He Hrun. destruct (ignored r seg) eqn:Hig.
  { rewrite segment_ignored in Hrun by done. by injection Hrun as <-. }
  destruct (segment_received_spec S isn r seg abs Hr Hseg Hisn Hig Hbig Hnear) as (r1 & Hrun1 & Hr' & _ & _ & _ & Hend & _ & Hrec & Hmono & _).
  rewrite Hrun in Hrun1. injection Hrun1 as <-. pose proof (ro_le _ _ _ Hr'). intros Hend'. rewrite Hend in Hend'.
  apply orb_true_iff in Hend' as [Hf|Hf].
  - destruct (Hfit Hig Hf) as (Hlast & Hup & [Hne%zlen_pos_ne|Hall]); [|left; lia]. right. apply Hrec. right. lia.
  - destruct (He Hf) as [|Hl]; [left; lia|]. right. apply Hrec. by left.
Qed.

Lemma rcv_run_end_ok S isn cap ops r out r' out' :
  wint_ok isn -> cap < 2 ^ 62 -> zlen S + 2 < 2 ^ 31 -> rcv_tracks S isn cap r out -> Forall (rcv_op_of S isn) ops ->
  fins_fit S isn r ops -> end_ok S r -> rcv_run r ops = Ret (r', out') -> end_ok S r'.
Proof.
  intros Hisn Hcap HS Htr Hops. revert r out out' Htr. induction Hops as [|o ops Ho _ IH]; intros r out out' Htr Hfit He; cbn [rcv_run].
  { by intros [= <- _]. }
  intros ([r1 s1] & Hs & H)%bind_ret_inv. apply bind_ret_inv in H as ([r2 s2] & Hrun & [= <- _]). destruct Hfit as [Hf Hfits].
  destruct (rcv_step_tracks S isn cap r out o Hisn Hcap HS Htr Ho) as (x & Hs' & Htr1). rewrite Hs in Hs'. injection Hs' as <-.
  eapply IH; [exact Htr1|by eapply Hfits| |exact Hrun]. pose proof (rt_ok _ _ _ _ _ Htr) as Hok. pose proof (rt_cap _ _ _ _ _ Htr).
  destruct o as [seg|len]; cbn [rcv_step] in Hs.
  - apply bind_ret_inv in Hs as (r3 & Hseg & [= <- _]). destruct Ho as [abs Habs]. pose proof (so_le _ _ _ _ Habs).
    pose proof (ro_checkpoint _ _ _ Hok). pose proof (zlen_nonneg S). eapply (segment_end_ok S isn r seg abs); try done; [lia..|by apply Hf].
  - apply bind_ret_inv in Hs as ([bs s] & _ & [= <- _]). exact He.
Qed.

(** With the last byte there, nothing is left to assemble exactly at the end. *)
Lemma last_empty S r :
  sr_ok (slice_of S) r -> sr_expected_index r <= zlen S -> sr_expected_index r = zlen S ∨ received r (zlen S - 1) ->
  empty r = bool_decide (sr_expected_index r = zlen S).
Proof.
  intros Hok Hle Hlast. apply Bool.eq_iff_eq_true. rewrite bool_decide_eq_true, (sr_empty_spec _ _ _ Hok). split.
  - intros Hb. by apply (received_last_done S).
  - intros Hall. destruct (sr_buf r) as [|p l] eqn:Hbuf; [done|]. pose proof (inv_segs _ _ _ Hok) as Hs. rewrite Hbuf in Hs.
    destruct Hs as (? & ? & (_ & Hend & _) & _). lia.
Qed.

(** C6: the receiver delivers the stream. Given segments that carry parts of
    [S] (the SYN at absolute number 0, byte [i] at [i + 1]) in any order, with
    any losses, repetitions and overlaps, and reads at any moments, no step
    fails; the bytes read and readable are a prefix of [S] that ends at the
    first byte not received; the window is the capacity not in use; there is an
    acknowledgment number once a SYN has arrived, and it is that prefix's length
    plus the SYN, wrapped from the peer's ISN, plus [f] for the FIN: none as long
    as no FIN has arrived, and, when every FIN comes with the last byte of [S] and
    within the window, one exactly when all of [S] has been delivered. Without
    that condition the number can cover a byte that never arrived
    ([sticky_fin]). *)
Theorem receiver_delivers S isn cap ops :
  wint_ok isn -> 0 <= cap < 2 ^ 62 -> zlen S + 2 < 2 ^ 31 -> Forall (rcv_op_of S isn) ops ->
  ∃ r out f, rcv_run (new_TCPReceiver cap) ops = Ret (r, out) ∧
    out ++ contents (stream_out r) = slice S 0 (sr_expected_index (rc_reassembler r)) ∧
    ~ received (rc_reassembler r) (sr_expected_index (rc_reassembler r)) ∧
    window_size r = cap - zlen (contents (stream_out r)) ∧
    ackno r = (if saw_syn ops then Some (wrap (1 + zlen (out ++ contents (stream_out r)) + f) isn) else None) ∧
    0 <= f <= 1 ∧ (saw_fin false ops = false -> f = 0) ∧
    (saw_fin false ops = true -> fins_fit S isn (new_TCPReceiver cap) ops ->
       f = if bool_decide (out ++ contents (stream_out r) = S) then 1 else 0).
Proof.
  intros Hisn Hcap HS Hops.
  assert (rcv_tracks S isn cap (new_TCPReceiver cap) []) as H0 by (split; [apply new_rcv_ok; unfold is_u64; lia|done|done]).
  destruct (rcv_run_tracks S isn cap ops (new_TCPReceiver cap) [] Hisn) as ([r out] & Hr & [Hok Hc Hout]); [lia|done..|].
  pose proof (ro_sr _ _ _ Hok) as Hsr. simpl in Hout. destruct (run_flags _ _ _ _ Hr) as [Hsyn Hend]. cbn in Hsyn, Hend.
  pose proof (inv_pos _ _ _ Hsr). pose proof (ro_le _ _ _ Hok) as Hle.
  assert (zlen (out ++ contents (stream_out r)) = sr_expected_index (rc_reassembler r)) as Hn by (rewrite Hout, zlen_slice by lia; lia).
  exists r, out, (if rc_end r && empty (rc_reassembler r) then 1 else 0). split_and!; try done.
  - intros [?|Hc'%(segs_covers_range _ _ _ _ _ (inv_segs _ _ _ Hsr))]; lia.
  - rewrite <- Hc. apply (window_size_spec _ _ Hsr), Hok.
  - rewrite Hn, (ackno_spec r isn), Hsyn by apply Hok. by unfold acked.
  - by case_match.
  - by case_match.
  - intros Hno. by rewrite Hend, Hno.
  - intros Hyes Hfit. assert (end_ok S r) as He by (eapply rcv_run_end_ok; try done; lia).
    rewrite Hyes in Hend. rewrite Hend. cbn [andb]. rewrite (last_empty S _ Hsr Hle (He Hend)).
    erewrite (bool_decide_ext (_ = zlen S)); [done|]. rewrite <- Hn. split; [|by intros ->].
    intros Hl. rewrite Hout, <- Hn, Hl. apply slice_full.
Qed.

Definition data_segment (isn : WrappingInt32) (abs : Z) (s : list byte) (f : bool) : TCPSegment :=
  set_payload (Buffer_of_string s) (on_header (λ h, set_fin f (set_seqno (wrap abs isn) h)) default_segment).

Lemma receiver_delivers_witness :
  ∃ r out f, rcv_run (new_TCPReceiver 4)
      [Arrive (syn_segment (mkWrap 5)); Arrive (data_segment (mkWrap 5) 2 [x62] true);
       Arrive (data_segment (mkWrap 5) 1 [x61] false); Consume 1] = Ret (r, out) ∧
    out ++ contents (stream_out r) = slice [x61; x62] 0 (sr_expected_index (rc_reassembler r)) ∧
    ackno r = Some (wrap (1 + zlen (out ++ contents (stream_out r)) + f) (mkWrap 5)) ∧
    f = if bool_decide (out ++ contents (stream_out r) = [x61; x62]) then 1 else 0.
Proof.
  destruct (receiver_delivers [x61; x62] (mkWrap 5) 4
    [Arrive (syn_segment (mkWrap 5)); Arrive (data_segment (mkWrap 5) 2 [x62] true);
     Arrive (data_segment (mkWrap 5) 1 [x61] false); Consume 1]) as (r & out & f & Hr & Hp & _ & _ & Ha & _ & _ & Hf).
  - unfold wint_ok, is_u32. simpl. lia.
  - lia.
  - vm_compute. reflexivity.
  - repeat (apply Forall_cons; split); [exists 0|exists 2|exists 1|vm_compute; congruence|by apply Forall_nil];
      (split; [reflexivity|vm_compute; congruence|split; vm_compute; congruence|intros _; split_and!; vm_compute; congruence]).
  - exists r, out, f. split_and!; [exact Hr|exact Hp|exact Ha|]. apply Hf; [reflexivity|].
    split; [intros abs _ _ Hfin; discriminate Hfin|]. intros r1 s1 H1. vm_compute in H1. injection H1 as <- <-.
    split.
    { intros abs Habs _ _. assert (abs = 2) as ->.
      { pose proof (so_le _ _ _ _ Habs) as Hle. change (zlen [x61; x62]) with 2 in Hle. pose proof (so_seqno _ _ _ _ Habs) as Hq.
        apply (f_equal raw_value) in Hq. rewrite wrap_value in Hq. change (7 = u32 (5 + abs)) in Hq. rewrite u32_id in Hq; unfold is_u32; lia. }
      split_and!; [reflexivity|vm_compute; congruence|left; discriminate]. }
    intros r2 s2 H2. vm_compute in H2. injection H2 as <- <-. split; [intros abs _ _ Hfin; discriminate Hfin|].
    intros r3 s3 H3. vm_compute in H3. injection H3 as <- <-. split; [done|]. done.
Defined.

(** The flag [_end] outlives the segment that set it. A FIN that lies
    outside the window is dropped by the reassembler, but [_end] stays set and
    is handed over with the next data: of the stream "abcd" only "a" is
    delivered, the stream is closed, and the acknowledgment number covers the
    byte "b", which never arrived. A FIN without payload that overtakes the data
    closes the stream before its first byte. *)
Theorem sticky_fin :
  (∃ r out, rcv_run (new_TCPReceiver 2)
       [Arrive (syn_segment (mkWrap 0)); Arrive (data_segment (mkWrap 0) 3 [x63; x64] true);
        Arrive (data_segment (mkWrap 0) 1 [x61] false); Consume 2] = Ret (r, out) ∧
     out = [x61] ∧ eof (stream_out r) = true ∧ ackno r = Some (wrap 3 (mkWrap 0))) ∧
  (∃ r, rcv_run (new_TCPReceiver 8)
       [Arrive (syn_segment (mkWrap 0)); Arrive (data_segment (mkWrap 0) 5 [] true)] = Ret (r, []) ∧
     eof (stream_out r) = true ∧ ackno r = Some (wrap 2 (mkWrap 0))).
Proof.
  split.
  - eexists. eexists. split; [vm_compute; reflexivity|]. split_and!; reflexivity.
  - eexists. split; [vm_compute; reflexivity|]. split_and!; reflexivity.
Qed.
