(* ===== verification/TCPSender.v ===== *)
(** [tcp_sender.hh], [tcp_sender.cc]: the sending half of a TCP endpoint. *)
From S2P Require Import Prelude StdMap Buffer ByteStream StreamReassembler WrappingIntegers TCPSegment TCPReceiver.

Definition MAX_PAYLOAD_SIZE : Z := 1452.

Record TCPSender := mkSender {
  sd_isn : WrappingInt32;
  sd_segments_out : list TCPSegment;
  sd_initial_retransmission_timeout : Z;
  sd_stream : ByteStream;
  sd_next_seqno : Z;
  sd_outstanding_segments : list (Z * TCPSegment);
  sd_bytes_in_flight : Z;
  sd_syn : bool;
  sd_fin_sent : bool;
  sd_wdn_sz : Z;
  sd_abs_ackno : Z;
  sd_recv_wdn_sz : Z;
  sd_max_abs_seqno : Z;
  sd_rto : Z;
  sd_consecutive_retransmissions : Z;
  sd_elapsed_time : Z;
  sd_timer_on : bool
}.

(** [random] stands for the number drawn from [std::random_device]. *)
Definition new_TCPSender (capacity retx_timeout : Z) (fixed_isn : option WrappingInt32) (random : Z) : TCPSender :=
  mkSender (default (mkWrap random) fixed_isn) [] retx_timeout (new_ByteStream capacity)
    0 [] 0 false false 1 0 0 0 0 0 0 false.

(** Assignments to one member. *)
Definition set_segments_out (q : list TCPSegment) (s : TCPSender) : TCPSender :=
  mkSender (sd_isn s) q (sd_initial_retransmission_timeout s) (sd_stream s) (sd_next_seqno s)
    (sd_outstanding_segments s) (sd_bytes_in_flight s) (sd_syn s) (sd_fin_sent s) (sd_wdn_sz s) (sd_abs_ackno s)
    (sd_recv_wdn_sz s) (sd_max_abs_seqno s) (sd_rto s) (sd_consecutive_retransmissions s) (sd_elapsed_time s)
    (sd_timer_on s).
Definition set_stream (bs : ByteStream) (s : TCPSender) : TCPSender :=
  mkSender (sd_isn s) (sd_segments_out s) (sd_initial_retransmission_timeout s) bs (sd_next_seqno s)
    (sd_outstanding_segments s) (sd_bytes_in_flight s) (sd_syn s) (sd_fin_sent s) (sd_wdn_sz s) (sd_abs_ackno s)
    (sd_recv_wdn_sz s) (sd_max_abs_seqno s) (sd_rto s) (sd_consecutive_retransmissions s) (sd_elapsed_time s)
    (sd_timer_on s).
Definition set_started (s : TCPSender) : TCPSender :=
  mkSender (sd_isn s) (sd_segments_out s) (sd_initial_retransmission_timeout s) (sd_stream s) (sd_next_seqno s)
    (sd_outstanding_segments s) (sd_bytes_in_flight s) true (sd_fin_sent s) (sd_wdn_sz s) (sd_abs_ackno s)
    (sd_recv_wdn_sz s) (sd_max_abs_seqno s) (sd_rto s) (sd_consecutive_retransmissions s) (sd_elapsed_time s)
    (sd_timer_on s).
Definition set_fin_sent (s : TCPSender) : TCPSender :=
  mkSender (sd_isn s) (sd_segments_out s) (sd_initial_retransmission_timeout s) (sd_stream s) (sd_next_seqno s)
    (sd_outstanding_segments s) (sd_bytes_in_flight s) (sd_syn s) true (sd_wdn_sz s) (sd_abs_ackno s)
    (sd_recv_wdn_sz s) (sd_max_abs_seqno s) (sd_rto s) (sd_consecutive_retransmissions s) (sd_elapsed_time s)
    (sd_timer_on s).
Definition set_recv_wdn_sz (w : Z) (s : TCPSender) : TCPSender :=
  mkSender (sd_isn s) (sd_segments_out s) (sd_initial_retransmission_timeout s) (sd_stream s) (sd_next_seqno s)
    (sd_outstanding_segments s) (sd_bytes_in_flight s) (sd_syn s) (sd_fin_sent s) (sd_wdn_sz s) (sd_abs_ackno s)
    w (sd_max_abs_seqno s) (sd_rto s) (sd_consecutive_retransmissions s) (sd_elapsed_time s) (sd_timer_on s).
Definition set_outstanding (m : list (Z * TCPSegment)) (n : Z) (s : TCPSender) : TCPSender :=
  mkSender (sd_isn s) (sd_segments_out s) (sd_initial_retransmission_timeout s) (sd_stream s) (sd_next_seqno s)
    m n (sd_syn s) (sd_fin_sent s) (sd_wdn_sz s) (sd_abs_ackno s)
    (sd_recv_wdn_sz s) (sd_max_abs_seqno s) (sd_rto s) (sd_consecutive_retransmissions s) (sd_elapsed_time s)
    (sd_timer_on s).
Definition set_acked (abs_ackno window_size : Z) (s : TCPSender) : TCPSender :=
  mkSender (sd_isn s) (sd_segments_out s) (sd_initial_retransmission_timeout s) (sd_stream s) (sd_next_seqno s)
    (sd_outstanding_segments s) (sd_bytes_in_flight s) (sd_syn s) (sd_fin_sent s) window_size abs_ackno
    (sd_recv_wdn_sz s) (sd_max_abs_seqno s) (sd_rto s) (sd_consecutive_retransmissions s) (sd_elapsed_time s)
    (sd_timer_on s).
Definition set_timer (max rto consecutive elapsed : Z) (on : bool) (s : TCPSender) : TCPSender :=
  mkSender (sd_isn s) (sd_segments_out s) (sd_initial_retransmission_timeout s) (sd_stream s) (sd_next_seqno s)
    (sd_outstanding_segments s) (sd_bytes_in_flight s) (sd_syn s) (sd_fin_sent s) (sd_wdn_sz s) (sd_abs_ackno s)
    (sd_recv_wdn_sz s) max rto consecutive elapsed on.

Definition bytes_in_flight (s : TCPSender) : Z := sd_bytes_in_flight s.
Definition fin_sent (s : TCPSender) : bool := sd_fin_sent s.
Definition consecutive_retransmissions (s : TCPSender) : Z := sd_consecutive_retransmissions s.
Definition next_seqno_absolute (s : TCPSender) : Z := sd_next_seqno s.
Definition next_seqno (s : TCPSender) : WrappingInt32 := wrap (sd_next_seqno s) (sd_isn s).

Definition send_segment (s : TCPSender) (segment : TCPSegment) : TCPSender :=
  let segment := on_header (set_seqno (next_seqno s)) segment in
  let bytes_in_flight := u64 (sd_bytes_in_flight s + length_in_sequence_space segment) in
  let next := u64 (sd_next_seqno s + length_in_sequence_space segment) in
  mkSender (sd_isn s) (sd_segments_out s ++ [segment]) (sd_initial_retransmission_timeout s) (sd_stream s)
    next (insert next segment (sd_outstanding_segments s)) bytes_in_flight (sd_syn s) (sd_fin_sent s)
    (sd_wdn_sz s) (sd_abs_ackno s) (sd_recv_wdn_sz s) (sd_max_abs_seqno s)
    (if sd_timer_on s then sd_rto s else sd_initial_retransmission_timeout s)
    (sd_consecutive_retransmissions s)
    (if sd_timer_on s then sd_elapsed_time s else 0)
    true.

(** One round of the [while] loop of [fill_window], with the local [segment]
    it reuses. *)
Definition fill_once (s : TCPSender) (segment : TCPSegment) : outcome (TCPSender * TCPSegment) :=
  let len := if MAX_PAYLOAD_SIZE <? sd_recv_wdn_sz s then MAX_PAYLOAD_SIZE else sd_recv_wdn_sz s in
  '(bs, data) ← read (sd_stream s) len;
  let segment := set_payload (Buffer_of_string data) segment in
  let s := set_stream bs s in
  let s := set_recv_wdn_sz (u16 (sd_recv_wdn_sz s - length_in_sequence_space segment)) s in
  let piggyback := eof (sd_stream s) && (0 <? sd_recv_wdn_sz s) in
  let segment := if piggyback then on_header (set_fin true) segment else segment in
  let s := if piggyback then set_recv_wdn_sz (u16 (sd_recv_wdn_sz s - 1)) (set_fin_sent s) else s in
  let s := if 0 <? length_in_sequence_space segment then send_segment s segment else s in
  Ret (s, segment).

Fixpoint fill_loop (fuel : nat) (s : TCPSender) (segment : TCPSegment) : outcome (TCPSender * TCPSegment) :=
  if (0 <? buffer_size (sd_stream s)) && (0 <? sd_recv_wdn_sz s) then
    match fuel with
    | O => Diverge
    | S fuel' => '(s, segment) ← fill_once s segment; fill_loop fuel' s segment
    end
  else Ret (s, segment).

(** Each round of the loop reads at least one byte, so the number of bytes
    buffered is enough fuel. *)
Definition fill_window (s : TCPSender) : outcome TCPSender :=
  let segment := default_segment in
  if negb (sd_syn s) then Ret (send_segment (set_started s) (on_header (set_syn true) segment))
  else
    '(s, segment) ← fill_loop (Z.to_nat (buffer_size (sd_stream s))) s segment;
    if negb (sd_fin_sent s) && eof (sd_stream s) && (0 <? sd_recv_wdn_sz s) then
      let segment := on_header (set_fin true) segment in
      let s := set_recv_wdn_sz (u16 (sd_recv_wdn_sz s - 1)) s in
      Ret (set_fin_sent (send_segment s segment))
    else Ret s.

Definition subtract_flight (n : Z) (p : Z * TCPSegment) : Z := u64 (n - length_in_sequence_space p.2).

(** The part of [ack_received] that removes the acknowledged segments. *)
Definition remove_acked (s : TCPSender) : TCPSender :=
  let abs_ackno := sd_abs_ackno s in
  match find abs_ackno (sd_outstanding_segments s) with
  | Some seg =>
      let n := fold_left subtract_flight (before abs_ackno (sd_outstanding_segments s)) (sd_bytes_in_flight s) in
      let m := from abs_ackno (sd_outstanding_segments s) in
      let n := u64 (n - length_in_sequence_space seg) in
      set_outstanding (erase abs_ackno m) n s
  | None => s
  end.

Definition restart_timer (s : TCPSender) : TCPSender :=
  let none := bool_decide (sd_outstanding_segments s = []) in
  let s :=
    if sd_max_abs_seqno s <? sd_abs_ackno s then
      set_timer (sd_abs_ackno s) (sd_initial_retransmission_timeout s) 0
        (if none then sd_elapsed_time s else 0) (sd_timer_on s) s
    else s in
  if none then
    set_timer (sd_max_abs_seqno s) (sd_rto s) (sd_consecutive_retransmissions s) (sd_elapsed_time s) false s
  else s.

Definition ack_received (s : TCPSender) (ackno : WrappingInt32) (window_size : Z) : outcome TCPSender :=
  let abs_ackno := unwrap ackno (sd_isn s) (sd_abs_ackno s) in
  if next_seqno_absolute s <? abs_ackno then Ret s
  else if u64 (abs_ackno + window_size) <? next_seqno_absolute s then Ret (set_recv_wdn_sz 0 s)
  else
    let s := remove_acked (set_acked abs_ackno window_size s) in
    let s := set_recv_wdn_sz (u16 (u64 (abs_ackno + window_size - next_seqno_absolute s))) s in
    let s := set_recv_wdn_sz (if sd_wdn_sz s =? 0 then 1 else sd_recv_wdn_sz s) s in
    fill_window (restart_timer s).

Definition tick (s : TCPSender) (ms_since_last_tick : Z) : TCPSender :=
  if sd_timer_on s then
    let none := bool_decide (sd_outstanding_segments s = []) in
    let elapsed := if none then 0 else u64 (sd_elapsed_time s + ms_since_last_tick) in
    let rto := if none then sd_initial_retransmission_timeout s else sd_rto s in
    let s := set_timer (sd_max_abs_seqno s) rto (sd_consecutive_retransmissions s) elapsed true s in
    if sd_rto s <=? sd_elapsed_time s then
      let s :=
        match sd_outstanding_segments s with
        | (_, seg) :: _ => set_segments_out (sd_segments_out s ++ [seg]) s
        | [] => s
        end in
      if 0 <? sd_wdn_sz s then
        set_timer (sd_max_abs_seqno s) (u32 (sd_rto s * 2)) (u32 (sd_consecutive_retransmissions s + 1)) 0 true s
      else set_timer (sd_max_abs_seqno s) (sd_rto s) (sd_consecutive_retransmissions s) 0 true s
    else s
  else s.

Definition send_empty_segment (s : TCPSender) : TCPSender :=
  let segment := on_header (λ h, set_seqno (next_seqno s) (set_ack true h)) default_segment in
  set_segments_out (sd_segments_out s ++ [segment]) s.

(** [segments_out().front()] and [pop()]. *)
Definition pop_segment (s : TCPSender) : option (TCPSegment * TCPSender) :=
  match sd_segments_out s with
  | seg :: q => Some (seg, set_segments_out q s)
  | [] => None
  end.

(** ** Invariant

    [S] is the stream the application writes. *)

(** [seg] was sent at absolute number [abs]: it carries its part of [S], it
    fits an MTU, a FIN closes [S] and a SYN opens it. *)
Record sent_seg (S : list byte) (isn : WrappingInt32) (abs : Z) (seg : TCPSegment) : Prop := {
  ss_of : seg_of S isn abs seg;
  ss_small : size (payload seg) <= MAX_PAYLOAD_SIZE;
  ss_fin : fin (header seg) = true -> abs + length_in_sequence_space seg = zlen S + 2;
  ss_syn : syn (header seg) = true <-> abs = 0 ∧ 0 < length_in_sequence_space seg;
  ss_win : win (header seg) = 0;
  ss_rst : rst (header seg) = false;
  ss_header : header_ok (header seg)
}.

(** The outstanding segments cover the absolute numbers from [a] to [b]
    without gap or overlap, each stored under the number that follows it. *)
Fixpoint chain (S : list byte) (isn : WrappingInt32) (a : Z) (m : list (Z * TCPSegment)) (b : Z) : Prop :=
  match m with
  | [] => a = b
  | (k, seg) :: m' =>
      k = a + length_in_sequence_space seg ∧ 0 < length_in_sequence_space seg ∧
      sent_seg S isn a seg ∧ chain S isn k m' b
  end.

Definition una (s : TCPSender) : Z := sd_next_seqno s - sd_bytes_in_flight s.

(** The outgoing stream holds the part of [S] written and not yet sent; it is
    ended only after all of [S] was written. *)
Record stream_of (S : list byte) (bs : ByteStream) : Prop := {
  st_ok : bs_ok bs;
  st_written : bs_total_written bs <= zlen S;
  st_read : bs_total_read bs + zlen (contents bs) = bs_total_written bs;
  st_contents : contents bs = slice S (bs_total_read bs) (bs_total_written bs);
  st_ended : bs_input_ended bs = true -> bs_total_written bs = zlen S
}.

Record snd_ok (S : list byte) (s : TCPSender) : Prop := {
  sk_stream : stream_of S (sd_stream s);
  sk_next : sd_next_seqno s =
    if sd_syn s then 1 + bs_total_read (sd_stream s) + (if sd_fin_sent s then 1 else 0) else 0;
  sk_start : sd_syn s = false ->
    bs_total_read (sd_stream s) = 0 ∧ sd_outstanding_segments s = [] ∧ sd_fin_sent s = false;
  sk_fin : sd_fin_sent s = true -> eof (sd_stream s) = true;
  sk_una : 0 <= una s;
  sk_chain : chain S (sd_isn s) (una s) (sd_outstanding_segments s) (sd_next_seqno s);
  sk_queue : Forall (λ seg, ∃ abs, sent_seg S (sd_isn s) abs seg) (sd_segments_out s);
  sk_wdn : is_u16 (sd_wdn_sz s);
  sk_recv_wdn : is_u16 (sd_recv_wdn_sz s);
  sk_ackno : 0 <= sd_abs_ackno s <= sd_next_seqno s;
  sk_max : 0 <= sd_max_abs_seqno s <= sd_next_seqno s;
  sk_max_lt : sd_outstanding_segments s ≠ [] -> sd_max_abs_seqno s < sd_next_seqno s;
  sk_timer : sd_timer_on s = true <-> sd_outstanding_segments s ≠ [];
  sk_retx : sd_outstanding_segments s = [] -> sd_consecutive_retransmissions s = 0
}.

Lemma length_nonneg seg : 0 <= length_in_sequence_space seg.
Proof. unfold length_in_sequence_space. destruct (syn (header seg)), (fin (header seg)); zlen_lia. Qed.

Lemma chain_le S isn a m b : chain S isn a m b -> a <= b.
Proof.
  revert a. induction m as [|[k seg] m IH]; intros a; simpl; [lia|].
  intros (-> & Hl & _ & Hc%IH). lia.
Qed.

Lemma chain_sorted S isn a m b : chain S isn a m b -> sorted_above a m.
Proof.
  revert a. induction m as [|[k seg] m IH]; intros a; simpl; [done|].
  intros (-> & Hl & _ & Hc). split; [lia|by apply IH].
Qed.

Lemma chain_keys_le S isn a m b : chain S isn a m b -> Forall (λ p, p.1 <= b) m.
Proof.
  revert a. induction m as [|[k seg] m IH]; intros a; simpl; [constructor|].
  intros (_ & _ & _ & Hc). apply Forall_cons. split; [apply (chain_le _ _ _ _ _ Hc)|by apply (IH k)].
Qed.

Lemma chain_app S isn a m1 m2 b :
  chain S isn a (m1 ++ m2) b <-> ∃ c, chain S isn a m1 c ∧ chain S isn c m2 b.
Proof.
  revert a. induction m1 as [|[k seg] m1 IH]; intros a; simpl.
  - split; [intros H; by exists a|by intros (c & -> & H)].
  - rewrite IH. split; [intros (? & ? & ? & c & ? & ?); exists c; tauto|intros (c & (? & ? & ? & ?) & ?); split_and!; eauto].
Qed.

Lemma chain_insert S isn a m b seg :
  chain S isn a m b -> sent_seg S isn b seg -> 0 < length_in_sequence_space seg ->
  insert (b + length_in_sequence_space seg) seg m = m ++ [(b + length_in_sequence_space seg, seg)] ∧
  chain S isn a (m ++ [(b + length_in_sequence_space seg, seg)]) (b + length_in_sequence_space seg).
Proof.
  intros Hc Hs Hl. split.
  - rewrite <- (app_nil_r m) at 1. apply insert_between; [|constructor].
    eapply Forall_impl; [by eapply chain_keys_le|]. simpl. intros. lia.
  - apply chain_app. exists b. by split_and!.
Qed.

(** The number of sequence numbers from the first to the last of a chain. *)
Lemma chain_flight S isn a m b n :
  chain S isn a m b -> b - a <= n < 2 ^ 64 -> fold_left subtract_flight m n = n - (b - a).
Proof.
  revert a n. induction m as [|[k seg] m IH]; intros a n; simpl; [lia|].
  intros (-> & Hl & _ & Hc) Hn. pose proof (chain_le _ _ _ _ _ Hc).
  unfold subtract_flight at 2. simpl. rewrite u64_id by (unfold is_u64; lia).
  rewrite (IH _ _ Hc) by lia. lia.
Qed.

Lemma new_snd_ok S capacity retx fixed random :
  is_u64 capacity -> snd_ok S (new_TCPSender capacity retx fixed random).
Proof.
  intros Hc. pose proof (zlen_nonneg S). split; simpl; try done; try lia.
  split; simpl; try done. by apply new_ok.
Qed.

(** What [fill_window] does to the sender: segments are appended to both
    queues, and the window taken is accounted for. *)
Record filled (S : list byte) (s s' : TCPSender) : Prop := {
  fl_ok : snd_ok S s';
  fl_syn : sd_syn s' = true;
  fl_budget : sd_next_seqno s' + sd_recv_wdn_sz s' = sd_next_seqno s + sd_recv_wdn_sz s;
  fl_mono : sd_next_seqno s <= sd_next_seqno s';
  fl_isn : sd_isn s' = sd_isn s;
  fl_sent : ∃ m, sd_outstanding_segments s' = sd_outstanding_segments s ++ m ∧
    sd_segments_out s' = sd_segments_out s ++ map snd m;
  fl_una : una s' = una s;
  fl_abs : sd_abs_ackno s' = sd_abs_ackno s;
  fl_wdn : sd_wdn_sz s' = sd_wdn_sz s;
  fl_written : bs_total_written (sd_stream s') = bs_total_written (sd_stream s);
  fl_ended : bs_input_ended (sd_stream s') = bs_input_ended (sd_stream s);
  fl_cap : bs_cap (sd_stream s') = bs_cap (sd_stream s);
  fl_error : bs_error (sd_stream s') = bs_error (sd_stream s)
}.

Lemma filled_refl S s : snd_ok S s -> sd_syn s = true -> filled S s s.
Proof. intros. split; try done. exists []. by rewrite !app_nil_r. Qed.

Lemma filled_trans S s1 s2 s3 : filled S s1 s2 -> filled S s2 s3 -> filled S s1 s3.
Proof.
  intros [] []. split; try congruence; try lia.
  destruct fl_sent0 as (m1 & H1 & H1'), fl_sent1 as (m2 & H2 & H2'). exists (m1 ++ m2).
  by rewrite H2, H1, H2', H1', map_app, !app_assoc.
Qed.

Lemma stream_read_pos S bs : stream_of S bs -> 0 <= bs_total_read bs <= bs_total_written bs.
Proof. intros [Hok _ Hrd _ _]. pose proof (ok_read _ Hok). unfold is_u64 in *. zlen_lia. Qed.

(** Reading moves the boundary between sent and unsent bytes. *)
Lemma stream_read S bs len :
  stream_of S bs -> 0 <= len -> zlen S < 2 ^ 62 ->
  returns (read bs len) (λ '(bs', data), stream_of S bs' ∧
    zlen data = Z.min len (zlen (contents bs)) ∧ slice_of S (bs_total_read bs) data ∧
    bs_total_read bs' = bs_total_read bs + zlen data ∧
    zlen (contents bs') = zlen (contents bs) - zlen data ∧
    bs_total_written bs' = bs_total_written bs ∧ bs_input_ended bs' = bs_input_ended bs ∧
    bs_cap bs' = bs_cap bs ∧ bs_error bs' = bs_error bs).
Proof.
  intros Hst Hlen HS. pose proof (stream_read_pos _ _ Hst) as Hpos. pose proof Hst as [Hok Hw Hrd Hc He].
  eapply returns_mono; [by apply read_spec|].
  intros [bs' data] (Hd & Hc' & Hr' & Hcap & Hw' & Hie & Her & Hok').
  assert (zlen data = Z.min len (zlen (contents bs))) as Hl by (rewrite Hd; zlen_lia).
  assert (bs_total_read bs' = bs_total_read bs + zlen data) as Hr
    by (rewrite Hr', u64_id; unfold is_u64; zlen_lia).
  assert (zlen (contents bs') = zlen (contents bs) - zlen data) as Hlc by (rewrite Hc'; zlen_lia).
  assert (data = slice S (bs_total_read bs) (bs_total_read bs + zlen data)) as Hds.
  { rewrite Hd at 1. rewrite Hl, <- ztake_slice with (b := bs_total_written bs) by zlen_lia.
    rewrite <- Hc. destruct (Z.le_gt_cases len (zlen (contents bs))); [f_equal; lia|].
    by rewrite !ztake_ge by lia. }
  split_and!; try done.
  - split; try done; [lia|lia| |by rewrite Hie, Hw'].
    rewrite Hc', Hr, Hw', Hc. destruct (Z.le_gt_cases len (zlen (contents bs))).
    + rewrite zdrop_slice by lia. f_equal. lia.
    + rewrite <- Hc, zdrop_ge by lia. rewrite slice_nil by lia. done.
  - unfold slice_of. split_and!; [lia|lia|done].
Qed.

Lemma eof_contents bs : eof bs = bs_input_ended bs && (zlen (contents bs) =? 0).
Proof. unfold eof, buffer_empty. by rewrite list_size_concatenate. Qed.

(** Sending one segment that continues the sequence of those sent. *)
Lemma send_ok S s bs syn' fin' recv seg :
  snd_ok S s -> zlen S < 2 ^ 62 -> stream_of S bs ->
  sent_seg S (sd_isn s) (sd_next_seqno s) (on_header (set_seqno (next_seqno s)) seg) ->
  0 < length_in_sequence_space seg -> syn' = true -> is_u16 recv ->
  sd_next_seqno s + length_in_sequence_space seg = 1 + bs_total_read bs + (if fin' : bool then 1 else 0) ->
  (fin' = true -> eof bs = true) ->
  let s' := send_segment
    (mkSender (sd_isn s) (sd_segments_out s) (sd_initial_retransmission_timeout s) bs (sd_next_seqno s)
       (sd_outstanding_segments s) (sd_bytes_in_flight s) syn' fin' (sd_wdn_sz s) (sd_abs_ackno s)
       recv (sd_max_abs_seqno s) (sd_rto s) (sd_consecutive_retransmissions s) (sd_elapsed_time s)
       (sd_timer_on s)) seg in
  snd_ok S s' ∧ sd_next_seqno s' = sd_next_seqno s + length_in_sequence_space seg ∧ una s' = una s ∧
  ∃ m, sd_outstanding_segments s' = sd_outstanding_segments s ++ m ∧
    sd_segments_out s' = sd_segments_out s ++ map snd m.
Proof.
  intros Hs HS Hbs Hseg Hl -> Hrecv Hnext Hfin s'.
  pose proof (stream_read_pos _ _ Hbs) as Hpos. pose proof (st_written _ _ Hbs) as Hw.
  pose proof (sk_una _ _ Hs) as Hu. pose proof (chain_le _ _ _ _ _ (sk_chain _ _ Hs)) as Hcl.
  assert (0 <= sd_next_seqno s) as Hn0 by lia.
  set (seg' := on_header (set_seqno (next_seqno s)) seg) in *.
  assert (length_in_sequence_space seg' = length_in_sequence_space seg) as Hl' by done.
  assert (u64 (sd_next_seqno s + length_in_sequence_space seg') = sd_next_seqno s + length_in_sequence_space seg') as Hn
    by (apply u64_id; unfold is_u64; rewrite Hl'; destruct fin'; lia).
  assert (u64 (sd_bytes_in_flight s + length_in_sequence_space seg') = sd_bytes_in_flight s + length_in_sequence_space seg') as Hb.
  { apply u64_id. unfold is_u64, una in *. rewrite Hl'. destruct fin'; lia. }
  destruct (chain_insert _ _ _ _ _ seg' (sk_chain _ _ Hs) Hseg ltac:(lia)) as [Hins Hch].
  assert (sd_outstanding_segments s' = sd_outstanding_segments s ++
    [(sd_next_seqno s + length_in_sequence_space seg', seg')]) as Ho.
  { rewrite <- Hins, <- Hn. reflexivity. }
  assert (sd_next_seqno s' = sd_next_seqno s + length_in_sequence_space seg') as Hn' by exact Hn.
  assert (una s' = una s) as Hun.
  { assert (sd_bytes_in_flight s' = sd_bytes_in_flight s + length_in_sequence_space seg') as Hb' by exact Hb.
    unfold una. rewrite Hn', Hb'. lia. }
  split_and!; [|lia|done|].
  2: { rewrite Ho. eexists. split; [reflexivity|]. done. }
  assert (sd_outstanding_segments s' ≠ []) as Hne by (rewrite Ho; by destruct (sd_outstanding_segments s)).
  assert (sd_abs_ackno s' = sd_abs_ackno s) as Ha by done.
  assert (sd_max_abs_seqno s' = sd_max_abs_seqno s) as Hm by done.
  pose proof Hs as [].
  split; try done; try lia.
  - rewrite Hn', Hl', Hnext. unfold s'. simpl. done.
  - rewrite Hun, Hn', Ho. exact Hch.
  - unfold s'. simpl. apply Forall_app; split; [done|]. repeat constructor. by exists (sd_next_seqno s).
Qed.

(** The segment that carries [data] from index [i], with a FIN or without. *)
Lemma data_sent S isn i b f :
  slice_of S i (str b) -> zlen S < 2 ^ 62 -> zlen (str b) <= MAX_PAYLOAD_SIZE ->
  (f = true -> i + zlen (str b) = zlen S) ->
  sent_seg S isn (1 + i) (mkTCPSegment (set_fin f (set_seqno (wrap (1 + i) isn) default_header)) b).
Proof.
  intros Hsl HS Hsm Hf. pose proof Hsl as (Hi & Hle & _). split.
  - split; simpl; [done|done|zlen_lia|]. intros _. unfold stream_index. simpl.
    rewrite u64_id by (unfold is_u64; zlen_lia). by replace (1 + i - 1) with i by lia.
  - done.
  - simpl. intros Hfin. unfold length_in_sequence_space. simpl. rewrite Hfin. specialize (Hf Hfin). lia.
  - simpl. split; [done|lia].
  - done.
  - done.
  - cbn [header]. by auto with header.
Qed.

(** The sender whose stream is [bs], whose window is [recv] and which has sent
    the FIN or not. *)
Definition after_read (s : TCPSender) (bs : ByteStream) (f : bool) (recv : Z) : TCPSender :=
  mkSender (sd_isn s) (sd_segments_out s) (sd_initial_retransmission_timeout s) bs (sd_next_seqno s)
    (sd_outstanding_segments s) (sd_bytes_in_flight s) true f (sd_wdn_sz s) (sd_abs_ackno s)
    recv (sd_max_abs_seqno s) (sd_rto s) (sd_consecutive_retransmissions s) (sd_elapsed_time s) (sd_timer_on s).

(** Sending the data just read from the stream, with the FIN that ends it or
    without. *)
Lemma send_data_ok S s bs data f :
  snd_ok S s -> zlen S < 2 ^ 62 -> sd_syn s = true -> sd_fin_sent s = false -> stream_of S bs ->
  0 < zlen data <= MAX_PAYLOAD_SIZE -> slice_of S (bs_total_read (sd_stream s)) data ->
  bs_total_read bs = bs_total_read (sd_stream s) + zlen data -> bs_total_written bs = bs_total_written (sd_stream s) ->
  bs_input_ended bs = bs_input_ended (sd_stream s) -> bs_cap bs = bs_cap (sd_stream s) -> bs_error bs = bs_error (sd_stream s) ->
  (f = true -> eof bs = true) -> zlen data + (if f then 1 else 0) <= sd_recv_wdn_sz s ->
  filled S s (send_segment (after_read s bs f (sd_recv_wdn_sz s - zlen data - (if f then 1 else 0)))
    (mkTCPSegment (set_fin f default_header) (Buffer_of_string data))).
Proof.
  intros Hs HS Hsyn Hnf Hbs Hlen Hsl Hrd Hw Hie Hcap Herr Hf Hroom. set (segment := mkTCPSegment _ _). set (recv := _ - _ - _).
  pose proof (sk_next _ _ Hs) as Hnext. rewrite Hsyn, Hnf in Hnext.
  assert (length_in_sequence_space segment = zlen data + (if f then 1 else 0)) as Hl
    by (unfold segment, length_in_sequence_space; destruct f; simpl; rewrite str_of_string; lia).
  assert (f = true -> bs_total_read (sd_stream s) + zlen data = zlen S) as Hend.
  { intros Hft. apply Hf, eof_spec in Hft as [He Hn]. pose proof (st_ended _ _ Hbs He). pose proof (st_read _ _ Hbs) as Hx.
    rewrite Hn, (@zlen_nil byte) in Hx. lia. }
  assert (is_u16 recv) as Hrecv.
  { pose proof (sk_recv_wdn _ _ Hs). unfold is_u16, recv in *. destruct f; lia. }
  destruct (send_ok S s bs true f recv segment Hs HS Hbs) as (Hok & Hnx & Hun & Hm);
    [|destruct f; lia|done|done|destruct f; lia|done|].
  { unfold next_seqno. replace (sd_next_seqno s) with (1 + bs_total_read (sd_stream s)) by lia.
    apply (data_sent S (sd_isn s) (bs_total_read (sd_stream s)) (Buffer_of_string data) f); rewrite ?str_of_string; done || lia. }
  fold (after_read s bs f recv) in *. set (s' := send_segment _ segment) in *.
  assert (sd_recv_wdn_sz s' = recv) as Hrv by done. split; try done; rewrite Hnx, ?Hrv, Hl; unfold recv; destruct f; lia.
Qed.

Lemma fill_once_spec S s segment :
  snd_ok S s -> zlen S < 2 ^ 62 -> sd_syn s = true -> header segment = default_header ->
  0 < zlen (contents (sd_stream s)) -> 0 < sd_recv_wdn_sz s ->
  returns (fill_once s segment) (λ '(s', segment'), filled S s s' ∧
    zlen (contents (sd_stream s')) < zlen (contents (sd_stream s)) ∧
    (sd_fin_sent s' = false -> header segment' = default_header ∧
       (eof (sd_stream s') = true -> sd_recv_wdn_sz s' = 0))).
Proof.
  intros Hs HS Hsyn Hh Hc Hr. pose proof (sk_recv_wdn _ _ Hs) as Hr16. unfold is_u16 in Hr16. unfold fill_once.
  set (len := if _ <? _ then _ else _).
  assert (0 < len <= MAX_PAYLOAD_SIZE ∧ len <= sd_recv_wdn_sz s) as [Hlen Hlenr].
  { unfold len, MAX_PAYLOAD_SIZE. destruct (Z.ltb_spec 1452 (sd_recv_wdn_sz s)); lia. }
  clearbody len.
  assert (sd_fin_sent s = false) as Hnf.
  { destruct (sd_fin_sent s) eqn:Hf; [|done]. apply (sk_fin _ _ Hs) in Hf.
    apply eof_spec in Hf as [_ Hn]. rewrite Hn, (@zlen_nil byte) in Hc. lia. }
  eapply returns_bind; [by apply (stream_read S); [apply Hs|lia|]|].
  intros [bs data] (Hbs & Hdl & Hsl & Hrd & Hcl & Hw & Hie & Hcap & Herr). apply returns_ret.
  unfold set_payload. rewrite Hh. cbn [sd_stream set_recv_wdn_sz set_stream sd_recv_wdn_sz].
  assert (length_in_sequence_space (mkTCPSegment default_header (Buffer_of_string data)) = zlen data) as ->
    by (unfold length_in_sequence_space; simpl; rewrite str_of_string; lia).
  rewrite (u16_id (sd_recv_wdn_sz s - zlen data)) by (unfold is_u16; lia).
  pose proof (send_data_ok S s bs data (eof bs && (0 <? sd_recv_wdn_sz s - zlen data)) Hs HS Hsyn Hnf Hbs ltac:(lia) Hsl Hrd Hw Hie Hcap Herr) as Hsend.
  destruct (eof bs && (0 <? sd_recv_wdn_sz s - zlen data)) eqn:Hf.
  all: replace (0 <? length_in_sequence_space _) with true by
    (symmetry; apply Z.ltb_lt; unfold length_in_sequence_space; simpl; rewrite str_of_string; lia).
  all: unfold after_read in Hsend; unfold set_recv_wdn_sz, set_fin_sent, set_stream; cbn [sd_isn sd_segments_out sd_initial_retransmission_timeout
    sd_stream sd_next_seqno sd_outstanding_segments sd_bytes_in_flight sd_syn sd_fin_sent sd_wdn_sz sd_abs_ackno sd_recv_wdn_sz
    sd_max_abs_seqno sd_rto sd_consecutive_retransmissions sd_elapsed_time sd_timer_on]; rewrite Hsyn, ?Hnf.
  - apply andb_true_iff in Hf as [He Hlt%Z.ltb_lt]. rewrite (u16_id (sd_recv_wdn_sz s - zlen data - 1)) by (unfold is_u16; lia).
    split_and!; [apply Hsend; [done|lia]|cbn; lia|done].
  - rewrite Z.sub_0_r in Hsend. split_and!; [apply Hsend; [done|lia]|cbn; lia|]. intros _. split; [done|]. cbn. intros He.
    rewrite He in Hf. cbn in Hf. apply Z.ltb_ge in Hf. lia.
Qed.

Lemma fill_loop_spec S fuel s segment :
  snd_ok S s -> zlen S < 2 ^ 62 -> sd_syn s = true ->
  (sd_fin_sent s = false -> header segment = default_header) ->
  zlen (contents (sd_stream s)) <= Z.of_nat fuel ->
  returns (fill_loop fuel s segment) (λ '(s', segment'), filled S s s' ∧
    (contents (sd_stream s') = [] ∨ sd_recv_wdn_sz s' = 0) ∧
    (sd_fin_sent s' = false -> eof (sd_stream s') = true -> 0 < sd_recv_wdn_sz s' -> s' = s ∧ segment' = segment)).
Proof.
  revert s segment. induction fuel as [|fuel IH]; intros s segment Hs HS Hsyn Hh Hfuel;
    cbn [fill_loop]; rewrite buffer_size_contents;
    destruct (Z.ltb_spec 0 (zlen (contents (sd_stream s)))) as [Hc|Hc]; cbn [andb]; try lia.
  1,3: apply returns_ret; split_and!; [by apply filled_refl|left; by apply zlen_0_nil|done].
  destruct (Z.ltb_spec 0 (sd_recv_wdn_sz s)) as [Hr|Hr].
  2: { apply returns_ret. pose proof (sk_recv_wdn _ _ Hs). unfold is_u16 in *.
       split_and!; [by apply filled_refl|right; lia|done]. }
  assert (sd_fin_sent s = false) as Hnf.
  { destruct (sd_fin_sent s) eqn:Hf; [|done]. pose proof (sk_fin _ _ Hs Hf) as [_ Hn]%eof_spec.
    rewrite Hn, (@zlen_nil byte) in Hc. lia. }
  eapply returns_bind; [by apply (fill_once_spec S); auto|].
  intros [s1 segment1] (Hf1 & Hlt & Hopen).
  eapply returns_mono; [apply IH; [apply Hf1|done|apply Hf1|intros Hq; apply (Hopen Hq)|lia]|].
  intros [s' segment'] (Hf' & Hfull & Hnoop). split_and!; [by eapply filled_trans|done|].
  intros Hfs He Hr'. destruct (Hnoop Hfs He Hr') as [-> ->]. destruct (Hopen Hfs) as [_ Hz]. specialize (Hz He). lia.
Qed.

(** The state after [fill_window] once the connection is started. *)
Lemma fill_window_spec S s :
  snd_ok S s -> zlen S < 2 ^ 62 -> sd_syn s = true ->
  returns (fill_window s) (λ s', filled S s s' ∧
    (sd_recv_wdn_sz s' = 0 ∨ contents (sd_stream s') = [] ∧ (eof (sd_stream s') = true -> sd_fin_sent s' = true))).
Proof.
  intros Hs HS Hsyn. unfold fill_window. rewrite Hsyn. cbn [negb]. pose proof (zlen_nonneg (contents (sd_stream s))).
  eapply returns_bind; [apply (fill_loop_spec S); try done; rewrite buffer_size_contents; lia|].
  intros [s1 segment1] (Hf1 & Hfull & Hnoop). pose proof (fl_ok _ _ _ Hf1) as Hs1.
  pose proof (sk_recv_wdn _ _ Hs1) as Hu. unfold is_u16 in Hu.
  destruct (negb (sd_fin_sent s1) && eof (sd_stream s1) && (0 <? sd_recv_wdn_sz s1)) eqn:Hcond.
  2: { apply returns_ret. split; [done|]. destruct Hfull as [Hn|?]; [|by left].
       destruct (Z.eq_dec (sd_recv_wdn_sz s1) 0); [by left|]. right. split; [done|]. intros He.
       destruct (sd_fin_sent s1); [done|]. rewrite He in Hcond. cbn in Hcond. lia. }
  apply andb_true_iff in Hcond as [[Hnf%negb_true_iff He]%andb_true_iff Hr%Z.ltb_lt].
  destruct (Hnoop Hnf He Hr) as [-> ->]. apply returns_ret.
  pose proof Hs as []. rewrite Hsyn, Hnf in sk_next0. pose proof (stream_read_pos _ _ sk_stream0).
  pose proof He as [Hie Hn]%eof_spec. pose proof (st_ended _ _ sk_stream0 Hie) as Hend.
  pose proof (st_read _ _ sk_stream0) as Hrd. rewrite Hn, (@zlen_nil byte) in Hrd.
  assert (length_in_sequence_space (on_header (set_fin true) default_segment) = 1) as Hone by done.
  destruct (send_ok S s (sd_stream s) true true (sd_recv_wdn_sz s - 1) (on_header (set_fin true) default_segment) Hs HS sk_stream0)
    as (Hok & Hnx & Hun & Hm); try done; [|unfold is_u16; lia|lia|].
  { unfold next_seqno. replace (sd_next_seqno s) with (1 + bs_total_read (sd_stream s)) by lia.
    apply (data_sent S (sd_isn s) _ Buffer_default true); cbn; rewrite ?(@zlen_nil byte); try done; [|lia].
    unfold slice_of. cbn. rewrite (@zlen_nil byte), slice_nil by lia. split_and!; [lia|lia|done]. }
  match goal with |- context [set_fin_sent ?x] => set (s' := set_fin_sent x) end.
  match type of Hok with snd_ok _ ?x => assert (s' = x) as -> end.
  { unfold s', set_fin_sent, set_recv_wdn_sz, send_segment. cbn -[length_in_sequence_space].
    rewrite Hsyn, (u16_id (sd_recv_wdn_sz s - 1)) by (unfold is_u16; lia). done. }
  split; [|cbn; right; done].
  split; try done; [|lia]. rewrite Hnx, Hone. cbn [sd_recv_wdn_sz send_segment]. lia.
Qed.

(** The first call of [fill_window] sends the SYN. *)
Lemma fill_window_syn S s :
  snd_ok S s -> zlen S < 2 ^ 62 -> sd_syn s = false ->
  returns (fill_window s) (λ s', snd_ok S s' ∧ sd_syn s' = true ∧ sd_next_seqno s' = 1 ∧
    sd_isn s' = sd_isn s ∧ sd_recv_wdn_sz s' = sd_recv_wdn_sz s ∧ sd_stream s' = sd_stream s ∧ una s' = una s ∧
    sd_abs_ackno s' = sd_abs_ackno s ∧
    ∃ m, sd_outstanding_segments s' = sd_outstanding_segments s ++ m ∧
      sd_segments_out s' = sd_segments_out s ++ map snd m).
Proof.
  intros Hs HS Hsyn. unfold fill_window. rewrite Hsyn. cbn [negb]. apply returns_ret.
  pose proof Hs as []. destruct (sk_start0 Hsyn) as (Hrd & _ & Hnf). rewrite Hsyn in sk_next0.
  pose proof (zlen_nonneg S).
  assert (length_in_sequence_space (on_header (set_syn true) default_segment) = 1) as Hone by done.
  destruct (send_ok S s (sd_stream s) true false (sd_recv_wdn_sz s) (on_header (set_syn true) default_segment) Hs HS sk_stream0)
    as (Hok & Hnx & Hun & Hm); try done; [|lia|].
  { unfold next_seqno. rewrite sk_next0. split; [|cbn; by unfold MAX_PAYLOAD_SIZE|done|done|done|done|unfold on_header, default_segment; cbn [header]; by auto with header].
    split; [done|done|lia|done]. }
  match goal with |- context [send_segment (set_started s) ?x] => set (s' := send_segment (set_started s) x) end.
  match type of Hok with snd_ok _ ?x => assert (s' = x) as -> end.
  { unfold s', set_started. by rewrite Hnf. }
  split_and!; try done. lia.
Qed.

Lemma fill_window_ok S s :
  snd_ok S s -> zlen S < 2 ^ 62 ->
  returns (fill_window s) (λ s', snd_ok S s' ∧ sd_isn s' = sd_isn s ∧ una s' = una s ∧
    bs_total_written (sd_stream s') = bs_total_written (sd_stream s) ∧
    bs_input_ended (sd_stream s') = bs_input_ended (sd_stream s) ∧
    ∃ m, sd_outstanding_segments s' = sd_outstanding_segments s ++ m ∧
      sd_segments_out s' = sd_segments_out s ++ map snd m).
Proof.
  intros Hs HS. destruct (sd_syn s) eqn:Hsyn.
  - eapply returns_mono; [by apply (fill_window_spec S)|]. intros s' [[] _]. done.
  - eapply returns_mono; [by apply (fill_window_syn S)|].
    intros s' (? & ? & ? & ? & ? & Hst & ? & ? & ?). by rewrite Hst.
Qed.

Lemma chain_find S isn a m b k seg :
  chain S isn a m b -> find k m = Some seg ->
  ∃ pre post c, m = pre ++ (k, seg) :: post ∧ keys_lt k pre ∧ keys_gt k post ∧
    chain S isn a pre c ∧ k = c + length_in_sequence_space seg ∧ chain S isn k post b.
Proof.
  intros Hc Hf. destruct (find_split _ _ _ _ (chain_sorted _ _ _ _ _ Hc) Hf) as (pre & post & -> & Hpre & Hpost).
  apply chain_app in Hc as (c & Hc1 & Hk & _ & _ & Hc2). exists pre, post, c. by split_and!.
Qed.

Lemma chain_last S isn a m b : chain S isn a m b -> m ≠ [] -> find b m ≠ None.
Proof.
  intros Hc Hne Hf. rewrite find_None in Hf. revert a Hc Hne Hf.
  induction m as [|[k seg] m IH]; intros a; [done|]. intros (_ & _ & _ & Hc) _ Hf.
  apply Forall_cons in Hf as [Hk Hf]. simpl in Hk.
  destruct m as [|p m]; [cbn in Hc; lia|]. by apply (IH k).
Qed.

(** Everything [ack_received] does before it fills the window. *)
Definition acknowledge (s : TCPSender) (abs_ackno window_size : Z) : TCPSender :=
  let s := remove_acked (set_acked abs_ackno window_size s) in
  let s := set_recv_wdn_sz (u16 (u64 (abs_ackno + window_size - next_seqno_absolute s))) s in
  let s := set_recv_wdn_sz (if sd_wdn_sz s =? 0 then 1 else sd_recv_wdn_sz s) s in
  restart_timer s.

(** The outstanding segments after an acknowledgment up to [k]: only an
    acknowledgment at the end of an outstanding segment removes any. *)
Definition after_ack (k : Z) (m : list (Z * TCPSegment)) : list (Z * TCPSegment) :=
  match find k m with Some _ => filter (λ p, k < p.1) m | None => m end.

Lemma filter_above k (pre post : list (Z * TCPSegment)) seg :
  keys_lt k pre -> keys_gt k post -> filter (λ p, k < p.1) (pre ++ (k, seg) :: post) = post.
Proof.
  intros Hpre Hpost. rewrite filter_app. rewrite filter_cons_False by (simpl; lia).
  assert (filter (λ p : Z * TCPSegment, k < p.1) pre = []) as ->.
  { induction Hpre as [|p pre Hp _ IH]; [done|]. by rewrite filter_cons_False by lia. }
  induction Hpost as [|p post Hp _ IH]; [done|]. simpl. rewrite filter_cons_True by done. f_equal. exact IH.
Qed.

(** The segments left by an acknowledgment, and what they cover. *)
Lemma remove_acked_spec S s :
  chain S (sd_isn s) (una s) (sd_outstanding_segments s) (sd_next_seqno s) -> 0 <= una s ->
  sd_next_seqno s < 2 ^ 63 ->
  ∃ n, remove_acked s = set_outstanding (after_ack (sd_abs_ackno s) (sd_outstanding_segments s)) n s ∧
    sd_next_seqno s - n =
      (if find (sd_abs_ackno s) (sd_outstanding_segments s) then sd_abs_ackno s else una s) ∧
    chain S (sd_isn s) (sd_next_seqno s - n) (after_ack (sd_abs_ackno s) (sd_outstanding_segments s)) (sd_next_seqno s).
Proof.
  intros Hc Hu Hn. unfold remove_acked, after_ack. destruct (find _ _) as [seg|] eqn:Hf.
  - destruct (chain_find _ _ _ _ _ _ _ Hc Hf) as (pre & post & c & -> & Hpre & Hpost & Hc1 & Hk & Hc2).
    rewrite before_between, from_between, filter_above by done.
    assert (erase (sd_abs_ackno s) ((sd_abs_ackno s, seg) :: post) = post) as ->
      by (cbn; by rewrite Z.eqb_refl).
    pose proof (chain_le _ _ _ _ _ Hc1). pose proof (chain_le _ _ _ _ _ Hc2). pose proof (length_nonneg seg).
    unfold una in *. rewrite (chain_flight _ _ _ _ _ _ Hc1) by lia. rewrite u64_id by (unfold is_u64; lia).
    eexists. split; [reflexivity|].
    assert (sd_next_seqno s - (sd_bytes_in_flight s - (c - (sd_next_seqno s - sd_bytes_in_flight s)) -
      length_in_sequence_space seg) = sd_abs_ackno s) as -> by lia.
    done.
  - exists (sd_bytes_in_flight s). split_and!; [by destruct s|done|done].
Qed.

Lemma next_bound S s : snd_ok S s -> 0 <= sd_next_seqno s <= zlen S + 2.
Proof.
  intros []. pose proof (stream_read_pos _ _ sk_stream0). pose proof (st_written _ _ sk_stream0).
  pose proof (zlen_nonneg S). rewrite sk_next0. destruct (sd_syn s), (sd_fin_sent s); lia.
Qed.

(** The state after the acknowledgment [abs] with window [win]; [n] is what is
    in flight then. *)
Lemma acknowledge_eq S s abs win :
  snd_ok S s -> zlen S < 2 ^ 62 -> 0 <= abs <= sd_next_seqno s -> is_u16 win -> sd_next_seqno s <= abs + win ->
  let m := after_ack abs (sd_outstanding_segments s) in
  let late := sd_max_abs_seqno s <? abs in
  ∃ n, acknowledge s abs win = mkSender (sd_isn s) (sd_segments_out s) (sd_initial_retransmission_timeout s) (sd_stream s)
      (sd_next_seqno s) m n (sd_syn s) (sd_fin_sent s) win abs (if win =? 0 then 1 else abs + win - sd_next_seqno s)
      (if late then abs else sd_max_abs_seqno s)
      (if late then sd_initial_retransmission_timeout s else sd_rto s)
      (if late then 0 else sd_consecutive_retransmissions s)
      (if late then if bool_decide (m = []) then sd_elapsed_time s else 0 else sd_elapsed_time s)
      (if bool_decide (m = []) then false else sd_timer_on s) ∧
    sd_next_seqno s - n = (if find abs (sd_outstanding_segments s) then abs else una s) ∧
    chain S (sd_isn s) (sd_next_seqno s - n) m (sd_next_seqno s).
Proof.
  intros Hs HS Habs Hw Hwin m late. pose proof (next_bound _ _ Hs) as Hnb. unfold is_u16 in Hw.
  destruct (remove_acked_spec S (set_acked abs win s) (sk_chain _ _ Hs) (sk_una _ _ Hs)) as (n & Hrm & Hn & Hch); [simpl; lia|].
  cbn [sd_abs_ackno sd_outstanding_segments sd_next_seqno set_acked] in Hrm, Hn, Hch. exists n. split; [|done].
  unfold acknowledge. rewrite Hrm. unfold restart_timer.
  cbn [sd_outstanding_segments set_recv_wdn_sz set_outstanding set_acked sd_max_abs_seqno sd_abs_ackno
       next_seqno_absolute sd_next_seqno sd_wdn_sz sd_recv_wdn_sz].
  fold m. fold late. unfold next_seqno_absolute. cbn [sd_next_seqno set_outstanding set_acked].
  rewrite (u64_id (abs + win - sd_next_seqno s)) by (unfold is_u64; lia).
  rewrite (u16_id (abs + win - sd_next_seqno s)) by (unfold is_u16; lia).
  destruct late, (bool_decide (m = [])); reflexivity.
Qed.

Lemma acknowledge_spec S s abs win :
  snd_ok S s -> zlen S < 2 ^ 62 -> 0 <= abs <= sd_next_seqno s -> is_u16 win -> sd_next_seqno s <= abs + win ->
  let s' := acknowledge s abs win in
  snd_ok S s' ∧ sd_next_seqno s' = sd_next_seqno s ∧ sd_syn s' = sd_syn s ∧ sd_isn s' = sd_isn s ∧
  sd_segments_out s' = sd_segments_out s ∧ sd_stream s' = sd_stream s ∧
  sd_abs_ackno s' = abs ∧ sd_wdn_sz s' = win ∧
  sd_outstanding_segments s' = after_ack abs (sd_outstanding_segments s) ∧
  una s' = (if find abs (sd_outstanding_segments s) then abs else una s) ∧
  sd_next_seqno s' + sd_recv_wdn_sz s' = abs + Z.max 1 win ∧
  sd_consecutive_retransmissions s' =
    (if sd_max_abs_seqno s <? abs then 0 else sd_consecutive_retransmissions s).
Proof.
  intros Hs HS Habs Hw Hwin s'. destruct (acknowledge_eq S s abs win Hs HS Habs Hw Hwin) as (n & Hs' & Hn & Hch).
  set (m := after_ack abs (sd_outstanding_segments s)) in *. unfold is_u16 in Hw. pose proof Hs as [].
  assert (m ≠ [] -> sd_outstanding_segments s ≠ [] ∧ abs < sd_next_seqno s) as Hm1.
  { intros Hm. assert (sd_outstanding_segments s ≠ []) as Hne by (intros He; apply Hm; unfold m, after_ack; by rewrite He).
    split; [done|]. destruct (Z.eq_dec abs (sd_next_seqno s)) as [->|]; [|lia].
    unfold m, after_ack in *. destruct (find _ _) eqn:Hf; [|by apply (chain_last _ _ _ _ _ sk_chain0 Hne) in Hf].
    rewrite Hn in Hch. destruct (filter _ _) as [|[k seg] l]; [done|].
    destruct Hch as (-> & Hpos & _ & Hcl%chain_le). lia. }
  assert (m = [] -> (if sd_max_abs_seqno s <? abs then 0 else sd_consecutive_retransmissions s) = 0) as Hm2.
  { intros Hm. destruct (Z.ltb_spec (sd_max_abs_seqno s) abs); [done|]. apply sk_retx0.
    destruct (decide (sd_outstanding_segments s = [])) as [|Hne]; [done|]. specialize (sk_max_lt0 Hne).
    unfold m, after_ack in *. destruct (find _ _) eqn:Hf; [|done]. rewrite Hm in Hch. rewrite Hn in Hch.
    cbn in Hch. lia. }
  assert (una s' = sd_next_seqno s - n) as Hun by (unfold s'; by rewrite Hs').
  assert (0 <= sd_next_seqno s - n) as Hu by (rewrite Hn; destruct (find _ _); [lia|exact sk_una0]).
  unfold s' in *. rewrite Hs' in *. split_and!; try done; [|cbn; destruct (Z.eqb_spec win 0); lia].
  split; cbn -[una]; try done; try lia.
  - intros Hsy. destruct (sk_start0 Hsy) as (? & Ho & ?). unfold m, after_ack. by rewrite Ho.
  - unfold is_u16. destruct (Z.eqb_spec win 0); lia.
  - destruct (Z.ltb_spec (sd_max_abs_seqno s) abs); lia.
  - intros Hm. destruct (Hm1 Hm) as [Hne ?]. specialize (sk_max_lt0 Hne). destruct (Z.ltb_spec (sd_max_abs_seqno s) abs); lia.
  - case_bool_decide as Hm; [by rewrite Hm|]. rewrite sk_timer0. split; [done|]. intros _. apply (Hm1 Hm).
Qed.

(** What an acknowledgment does, in terms of the absolute number it stands
    for: an impossible one is ignored, one whose window ends before the next
    sequence number only closes the window, and any other one is processed. *)
Definition ack_abs (s : TCPSender) (ackno : WrappingInt32) : Z := unwrap ackno (sd_isn s) (sd_abs_ackno s).

Lemma ack_abs_nonneg S s ackno : snd_ok S s -> zlen S < 2 ^ 62 -> 0 <= ack_abs s ackno.
Proof.
  intros Hs HS. pose proof (next_bound _ _ Hs). pose proof (sk_ackno _ _ Hs).
  apply (unwrap_cases ackno (sd_isn s) (sd_abs_ackno s)). lia.
Qed.

Lemma ack_received_cases S s ackno win :
  snd_ok S s -> zlen S < 2 ^ 62 -> is_u16 win ->
  ack_received s ackno win =
    if sd_next_seqno s <? ack_abs s ackno then Ret s
    else if ack_abs s ackno + win <? sd_next_seqno s then Ret (set_recv_wdn_sz 0 s)
    else fill_window (acknowledge s (ack_abs s ackno) win).
Proof.
  intros Hs HS Hw. pose proof (ack_abs_nonneg S s ackno Hs HS). pose proof (next_bound _ _ Hs). unfold is_u16 in Hw.
  unfold ack_received. fold (ack_abs s ackno). unfold next_seqno_absolute.
  destruct (Z.ltb_spec (sd_next_seqno s) (ack_abs s ackno)); [done|].
  by rewrite u64_id by (unfold is_u64; lia).
Qed.

Lemma set_recv_wdn_ok S s w : snd_ok S s -> is_u16 w -> snd_ok S (set_recv_wdn_sz w s).
Proof. intros [] ?. by split. Qed.

Lemma ack_received_ok S s ackno win :
  snd_ok S s -> zlen S < 2 ^ 62 -> is_u16 win ->
  returns (ack_received s ackno win) (λ s', snd_ok S s' ∧ sd_isn s' = sd_isn s ∧
    bs_total_written (sd_stream s') = bs_total_written (sd_stream s) ∧
    bs_input_ended (sd_stream s') = bs_input_ended (sd_stream s) ∧
    una s <= una s').
Proof.
  intros Hs HS Hw. rewrite (ack_received_cases S) by done.
  pose proof (ack_abs_nonneg S s ackno Hs HS).
  destruct (Z.ltb_spec (sd_next_seqno s) (ack_abs s ackno)); [by apply returns_ret|].
  destruct (Z.ltb_spec (ack_abs s ackno + win) (sd_next_seqno s)).
  { apply returns_ret. split_and!; try done. apply set_recv_wdn_ok; [done|unfold is_u16; lia]. }
  destruct (acknowledge_spec S s (ack_abs s ackno) win Hs HS) as (Hok & _ & _ & Hi & _ & Hst & _ & _ & _ & Hu & _);
    [lia|done|lia|].
  eapply returns_mono; [by apply (fill_window_ok S)|].
  intros s' (Hok' & Hi' & Hu' & Hw' & He' & _). rewrite Hw', He', Hi', Hu', Hst, Hu.
  split_and!; try done. destruct (find _ _) eqn:Hf; [|lia].
  pose proof (find_above _ _ _ _ (chain_sorted _ _ _ _ _ (sk_chain _ _ Hs)) Hf). lia.
Qed.

Lemma chain_first S isn a k seg m b : chain S isn a ((k, seg) :: m) b -> sent_seg S isn a seg.
Proof. intros (_ & _ & H & _). done. Qed.

Lemma sender_tick_ok S s ms : snd_ok S s -> snd_ok S (tick s ms).
Proof.
  intros Hs. pose proof Hs as []. unfold tick. destruct (sd_timer_on s) eqn:Ht; [|done].
  pose proof (proj1 sk_timer0 eq_refl) as Hne. rewrite bool_decide_eq_false_2 by done.
  cbn [sd_rto sd_elapsed_time set_timer sd_outstanding_segments sd_wdn_sz sd_max_abs_seqno sd_segments_out
       sd_consecutive_retransmissions].
  destruct (_ <=? _); [|by split].
  destruct (sd_outstanding_segments s) as [|[k seg] m] eqn:Ho; [done|].
  assert (Forall (λ seg, ∃ abs, sent_seg S (sd_isn s) abs seg) (sd_segments_out s ++ [seg])) as Hq.
  { apply Forall_app; split; [done|]. repeat constructor. exists (una s). by eapply chain_first. }
  cbn [sd_wdn_sz set_segments_out set_timer].
  destruct (0 <? sd_wdn_sz s); split; cbn -[una chain]; rewrite ?Ho; try done.
Qed.

Lemma send_empty_ok S s : snd_ok S s -> snd_ok S (send_empty_segment s).
Proof.
  intros Hs. pose proof (next_bound _ _ Hs). pose proof Hs as []. split; try done.
  cbn. apply Forall_app; split; [done|]. repeat constructor. exists (sd_next_seqno s).
  split; [|cbn; by unfold MAX_PAYLOAD_SIZE|done| |done|done|unfold next_seqno, on_header, default_segment; cbn [header]; by auto with header].
  2: { split; [done|]. intros [_ Hl]. change (0 < 0) in Hl. lia. }
  split; try done; lia.
Qed.

Lemma pop_segment_ok S s seg s' :
  snd_ok S s -> pop_segment s = Some (seg, s') -> snd_ok S s' ∧ ∃ abs, sent_seg S (sd_isn s) abs seg.
Proof.
  intros Hs. pose proof Hs as []. unfold pop_segment. destruct (sd_segments_out s) as [|x q] eqn:Hq; [done|].
  intros [= <- <-]. apply Forall_cons in sk_queue0 as [Hx Hr]. split; [|done]. by split.
Qed.

(** The application's side of the outgoing stream. *)
Lemma set_stream_ok S s bs :
  snd_ok S s -> stream_of S bs -> bs_total_read bs = bs_total_read (sd_stream s) ->
  (sd_fin_sent s = true -> eof bs = true) -> snd_ok S (set_stream bs s).
Proof. intros [] ? Hr ?. split; cbn -[una]; rewrite ?Hr; done. Qed.

Lemma stream_write S s data bs n :
  snd_ok S s -> bs_input_ended (sd_stream s) = false -> write (sd_stream s) data = (bs, n) -> zlen S < 2 ^ 62 ->
  slice_of S (bs_total_written (sd_stream s)) (ztake n data) -> snd_ok S (set_stream bs s).
Proof.
  intros Hs Hie Hw HS (Hi & Hl & Hsl). pose proof (sk_stream _ _ Hs) as Hst. pose proof (st_ok _ _ Hst) as Hok.
  destruct (write_spec _ _ _ _ Hok Hw) as (Hn & Hc & Ht & Hcap & Hr & Hie' & _).
  pose proof (write_ok (sd_stream s) data Hok) as Hok'. rewrite Hw in Hok'. cbn in Hok'.
  pose proof (remaining_capacity_spec _ Hok) as Hrc. pose proof (ok_fits _ Hok).
  pose proof (stream_read_pos _ _ Hst). pose proof (st_read _ _ Hst) as Hrd. pose proof (st_written _ _ Hst).
  pose proof (zlen_nonneg data). assert (zlen (ztake n data) = n) as Hzl by (rewrite zlen_ztake; lia).
  rewrite Hzl in Hl, Hsl. rewrite u64_id in Ht by (unfold is_u64; lia).
  apply set_stream_ok; [done| |done|].
  - split; try done; rewrite ?Ht, ?Hr, ?Hc, ?Hie'; [lia|rewrite zlen_app; lia| |congruence].
    rewrite (st_contents _ _ Hst) at 1. rewrite Hsl. symmetry. apply slice_app; lia.
  - intros Hf%(sk_fin _ _ Hs)%eof_spec. destruct Hf. congruence.
Qed.

Lemma stream_end S s :
  snd_ok S s -> bs_total_written (sd_stream s) = zlen S -> snd_ok S (set_stream (end_input (sd_stream s)) s).
Proof.
  intros Hs Hw. pose proof (sk_stream _ _ Hs) as [].
  apply set_stream_ok; [done| |done|].
  - split; try done. by apply end_input_ok.
  - intros Hf%(sk_fin _ _ Hs)%eof_spec. apply eof_spec. cbn. by destruct Hf.
Qed.

Lemma stream_error S s : snd_ok S s -> snd_ok S (set_stream (set_error (sd_stream s)) s).
Proof.
  intros Hs. pose proof (sk_stream _ _ Hs) as []. apply set_stream_ok; try done; [|apply Hs].
  split; try done. by apply set_error_ok.
Qed.

(** ** Properties *)

(** The calls a sender can receive while its owner writes the stream [S];
    acknowledgments and window sizes are arbitrary. *)
Inductive sender_step (S : list byte) (s : TCPSender) : TCPSender -> Prop :=
| step_write data bs n :
    bs_input_ended (sd_stream s) = false -> write (sd_stream s) data = (bs, n) ->
    slice_of S (bs_total_written (sd_stream s)) (ztake n data) -> sender_step S s (set_stream bs s)
| step_end :
    bs_total_written (sd_stream s) = zlen S -> sender_step S s (set_stream (end_input (sd_stream s)) s)
| step_error : sender_step S s (set_stream (set_error (sd_stream s)) s)
| step_fill s' : fill_window s = Ret s' -> sender_step S s s'
| step_ack ackno win s' : is_u16 win -> ack_received s ackno win = Ret s' -> sender_step S s s'
| step_tick ms : sender_step S s (tick s ms)
| step_empty : sender_step S s (send_empty_segment s)
| step_pop seg s' : pop_segment s = Some (seg, s') -> sender_step S s s'.

Lemma sender_step_ok S s s' : zlen S < 2 ^ 62 -> snd_ok S s -> sender_step S s s' -> snd_ok S s'.
Proof.
  intros HS Hs Hstep. destruct Hstep.
  - by eapply stream_write.
  - by apply stream_end.
  - by apply stream_error.
  - destruct (fill_window_ok S s Hs HS) as (s1 & Hf & Hok & _). congruence.
  - destruct (ack_received_ok S s ackno win Hs HS) as (s1 & Hf & Hok & _); [done|congruence].
  - by apply sender_tick_ok.
  - by apply send_empty_ok.
  - by eapply pop_segment_ok.
Qed.

Lemma chain_sum S isn a m b :
  chain S isn a m b -> b - a = foldr (λ p n, length_in_sequence_space p.2 + n) 0 m.
Proof.
  revert a. induction m as [|[k seg] m IH]; intros a; cbn -[length_in_sequence_space]; [lia|].
  intros (-> & _ & _ & Hc%IH). lia.
Qed.

(** C7: in every state the sender can reach, whatever is acknowledged and
    whenever time passes, the outstanding segments cover the sequence numbers
    from the oldest unacknowledged one to the next one without gap or overlap;
    each of them and each queued segment has the bytes, the SYN and the FIN that
    belong at its sequence number and at most [MAX_PAYLOAD_SIZE] bytes;
    [bytes_in_flight] is the sum of their lengths; the timer runs exactly when
    something is outstanding; and no call fails or loops. *)
Theorem sender_invariant S cap retx fixed random s :
  is_u64 cap -> zlen S < 2 ^ 62 -> rtc (sender_step S) (new_TCPSender cap retx fixed random) s ->
  snd_ok S s ∧
  bytes_in_flight s = foldr (λ p n, length_in_sequence_space p.2 + n) 0 (sd_outstanding_segments s) ∧
  (∃ s', fill_window s = Ret s') ∧
  (∀ ackno win, is_u16 win -> ∃ s', ack_received s ackno win = Ret s').
Proof.
  intros Hcap HS Hreach. assert (snd_ok S s) as Hs.
  { pose proof (new_snd_ok S cap retx fixed random Hcap) as H0.
    induction Hreach as [|s1 s2 s3 Hstep _ IH]; [done|]. apply IH. by apply (sender_step_ok S s1). }
  split_and!; [done| | |].
  - rewrite <- (chain_sum _ _ _ _ _ (sk_chain _ _ Hs)). unfold una, bytes_in_flight. lia.
  - destruct (fill_window_ok S s Hs HS) as (s' & ? & _). eauto.
  - intros ackno win Hw. destruct (ack_received_ok S s ackno win Hs HS Hw) as (s' & ? & _). eauto.
Qed.

Definition sample_sender : TCPSender := new_TCPSender 64 1000 (Some (mkWrap 7)) 0.

Lemma sender_invariant_witness :
  ∃ s, snd_ok [x61] s ∧
  bytes_in_flight s = foldr (λ p n, length_in_sequence_space p.2 + n) 0 (sd_outstanding_segments s) ∧
  (∃ s', fill_window s = Ret s') ∧
  (∀ ackno win, is_u16 win -> ∃ s', ack_received s ackno win = Ret s').
Proof.
  eexists. apply (sender_invariant [x61] 64 1000 (Some (mkWrap 7)) 0).
  - unfold is_u64. lia.
  - vm_compute. reflexivity.
  - eapply rtc_l; [eapply (step_write _ _ [x61]); [reflexivity|vm_compute; reflexivity|]|].
    { split_and!; vm_compute; congruence. }
    eapply rtc_l; [apply step_end; reflexivity|].
    eapply rtc_l; [eapply step_fill; vm_compute; reflexivity|].
    eapply rtc_l; [eapply (step_ack _ _ (mkWrap 8) 10); [unfold is_u16; lia|vm_compute; reflexivity]|].
    apply rtc_refl.
Defined.

(** C9: [fill_window] terminates. Its first call sends the SYN alone, which is not
    taken from the window, and leaves the stream for later. From then on it sends
    as much as it may: the sequence numbers sent come out of the window budget, all
    bytes are sent in order, and it stops only when the window is used up or when
    everything written has been sent, with the FIN if the stream was ended. *)
Theorem fill_window_fills S s :
  snd_ok S s -> zlen S < 2 ^ 62 ->
  ∃ s' m, fill_window s = Ret s' ∧ snd_ok S s' ∧
    sd_outstanding_segments s' = sd_outstanding_segments s ++ m ∧ sd_segments_out s' = sd_segments_out s ++ map snd m ∧
    if sd_syn s then
      sd_next_seqno s' + sd_recv_wdn_sz s' = sd_next_seqno s + sd_recv_wdn_sz s ∧
      (sd_recv_wdn_sz s' = 0 ∨
       bs_total_read (sd_stream s') = bs_total_written (sd_stream s) ∧
       (bs_input_ended (sd_stream s) = true -> sd_fin_sent s' = true))
    else
      sd_syn s' = true ∧ sd_next_seqno s' = 1 ∧ sd_recv_wdn_sz s' = sd_recv_wdn_sz s ∧ sd_stream s' = sd_stream s ∧
      ∃ seg, map snd m = [seg] ∧ syn (header seg) = true ∧ fin (header seg) = false ∧
        seqno (header seg) = wrap 0 (sd_isn s) ∧ str (payload seg) = [].
Proof.
  intros Hs HS. destruct (sd_syn s) eqn:Hsyn.
  - destruct (fill_window_spec S s Hs HS Hsyn) as (s' & Hf & [] & Hfull). destruct fl_sent0 as (m & Ho & Hq).
    exists s', m. split_and!; try done. destruct Hfull as [?|[Hn Hfin]]; [by left|right].
    pose proof (st_read _ _ (sk_stream _ _ fl_ok0)) as Hr. rewrite Hn, (@zlen_nil byte) in Hr. split; [lia|].
    intros He. apply Hfin, eof_spec. split; [congruence|done].
  - destruct (fill_window_syn S s Hs HS Hsyn) as (s' & Hf & Hok & Hsy & Hnx & _ & Hw & Hst & _ & _ & m & Ho & Hq).
    exists s', m. split_and!; try done. pose proof (sk_next _ _ Hs) as Hn0. destruct (sk_start _ _ Hs Hsyn) as (Hrd & _ & Hnf).
    assert (sd_next_seqno s = 0) as H0 by (by rewrite Hn0, Hsyn).
    pose proof Hf as Hf2. unfold fill_window in Hf2. rewrite Hsyn in Hf2. cbn [negb] in Hf2. injection Hf2 as <-.
    cbn [sd_segments_out send_segment set_started] in Hq. apply app_inv_head in Hq. rewrite <- Hq. eexists. split; [reflexivity|].
    cbn. unfold next_seqno. cbn. by rewrite H0.
Qed.

(** A sender that has sent its SYN and has three bytes to send. *)
Lemma sample_started :
  ∃ s, snd_ok [x61; x62; x63] s ∧ sd_syn s = true ∧ sd_next_seqno s = 1 ∧ sd_abs_ackno s = 0 ∧
    sd_isn s = mkWrap 7 ∧ fill_window (set_stream (write (sd_stream sample_sender) [x61; x62; x63]).1 sample_sender) = Ret s.
Proof.
  destruct (write (sd_stream sample_sender) [x61; x62; x63]) as [bs n] eqn:Hw.
  assert (snd_ok [x61; x62; x63] (set_stream bs sample_sender)) as Hs.
  { apply (stream_write _ _ [x61; x62; x63] bs n); try done.
    - apply new_snd_ok. unfold is_u64. lia.
    - vm_compute in Hw. injection Hw as <- <-. split_and!; vm_compute; congruence. }
  destruct (fill_window_syn _ _ Hs) as (s & Hf & Hok & Hsyn & Hn & Hi & _ & _ & _ & Ha & _); [done|done|].
  exists s. by split_and!.
Qed.

Lemma fill_window_fills_witness :
  ∃ s s' m, sd_syn s = true ∧ fill_window s = Ret s' ∧ snd_ok [x61; x62; x63] s' ∧
    sd_outstanding_segments s' = sd_outstanding_segments s ++ m ∧ sd_segments_out s' = sd_segments_out s ++ map snd m ∧
    if sd_syn s then
      sd_next_seqno s' + sd_recv_wdn_sz s' = sd_next_seqno s + sd_recv_wdn_sz s ∧
      (sd_recv_wdn_sz s' = 0 ∨
       bs_total_read (sd_stream s') = bs_total_written (sd_stream s) ∧
       (bs_input_ended (sd_stream s) = true -> sd_fin_sent s' = true))
    else
      sd_syn s' = true ∧ sd_next_seqno s' = 1 ∧ sd_recv_wdn_sz s' = sd_recv_wdn_sz s ∧ sd_stream s' = sd_stream s ∧
      ∃ seg, map snd m = [seg] ∧ syn (header seg) = true ∧ fin (header seg) = false ∧
        seqno (header seg) = wrap 0 (sd_isn s) ∧ str (payload seg) = [].
Proof.
  destruct sample_started as (s & Hs & Hsyn & _). exists s.
  destruct (fill_window_fills [x61; x62; x63] s) as (s' & m & H); [done|vm_compute; reflexivity|]. by exists s', m.
Defined.

(** C8: flow control. An acknowledgment of something sent, whose window does
    not end before what was sent, removes exactly the segments that end at or
    before it when it falls on a segment boundary (and none otherwise), and the
    sender then sends up to the advertised window and never beyond it; a zero
    window counts as one, to probe for its reopening. *)
Theorem ack_received_window S s ackno win :
  snd_ok S s -> zlen S < 2 ^ 62 -> is_u16 win -> sd_syn s = true ->
  ack_abs s ackno <= sd_next_seqno s <= ack_abs s ackno + win ->
  ∃ s' m, ack_received s ackno win = Ret s' ∧ snd_ok S s' ∧
    sd_outstanding_segments s' = after_ack (ack_abs s ackno) (sd_outstanding_segments s) ++ m ∧
    sd_segments_out s' = sd_segments_out s ++ map snd m ∧
    una s' = (if find (ack_abs s ackno) (sd_outstanding_segments s) then ack_abs s ackno else una s) ∧
    sd_next_seqno s' + sd_recv_wdn_sz s' = ack_abs s ackno + Z.max 1 win ∧
    (sd_recv_wdn_sz s' = 0 ∨ contents (sd_stream s') = []).
Proof.
  intros Hs HS Hw Hsyn Hr. rewrite (ack_received_cases S) by done.
  pose proof (ack_abs_nonneg S s ackno Hs HS).
  destruct (Z.ltb_spec (sd_next_seqno s) (ack_abs s ackno)); [lia|].
  destruct (Z.ltb_spec (ack_abs s ackno + win) (sd_next_seqno s)); [lia|].
  destruct (acknowledge_spec S s (ack_abs s ackno) win Hs HS)
    as (Hok & Hn & Hsy & _ & Hq & _ & _ & _ & Ho & Hu & Hbud & _); [lia|done|lia|].
  destruct (fill_window_spec S _ Hok HS) as (s' & Hf & [] & Hfull); [congruence|].
  destruct fl_sent0 as (m & Ho' & Hq'). exists s', m. rewrite Ho', Hq', fl_una0, Ho, Hq, Hu.
  split_and!; try done; [lia|]. destruct Hfull as [?|[? _]]; [by left|by right].
Qed.

Lemma ack_received_window_witness :
  ∃ s s' m, ack_received s (mkWrap 8) 2 = Ret s' ∧ snd_ok [x61; x62; x63] s' ∧
    sd_outstanding_segments s' = after_ack (ack_abs s (mkWrap 8)) (sd_outstanding_segments s) ++ m ∧
    sd_segments_out s' = sd_segments_out s ++ map snd m ∧
    una s' = (if find (ack_abs s (mkWrap 8)) (sd_outstanding_segments s) then ack_abs s (mkWrap 8) else una s) ∧
    sd_next_seqno s' + sd_recv_wdn_sz s' = ack_abs s (mkWrap 8) + Z.max 1 2 ∧
    (sd_recv_wdn_sz s' = 0 ∨ contents (sd_stream s') = []).
Proof.
  destruct sample_started as (s & Hs & Hsyn & Hn & Ha & Hi & _). exists s.
  apply (ack_received_window [x61; x62; x63] s (mkWrap 8) 2);
    [done|vm_compute; reflexivity|unfold is_u16; lia|done|].
  unfold ack_abs. rewrite Hn, Ha, Hi. split; vm_compute; congruence.
Defined.

(** One call of [tick] while something is outstanding. *)
Lemma tick_outstanding S s ms k seg m :
  snd_ok S s -> sd_outstanding_segments s = (k, seg) :: m ->
  0 <= sd_elapsed_time s -> 0 <= ms -> sd_elapsed_time s + ms < 2 ^ 64 ->
  tick s ms =
    if sd_rto s <=? sd_elapsed_time s + ms then
      set_segments_out (sd_segments_out s ++ [seg])
        (if 0 <? sd_wdn_sz s
         then set_timer (sd_max_abs_seqno s) (u32 (sd_rto s * 2)) (u32 (sd_consecutive_retransmissions s + 1)) 0 true s
         else set_timer (sd_max_abs_seqno s) (sd_rto s) (sd_consecutive_retransmissions s) 0 true s)
    else set_timer (sd_max_abs_seqno s) (sd_rto s) (sd_consecutive_retransmissions s) (sd_elapsed_time s + ms) true s.
Proof.
  intros Hs Ho He Hms Hb. unfold tick. pose proof (proj2 (sk_timer _ _ Hs)) as Ht. rewrite Ho in Ht.
  rewrite Ht by done. rewrite bool_decide_eq_false_2 by (by rewrite Ho).
  rewrite u64_id by (unfold is_u64; lia).
  cbn [sd_rto sd_elapsed_time set_timer sd_outstanding_segments]. rewrite Ho.
  cbn [sd_wdn_sz set_segments_out set_timer sd_segments_out]. by destruct (sd_rto s <=? sd_elapsed_time s + ms), (0 <? sd_wdn_sz s).
Qed.

(** [n] times the retransmission timeout runs out. *)
Fixpoint expire (n : nat) (s : TCPSender) : TCPSender :=
  match n with O => s | S n' => expire n' (tick s (sd_rto s)) end.

Lemma expire_spec S s k seg m n i :
  snd_ok S s -> sd_outstanding_segments s = (k, seg) :: m -> 0 < sd_wdn_sz s ->
  is_u16 (sd_initial_retransmission_timeout s) -> 0 <= sd_elapsed_time s < 2 ^ 63 ->
  Z.of_nat (i + n) <= 16 ->
  sd_rto s = sd_initial_retransmission_timeout s * 2 ^ Z.of_nat i ->
  sd_consecutive_retransmissions s = Z.of_nat i ->
  sd_rto (expire n s) = sd_initial_retransmission_timeout s * 2 ^ Z.of_nat (i + n) ∧
  consecutive_retransmissions (expire n s) = Z.of_nat (i + n) ∧
  sd_segments_out (expire n s) = sd_segments_out s ++ replicate n seg ∧
  sd_outstanding_segments (expire n s) = (k, seg) :: m.
Proof.
  revert s i. induction n as [|n IH]; intros s i Hs Ho Hw Hi He Hn Hr Hc; cbn [expire replicate].
  - rewrite Nat.add_0_r, app_nil_r. done.
  - assert (2 ^ Z.of_nat (i + 1) <= 2 ^ 16) as Hp by (apply Z.pow_le_mono_r; lia).
    assert (2 ^ Z.of_nat (i + 1) = 2 * 2 ^ Z.of_nat i) as Hp2
      by (rewrite Nat2Z.inj_add, Z.pow_add_r by lia; lia).
    pose proof (Z.pow_pos_nonneg 2 (Z.of_nat i) ltac:(lia) ltac:(lia)).
    unfold is_u16 in Hi. change (2 ^ 16) with 65536 in *.
    assert (0 <= sd_rto s * 2 < 2 ^ 32) as Hr2 by (rewrite Hr; change (2 ^ 32) with (65536 * 65536); nia).
    pose proof (sender_tick_ok S s (sd_rto s) Hs) as Hs1.
    rewrite (tick_outstanding S s (sd_rto s) k seg m) in * by (done || lia).
    rewrite (proj2 (Z.leb_le _ _)) in * by lia. rewrite (proj2 (Z.ltb_lt 0 _) Hw) in *.
    rewrite (u32_id (sd_rto s * 2)) in * by done.
    rewrite (u32_id (sd_consecutive_retransmissions s + 1)) in * by (unfold is_u32; lia).
    destruct (IH _ (i + 1)%nat Hs1) as (H1 & H2 & H3 & H4); cbn; try done; try lia.
    rewrite H1, H2, H3, H4. cbn. replace (i + Datatypes.S n)%nat with (i + 1 + n)%nat by lia.
    rewrite <- app_assoc. done.
Qed.

(** While the peer's window is closed, the timeout stays as it is. *)
Lemma expire_closed S s k seg m n :
  snd_ok S s -> sd_outstanding_segments s = (k, seg) :: m -> sd_wdn_sz s = 0 ->
  0 <= sd_rto s < 2 ^ 32 -> 0 <= sd_elapsed_time s < 2 ^ 63 ->
  sd_rto (expire n s) = sd_rto s ∧ consecutive_retransmissions (expire n s) = consecutive_retransmissions s ∧
  sd_segments_out (expire n s) = sd_segments_out s ++ replicate n seg ∧
  sd_outstanding_segments (expire n s) = (k, seg) :: m.
Proof.
  revert s. induction n as [|n IH]; intros s Hs Ho Hw Hr He; cbn [expire replicate]; [by rewrite app_nil_r|].
  pose proof (sender_tick_ok S s (sd_rto s) Hs) as Hs1.
  rewrite (tick_outstanding S s (sd_rto s) k seg m) in * by (done || lia).
  rewrite (proj2 (Z.leb_le _ _)), Hw in * by lia. change (0 <? 0) with false in *. cbv iota in *.
  destruct (IH _ Hs1) as (H1 & H2 & H3 & H4); cbn; try done; try lia. rewrite H1, H2, H3, H4. cbn. by rewrite <- app_assoc.
Qed.

(** C10: retransmission. While something is outstanding, a tick before the
    timeout sends nothing and counts the time; one that reaches the timeout sends
    the oldest outstanding segment again, and only that one, and starts the timer
    anew. If the peer's window is open, the retransmission is counted and the
    timeout doubled: starting afresh, [n] of them in a row (up to 16, twice the
    number after which a connection gives up) leave the timeout at [2 ^ n] times
    the initial one, without overflow. If the window is closed, neither changes,
    however often the timeout runs out. *)
Theorem retransmission_backoff S s k seg m :
  snd_ok S s -> sd_outstanding_segments s = (k, seg) :: m ->
  is_u16 (sd_initial_retransmission_timeout s) -> 0 <= sd_elapsed_time s < 2 ^ 63 -> is_u32 (sd_rto s) ->
  (∀ ms, 0 <= ms < 2 ^ 63 ->
    let s' := tick s ms in
    sd_outstanding_segments s' = sd_outstanding_segments s ∧
    if sd_elapsed_time s + ms <? sd_rto s then
      sd_segments_out s' = sd_segments_out s ∧ sd_rto s' = sd_rto s ∧ sd_elapsed_time s' = sd_elapsed_time s + ms ∧
      consecutive_retransmissions s' = consecutive_retransmissions s
    else
      sd_segments_out s' = sd_segments_out s ++ [seg] ∧ sd_elapsed_time s' = 0 ∧
      sd_rto s' = (if 0 <? sd_wdn_sz s then u32 (sd_rto s * 2) else sd_rto s) ∧
      consecutive_retransmissions s' =
        (if 0 <? sd_wdn_sz s then u32 (consecutive_retransmissions s + 1) else consecutive_retransmissions s)) ∧
  (∀ n, 0 < sd_wdn_sz s -> sd_rto s = sd_initial_retransmission_timeout s -> consecutive_retransmissions s = 0 -> (n <= 16)%nat ->
    sd_rto (expire n s) = sd_initial_retransmission_timeout s * 2 ^ Z.of_nat n ∧
    consecutive_retransmissions (expire n s) = Z.of_nat n ∧
    sd_segments_out (expire n s) = sd_segments_out s ++ replicate n seg) ∧
  (∀ n, sd_wdn_sz s = 0 ->
    sd_rto (expire n s) = sd_rto s ∧ consecutive_retransmissions (expire n s) = consecutive_retransmissions s ∧
    sd_segments_out (expire n s) = sd_segments_out s ++ replicate n seg).
Proof.
  intros Hs Ho Hi He Hr. split_and!.
  - intros ms Hms. cbv zeta. rewrite (tick_outstanding S s ms k seg m), Z.leb_antisym by (done || lia).
    destruct (sd_elapsed_time s + ms <? sd_rto s); cbn [negb]; [done|]. by destruct (0 <? sd_wdn_sz s).
  - intros n Hw H0 Hc Hn. unfold is_u16 in Hi.
    destruct (expire_spec S s k seg m n 0) as (H1 & H2 & H3 & _); rewrite ?Z.mul_1_r; try done; lia.
  - intros n Hw. by destruct (expire_closed S s k seg m n Hs Ho Hw Hr He) as (? & ? & ? & _).
Qed.

Lemma retransmission_backoff_witness :
  ∃ s k seg m, sd_outstanding_segments s = (k, seg) :: m ∧
    sd_segments_out (tick s 5) = sd_segments_out s ∧
    sd_segments_out (tick s 1000) = sd_segments_out s ++ [seg] ∧ sd_rto (tick s 1000) = 2000 ∧
    sd_rto (expire 3 s) = 8000 ∧ sd_segments_out (expire 3 s) = sd_segments_out s ++ replicate 3 seg.
Proof.
  destruct sample_started as (s & Hs & _ & _ & _ & _ & Hf). vm_compute in Hf. injection Hf as Hf.
  eexists s, _, _, _. split; [rewrite <- Hf; reflexivity|].
  edestruct (retransmission_backoff [x61; x62; x63] s) as (Ht & Hn & _); [exact Hs|rewrite <- Hf; reflexivity|..].
  { rewrite <- Hf. cbn. unfold is_u16. lia. }
  { rewrite <- Hf. cbn. lia. }
  { rewrite <- Hf. cbn. unfold is_u32. lia. }
  destruct (Ht 5 ltac:(lia)) as [_ H5]. destruct (Ht 1000 ltac:(lia)) as [_ H1000].
  destruct (Hn 3%nat) as (H1 & _ & H3); [rewrite <- Hf; cbn; lia|rewrite <- Hf; reflexivity|rewrite <- Hf; reflexivity|lia|].
  rewrite <- Hf in *. split_and!; [apply H5|apply H1000|apply H1000|exact H1|exact H3].
Defined.

(** Two acknowledgments that advance nothing. With two segments
    outstanding, which end at 3 and at 5, an acknowledgment of 4 covers the first
    one entirely and yet removes nothing, since no segment ends at 4; and an
    acknowledgment of 5 of 6, with a window of zero, is discarded because its
    window ends before what was sent. *)
Theorem acknowledgments_lost :
  (∃ s s', fill_window (set_stream (write (sd_stream sample_sender) [x61; x62]).1 sample_sender) = Ret s ∧
     ack_received s (mkWrap 8) 2 = Ret s' ∧
     ∃ s2 s3, ack_received (set_stream (write (sd_stream s') [x63; x64]).1 s') (mkWrap 8) 4 = Ret s2 ∧
       map fst (sd_outstanding_segments s2) = [3; 5] ∧
       ack_received s2 (mkWrap (7 + 4)) 10 = Ret s3 ∧
       map fst (sd_outstanding_segments s3) = [3; 5] ∧ bytes_in_flight s3 = 4 ∧
       ∃ s4 s5, ack_received (set_stream (write (sd_stream s2) [x65]).1 s2) (mkWrap 8) 5 = Ret s4 ∧
         map fst (sd_outstanding_segments s4) = [3; 5; 6] ∧
         ack_received s4 (mkWrap (7 + 5)) 0 = Ret s5 ∧
         map fst (sd_outstanding_segments s5) = [3; 5; 6] ∧ bytes_in_flight s5 = 5).
Proof.
  eexists. eexists. split; [vm_compute; reflexivity|]. split; [vm_compute; reflexivity|].
  eexists. eexists. split; [vm_compute; reflexivity|]. split; [reflexivity|].
  split; [vm_compute; reflexivity|]. split; [reflexivity|]. split; [reflexivity|].
  eexists. eexists. split; [vm_compute; reflexivity|]. split; [reflexivity|].
  split; [vm_compute; reflexivity|]. split; reflexivity.
Qed.
