(* ===== verification/TCPState.v ===== *)
(** [tcp_helpers/tcp_state.hh], [tcp_state.cc]: the names of the states of
    the TCP specification in terms of the sender and the receiver. *)
From S2P Require Import Prelude ByteStream WrappingIntegers TCPReceiver TCPSender.

Module TCPReceiverStateSummary.
Definition ERROR : string := "error (connection was reset)".
Definition LISTEN : string := "waiting for SYN: ackno is empty".
Definition SYN_RECV : string := "SYN received (ackno exists), and input to stream hasn't ended".
Definition FIN_RECV : string := "input to stream has ended".
End TCPReceiverStateSummary.

Module TCPSenderStateSummary.
Definition ERROR : string := "error (connection was reset)".
Definition CLOSED : string := "waiting for stream to begin (no SYN sent)".
Definition SYN_SENT : string := "stream started but nothing acknowledged".
Definition SYN_ACKED : string := "stream ongoing".
Definition FIN_SENT : string := "stream finished (FIN sent) but not fully acknowledged".
Definition FIN_ACKED : string := "stream finished and fully acknowledged".
End TCPSenderStateSummary.

Record TCPState := mkState {
  ts_sender : string;
  ts_receiver : string;
  ts_active : bool;
  ts_linger_after_streams_finish : bool
}.

Definition state_eqb (a b : TCPState) : bool :=
  Bool.eqb (ts_active a) (ts_active b) &&
  Bool.eqb (ts_linger_after_streams_finish a) (ts_linger_after_streams_finish b) &&
  bool_decide (ts_sender a = ts_sender b) && bool_decide (ts_receiver a = ts_receiver b).
Definition state_neqb (a b : TCPState) : bool := negb (state_eqb a b).

(** [std::to_string] of a [bool]. *)
Definition to_string (b : bool) : string := if b then "1" else "0".

Definition state_name (t : TCPState) : string :=
  "sender=`" +:+ ts_sender t +:+ "`, receiver=`" +:+ ts_receiver t +:+ "`, active=" +:+ to_string (ts_active t) +:+
  ", linger_after_streams_finish=" +:+ to_string (ts_linger_after_streams_finish t).

Inductive State :=
| LISTEN | SYN_RCVD | SYN_SENT | ESTABLISHED | CLOSE_WAIT | LAST_ACK
| FIN_WAIT_1 | FIN_WAIT_2 | CLOSING | TIME_WAIT | CLOSED | RESET.
#[export] Instance State_eq_dec : EqDecision State.
Proof. solve_decision. Defined.

(** The constructor from an official state name. *)
Definition of_state (state : State) : TCPState :=
  match state with
  | LISTEN => mkState TCPSenderStateSummary.CLOSED TCPReceiverStateSummary.LISTEN true true
  | SYN_RCVD => mkState TCPSenderStateSummary.SYN_SENT TCPReceiverStateSummary.SYN_RECV true true
  | SYN_SENT => mkState TCPSenderStateSummary.SYN_SENT TCPReceiverStateSummary.LISTEN true true
  | ESTABLISHED => mkState TCPSenderStateSummary.SYN_ACKED TCPReceiverStateSummary.SYN_RECV true true
  | CLOSE_WAIT => mkState TCPSenderStateSummary.SYN_ACKED TCPReceiverStateSummary.FIN_RECV true false
  | LAST_ACK => mkState TCPSenderStateSummary.FIN_SENT TCPReceiverStateSummary.FIN_RECV true false
  | CLOSING => mkState TCPSenderStateSummary.FIN_SENT TCPReceiverStateSummary.FIN_RECV true true
  | FIN_WAIT_1 => mkState TCPSenderStateSummary.FIN_SENT TCPReceiverStateSummary.SYN_RECV true true
  | FIN_WAIT_2 => mkState TCPSenderStateSummary.FIN_ACKED TCPReceiverStateSummary.SYN_RECV true true
  | TIME_WAIT => mkState TCPSenderStateSummary.FIN_ACKED TCPReceiverStateSummary.FIN_RECV true true
  | RESET => mkState TCPSenderStateSummary.ERROR TCPReceiverStateSummary.ERROR false false
  | CLOSED => mkState TCPSenderStateSummary.FIN_ACKED TCPReceiverStateSummary.FIN_RECV false false
  end.

(** The two overloads of [state_summary]. *)
Definition receiver_summary (receiver : TCPReceiver) : string :=
  if error (stream_out receiver) then TCPReceiverStateSummary.ERROR
  else match ackno receiver with
  | None => TCPReceiverStateSummary.LISTEN
  | Some _ =>
      if input_ended (stream_out receiver) then TCPReceiverStateSummary.FIN_RECV
      else TCPReceiverStateSummary.SYN_RECV
  end.

Definition sender_summary (sender : TCPSender) : string :=
  if error (sd_stream sender) then TCPSenderStateSummary.ERROR
  else if next_seqno_absolute sender =? 0 then TCPSenderStateSummary.CLOSED
  else if next_seqno_absolute sender =? bytes_in_flight sender then TCPSenderStateSummary.SYN_SENT
  else if negb (eof (sd_stream sender)) then TCPSenderStateSummary.SYN_ACKED
  else if next_seqno_absolute sender <? u64 (bytes_written (sd_stream sender) + 2)
    then TCPSenderStateSummary.SYN_ACKED
  else if negb (bytes_in_flight sender =? 0) then TCPSenderStateSummary.FIN_SENT
  else TCPSenderStateSummary.FIN_ACKED.

(** The constructor from a connection's parts. *)
Definition summarize (sender : TCPSender) (receiver : TCPReceiver) (active linger : bool) : TCPState :=
  mkState (sender_summary sender) (receiver_summary receiver) active (if active then linger else false).

Lemma state_eqb_eq a b : state_eqb a b = true <-> a = b.
Proof.
  unfold state_eqb. rewrite !andb_true_iff, !bool_decide_eq_true, !eqb_true_iff.
  destruct a, b; simpl. naive_solver.
Qed.

(** The twelve official states have twelve different summaries. *)
Lemma of_state_inj a b : of_state a = of_state b -> a = b.
Proof. destruct a, b; intros H; first [reflexivity | discriminate H]. Qed.

(** The summary of a sender says what it claims. Unless the stream has an
    error, it is [CLOSED] exactly before the SYN is sent, [SYN_SENT] exactly
    while the SYN is unacknowledged, [FIN_SENT] exactly when the FIN was sent and
    something after the SYN is unacknowledged, [FIN_ACKED] exactly when the FIN
    was sent and everything is acknowledged. *)
Theorem sender_summary_spec S s :
  snd_ok S s -> zlen S < 2 ^ 62 ->
  sender_summary s =
    if error (sd_stream s) then TCPSenderStateSummary.ERROR
    else if negb (sd_syn s) then TCPSenderStateSummary.CLOSED
    else if bool_decide (una s = 0) then TCPSenderStateSummary.SYN_SENT
    else if negb (sd_fin_sent s) then TCPSenderStateSummary.SYN_ACKED
    else if bool_decide (una s < sd_next_seqno s) then TCPSenderStateSummary.FIN_SENT
    else TCPSenderStateSummary.FIN_ACKED.
Proof.
  intros Hs HS. pose proof (next_bound _ _ Hs). pose proof (sk_stream _ _ Hs) as Hstr.
  pose proof (sk_next _ _ Hs) as Hnx. pose proof (sk_fin _ _ Hs) as Hfin. pose proof (sk_una _ _ Hs) as Hun.
  pose proof (stream_read_pos _ _ Hstr) as Hp. pose proof (st_written _ _ Hstr).
  pose proof (st_read _ _ Hstr) as Hrd. pose proof (chain_le _ _ _ _ _ (sk_chain _ _ Hs)).
  unfold sender_summary, next_seqno_absolute, bytes_in_flight, una in *.
  destruct (error (sd_stream s)); [done|].
  destruct (sd_syn s) eqn:Hsyn; cbn [negb].
  2: { by rewrite Hnx. }
  destruct (Z.eqb_spec (sd_next_seqno s) 0) as [Hz|_]; [destruct (sd_fin_sent s); lia|].
  destruct (Z.eqb_spec (sd_next_seqno s) (sd_bytes_in_flight s)) as [Hb|Hb].
  { by rewrite bool_decide_eq_true_2 by lia. }
  rewrite bool_decide_eq_false_2 by lia. rewrite u64_id by (unfold is_u64, bytes_written; lia).
  unfold bytes_written. destruct (sd_fin_sent s) eqn:Hf; cbn [negb].
  - rewrite (Hfin eq_refl). cbn [negb].
    pose proof (Hfin eq_refl) as [_ Hn]%eof_spec. rewrite Hn, (@zlen_nil byte) in Hrd.
    destruct (Z.ltb_spec (sd_next_seqno s) (bs_total_written (sd_stream s) + 2)); [lia|].
    destruct (Z.eqb_spec (sd_bytes_in_flight s) 0); cbn [negb].
    + by rewrite bool_decide_eq_false_2 by lia.
    + rewrite bool_decide_eq_true_2 by lia. done.
  - destruct (eof (sd_stream s)); cbn [negb]; [|done].
    by destruct (Z.ltb_spec (sd_next_seqno s) (bs_total_written (sd_stream s) + 2)); [|lia].
Qed.

Lemma sender_summary_spec_witness :
  sender_summary sample_sender =
    if error (sd_stream sample_sender) then TCPSenderStateSummary.ERROR
    else if negb (sd_syn sample_sender) then TCPSenderStateSummary.CLOSED
    else if bool_decide (una sample_sender = 0) then TCPSenderStateSummary.SYN_SENT
    else if negb (sd_fin_sent sample_sender) then TCPSenderStateSummary.SYN_ACKED
    else if bool_decide (una sample_sender < sd_next_seqno sample_sender) then TCPSenderStateSummary.FIN_SENT
    else TCPSenderStateSummary.FIN_ACKED.
Proof.
  apply (sender_summary_spec [] sample_sender).
  - apply new_snd_ok. unfold is_u64. lia.
  - vm_compute. reflexivity.
Defined.
