(* ===== verification/TCPConnection.v ===== *)
(** [tcp_connection.hh], [tcp_connection.cc], [tcp_helpers/tcp_config.hh]: an
    endpoint of a connection, made of a sender and a receiver. *)
From S2P Require Import Prelude Buffer ByteStream StreamReassembler WrappingIntegers TCPSegment TCPReceiver TCPSender TCPState.

Definition DEFAULT_CAPACITY : Z := 64000.
Definition TIMEOUT_DFLT : Z := 1000.
Definition MAX_RETX_ATTEMPTS : Z := 8.

Record TCPConfig := mkConfig {
  rt_timeout : Z;
  recv_capacity : Z;
  send_capacity : Z;
  fixed_isn : option WrappingInt32
}.

Definition default_TCPConfig : TCPConfig := mkConfig TIMEOUT_DFLT DEFAULT_CAPACITY DEFAULT_CAPACITY None.

Record TCPConnection := mkConnection {
  cn_cfg : TCPConfig;
  cn_receiver : TCPReceiver;
  cn_sender : TCPSender;
  cn_segments_out : list TCPSegment;
  cn_linger_after_streams_finish : bool;
  cn_time_since_last_segment_received : Z;
  cn_initiator : bool
}.

Definition new_TCPConnection (cfg : TCPConfig) (random : Z) : TCPConnection :=
  mkConnection cfg (new_TCPReceiver (recv_capacity cfg))
    (new_TCPSender (send_capacity cfg) (rt_timeout cfg) (fixed_isn cfg) random) [] true 0 false.

(** Assignments to one member. *)
Definition set_receiver (r : TCPReceiver) (c : TCPConnection) : TCPConnection :=
  mkConnection (cn_cfg c) r (cn_sender c) (cn_segments_out c) (cn_linger_after_streams_finish c)
    (cn_time_since_last_segment_received c) (cn_initiator c).
Definition set_sender (s : TCPSender) (c : TCPConnection) : TCPConnection :=
  mkConnection (cn_cfg c) (cn_receiver c) s (cn_segments_out c) (cn_linger_after_streams_finish c)
    (cn_time_since_last_segment_received c) (cn_initiator c).
Definition set_out (q : list TCPSegment) (c : TCPConnection) : TCPConnection :=
  mkConnection (cn_cfg c) (cn_receiver c) (cn_sender c) q (cn_linger_after_streams_finish c)
    (cn_time_since_last_segment_received c) (cn_initiator c).
Definition set_linger (b : bool) (c : TCPConnection) : TCPConnection :=
  mkConnection (cn_cfg c) (cn_receiver c) (cn_sender c) (cn_segments_out c) b
    (cn_time_since_last_segment_received c) (cn_initiator c).
Definition set_time (t : Z) (c : TCPConnection) : TCPConnection :=
  mkConnection (cn_cfg c) (cn_receiver c) (cn_sender c) (cn_segments_out c) (cn_linger_after_streams_finish c)
    t (cn_initiator c).
Definition set_initiator (b : bool) (c : TCPConnection) : TCPConnection :=
  mkConnection (cn_cfg c) (cn_receiver c) (cn_sender c) (cn_segments_out c) (cn_linger_after_streams_finish c)
    (cn_time_since_last_segment_received c) b.

Definition stream_in (c : TCPConnection) : ByteStream := sd_stream (cn_sender c).
Definition inbound_stream (c : TCPConnection) : ByteStream := stream_out (cn_receiver c).
(** [_sender.stream_in().set_error(); _receiver.stream_out().set_error();] *)
Definition set_errors (c : TCPConnection) : TCPConnection :=
  set_receiver (with_stream_out (cn_receiver c) (set_error (inbound_stream c)))
    (set_sender (set_stream (set_error (stream_in c)) (cn_sender c)) c).

Definition remaining_outbound_capacity (c : TCPConnection) : Z := remaining_capacity (stream_in c).
Definition bytes_in_flight (c : TCPConnection) : Z := TCPSender.bytes_in_flight (cn_sender c).
Definition unassembled_bytes (c : TCPConnection) : Z := TCPReceiver.unassembled_bytes (cn_receiver c).
Definition time_since_last_segment_received (c : TCPConnection) : Z := cn_time_since_last_segment_received c.

(** [10 * _cfg.rt_timeout] is an [int] product of a 16-bit value. *)
Definition active (c : TCPConnection) : bool :=
  if error (stream_in c) && error (inbound_stream c) then false
  else if negb (cn_linger_after_streams_finish c) then
    if eof (inbound_stream c) && eof (stream_in c) && (bytes_in_flight c =? 0) then false else true
  else
    if eof (inbound_stream c) && eof (stream_in c) && (bytes_in_flight c =? 0) &&
       (10 * rt_timeout (cn_cfg c) <=? time_since_last_segment_received c) then false
    else true.

Definition state (c : TCPConnection) : TCPState :=
  summarize (cn_sender c) (cn_receiver c) (active c) (cn_linger_after_streams_finish c).

(** The window advertised: the receiver's, limited to 16 bits. *)
Definition advertised (r : TCPReceiver) : Z :=
  if 65535 <? window_size r then 65535 else window_size r.

(** The fields [flush_buffer] fills in. *)
Definition stamp (r : TCPReceiver) (seg : TCPSegment) : TCPSegment :=
  match ackno r with
  | Some a => on_header (λ h, set_ack true (set_win (advertised r) (set_ackno a h))) seg
  | None => seg
  end.

Fixpoint flush_queue (q : list TCPSegment) (c : TCPConnection) : TCPConnection :=
  match q with
  | [] => c
  | seg :: q' =>
      flush_queue q'
        (set_out (cn_segments_out c ++ [stamp (cn_receiver c) seg]) (set_sender (set_segments_out q' (cn_sender c)) c))
  end.
Definition flush_buffer (c : TCPConnection) : TCPConnection := flush_queue (sd_segments_out (cn_sender c)) c.

Definition unclean_shutdown (c : TCPConnection) : TCPConnection :=
  let c := set_errors (set_linger false c) in
  let sender :=
    match sd_segments_out (cn_sender c) with
    | [] => send_empty_segment (cn_sender c)
    | _ => cn_sender c
    end in
  match pop_segment sender with
  | Some (seg, sender) =>
      let seg := match ackno (cn_receiver c) with Some a => on_header (set_ackno a) seg | None => seg end in
      let seg := on_header (set_rst true) seg in
      set_out (cn_segments_out c ++ [seg]) (set_sender sender c)
  | None => set_sender sender c
  end.

(** The reply to a segment that occupies sequence space: the first queued
    segment, acknowledged. *)
Definition send_reply (c : TCPConnection) : TCPConnection :=
  match pop_segment (cn_sender c) with
  | Some (ack_seg, sender) =>
      let r := cn_receiver c in
      let ack_seg := match ackno r with Some a => on_header (set_ackno a) ack_seg | None => ack_seg end in
      let ack_seg := if negb (ack (header ack_seg)) then on_header (set_ack true) ack_seg else ack_seg in
      let ack_seg := on_header (set_win (advertised r)) ack_seg in
      set_out (cn_segments_out c ++ [ack_seg]) (set_sender sender c)
  | None => c
  end.

Definition segment_received (c : TCPConnection) (seg : TCPSegment) : outcome TCPConnection :=
  if negb (active c) then Ret c
  else
    let c := set_time 0 c in
    if rst (header seg) then Ret (set_linger false (set_errors c))
    else
      r ← TCPReceiver.segment_received (cn_receiver c) seg;
      let c := set_receiver r c in
      s ← (if ack (header seg) then ack_received (cn_sender c) (TCPSegment.ackno (header seg)) (win (header seg))
           else Ret (cn_sender c));
      let c := set_sender s c in
      c ← (if 0 <? length_in_sequence_space seg then
             s ← (if syn (header seg) && negb (ack (header seg)) && negb (cn_initiator c) then fill_window (cn_sender c)
                  else Ret (send_empty_segment (cn_sender c)));
             Ret (send_reply (set_sender s c))
           else Ret (flush_buffer c));
      if input_ended (inbound_stream c) && negb (eof (stream_in c)) then Ret (set_linger false c) else Ret c.

(** Returns the connection and the number of bytes accepted. *)
Definition write (c : TCPConnection) (data : list byte) : outcome (TCPConnection * Z) :=
  if negb (active c) then Ret (c, 0)
  else
    let '(bs, written_bytes) := ByteStream.write (stream_in c) data in
    s ← fill_window (set_stream bs (cn_sender c));
    Ret (flush_buffer (set_sender s c), written_bytes).

Definition tick (c : TCPConnection) (ms_since_last_tick : Z) : TCPConnection :=
  if negb (active c) then c
  else
    let c := set_time (u64 (cn_time_since_last_segment_received c + ms_since_last_tick)) c in
    let c := set_sender (TCPSender.tick (cn_sender c) ms_since_last_tick) c in
    let c := if MAX_RETX_ATTEMPTS <? consecutive_retransmissions (cn_sender c) then unclean_shutdown c else c in
    flush_buffer c.

Definition end_input_stream (c : TCPConnection) : outcome TCPConnection :=
  if negb (active c) then Ret c
  else
    s ← fill_window (set_stream (end_input (stream_in c)) (cn_sender c));
    Ret (flush_buffer (set_sender s c)).

Definition connect (c : TCPConnection) : outcome TCPConnection :=
  s ← fill_window (cn_sender c);
  match pop_segment s with
  | Some (seg, s) => Ret (set_initiator true (set_out (cn_segments_out c ++ [seg]) (set_sender s c)))
  | None => Ret (set_sender s c)
  end.

(** [~TCPConnection]. *)
Definition destroy (c : TCPConnection) : TCPConnection := if active c then unclean_shutdown c else c.

(** ** Invariant

    [S] is the stream written on this side, [T] the one the peer sends from the
    initial sequence number [isnT]. *)

(** What may be on the wire. *)
Definition wire_ok (S : list byte) (isn : WrappingInt32) (seg : TCPSegment) : Prop :=
  (∃ abs, seg_of S isn abs seg) ∧ header_ok (header seg) ∧ size (payload seg) <= MAX_PAYLOAD_SIZE.

Record conn_ok (S T : list byte) (isnT : WrappingInt32) (c : TCPConnection) : Prop := {
  co_snd : snd_ok S (cn_sender c);
  co_rcv : rcv_ok T isnT (cn_receiver c);
  co_cap : rc_capacity (cn_receiver c) < 2 ^ 62;
  co_out : Forall (wire_ok S (sd_isn (cn_sender c))) (cn_segments_out c)
}.

(** The receiver took in the next part of [T], possibly empty. *)
Definition advances (T : list byte) (r r' : TCPReceiver) : Prop :=
  sr_expected_index (rc_reassembler r) <= sr_expected_index (rc_reassembler r') ∧
  contents (stream_out r') = contents (stream_out r) ++
    slice T (sr_expected_index (rc_reassembler r)) (sr_expected_index (rc_reassembler r')).

Lemma advances_refl T r : advances T r r.
Proof. split; [lia|]. by rewrite slice_nil, app_nil_r by lia. Qed.

Lemma wire_header S isn seg f :
  seqno (f (header seg)) = seqno (header seg) -> syn (f (header seg)) = syn (header seg) ->
  header_ok (f (header seg)) -> wire_ok S isn seg -> wire_ok S isn (on_header f seg).
Proof.
  intros Hq Hs Hw [[abs []] [_ ?]]. split; [|done]. exists abs.
  split; cbn; rewrite ?Hq, ?Hs; try done. unfold stream_index in *. cbn. by rewrite Hs.
Qed.

Lemma sent_wire S isn abs seg : sent_seg S isn abs seg -> wire_ok S isn seg.
Proof. intros []. split; [eauto|done]. Qed.

Lemma advertised_u16 T isn r : rcv_ok T isn r -> is_u16 (advertised r).
Proof.
  intros Hr. destruct (window_size_spec _ _ (ro_sr _ _ _ Hr) (ro_cap _ _ _ Hr)) as [_ ?].
  unfold advertised, is_u16. destruct (Z.ltb_spec 65535 (window_size r)); lia.
Qed.

Lemma ackno_ok T isn r a : rcv_ok T isn r -> ackno r = Some a -> wint_ok a.
Proof. intros Hr. unfold ackno. destruct (rc_syn r) eqn:Hs; [|done]. intros [= <-]. rewrite (ro_ack _ _ _ Hr Hs). apply wrap_ok. Qed.

#[local] Hint Resolve advertised_u16 ackno_ok : header.

Lemma stamp_wire S isn T isnT r seg :
  rcv_ok T isnT r -> wire_ok S isn seg -> wire_ok S isn (stamp r seg).
Proof.
  intros Hr Hw. unfold stamp. destruct (ackno r) eqn:Ha; [|done].
  apply wire_header; try done. apply set_ack_ok, set_win_ok, set_ackno_ok; [by eauto with header..|apply Hw].
Qed.

(** [flush_buffer] moves the sender's queue to the connection's. *)
Lemma flush_queue_spec q c :
  sd_segments_out (cn_sender c) = q ->
  flush_queue q c = set_out (cn_segments_out c ++ map (stamp (cn_receiver c)) q)
    (set_sender (set_segments_out [] (cn_sender c)) c).
Proof.
  revert c. induction q as [|seg q IH]; intros c Hq; cbn [flush_queue map].
  - rewrite app_nil_r. destruct c, cn_sender0. cbn in *. by rewrite Hq.
  - rewrite IH by done. cbn. unfold set_out, set_sender, set_segments_out. cbn. by rewrite <- app_assoc.
Qed.

Lemma flush_buffer_spec c :
  flush_buffer c = set_out (cn_segments_out c ++ map (stamp (cn_receiver c)) (sd_segments_out (cn_sender c)))
    (set_sender (set_segments_out [] (cn_sender c)) c).
Proof. by apply flush_queue_spec. Qed.

Lemma clear_queue_ok S s : snd_ok S s -> snd_ok S (set_segments_out [] s).
Proof. intros []. by split. Qed.

Lemma flush_ok S T isnT c :
  conn_ok S T isnT c -> conn_ok S T isnT (flush_buffer c).
Proof.
  intros [Hs Hr Hc Ho]. rewrite flush_buffer_spec. split; cbn; [by apply clear_queue_ok|done|done|].
  apply Forall_app; split; [done|]. apply Forall_map. eapply Forall_impl; [apply (sk_queue _ _ Hs)|].
  intros seg [abs Hseg]. cbn. eapply stamp_wire; [done|]. by eapply sent_wire.
Qed.

Lemma set_sender_ok S T isnT c s :
  conn_ok S T isnT c -> snd_ok S s -> sd_isn s = sd_isn (cn_sender c) -> conn_ok S T isnT (set_sender s c).
Proof. intros [] Hs Hi. split; cbn; rewrite ?Hi; done. Qed.

Lemma rcv_set_error_ok T isnT r :
  rcv_ok T isnT r -> rcv_ok T isnT (with_stream_out r (set_error (stream_out r))).
Proof.
  intros Hr. pose proof Hr as [Hsr Hcap Hle Hri Hck Hfirst Hack]. split; cbn; try done.
  apply with_output_ok; try done; [apply set_error_ok, Hsr|apply Hsr].
Qed.

Lemma set_errors_ok S T isnT c : conn_ok S T isnT c -> conn_ok S T isnT (set_errors c).
Proof.
  intros [Hs Hr Hc Ho]. split; cbn; [by apply stream_error|by apply rcv_set_error_ok|done|done].
Qed.

Lemma emit_ok S T isnT c seg s :
  conn_ok S T isnT c -> wire_ok S (sd_isn (cn_sender c)) seg -> snd_ok S s -> sd_isn s = sd_isn (cn_sender c) ->
  conn_ok S T isnT (set_out (cn_segments_out c ++ [seg]) (set_sender s c)).
Proof.
  intros [Hs Hr Hc Ho] Hw Hs' Hi. split; cbn; try done. rewrite Hi.
  apply Forall_app; split; [done|]. by apply Forall_singleton.
Qed.

Lemma pop_isn s seg s' : pop_segment s = Some (seg, s') -> sd_isn s' = sd_isn s.
Proof. unfold pop_segment. destruct (sd_segments_out s); [done|]. by intros [= _ <-]. Qed.

Lemma set_linger_ok S T isnT b c : conn_ok S T isnT c -> conn_ok S T isnT (set_linger b c).
Proof. intros []. by split. Qed.
Lemma set_time_ok S T isnT t c : conn_ok S T isnT c -> conn_ok S T isnT (set_time t c).
Proof. intros []. by split. Qed.
Lemma set_initiator_ok S T isnT b c : conn_ok S T isnT c -> conn_ok S T isnT (set_initiator b c).
Proof. intros []. by split. Qed.

Lemma ackno_wire S T isnT isn r seg :
  rcv_ok T isnT r -> wire_ok S isn seg ->
  wire_ok S isn (match ackno r with Some a => on_header (set_ackno a) seg | None => seg end).
Proof.
  intros Hr Hw. destruct (ackno r) eqn:Ha; [|done]. apply wire_header; try done.
  apply set_ackno_ok; [by eauto with header|apply Hw].
Qed.

Lemma unclean_shutdown_ok S T isnT c : conn_ok S T isnT c -> conn_ok S T isnT (unclean_shutdown c).
Proof.
  intros Hc. unfold unclean_shutdown. set (c1 := set_errors (set_linger false c)).
  assert (conn_ok S T isnT c1) as Hc1 by (apply set_errors_ok; by apply set_linger_ok).
  clearbody c1. set (s1 := match sd_segments_out (cn_sender c1) with [] => _ | _ => _ end).
  assert (snd_ok S s1 ∧ sd_isn s1 = sd_isn (cn_sender c1)) as [Hs1 Hi1].
  { unfold s1. destruct (sd_segments_out (cn_sender c1)); (split; [|done]); [apply send_empty_ok|]; apply Hc1. }
  destruct (pop_segment s1) as [[seg s2]|] eqn:Hp; [|by apply set_sender_ok].
  destruct (pop_segment_ok _ _ _ _ Hs1 Hp) as [Hs2 [abs Hseg]]. apply pop_isn in Hp as Hi2.
  apply emit_ok; [done| |done|congruence]. rewrite Hi1 in Hseg. apply sent_wire in Hseg.
  set (seg1 := match ackno (cn_receiver c1) with Some _ => _ | None => _ end).
  assert (wire_ok S (sd_isn (cn_sender c1)) seg1) as H1 by by apply (ackno_wire S T isnT), Hseg; apply Hc1.
  apply wire_header; try done. apply set_rst_ok, H1.
Qed.

Lemma send_reply_ok S T isnT c : conn_ok S T isnT c -> conn_ok S T isnT (send_reply c).
Proof.
  intros Hc. unfold send_reply. pose proof (co_snd _ _ _ _ Hc) as Hs.
  destruct (pop_segment (cn_sender c)) as [[seg s]|] eqn:Hp; [|done].
  destruct (pop_segment_ok _ _ _ _ Hs Hp) as [Hs2 [abs Hseg]]. apply pop_isn in Hp as Hi2.
  apply emit_ok; [done| |done|done]. apply sent_wire in Hseg.
  set (seg1 := match ackno (cn_receiver c) with Some _ => _ | None => _ end).
  assert (wire_ok S (sd_isn (cn_sender c)) seg1) as H1 by by apply (ackno_wire S T isnT), Hseg; apply Hc.
  clearbody seg1. set (seg2 := if negb _ then _ else _).
  assert (wire_ok S (sd_isn (cn_sender c)) seg2) as H2.
  { unfold seg2. destruct (negb _); [|done]. apply wire_header; try done. apply set_ack_ok, H1. }
  apply wire_header; try done. apply set_win_ok, H2. by apply (advertised_u16 T isnT), Hc.
Qed.

(** The application's side of the sender is untouched. *)
Definition same_app (s s' : TCPSender) : Prop :=
  sd_isn s' = sd_isn s ∧ bs_total_written (sd_stream s') = bs_total_written (sd_stream s) ∧
  bs_input_ended (sd_stream s') = bs_input_ended (sd_stream s).

#[export] Instance same_app_preorder : PreOrder same_app.
Proof. unfold same_app. split; [done|intros ??? (? & ? & ?) (? & ? & ?); split_and!; congruence]. Qed.

Lemma flush_same c : same_app (cn_sender c) (cn_sender (flush_buffer c)) ∧ cn_receiver (flush_buffer c) = cn_receiver c.
Proof. by rewrite flush_buffer_spec. Qed.

Lemma pop_same s seg s' : pop_segment s = Some (seg, s') -> same_app s s'.
Proof. unfold pop_segment. destruct (sd_segments_out s); [done|]. by intros [= _ <-]. Qed.

Lemma send_reply_same c : same_app (cn_sender c) (cn_sender (send_reply c)) ∧ cn_receiver (send_reply c) = cn_receiver c.
Proof.
  unfold send_reply. destruct (pop_segment (cn_sender c)) as [[seg s]|] eqn:Hp; [|done].
  split; [|done]. cbn. by eapply pop_same.
Qed.

Lemma sender_tick_same s ms : same_app s (TCPSender.tick s ms).
Proof.
  unfold TCPSender.tick. destruct (sd_timer_on s); [|done]. cbv zeta.
  repeat case_match; done.
Qed.

Lemma unclean_shutdown_same T c :
  same_app (cn_sender c) (cn_sender (unclean_shutdown c)) ∧ advances T (cn_receiver c) (cn_receiver (unclean_shutdown c)).
Proof.
  unfold unclean_shutdown. set (c1 := set_errors (set_linger false c)).
  assert (same_app (cn_sender c) (cn_sender c1)) as H1 by done.
  assert (advances T (cn_receiver c) (cn_receiver c1)) as H2 by apply (advances_refl T (cn_receiver c)).
  clearbody c1. set (s1 := match sd_segments_out (cn_sender c1) with [] => _ | _ => _ end).
  assert (same_app (cn_sender c1) s1) as H3 by (unfold s1; by destruct (sd_segments_out (cn_sender c1))).
  destruct (pop_segment s1) as [[seg s2]|] eqn:Hp; cbn; (split; [|done]).
  - etrans; [done|]. etrans; [done|]. by eapply pop_same.
  - by etrans.
Qed.

Section ops.
Context (S T : list byte) (isnT : WrappingInt32).
Hypothesis HS : zlen S < 2 ^ 62.
Hypothesis HT : zlen T + 2 < 2 ^ 31.
Hypothesis HisnT : wint_ok isnT.

Let ok := conn_ok S T isnT.

Lemma fill_conn_ok c :
  ok c -> returns (fill_window (cn_sender c)) (λ s, ok (set_sender s c) ∧ same_app (cn_sender c) s).
Proof.
  intros Hc. eapply returns_mono; [by apply (fill_window_ok S), HS; apply Hc|].
  intros s (Hs & Hi & _ & Hw & He & _). split; [by apply set_sender_ok|by split_and!].
Qed.

Lemma segment_received_ok c seg :
  ok c -> wire_ok T isnT seg ->
  returns (segment_received c seg) (λ c', ok c' ∧ same_app (cn_sender c) (cn_sender c') ∧
    advances T (cn_receiver c) (cn_receiver c')).
Proof.
  intros Hc [[abs Hseg] [[_ _ _ _ _ Hwin _ _] _]]. unfold segment_received.
  destruct (negb (active c)); [apply returns_ret; split_and!; try done; apply advances_refl|].
  assert (ok (set_time 0 c)) as H0 by by apply set_time_ok.
  set (c0 := set_time 0 c) in *. cbv zeta.
  destruct (rst (header seg)).
  { apply returns_ret. split_and!; [by apply set_linger_ok, set_errors_ok|done..|].
    apply (advances_refl T (cn_receiver c)). }
  pose proof (co_rcv _ _ _ _ H0) as Hr0. pose proof (ro_checkpoint _ _ _ Hr0) as Hck. pose proof (so_le _ _ _ _ Hseg) as Hle.
  eapply returns_bind; [apply (segment_received_any T isnT _ seg abs); try done; pose proof (co_cap _ _ _ _ H0); lia|].
  intros r (Hr & Hcap & Hadv). set (c1 := set_receiver r c0).
  assert (ok c1) as H1 by (destruct H0; split; cbn; try done; lia).
  eapply (returns_bind _ _ (λ s, ok (set_sender s c1) ∧ same_app (cn_sender c) s)).
  { destruct (ack (header seg)).
    - eapply returns_mono; [by apply (ack_received_ok S); [apply H1| |]|].
      intros s (Hs & Hi & Hw & He & _). split; [by apply set_sender_ok|by split_and!].
    - apply returns_ret. split; [|done]. by destruct c1. }
  intros s [H2 Hsame]. set (c2 := set_sender s c1) in *.
  assert (same_app (cn_sender c) (cn_sender c2) ∧ cn_receiver c2 = r) as [H2s H2r] by done. clearbody c2.
  eapply (returns_bind _ _ (λ c3, ok c3 ∧ same_app (cn_sender c) (cn_sender c3) ∧ cn_receiver c3 = r)).
  { destruct (0 <? length_in_sequence_space seg).
    - eapply (returns_bind _ _ (λ s, ok (set_sender s c2) ∧ same_app (cn_sender c2) s)).
      { destruct (_ && _ && _); [by apply fill_conn_ok|]. apply returns_ret. split; [|done].
        apply set_sender_ok; [done|apply send_empty_ok, H2|done]. }
      intros s' [H3 H3s]. apply returns_ret. set (c3 := set_sender s' c2) in *.
      destruct (send_reply_same c3) as [Hs' Hr'].
      split_and!; [by apply send_reply_ok| |by rewrite Hr'].
      etrans; [exact H2s|]. etrans; [exact H3s|]. exact Hs'.
    - apply returns_ret. destruct (flush_same c2) as [Hs' Hr'].
      split_and!; [by apply flush_ok|by etrans|congruence]. }
  intros c3 (H3 & H3s & H3r). destruct (_ && _); apply returns_ret; cbn; rewrite ?H3r; split_and!; try done.
  by apply set_linger_ok.
Qed.

Lemma conn_tick_ok c ms :
  ok c -> ok (tick c ms) ∧ same_app (cn_sender c) (cn_sender (tick c ms)) ∧
    advances T (cn_receiver c) (cn_receiver (tick c ms)).
Proof.
  intros Hc. unfold tick. destruct (negb (active c)); [split_and!; try done; apply advances_refl|].
  set (c1 := set_sender _ _).
  assert (same_app (cn_sender c) (cn_sender c1)) as Hsame by (apply sender_tick_same).
  assert (ok c1) as H1.
  { apply set_sender_ok; [by apply set_time_ok|apply sender_tick_ok, Hc|apply Hsame]. }
  assert (cn_receiver c1 = cn_receiver c) as Hr1 by done. clearbody c1. cbv zeta.
  destruct (_ <? _).
  - destruct (flush_same (unclean_shutdown c1)) as [Hs' Hr'].
    destruct (unclean_shutdown_same T c1) as [Hs2 Hadv]. rewrite Hr', <- Hr1.
    split_and!; try apply Hadv; [by apply flush_ok, unclean_shutdown_ok|]. etrans; [done|]. by etrans.
  - destruct (flush_same c1) as [Hs' Hr']. rewrite Hr', Hr1.
    split_and!; [by apply flush_ok|by etrans|apply advances_refl].
Qed.

(** The owner writes the next bytes of [S], ends it after its last byte, and
    reads the inbound stream. *)
Lemma conn_write_ok c data :
  ok c -> bs_input_ended (stream_in c) = false ->
  slice_of S (bs_total_written (stream_in c)) (ztake (ByteStream.write (stream_in c) data).2 data) ->
  returns (write c data) (λ '(c', n), ok c' ∧ cn_receiver c' = cn_receiver c ∧ sd_isn (cn_sender c') = sd_isn (cn_sender c) ∧
    bs_input_ended (stream_in c') = false ∧
    (active c = true -> n = (ByteStream.write (stream_in c) data).2 ∧
       bs_total_written (stream_in c') = bs_total_written (ByteStream.write (stream_in c) data).1)).
Proof.
  intros Hc Hie Hsl. unfold write. destruct (active c); cbn [negb]; [|by apply returns_ret].
  destruct (ByteStream.write (stream_in c) data) as [bs n] eqn:Hw.
  pose proof (stream_write S (cn_sender c) data bs n (co_snd _ _ _ _ Hc) Hie Hw HS Hsl) as Hs.
  destruct (write_spec _ _ _ _ (st_ok _ _ (sk_stream _ _ (co_snd _ _ _ _ Hc))) Hw) as (_ & _ & _ & _ & _ & Hie' & _).
  eapply returns_bind; [by apply (fill_window_ok S)|]. intros s (Hs' & Hi & _ & Htw & Hen & _). apply returns_ret.
  destruct (flush_same (set_sender s c)) as [(Hi2 & Htw2 & Hen2) Hr2]. unfold stream_in. rewrite Hr2, Hi2, Htw2, Hen2. cbn [cn_sender set_sender].
  split_and!; [|done|done| |]; [apply flush_ok; by apply set_sender_ok|rewrite Hen; cbn; unfold stream_in in *; congruence|].
  intros _. by rewrite Htw.
Qed.

Lemma conn_end_ok c :
  ok c -> bs_total_written (stream_in c) = zlen S ->
  returns (end_input_stream c) (λ c', ok c' ∧ cn_receiver c' = cn_receiver c ∧ sd_isn (cn_sender c') = sd_isn (cn_sender c) ∧
    bs_total_written (stream_in c') = bs_total_written (stream_in c)).
Proof.
  intros Hc Hw. unfold end_input_stream. destruct (negb (active c)); [by apply returns_ret|].
  pose proof (stream_end S (cn_sender c) (co_snd _ _ _ _ Hc) Hw) as Hs.
  eapply returns_bind; [by apply (fill_window_ok S)|]. intros s (Hs' & Hi & _ & Htw & _). apply returns_ret.
  destruct (flush_same (set_sender s c)) as [(Hi2 & Htw2 & _) Hr2]. unfold stream_in. rewrite Hr2, Hi2, Htw2.
  split_and!; [|done|done|by cbn; rewrite Htw]. apply flush_ok. by apply set_sender_ok.
Qed.

Lemma connect_ok c :
  ok c -> returns (connect c) (λ c', ok c' ∧ cn_receiver c' = cn_receiver c ∧ same_app (cn_sender c) (cn_sender c')).
Proof.
  intros Hc. unfold connect. eapply returns_bind; [by apply fill_conn_ok|]. intros s [H1 Hsame].
  destruct (pop_segment s) as [[seg s']|] eqn:Hp; apply returns_ret; [|done].
  destruct (pop_segment_ok S s seg s' (co_snd _ _ _ _ H1) Hp) as [Hs' [abs Hseg%sent_wire]].
  pose proof (pop_same _ _ _ Hp) as Hsame'. destruct Hsame as (Hi & ? & ?). rewrite Hi in Hseg.
  split_and!; [|done|cbn; etrans; [|done]; by split_and!].
  apply set_initiator_ok, emit_ok; try done. destruct Hsame' as (-> & _). done.
Qed.

Lemma destroy_ok c : ok c -> ok (destroy c).
Proof. intros Hc. unfold destroy. destruct (active c); [by apply unclean_shutdown_ok|done]. Qed.
End ops.

(** ** Segments from anywhere *)

(** What a connection keeps up whatever it is sent. *)
Record conn_safe (S : list byte) (c : TCPConnection) : Prop := {
  cs_snd : snd_ok S (cn_sender c);
  cs_rcv : rcv_safe (cn_receiver c)
}.

(** [reply] acknowledges what the receiver [r] has. *)
Definition acknowledges (r : TCPReceiver) (reply : TCPSegment) : Prop :=
  ack (header reply) = true ∧ win (header reply) = advertised r ∧
  ∀ a, ackno r = Some a -> TCPSegment.ackno (header reply) = a.

Lemma rcv_safe_error r : rcv_safe r -> rcv_safe (with_stream_out r (set_error (stream_out r))).
Proof.
  intros [Hsr Hcap Hack]. split; cbn; try done.
  apply with_output_ok; try done; [apply set_error_ok, Hsr|apply Hsr].
Qed.

Lemma send_reply_spec S c seg q :
  snd_ok S (cn_sender c) -> sd_segments_out (cn_sender c) = seg :: q ->
  ∃ reply, cn_segments_out (send_reply c) = cn_segments_out c ++ [reply] ∧
    acknowledges (cn_receiver c) reply ∧ snd_ok S (cn_sender (send_reply c)) ∧
    cn_receiver (send_reply c) = cn_receiver c.
Proof.
  intros Hs Hq. unfold send_reply, pop_segment. rewrite Hq.
  eexists. split_and!; [reflexivity| |cbn|done].
  - unfold acknowledges. destruct (ackno (cn_receiver c)); cbn; destruct (ack (header seg)) eqn:?; cbn;
      split_and!; congruence.
  - eapply pop_segment_ok; [exact Hs|]. unfold pop_segment. by rewrite Hq.
Qed.

(** A SYN without ACK that reaches a side which did not connect but has sent its
    own SYN already: because this SYN is a repetition of the one it answered, or
    because its owner wrote or closed the stream before any SYN arrived. *)
Definition late_syn (c : TCPConnection) (seg : TCPSegment) : bool :=
  syn (header seg) && negb (ack (header seg)) && negb (cn_initiator c) && sd_syn (cn_sender c).

(** The segments sent in answer to [seg], which occupies sequence space. *)
Definition answer (c : TCPConnection) (seg : TCPSegment) (r : TCPReceiver) (replies : list TCPSegment) : Prop :=
  Forall (acknowledges r) replies ∧
  if rst (header seg) then replies = []
  else if late_syn c seg then (length replies <= 1)%nat
  else length replies = 1%nat.

(** The sender's part in the answer to a segment that occupies sequence space. *)
Lemma prepare_reply S c (b : bool) :
  snd_ok S (cn_sender c) -> zlen S < 2 ^ 62 ->
  returns (if b then fill_window (cn_sender c) else Ret (send_empty_segment (cn_sender c))) (λ s,
    snd_ok S s ∧ (b && sd_syn (cn_sender c) = false -> sd_segments_out s ≠ [])).
Proof.
  intros Hs HS. destruct b; cbn [andb].
  - destruct (sd_syn (cn_sender c)) eqn:Hsy.
    + eapply returns_mono; [by apply (fill_window_ok S)|]. intros s (? & _). done.
    + unfold fill_window. rewrite Hsy. cbn [negb].
      destruct (fill_window_syn S (cn_sender c) Hs HS Hsy) as (s & Hf & Hok & _).
      unfold fill_window in Hf. rewrite Hsy in Hf. cbn [negb] in Hf. injection Hf as Hf.
      apply returns_ret. rewrite Hf. split; [done|]. intros _. rewrite <- Hf. cbn.
      by destruct (sd_segments_out (cn_sender c)).
  - apply returns_ret. split; [by apply send_empty_ok|]. intros _. cbn.
    by destruct (sd_segments_out (cn_sender c)).
Qed.

Lemma segment_received_any_ok S c seg :
  conn_safe S c -> zlen S < 2 ^ 62 -> is_u16 (win (header seg)) ->
  upper (rc_reassembler (cn_receiver c)) + size (payload seg) < 2 ^ 64 ->
  returns (segment_received c seg) (λ c', conn_safe S c' ∧
    (active c = true -> 0 < length_in_sequence_space seg ->
       ∃ replies, cn_segments_out c' = cn_segments_out c ++ replies ∧ answer c seg (cn_receiver c') replies)).
Proof.
  intros [Hs Hr] HS Hw Hb. unfold segment_received. destruct (active c) eqn:Ha; cbn [negb].
  2: { by apply returns_ret. }
  destruct (rst (header seg)) eqn:Hrst.
  { apply returns_ret. split; [split; [by apply stream_error|by apply rcv_safe_error]|]. intros _ _. exists []. unfold answer. rewrite Hrst, app_nil_r.
    split_and!; [done|constructor|done]. }
  eapply returns_bind; [by apply rcv_safe_step|]. intros r (Hr' & _).
  eapply (returns_bind _ _ (λ s, snd_ok S s ∧ (ack (header seg) = false -> s = cn_sender c))).
  { cbn [cn_sender set_receiver set_time]. destruct (ack (header seg)); [|by apply returns_ret].
    eapply returns_mono; [by apply (ack_received_ok S)|]. intros s (? & _). done. }
  intros s [Hs' Hsame]. set (c2 := set_sender s _).
  assert (cn_receiver c2 = r ∧ cn_segments_out c2 = cn_segments_out c ∧ cn_initiator c2 = cn_initiator c ∧
    cn_sender c2 = s) as (E1 & E2 & E3 & E4) by done. clearbody c2.
  eapply (returns_bind _ _ (λ c3, conn_safe S c3 ∧ (0 < length_in_sequence_space seg ->
    ∃ replies, cn_segments_out c3 = cn_segments_out c ++ replies ∧ answer c seg (cn_receiver c3) replies))).
  { destruct (Z.ltb_spec 0 (length_in_sequence_space seg)) as [Hlen|Hlen].
    - eapply returns_bind; [apply (prepare_reply S); [by rewrite E4|done]|]. intros s' [Hs3 Hne].
      apply returns_ret. rewrite E3, E4 in Hne. unfold answer. rewrite Hrst.
      destruct (sd_segments_out s') as [|x q] eqn:Hq.
      + unfold send_reply, pop_segment. cbn [cn_sender set_sender]. rewrite Hq.
        split; [by split; cbn; rewrite ?E1|]. intros _. exists []. cbn. rewrite app_nil_r. split_and!; [done|constructor|].
        destruct (late_syn c seg) eqn:Hlate; [lia|]. exfalso. apply Hne; [|done]. unfold late_syn in Hlate.
        destruct (ack (header seg)); [by rewrite andb_false_r|]. by rewrite (Hsame eq_refl).
      + destruct (send_reply_spec S (set_sender s' c2) x q Hs3 Hq) as (reply & Ho & Hack & Hs4 & Hr4).
        split; [split; [done|by rewrite Hr4, <- E1 in *]|]. intros _. exists [reply].
        rewrite Ho, Hr4. cbn. rewrite E2. split_and!; [done|by apply Forall_singleton|by destruct (late_syn c seg)].
    - apply returns_ret. split; [|lia].
      rewrite flush_buffer_spec. split; cbn; [apply clear_queue_ok; by rewrite E4|by rewrite E1]. }
  intros c3 [[] Hrep]. destruct (_ && _); apply returns_ret; by split; [split|intros _].
Qed.

(** C11: robustness. Whatever segment arrives, with any flags, numbers,
    payload and window, the connection processes it to the end without an
    exception or undefined behaviour and stays well formed. *)
Theorem connection_robust S c seg :
  conn_safe S c -> zlen S < 2 ^ 62 -> is_u16 (win (header seg)) ->
  upper (rc_reassembler (cn_receiver c)) + size (payload seg) < 2 ^ 64 ->
  ∃ c', segment_received c seg = Ret c' ∧ conn_safe S c'.
Proof.
  intros Hc HS Hw Hb. destruct (segment_received_any_ok S c seg Hc HS Hw Hb) as (c' & ? & ? & _). eauto.
Qed.

(** C13: what a live connection sends in answer to a segment that occupies
    sequence space. A RST is not answered. Any other segment is answered with
    exactly one segment, except for a SYN without ACK that reaches a side which did
    not connect and has sent its own SYN before (because the SYN is repeated, or
    because the owner wrote or closed first): that one is answered with at most
    one. Every answer has the ACK flag, the receiver's current acknowledgment
    number and its window, cut to 16 bits. *)
Theorem segment_answered S c seg :
  conn_safe S c -> zlen S < 2 ^ 62 -> is_u16 (win (header seg)) ->
  upper (rc_reassembler (cn_receiver c)) + size (payload seg) < 2 ^ 64 ->
  active c = true -> 0 < length_in_sequence_space seg ->
  ∃ c' replies, segment_received c seg = Ret c' ∧ cn_segments_out c' = cn_segments_out c ++ replies ∧
    Forall (acknowledges (cn_receiver c')) replies ∧
    if rst (header seg) then replies = []
    else if late_syn c seg then (length replies <= 1)%nat
    else length replies = 1%nat.
Proof.
  intros Hc HS Hw Hb Ha Hn. destruct (segment_received_any_ok S c seg Hc HS Hw Hb) as (c' & ? & _ & Hrep).
  destruct (Hrep Ha Hn) as (replies & ? & ?). exists c', replies. done.
Qed.

Definition sample_config : TCPConfig := mkConfig TIMEOUT_DFLT DEFAULT_CAPACITY DEFAULT_CAPACITY (Some (mkWrap 7)).

Lemma new_conn_safe S cfg random :
  is_u64 (recv_capacity cfg) -> is_u64 (send_capacity cfg) -> conn_safe S (new_TCPConnection cfg random).
Proof. intros. split; [by apply new_snd_ok|by apply new_rcv_safe]. Qed.

Lemma connection_robust_witness :
  ∃ c', segment_received (new_TCPConnection sample_config 0) (data_segment (mkWrap 5) 3 [x61] true) = Ret c' ∧
    conn_safe [] c'.
Proof.
  apply (connection_robust [] (new_TCPConnection sample_config 0) (data_segment (mkWrap 5) 3 [x61] true)).
  - apply new_conn_safe; unfold is_u64; cbn; unfold DEFAULT_CAPACITY; lia.
  - vm_compute. reflexivity.
  - unfold is_u16. cbn. lia.
  - vm_compute. reflexivity.
Defined.

Lemma segment_answered_witness :
  ∃ c' replies, segment_received (new_TCPConnection sample_config 0) (syn_segment (mkWrap 5)) = Ret c' ∧
    cn_segments_out c' = cn_segments_out (new_TCPConnection sample_config 0) ++ replies ∧
    Forall (acknowledges (cn_receiver c')) replies ∧ length replies = 1%nat.
Proof.
  apply (segment_answered [] (new_TCPConnection sample_config 0) (syn_segment (mkWrap 5))).
  - apply new_conn_safe; unfold is_u64; cbn; unfold DEFAULT_CAPACITY; lia.
  - vm_compute. reflexivity.
  - unfold is_u16. cbn. lia.
  - vm_compute. reflexivity.
  - reflexivity.
  - reflexivity.
Defined.

(** A repeated SYN is not answered. The peer's SYN, received again because
    the answer to it was lost, occupies sequence space; [fill_window] has nothing
    new to send, and nothing is sent. *)
Theorem repeated_syn_unanswered :
  ∃ c1 c2, segment_received (new_TCPConnection sample_config 0) (syn_segment (mkWrap 5)) = Ret c1 ∧
    length (cn_segments_out c1) = 1%nat ∧
    segment_received c1 (syn_segment (mkWrap 5)) = Ret c2 ∧ length (cn_segments_out c2) = 1%nat.
Proof.
  eexists. eexists. split; [vm_compute; reflexivity|]. split; [reflexivity|].
  split; [vm_compute; reflexivity|]. reflexivity.
Qed.

(** ** The life of a connection *)

(** A connection that is no longer active ignores every call. *)
Lemma inactive_inert c seg data ms :
  active c = false ->
  segment_received c seg = Ret c ∧ write c data = Ret (c, 0) ∧ tick c ms = c ∧ end_input_stream c = Ret c ∧
  destroy c = c.
Proof. intros Ha. unfold segment_received, write, tick, end_input_stream, destroy. by rewrite Ha. Qed.

Lemma errors_inactive c :
  error (stream_in c) = true -> error (inbound_stream c) = true -> active c = false ∧ state c = of_state RESET.
Proof.
  intros H1 H2. assert (active c = false) as Ha by (unfold active; by rewrite H1, H2). split; [done|].
  unfold state, summarize, sender_summary, receiver_summary. rewrite Ha.
  unfold stream_in, inbound_stream in *. by rewrite H1, H2.
Qed.

(** C16: A RST ends a live connection at once, whatever its state and whatever
    number the segment has: both streams are in error, the state is [RESET],
    nothing is sent in reply, and from then on further segments, writes, ticks, the
    end of the stream and the destructor leave the connection as it is.
    ([connect] is not among them: it does not look at whether the connection is
    alive, see [connect_after_reset]; and a connection in state [LISTEN] is reset
    as well, see [listen_reset].) *)
Theorem reset_received c seg :
  active c = true -> rst (header seg) = true ->
  ∃ c', segment_received c seg = Ret c' ∧ state c' = of_state RESET ∧ cn_segments_out c' = cn_segments_out c ∧
    error (stream_in c') = true ∧ error (inbound_stream c') = true ∧
    ∀ seg' data ms, segment_received c' seg' = Ret c' ∧ write c' data = Ret (c', 0) ∧ tick c' ms = c' ∧
      end_input_stream c' = Ret c' ∧ destroy c' = c'.
Proof.
  intros Ha Hr. unfold segment_received at 1. rewrite Ha, Hr. cbn [negb].
  exists (set_linger false (set_errors (set_time 0 c))). split; [done|].
  destruct (errors_inactive (set_linger false (set_errors (set_time 0 c)))) as [Hi Hs]; [done|done|].
  split_and!; done.
Qed.

(** A connection that has sent its SYN. *)
Definition connecting_sample : TCPConnection :=
  match connect (new_TCPConnection sample_config 0) with Ret c => c | _ => new_TCPConnection sample_config 0 end.

Lemma reset_received_witness :
  ∃ c', state connecting_sample = of_state SYN_SENT ∧
    segment_received connecting_sample (on_header (set_rst true) default_segment) = Ret c' ∧
    state c' = of_state RESET ∧ cn_segments_out c' = cn_segments_out connecting_sample ∧
    error (stream_in c') = true ∧ error (inbound_stream c') = true ∧
    ∀ seg' data ms, segment_received c' seg' = Ret c' ∧ write c' data = Ret (c', 0) ∧ tick c' ms = c' ∧
      end_input_stream c' = Ret c' ∧ destroy c' = c'.
Proof.
  destruct (reset_received connecting_sample (on_header (set_rst true) default_segment)) as (c' & H); [reflexivity|reflexivity|].
  exists c'. split; [vm_compute; reflexivity|exact H].
Defined.

(** A connection that listens does not ignore a RST: it is reset, and a SYN that
    arrives afterwards gets no answer. *)
Theorem listen_reset :
  state (new_TCPConnection sample_config 0) = of_state LISTEN ∧
  ∃ c, segment_received (new_TCPConnection sample_config 0) (on_header (set_rst true) default_segment) = Ret c ∧
    state c = of_state RESET ∧ segment_received c (syn_segment (mkWrap 5)) = Ret c ∧ cn_segments_out c = [].
Proof. split; [vm_compute; reflexivity|]. eexists. split; [vm_compute; reflexivity|]. by split_and!; vm_compute. Qed.

(** [connect] on a connection that was reset sends a SYN all the same. *)
Theorem connect_after_reset :
  ∃ c c' seg, segment_received (new_TCPConnection sample_config 0) (on_header (set_rst true) default_segment) = Ret c ∧
    active c = false ∧ connect c = Ret c' ∧ cn_segments_out c' = [seg] ∧ syn (header seg) = true ∧ active c' = false.
Proof.
  do 3 eexists. split; [vm_compute; reflexivity|]. split; [reflexivity|]. split; [vm_compute; reflexivity|]. by split_and!; vm_compute.
Qed.

Lemma unclean_shutdown_errors c :
  error (stream_in (unclean_shutdown c)) = true ∧ error (inbound_stream (unclean_shutdown c)) = true.
Proof.
  unfold unclean_shutdown, pop_segment, stream_in, inbound_stream.
  cbn [cn_sender set_errors set_linger set_receiver set_sender cn_receiver sd_segments_out set_stream].
  destruct (sd_segments_out (cn_sender c)) eqn:Hq; cbn; rewrite ?Hq; done.
Qed.

Lemma unclean_shutdown_out c :
  ∃ seg, cn_segments_out (unclean_shutdown c) = cn_segments_out c ++ [seg] ∧ rst (header seg) = true.
Proof.
  unfold unclean_shutdown, pop_segment.
  cbn [cn_sender set_errors set_linger set_receiver set_sender cn_receiver sd_segments_out set_stream].
  destruct (sd_segments_out (cn_sender c)) eqn:Hq; cbn; rewrite ?Hq; cbn; eexists; by split.
Qed.

(** C17: giving up. A tick that brings the consecutive retransmissions of a live
    connection above [MAX_RETX_ATTEMPTS] sends a RST and leaves the connection in
    state [RESET]; so does the destructor of any live connection. *)
Theorem gives_up c :
  active c = true ->
  (∀ ms, MAX_RETX_ATTEMPTS < consecutive_retransmissions (TCPSender.tick (cn_sender c) ms) ->
    state (tick c ms) = of_state RESET ∧
    ∃ seg q, cn_segments_out (tick c ms) = cn_segments_out c ++ seg :: q ∧ rst (header seg) = true) ∧
  state (destroy c) = of_state RESET ∧
  ∃ seg, cn_segments_out (destroy c) = cn_segments_out c ++ [seg] ∧ rst (header seg) = true.
Proof.
  intros Ha. split_and!.
  - intros ms Hx. unfold tick. rewrite Ha. cbn [negb]. cbv zeta. set (c1 := set_sender _ _).
    assert (MAX_RETX_ATTEMPTS <? consecutive_retransmissions (cn_sender c1) = true) as -> by by apply Z.ltb_lt.
    assert (cn_segments_out c1 = cn_segments_out c) as Ho by done. clearbody c1.
    destruct (unclean_shutdown_errors c1) as [H1 H2].
    destruct (unclean_shutdown_out c1) as (seg & Hseg & Hrst). rewrite flush_buffer_spec. split.
    + apply errors_inactive; done.
    + cbn. rewrite Hseg, Ho, <- app_assoc. cbn. eexists. eexists. split; [reflexivity|done].
  - unfold destroy. rewrite Ha. apply errors_inactive; apply unclean_shutdown_errors.
  - unfold destroy. rewrite Ha. apply unclean_shutdown_out.
Qed.

(** A connection whose SYN was sent nine times in vain. *)
Definition worn_connection : outcome TCPConnection :=
  c ← connect (new_TCPConnection sample_config 0);
  Ret (fold_left tick [1000; 2000; 4000; 8000; 16000; 32000; 64000; 128000] c).

Lemma gives_up_witness :
  ∃ c, worn_connection = Ret c ∧
  (state (tick c 256000) = of_state RESET ∧
   ∃ seg q, cn_segments_out (tick c 256000) = cn_segments_out c ++ seg :: q ∧ rst (header seg) = true) ∧
  state (destroy c) = of_state RESET ∧
  ∃ seg, cn_segments_out (destroy c) = cn_segments_out c ++ [seg] ∧ rst (header seg) = true.
Proof.
  eexists. split; [vm_compute; reflexivity|].
  match goal with |- context [destroy ?c] => destruct (gives_up c) as [Ht Hd]; [vm_compute; reflexivity|] end.
  split; [apply (Ht 256000); vm_compute; reflexivity|exact Hd].
Defined.

(** Once both streams have ended, everything is acknowledged and no reset occurred. *)
Definition finished (c : TCPConnection) : Prop :=
  eof (inbound_stream c) = true ∧ eof (stream_in c) = true ∧ bytes_in_flight c = 0 ∧ error (stream_in c) = false.

(** Then only the flag and the time decide. *)
Lemma finished_active c :
  finished c ->
  active c = cn_linger_after_streams_finish c && (cn_time_since_last_segment_received c <? 10 * rt_timeout (cn_cfg c)).
Proof.
  intros (Hi & Ho & Hb & He). unfold active, time_since_last_segment_received. rewrite Hi, Ho, Hb, He. cbn.
  rewrite Z.leb_antisym. by destruct (cn_linger_after_streams_finish c), (_ <? _).
Qed.

(** A tick then lets time pass and does nothing else. *)
Lemma linger_tick S c ms :
  snd_ok S (cn_sender c) -> finished c -> active c = true -> 0 <= ms < 2 ^ 63 -> 0 <= cn_time_since_last_segment_received c < 2 ^ 63 ->
  finished (tick c ms) ∧ cn_linger_after_streams_finish (tick c ms) = cn_linger_after_streams_finish c ∧ cn_cfg (tick c ms) = cn_cfg c ∧
  cn_time_since_last_segment_received (tick c ms) = cn_time_since_last_segment_received c + ms.
Proof.
  intros Hs Hfin Ha Hms Ht. pose proof Hfin as (Hi & Ho & Hb & He).
  assert (sd_outstanding_segments (cn_sender c) = []) as Hout.
  { pose proof (sk_chain _ _ Hs) as Hch. unfold una, bytes_in_flight, TCPSender.bytes_in_flight in *.
    destruct (sd_outstanding_segments (cn_sender c)) as [|[k seg] m]; [done|].
    destruct Hch as (-> & Hpos & _ & Hle%chain_le). lia. }
  assert (sd_timer_on (cn_sender c) = false) as Hoff.
  { destruct (sd_timer_on (cn_sender c)) eqn:Hon; [|done]. by apply (sk_timer _ _ Hs) in Hon. }
  assert (TCPSender.tick (cn_sender c) ms = cn_sender c) as Htick by (unfold TCPSender.tick; by rewrite Hoff).
  assert (tick c ms = flush_buffer (set_sender (cn_sender c)
    (set_time (cn_time_since_last_segment_received c + ms) c))) as Hrun.
  { unfold tick. rewrite Ha. cbn [negb cn_sender set_time]. rewrite Htick, u64_id by (unfold is_u64; lia).
    unfold consecutive_retransmissions. cbn [cn_sender set_sender].
    by rewrite (sk_retx _ _ Hs Hout). }
  rewrite Hrun, flush_buffer_spec. by split_and!.
Qed.

(** The peer's answers to an active open and to an immediate close. *)
Definition peer_segment (abs : Z) (s f : bool) (a : Z) : TCPSegment :=
  on_header (λ h, set_win 10 (set_ackno (wrap a (mkWrap 7)) (set_ack true (set_syn s (set_fin f
    (set_seqno (wrap abs (mkWrap 5)) h)))))) default_segment.

Definition closed_first : outcome TCPConnection :=
  c ← connect (new_TCPConnection sample_config 0);
  c ← segment_received c (peer_segment 0 true false 1);
  c ← end_input_stream c;
  segment_received c (peer_segment 1 false true 2).

Lemma new_conn_ok S T isnT cfg random :
  is_u64 (send_capacity cfg) -> 0 <= recv_capacity cfg < 2 ^ 62 ->
  conn_ok S T isnT (new_TCPConnection cfg random).
Proof.
  intros ? ?. split; cbn; [by apply new_snd_ok|apply new_rcv_ok; unfold is_u64; lia|lia|constructor].
Qed.

Lemma closed_first_ok : ∃ c, closed_first = Ret c ∧ snd_ok [] (cn_sender c).
Proof.
  assert (∀ abs s f a, 0 <= abs <= 2 -> (s = true -> abs = 0) -> wire_ok [] (mkWrap 5) (peer_segment abs s f a)) as Hwire.
  { intros abs s f a Hle Hs. split; [exists abs; by split|split; [|done]].
    unfold peer_segment, on_header, default_segment. cbn [header]. assert (is_u16 10) by (unfold is_u16; lia). by auto 10 with header. }
  assert (wint_ok (mkWrap 5)) as Hisn by (unfold wint_ok, is_u32; cbn; lia).
  destruct (connect_ok [] [] (mkWrap 5) ltac:(done) (new_TCPConnection sample_config 0)) as (c1 & E1 & H1 & _ & (_ & W1 & _)).
  { apply new_conn_ok; unfold is_u64; cbn; unfold DEFAULT_CAPACITY; lia. }
  destruct (segment_received_ok [] [] (mkWrap 5) ltac:(done) ltac:(done) Hisn c1 _ H1 (Hwire 0 true false 1 ltac:(lia) ltac:(done)))
    as (c2 & E2 & H2 & (_ & W2 & _) & _).
  destruct (conn_end_ok [] [] (mkWrap 5) ltac:(done) c2 H2) as (c3 & E3 & H3 & _); [unfold stream_in; by rewrite W2, W1|].
  destruct (segment_received_ok [] [] (mkWrap 5) ltac:(done) ltac:(done) Hisn c3 _ H3 (Hwire 1 false true 2 ltac:(lia) ltac:(done)))
    as (c4 & E4 & H4 & _).
  exists c4. split; [|apply H4]. unfold closed_first. rewrite E1. cbn. rewrite E2. cbn. rewrite E3. exact E4.
Qed.

(** ** The three-way handshake *)

Section handshake.
Lemma push_nothing cap :
  push_substring (new_StreamReassembler cap) [] 0 false = Ret (new_StreamReassembler cap).
Proof. unfold push_substring, validate. by destruct (_ =? 0). Qed.

(** The receiver after the SYN, and after the acknowledgment that follows. *)
Lemma receive_syn cap isn seg :
  wint_ok isn -> syn (header seg) = true -> fin (header seg) = false -> str (payload seg) = [] ->
  seqno (header seg) = isn ->
  TCPReceiver.segment_received (new_TCPReceiver cap) seg =
    Ret (mkReceiver (new_StreamReassembler cap) cap (wrap 1 isn) isn 1 0 true false).
Proof.
  intros Hisn Hs Hf Hp Hq. unfold TCPReceiver.segment_received, copy. rewrite Hs, Hf, Hp, Hq. cbn [new_TCPReceiver rc_syn andb].
  assert (unwrap isn isn 0 = 0) as Hu.
  { rewrite <- (wrap_zero isn Hisn) at 1. apply unwrap_wrap; lia. }
  cbv beta iota zeta. cbn [rc_checkpoint rc_reassembler rc_end rc_capacity new_TCPReceiver].
  rewrite push_nothing. cbn -[wrap unwrap]. by rewrite Hu.
Qed.

Lemma receive_ack cap isn seg :
  syn (header seg) = false -> fin (header seg) = false -> str (payload seg) = [] ->
  seqno (header seg) = wrap 1 isn ->
  TCPReceiver.segment_received (mkReceiver (new_StreamReassembler cap) cap (wrap 1 isn) isn 1 0 true false) seg =
    Ret (mkReceiver (new_StreamReassembler cap) cap (wrap 1 isn) isn 1 1 true false).
Proof.
  intros Hs Hf Hp Hq. unfold TCPReceiver.segment_received, copy. rewrite Hs, Hf, Hp, Hq. cbn [rc_syn andb].
  cbv beta iota zeta. cbn [rc_checkpoint rc_reassembler rc_end rc_isn].
  rewrite unwrap_wrap by lia. change (u64 (1 - 1)) with 0. by rewrite push_nothing.
Qed.

Definition syn_sent (cap rt : Z) (isn : WrappingInt32) (q : list TCPSegment) : TCPSender :=
  mkSender isn q rt (new_ByteStream cap) 1 [(1, on_header (set_seqno (wrap 0 isn)) (on_header (set_syn true) default_segment))]
    1 true false 1 0 0 0 rt 0 0 true.

Lemma send_syn cap rt fixed random :
  let isn := default (mkWrap random) fixed in
  fill_window (new_TCPSender cap rt fixed random) =
    Ret (syn_sent cap rt isn [on_header (set_seqno (wrap 0 isn)) (on_header (set_syn true) default_segment)]).
Proof. reflexivity. Qed.

(** The sender once its SYN is acknowledged. *)
Definition syn_acked (cap rt : Z) (isn : WrappingInt32) (w : Z) : TCPSender :=
  mkSender isn [] rt (new_ByteStream cap) 1 [] 0 true false w 1 (if w =? 0 then 1 else w) 1 rt 0 0 false.

Lemma ack_syn cap rt isn w :
  is_u16 w -> ack_received (syn_sent cap rt isn []) (wrap 1 isn) w = Ret (syn_acked cap rt isn w).
Proof.
  intros Hw. unfold is_u16 in Hw. unfold ack_received. cbn [syn_sent sd_isn sd_abs_ackno].
  rewrite unwrap_wrap by lia. unfold next_seqno_absolute. cbn [sd_next_seqno].
  change (1 <? 1) with false. cbv iota. rewrite u64_id by (unfold is_u64; lia).
  assert (u16 (u64 (1 + w - 1)) = w) as Hr by (rewrite u64_id by (unfold is_u64; lia); rewrite u16_id by (unfold is_u16; lia); lia).
  cbn -[u16 u64 Z.add Z.sub Z.ltb fill_window]. rewrite Hr.
  assert (1 + w <? 1 = false) as -> by (apply Z.ltb_ge; lia).
  unfold fill_window, syn_acked. by destruct (w =? 0).
Qed.

Lemma active_open c :
  error (stream_in c) = false -> input_ended (stream_in c) = false -> active c = true.
Proof.
  intros H1 H2. unfold active, eof. rewrite H1, H2. cbn. rewrite andb_false_r.
  by destruct (cn_linger_after_streams_finish c).
Qed.

Definition syn_of (isn : WrappingInt32) : TCPSegment :=
  on_header (set_seqno (wrap 0 isn)) (on_header (set_syn true) default_segment).

(** The receiver of a connection that has the peer's SYN only. *)
Definition listening_done (cap : Z) (isn : WrappingInt32) (checkpoint : Z) : TCPReceiver :=
  mkReceiver (new_StreamReassembler cap) cap (wrap 1 isn) isn 1 checkpoint true false.

Lemma advertised_listening cap isn cp : 0 <= cap < 2 ^ 62 -> is_u16 (advertised (listening_done cap isn cp)).
Proof.
  intros Hc. unfold advertised, window_size, listening_done, is_u16. cbn -[u64].
  change (list_size []) with 0. rewrite u64_id by (unfold is_u64; lia).
  destruct (Z.ltb_spec 65535 (cap - 0)); lia.
Qed.

(** C14: the three-way handshake. For any two configurations and initial
    sequence numbers, a connect on one side and the delivery of the three
    segments that result leave both connections [ESTABLISHED], through
    [SYN_SENT] and [SYN_RCVD], with nothing left to send. *)
Theorem three_way_handshake cfgA cfgB randomA randomB :
  let A := new_TCPConnection cfgA randomA in
  let B := new_TCPConnection cfgB randomB in
  wint_ok (sd_isn (cn_sender A)) -> wint_ok (sd_isn (cn_sender B)) ->
  0 <= recv_capacity cfgA < 2 ^ 62 -> 0 <= recv_capacity cfgB < 2 ^ 62 ->
  ∃ A1 A2 B1 B2 seg1 seg2 seg3,
    connect A = Ret A1 ∧ cn_segments_out A1 = [seg1] ∧
    segment_received B seg1 = Ret B1 ∧ cn_segments_out B1 = [seg2] ∧
    segment_received A1 seg2 = Ret A2 ∧ cn_segments_out A2 = [seg1; seg3] ∧
    segment_received B1 seg3 = Ret B2 ∧ cn_segments_out B2 = [seg2] ∧
    state A = of_state LISTEN ∧ state A1 = of_state SYN_SENT ∧ state B1 = of_state SYN_RCVD ∧
    state A2 = of_state ESTABLISHED ∧ state B2 = of_state ESTABLISHED ∧
    bytes_in_flight A2 = 0 ∧ bytes_in_flight B2 = 0.
Proof.
  intros A B HA HB HcA HcB. cbn in HA, HB.
  set (isnA := default (mkWrap randomA) (fixed_isn cfgA)) in *.
  set (isnB := default (mkWrap randomB) (fixed_isn cfgB)) in *.
  set (rB := listening_done (recv_capacity cfgB) isnA 0).
  set (rA := listening_done (recv_capacity cfgA) isnB 0).
  set (seg2 := on_header (λ h, set_win (advertised rB) (set_ack true (set_ackno (wrap 1 isnA) h))) (syn_of isnB)).
  set (seg3 := on_header (λ h, set_win (advertised rA) (set_ackno (wrap 1 isnB) (set_seqno (wrap 1 isnA) (set_ack true h)))) default_segment).
  set (A1 := mkConnection cfgA (new_TCPReceiver (recv_capacity cfgA)) (syn_sent (send_capacity cfgA) (rt_timeout cfgA) isnA []) [syn_of isnA] true 0 true).
  set (B1 := mkConnection cfgB rB (syn_sent (send_capacity cfgB) (rt_timeout cfgB) isnB []) [seg2] true 0 false).
  set (A2 := mkConnection cfgA rA (syn_acked (send_capacity cfgA) (rt_timeout cfgA) isnA (advertised rB)) [syn_of isnA; seg3] true 0 true).
  set (B2 := mkConnection cfgB (listening_done (recv_capacity cfgB) isnA 1) (syn_acked (send_capacity cfgB) (rt_timeout cfgB) isnB (advertised rA)) [seg2] true 0 false).
  pose proof (advertised_listening (recv_capacity cfgB) isnA 0 HcB) as HwB. fold rB in HwB.
  pose proof (advertised_listening (recv_capacity cfgA) isnB 0 HcA) as HwA. fold rA in HwA.
  exists A1, A2, B1, B2, (syn_of isnA), seg2, seg3. split_and!; try reflexivity.
  - unfold segment_received. rewrite active_open by done.
    cbn [cn_receiver cn_sender set_time B new_TCPConnection rst header syn_of on_header negb].
    rewrite (receive_syn (recv_capacity cfgB) isnA) by (done || by apply wrap_zero).
    fold (listening_done (recv_capacity cfgB) isnA 0). fold rB. cbn -[fill_window new_TCPSender wrap advertised rB].
    rewrite send_syn. fold isnB. cbn -[wrap advertised rB]. reflexivity.
  - unfold segment_received. rewrite active_open by done.
    cbn [cn_receiver cn_sender set_time A1 rst header seg2 on_header negb].
    rewrite (receive_syn (recv_capacity cfgA) isnB) by (done || by apply wrap_zero).
    fold (listening_done (recv_capacity cfgA) isnB 0). fold rA.
    cbn -[ack_received wrap advertised rB rA syn_sent]. rewrite ack_syn by done.
    cbn -[wrap advertised rB rA]. reflexivity.
  - unfold segment_received. rewrite active_open by done.
    cbn [cn_receiver cn_sender set_time B1 rst header seg3 on_header negb].
    unfold rB at 1, listening_done. rewrite receive_ack by done.
    fold (listening_done (recv_capacity cfgB) isnA 1).
    cbn -[ack_received wrap advertised rB rA syn_sent]. rewrite ack_syn by done.
    cbn -[wrap advertised rB rA]. reflexivity.
Qed.
End handshake.

Lemma three_way_handshake_witness :
  ∃ A1 A2 B1 B2 seg1 seg2 seg3,
    connect (new_TCPConnection sample_config 0) = Ret A1 ∧ cn_segments_out A1 = [seg1] ∧
    segment_received (new_TCPConnection sample_config 0) seg1 = Ret B1 ∧ cn_segments_out B1 = [seg2] ∧
    segment_received A1 seg2 = Ret A2 ∧ cn_segments_out A2 = [seg1; seg3] ∧
    segment_received B1 seg3 = Ret B2 ∧ cn_segments_out B2 = [seg2] ∧
    state (new_TCPConnection sample_config 0) = of_state LISTEN ∧
    state A1 = of_state SYN_SENT ∧ state B1 = of_state SYN_RCVD ∧
    state A2 = of_state ESTABLISHED ∧ state B2 = of_state ESTABLISHED ∧
    bytes_in_flight A2 = 0 ∧ bytes_in_flight B2 = 0.
Proof.
  apply (three_way_handshake sample_config sample_config 0 0);
    unfold wint_ok, is_u32; cbn; unfold DEFAULT_CAPACITY; lia.
Defined.

(** ** Errors of the outgoing stream: only an unclean shutdown sets one. *)
Lemma pop_output_error bs len bs' : pop_output bs len = Ret bs' -> bs_error bs' = bs_error bs.
Proof. unfold pop_output. intros (buf & _ & [= <-])%bind_ret_inv. done. Qed.

Lemma fill_once_error s seg s' seg' : fill_once s seg = Ret (s', seg') -> bs_error (sd_stream s') = bs_error (sd_stream s).
Proof.
  unfold fill_once. intros ([bs data] & Hrd & Hret)%bind_ret_inv.
  unfold read in Hrd. apply bind_ret_inv in Hrd as (bs' & Hp%pop_output_error & [= <- <-]).
  injection Hret as <- _. destruct (0 <? length_in_sequence_space _), (_ && _); done.
Qed.

Lemma fill_loop_error fuel s seg s' seg' : fill_loop fuel s seg = Ret (s', seg') -> bs_error (sd_stream s') = bs_error (sd_stream s).
Proof.
  revert s seg. induction fuel as [|fuel IH]; intros s seg; cbn [fill_loop]; (destruct (_ && _); [|by intros [= <- _]]); [done|].
  intros ([s1 seg1] & H1%fill_once_error & H2%IH)%bind_ret_inv. congruence.
Qed.

Lemma fill_window_error s s' : fill_window s = Ret s' -> bs_error (sd_stream s') = bs_error (sd_stream s).
Proof.
  unfold fill_window. destruct (negb (sd_syn s)); [by intros [= <-]|].
  intros ([s1 seg1] & H1%fill_loop_error & Hret)%bind_ret_inv. by destruct (_ && _ && _); injection Hret as <-.
Qed.

Lemma ack_received_error s a w s' : ack_received s a w = Ret s' -> bs_error (sd_stream s') = bs_error (sd_stream s).
Proof.
  unfold ack_received. destruct (_ <? _); [by intros [= <-]|]. destruct (_ <? _); [by intros [= <-]|].
  intros ->%fill_window_error. unfold restart_timer, remove_acked. by repeat case_match.
Qed.

Lemma sender_tick_stream s ms : sd_stream (TCPSender.tick s ms) = sd_stream s.
Proof. unfold TCPSender.tick. by repeat case_match. Qed.

Lemma flush_stream c : stream_in (flush_buffer c) = stream_in c ∧ inbound_stream (flush_buffer c) = inbound_stream c.
Proof. by rewrite flush_buffer_spec. Qed.

Lemma send_reply_stream c : stream_in (send_reply c) = stream_in c.
Proof. unfold send_reply, pop_segment. by destruct (sd_segments_out (cn_sender c)). Qed.

(** The connection: an error of the outgoing stream comes with one of the
    inbound stream. *)
Definition errors_paired (c : TCPConnection) : Prop := error (stream_in c) = true -> error (inbound_stream c) = true.

Lemma segment_received_error c seg c' :
  rst (header seg) = false -> segment_received c seg = Ret c' -> error (stream_in c') = error (stream_in c).
Proof.
  intros Hrst. unfold segment_received. destruct (negb (active c)); [by intros [= <-]|]. rewrite Hrst.
  intros (r & _ & H)%bind_ret_inv. apply bind_ret_inv in H as (s & Hs & H).
  assert (bs_error (sd_stream s) = bs_error (stream_in c)) as Hs'.
  { destruct (ack (header seg)); [by apply ack_received_error in Hs|by injection Hs as <-]. }
  set (c1 := set_sender s _) in H. assert (error (stream_in c1) = error (stream_in c)) as H1 by exact Hs'. clearbody c1.
  apply bind_ret_inv in H as (c2 & Hc2 & H). assert (error (stream_in c2) = error (stream_in c)) as H2.
  { destruct (0 <? _); [|injection Hc2 as <-; by rewrite (proj1 (flush_stream c1))].
    apply bind_ret_inv in Hc2 as (s2 & Hs2 & [= <-]). rewrite send_reply_stream, <- H1.
    destruct (_ && _ && _); [by apply fill_window_error in Hs2|by injection Hs2 as <-]. }
  revert H. destruct (input_ended (inbound_stream c2) && negb (eof (stream_in c2))); by intros [= <-].
Qed.

Lemma segment_received_paired c seg c' :
  rst (header seg) = false -> segment_received c seg = Ret c' -> errors_paired c -> errors_paired c'.
Proof.
  intros Hrst Hrun Hp He. pose proof (segment_received_error _ _ _ Hrst Hrun) as Hsame. rewrite He in Hsame.
  destruct (active c) eqn:Ha.
  - symmetry in Hsame. pose proof (Hp Hsame) as Hi. unfold active in Ha. by rewrite Hsame, Hi in Ha.
  - unfold segment_received in Hrun. rewrite Ha in Hrun. injection Hrun as <-. by apply Hp.
Qed.

Lemma write_paired c data c' n : write c data = Ret (c', n) -> errors_paired c -> errors_paired c'.
Proof.
  unfold write. destruct (negb (active c)); [by intros [= <- _]|].
  destruct (ByteStream.write (stream_in c) data) as [bs m] eqn:Hw.
  intros (s & Hs%fill_window_error & [= <- _])%bind_ret_inv Hp. unfold errors_paired.
  destruct (flush_stream (set_sender s c)) as [-> ->]. intros He. apply Hp.
  assert (bs_error bs = bs_error (stream_in c)) as Hbs by (unfold ByteStream.write in Hw; destruct (_ <? _); by injection Hw as <- _).
  cbn in Hs. unfold error, stream_in in *. cbn in He. congruence.
Qed.

Lemma end_paired c c' : end_input_stream c = Ret c' -> errors_paired c -> errors_paired c'.
Proof.
  unfold end_input_stream. destruct (negb (active c)); [by intros [= <-]|].
  intros (s & Hs%fill_window_error & [= <-])%bind_ret_inv Hp. unfold errors_paired.
  destruct (flush_stream (set_sender s c)) as [-> ->]. intros He. apply Hp. unfold error, stream_in in *. cbn in *. congruence.
Qed.

Lemma connect_paired c c' : connect c = Ret c' -> errors_paired c -> errors_paired c'.
Proof.
  unfold connect. intros (s & Hs%fill_window_error & H)%bind_ret_inv Hp. unfold pop_segment in H.
  destruct (sd_segments_out s); injection H as <-; intros He; apply Hp; unfold error, stream_in in *; cbn in *; congruence.
Qed.

Lemma tick_paired c ms : errors_paired c -> errors_paired (tick c ms).
Proof.
  intros Hp. unfold tick. destruct (negb (active c)); [done|]. cbv zeta. unfold errors_paired.
  set (c1 := set_sender (TCPSender.tick _ ms) _).
  assert (errors_paired c1) as H1.
  { unfold errors_paired, c1, stream_in. cbn. rewrite sender_tick_stream. exact Hp. }
  clearbody c1. destruct (_ <? _); [|by destruct (flush_stream c1) as [-> ->]].
  destruct (flush_stream (unclean_shutdown c1)) as [-> ->]. intros _. apply unclean_shutdown_errors.
Qed.
