(* ===== verification/Closing.v ===== *)
(** How a connection ends: the side that closes first lingers, the one that closes
    second does not. Who closes first shows in the calls that a connection
    receives; [calls] runs them. *)
From S2P Require Import Prelude Buffer ByteStream StreamReassembler WrappingIntegers TCPSegment TCPReceiver TCPSender TCPState TCPConnection.

(** ** The calls of a connection *)
Inductive call :=
| Segment (seg : TCPSegment)
| Write (data : list byte)
| EndInput
| Tick (ms : Z)
| Connect
| ReadInbound (len : Z).

Definition do_call (c : TCPConnection) (k : call) : outcome TCPConnection :=
  match k with
  | Segment seg => segment_received c seg
  | Write data => '(c, _) ← write c data; Ret c
  | EndInput => end_input_stream c
  | Tick ms => Ret (tick c ms)
  | Connect => connect c
  | ReadInbound len => '(bs, _) ← read (inbound_stream c) len; Ret (set_receiver (with_stream_out (cn_receiver c) bs) c)
  end.

Fixpoint calls (c : TCPConnection) (ks : list call) : outcome TCPConnection :=
  match ks with
  | [] => Ret c
  | k :: ks => c ← do_call c k; calls c ks
  end.

Definition no_write (k : call) : Prop := match k with Write _ => False | _ => True end.

(** ** What calls leave *)

Lemma flush_linger c : cn_linger_after_streams_finish (flush_buffer c) = cn_linger_after_streams_finish c.
Proof. by rewrite flush_buffer_spec. Qed.

Lemma send_reply_keeps c :
  cn_linger_after_streams_finish (send_reply c) = cn_linger_after_streams_finish c ∧
  inbound_stream (send_reply c) = inbound_stream c.
Proof. unfold send_reply, pop_segment. by destruct (sd_segments_out (cn_sender c)). Qed.

Lemma unclean_linger c : cn_linger_after_streams_finish (unclean_shutdown c) = false.
Proof. unfold unclean_shutdown. by destruct (pop_segment _) as [[seg s]|]. Qed.

Lemma unclean_streams c :
  stream_in (unclean_shutdown c) = set_error (stream_in c) ∧ inbound_stream (unclean_shutdown c) = set_error (inbound_stream c).
Proof.
  unfold unclean_shutdown, pop_segment, stream_in, inbound_stream.
  cbn [cn_sender set_errors set_linger set_receiver set_sender cn_receiver sd_segments_out set_stream].
  destruct (sd_segments_out (cn_sender c)) eqn:Hq; cbn; rewrite ?Hq; done.
Qed.

(** *** The receiver does not reopen its stream *)
Lemma push_input_ended r data index e r' :
  push_substring r data index e = Ret r' -> bs_input_ended (sr_output r) = true -> bs_input_ended (sr_output r') = true.
Proof.
  unfold push_substring. intros ([[[d i] e'] v] & _ & H)%bind_ret_inv Hend. destruct (negb v); [by injection H as <-|].
  apply bind_ret_inv in H as (r1 & H1 & [= <-]).
  assert (bs_input_ended (sr_output r1) = true) as Hr1.
  { destruct (negb _); [|by injection H1 as <-]. apply bind_ret_inv in H1 as (r0 & Hm & Hb).
    assert (sr_output r0 = sr_output r) as H0.
    { unfold merge in Hm. apply bind_ret_inv in Hm as (st & _ & Hm). apply bind_ret_inv in Hm as (str' & _ & Hm).
      destruct (ml_to_be_deleted st); [by injection Hm as <-|]. by destruct (ml_index st); [injection Hm as <-|]. }
    unfold reorder_buffer in Hb. destruct (sr_buf r0) as [|[k v'] l]; [injection Hb as <-; by rewrite H0|].
    destruct (_ && _); [|injection Hb as <-; by rewrite H0]. destruct (_ <? _); [done|]. injection Hb as <-. cbn. rewrite H0.
    unfold ByteStream.write. by destruct (_ <? _). }
  unfold push_finish. set (r2 := if e' then _ else _). assert (bs_input_ended (sr_output r2) = true) by (unfold r2; by destruct e').
  by destruct (sr_input_ended r2 && empty r2).
Qed.

Lemma receiver_input_ended r seg r' :
  TCPReceiver.segment_received r seg = Ret r' -> bs_input_ended (stream_out r) = true -> bs_input_ended (stream_out r') = true.
Proof.
  unfold TCPReceiver.segment_received. destruct (_ && _); [by intros [= <-]|]. cbv zeta. destruct (if syn (header seg) then true else rc_syn r); [|by intros [= <-]].
  intros (sr & Hp & [= <-])%bind_ret_inv. by apply (push_input_ended _ _ _ _ _ Hp).
Qed.

(** *** A sender whose stream is at its end leaves it there *)
Lemma fill_window_eof s s' : fill_window s = Ret s' -> eof (sd_stream s) = true -> sd_stream s' = sd_stream s.
Proof.
  intros Hf He. unfold fill_window in Hf. destruct (negb (sd_syn s)); [by injection Hf as <-|].
  assert (buffer_size (sd_stream s) = 0) as Hz by (apply eof_spec in He as [_ Hc]; by rewrite buffer_size_contents, Hc).
  rewrite Hz in Hf. change (Z.to_nat 0) with O in Hf. cbn [fill_loop] in Hf. rewrite Hz in Hf. change (0 <? 0) with false in Hf. cbn [andb] in Hf.
  cbn [mbind outcome_bind] in Hf. destruct (_ && _ && _); by injection Hf as <-.
Qed.

Lemma ack_received_eof s a w s' : ack_received s a w = Ret s' -> eof (sd_stream s) = true -> sd_stream s' = sd_stream s.
Proof.
  unfold ack_received. destruct (_ <? _); [by intros [= <-]|]. destruct (_ <? _); [by intros [= <-]|]. cbv zeta.
  intros Hf He. set (s1 := restart_timer _) in Hf. assert (sd_stream s1 = sd_stream s) as H1.
  { unfold s1, restart_timer, remove_acked. by repeat case_match. }
  rewrite <- H1 in *. by apply fill_window_eof.
Qed.

(** *** A segment, other than a RST *)
Lemma segment_received_inv c seg c' :
  active c = true -> rst (header seg) = false -> segment_received c seg = Ret c' ->
  ∃ r s s2 c2, TCPReceiver.segment_received (cn_receiver c) seg = Ret r ∧
    (if ack (header seg) then ack_received (cn_sender c) (TCPSegment.ackno (header seg)) (win (header seg)) else Ret (cn_sender c)) = Ret s ∧
    (s2 = s ∨ fill_window s = Ret s2 ∨ s2 = send_empty_segment s) ∧
    inbound_stream c2 = stream_out r ∧ stream_in c2 = sd_stream s2 ∧ cn_linger_after_streams_finish c2 = cn_linger_after_streams_finish c ∧
    c' = if input_ended (inbound_stream c2) && negb (eof (stream_in c2)) then set_linger false c2 else c2.
Proof.
  intros Ha Hrst. unfold segment_received. rewrite Ha, Hrst. cbn [negb].
  intros (r & Hr & H)%bind_ret_inv. apply bind_ret_inv in H as (s & Hs & H). apply bind_ret_inv in H as (c2 & Hc2 & H).
  cbn [cn_receiver cn_sender set_receiver set_time] in Hr, Hs.
  enough (∃ s2, (s2 = s ∨ fill_window s = Ret s2 ∨ s2 = send_empty_segment s) ∧ inbound_stream c2 = stream_out r ∧ stream_in c2 = sd_stream s2 ∧
    cn_linger_after_streams_finish c2 = cn_linger_after_streams_finish c) as (s2 & ? & ? & ? & ?).
  { exists r, s, s2, c2. split_and!; try done. destruct (input_ended (inbound_stream c2) && negb (eof (stream_in c2))); by injection H as <-. }
  destruct (0 <? _).
  - apply bind_ret_inv in Hc2 as (s2 & Hs2 & [= <-]). exists s2. destruct (send_reply_keeps (set_sender s2 (set_sender s (set_receiver r (set_time 0 c))))) as [-> ->].
    rewrite send_reply_stream. split_and!; try done. destruct (_ && _ && _); [by right; left|]. injection Hs2 as <-. by right; right.
  - injection Hc2 as <-. exists s. destruct (flush_stream (set_sender s (set_receiver r (set_time 0 c)))) as [-> ->]. rewrite flush_linger. by split_and!; [left|..].
Qed.

(** *** What one call does to the flag *)

(** The flag, the end of the inbound stream and an error stay; and the flag is
    cleared only by a reset, or when the inbound stream has ended while the other
    one has not. *)
Record transition (c c' : TCPConnection) : Prop := {
  tr_linger : cn_linger_after_streams_finish c = false -> cn_linger_after_streams_finish c' = false;
  tr_ended : input_ended (inbound_stream c) = true -> input_ended (inbound_stream c') = true;
  tr_error : error (stream_in c) = true -> error (stream_in c') = true;
  tr_why : cn_linger_after_streams_finish c = true -> cn_linger_after_streams_finish c' = false ->
    error (stream_in c') = true ∨ (input_ended (inbound_stream c') = true ∧ eof (stream_in c') = false)
}.

(** Calls that do not touch the flag or the inbound stream. *)
Lemma transition_same c c' :
  cn_linger_after_streams_finish c' = cn_linger_after_streams_finish c ->
  input_ended (inbound_stream c') = input_ended (inbound_stream c) -> error (stream_in c') = error (stream_in c) -> transition c c'.
Proof. intros Hl Hi He. split; rewrite ?Hl, ?Hi, ?He; try done. by intros ->. Qed.

Lemma fill_transition c s :
  fill_window (cn_sender c) = Ret s -> transition c (flush_buffer (set_sender s c)).
Proof.
  intros He%fill_window_error. destruct (flush_stream (set_sender s c)) as [Hs Hi].
  apply transition_same; [by rewrite flush_linger|by rewrite Hi|by rewrite Hs].
Qed.

Lemma segment_transition c seg c' : segment_received c seg = Ret c' -> transition c c'.
Proof.
  intros Hrun. destruct (active c) eqn:Ha.
  2: { unfold segment_received in Hrun. rewrite Ha in Hrun. injection Hrun as <-. by apply transition_same. }
  destruct (rst (header seg)) eqn:Hrst.
  { unfold segment_received in Hrun. rewrite Ha, Hrst in Hrun. injection Hrun as <-. split; try done. by left. }
  pose proof (segment_received_error _ _ _ Hrst Hrun) as He.
  destruct (segment_received_inv _ _ _ Ha Hrst Hrun) as (r & s & s2 & c2 & Hr & _ & _ & Hi & _ & Hl & ->).
  assert (input_ended (inbound_stream c) = true -> input_ended (inbound_stream c2) = true) as Hend.
  { rewrite Hi. by apply (receiver_input_ended _ _ _ Hr). }
  revert He. destruct (input_ended (inbound_stream c2) && negb (eof (stream_in c2))) eqn:Hb; intros He.
  - apply andb_true_iff in Hb as [Hin Ho%negb_true_iff]. split; try done; [by rewrite He|]. by right.
  - split; rewrite ?Hl, ?He; try done. by intros ->.
Qed.

Lemma tick_transition c ms : transition c (tick c ms).
Proof.
  unfold tick. destruct (negb (active c)); [by apply transition_same|]. cbv zeta. set (c1 := set_sender (TCPSender.tick _ ms) _).
  assert (stream_in c1 = stream_in c) as Hs by (unfold c1, stream_in; cbn; apply sender_tick_stream).
  assert (inbound_stream c1 = inbound_stream c ∧ cn_linger_after_streams_finish c1 = cn_linger_after_streams_finish c) as [Hi Hl] by done. clearbody c1.
  destruct (_ <? _).
  - destruct (flush_stream (unclean_shutdown c1)) as [Hfs Hfi], (unclean_shutdown_errors c1) as [He _].
    split; rewrite ?Hfs, ?Hfi, ?flush_linger, ?unclean_linger; try done; [|by left]. rewrite <- Hi. by destruct (unclean_streams c1) as [_ ->].
  - destruct (flush_stream c1) as [Hfs Hfi]. apply transition_same; rewrite ?Hfs, ?Hfi, ?flush_linger; congruence.
Qed.

Lemma write_error bs data : bs_error (ByteStream.write bs data).1 = bs_error bs.
Proof. unfold ByteStream.write. by destruct (_ <? _). Qed.

Lemma do_call_transition c k c' : do_call c k = Ret c' -> transition c c'.
Proof.
  destruct k as [seg|data| |ms| |len]; cbn [do_call].
  - apply segment_transition.
  - intros ([c1 n] & Hw & [= <-])%bind_ret_inv. unfold write in Hw. destruct (negb (active c)); [injection Hw as <- _; by apply transition_same|].
    pose proof (write_error (stream_in c) data) as He. destruct (ByteStream.write (stream_in c) data) as [bs m]. apply bind_ret_inv in Hw as (s & Hs & [= <- _]).
    destruct (fill_transition (set_sender (set_stream bs (cn_sender c)) c) s Hs) as [? ? Herr ?]. split; try done.
    intros Hx. apply Herr. unfold error, stream_in in *. cbn in *. congruence.
  - unfold end_input_stream. destruct (negb (active c)); [intros [= <-]; by apply transition_same|].
    intros (s & Hs & [= <-])%bind_ret_inv. by destruct (fill_transition (set_sender (set_stream (end_input (stream_in c)) (cn_sender c)) c) s Hs).
  - intros [= <-]. apply tick_transition.
  - unfold connect. intros (s & He%fill_window_error & Hc)%bind_ret_inv. unfold pop_segment in Hc.
    destruct (sd_segments_out s); injection Hc as <-; by apply transition_same.
  - intros ([bs data] & Hr & [= <-])%bind_ret_inv. unfold read in Hr. apply bind_ret_inv in Hr as (bs' & Hp & [= <- _]).
    unfold pop_output in Hp. apply bind_ret_inv in Hp as (buf & _ & [= <-]). by apply transition_same.
Qed.

(** *** A stream at its end stays there, as long as nothing is written after it *)
Lemma end_input_eof bs : eof bs = true -> eof (end_input bs) = true.
Proof. rewrite !eof_spec. by intros [_ ?]. Qed.

Lemma do_call_eof c k c' : do_call c k = Ret c' -> no_write k -> eof (stream_in c) = true -> eof (stream_in c') = true.
Proof.
  intros Hc Hk He. destruct k as [seg| | |ms| |len]; cbn [do_call no_write] in *; [|done|..].
  - destruct (active c) eqn:Ha.
    2: { unfold segment_received in Hc. rewrite Ha in Hc. by injection Hc as <-. }
    destruct (rst (header seg)) eqn:Hrst; [unfold segment_received in Hc; rewrite Ha, Hrst in Hc; by injection Hc as <-|].
    destruct (segment_received_inv _ _ _ Ha Hrst Hc) as (r & s & s2 & c2 & _ & Hs & Hs2 & _ & Ho & _ & ->).
    assert (sd_stream s = stream_in c) as H1 by (destruct (ack (header seg)); [by apply (ack_received_eof _ _ _ _ Hs)|by injection Hs as <-]).
    assert (sd_stream s2 = sd_stream s) as H2 by (destruct Hs2 as [->|[Hf| ->]]; [done|apply (fill_window_eof _ _ Hf); by rewrite H1|done]).
    by destruct (_ && _); cbn; unfold stream_in in *; cbn; rewrite Ho, H2, H1.
  - unfold end_input_stream in Hc. destruct (negb (active c)); [by injection Hc as <-|]. apply bind_ret_inv in Hc as (s & Hs & [= <-]).
    destruct (flush_stream (set_sender s c)) as [-> _]. apply fill_window_eof in Hs; [|by apply end_input_eof]. unfold stream_in. cbn. rewrite Hs. by apply end_input_eof.
  - injection Hc as <-. unfold tick. destruct (negb (active c)); [done|]. cbv zeta. set (c1 := set_sender (TCPSender.tick _ ms) _).
    assert (stream_in c1 = stream_in c) as Hs by (unfold c1, stream_in; cbn; apply sender_tick_stream). rewrite <- Hs in He. clearbody c1.
    destruct (_ <? _); [|by destruct (flush_stream c1) as [-> _]]. destruct (flush_stream (unclean_shutdown c1)) as [-> _].
    by destruct (unclean_streams c1) as [-> _].
  - unfold connect in Hc. apply bind_ret_inv in Hc as (s & Hs%fill_window_eof & Hc); [|done]. unfold pop_segment in Hc. unfold stream_in in *.
    destruct (sd_segments_out s); injection Hc as <-; cbn; by rewrite Hs.
  - by apply bind_ret_inv in Hc as ([bs data] & _ & [= <-]).
Qed.

(** *** Sequences of calls *)
Lemma calls_keep c ks c' :
  calls c ks = Ret c' ->
  (cn_linger_after_streams_finish c = false -> cn_linger_after_streams_finish c' = false) ∧ (error (stream_in c) = true -> error (stream_in c') = true).
Proof.
  revert c. induction ks as [|k ks IH]; cbn [calls]; intros c; [by intros [= <-]|].
  intros (c1 & [Hl _ He _]%do_call_transition & [Hl' He']%IH)%bind_ret_inv. split; auto.
Qed.

(** The flag of a connection is set until the peer's stream has ended. *)
Lemma calls_lingering ks c c' :
  calls c ks = Ret c' ->
  (cn_linger_after_streams_finish c = false -> error (stream_in c) = true ∨ input_ended (inbound_stream c) = true) ->
  cn_linger_after_streams_finish c' = false -> error (stream_in c') = true ∨ input_ended (inbound_stream c') = true.
Proof.
  revert c. induction ks as [|k ks IH]; cbn [calls]; intros c; [by intros [= <-]|].
  intros (c1 & [Hl Hi He Hw]%do_call_transition & Hrun)%bind_ret_inv Hc. apply (IH c1 Hrun). intros H1.
  destruct (cn_linger_after_streams_finish c) eqn:Hf; [destruct (Hw eq_refl H1) as [?|[? _]]; auto|]. destruct (Hc eq_refl); auto.
Qed.

(** It stays set once the outgoing stream is at its end. *)
Lemma calls_closed_first ks c c' :
  calls c ks = Ret c' -> Forall no_write ks -> eof (stream_in c) = true -> cn_linger_after_streams_finish c = true ->
  cn_linger_after_streams_finish c' = true ∨ error (stream_in c') = true.
Proof.
  revert c. induction ks as [|k ks IH]; cbn [calls]; intros c; [by intros [= <-]; auto|].
  intros (c1 & Hk & Hrun)%bind_ret_inv [Hno Hks]%Forall_cons He Hl. pose proof (do_call_eof _ _ _ Hk Hno He) as He1.
  destruct (do_call_transition _ _ _ Hk) as [_ _ _ Hw]. destruct (cn_linger_after_streams_finish c1) eqn:Hf; [by apply (IH c1)|].
  destruct (Hw Hl eq_refl) as [Herr|[_ ?]]; [|congruence]. right. by apply (calls_keep _ _ _ Hrun).
Qed.

(** C15: the side that closes first lingers, the side that closes second does not.
    Take any calls from the construction of a connection to a point [c1], and any
    further calls to a point [c] where both streams have ended, everything is
    acknowledged and no reset occurred.

    If at [c1] the own stream was at its end while the peer's was not (this side
    closed first), and nothing is written after it, the connection is alive at [c],
    and still after a tick of [ms] milliseconds, exactly if less than ten times the
    retransmission timeout has passed since the last segment.

    If at [c1], just after a segment, the peer's stream had ended while the own one
    was not at its end (this side closes second), the connection is over at [c]. *)
Theorem lingers cfg random ks1 c1 ks2 c :
  calls (new_TCPConnection cfg random) ks1 = Ret c1 -> calls c1 ks2 = Ret c -> finished c ->
  (∀ S ms, input_ended (inbound_stream c1) = false -> eof (stream_in c1) = true -> Forall no_write ks2 ->
     snd_ok S (cn_sender c) -> 0 <= ms < 2 ^ 63 -> 0 <= cn_time_since_last_segment_received c < 2 ^ 63 ->
     active c = (cn_time_since_last_segment_received c <? 10 * rt_timeout (cn_cfg c)) ∧
     active (tick c ms) = (cn_time_since_last_segment_received c + ms <? 10 * rt_timeout (cn_cfg c))) ∧
  (∀ c0 seg, segment_received c0 seg = Ret c1 -> input_ended (inbound_stream c1) = true -> eof (stream_in c1) = false ->
     active c = false).
Proof.
  intros H1 H2 Hfin. pose proof Hfin as (_ & _ & _ & Hne). split.
  - intros S ms Hin Ho Hno Hs Hms Ht. pose proof (calls_keep _ _ _ H2) as [_ Hek].
    assert (cn_linger_after_streams_finish c = true) as Hl.
    { destruct (cn_linger_after_streams_finish c1) eqn:Hl1; [destruct (calls_closed_first _ _ _ H2 Hno Ho Hl1); congruence|].
      destruct (calls_lingering _ _ _ H1 ltac:(done) Hl1) as [?%Hek|?]; congruence. }
    pose proof (finished_active c Hfin) as Ha. rewrite Hl in Ha. cbn [andb] in Ha. split; [done|]. destruct (active c) eqn:Hac.
    + destruct (linger_tick S c ms Hs Hfin Hac Hms Ht) as (Hf' & Hl' & Hc' & Ht'). by rewrite (finished_active _ Hf'), Hl', Hl, Hc', Ht'.
    + destruct (inactive_inert c default_segment [] ms Hac) as (_ & _ & -> & _). rewrite Hac. symmetry in Ha |- *.
      apply Z.ltb_ge in Ha. apply Z.ltb_ge. lia.
  - intros c0 seg Hseg Hin Ho. rewrite (finished_active c Hfin).
    enough (cn_linger_after_streams_finish c1 = false) as Hl1 by by rewrite (proj1 (calls_keep _ _ _ H2) Hl1).
    destruct (calls_keep _ _ _ H2) as [_ Hek]. assert (error (stream_in c1) = false) as Hne1.
    { destruct (error (stream_in c1)); [|done]. by rewrite Hek in Hne. }
    destruct (active c0) eqn:Ha.
    + destruct (rst (header seg)) eqn:Hrst.
      { unfold segment_received in Hseg. rewrite Ha, Hrst in Hseg. by injection Hseg as <-. }
      destruct (segment_received_inv _ _ _ Ha Hrst Hseg) as (_ & _ & _ & c2 & _ & _ & _ & _ & _ & _ & ->).
      destruct (input_ended (inbound_stream c2) && negb (eof (stream_in c2))) eqn:Hb; [done|]. by rewrite Hin, Ho in Hb.
    + unfold segment_received in Hseg. rewrite Ha in Hseg. injection Hseg as ->.
      unfold active in Ha. rewrite Hne1, Ho, andb_false_r in Ha. cbn in Ha. by destruct (cn_linger_after_streams_finish c1).
Qed.

(** A connection that closes and is then closed by its peer, and one whose peer
    closes first. *)
Definition first_opening : list call := [Connect; Segment (peer_segment 0 true false 1); EndInput].
Definition second_opening : list call := [Connect; Segment (peer_segment 0 true false 1); Segment (peer_segment 1 false true 1)].
Definition after (c : TCPConnection) (ks : list call) : TCPConnection := match calls c ks with Ret c => c | _ => c end.
Definition first_half : TCPConnection := after (new_TCPConnection sample_config 0) first_opening.
Definition first_closed : TCPConnection := after first_half [Segment (peer_segment 1 false true 2)].
Definition second_half : TCPConnection := after (new_TCPConnection sample_config 0) second_opening.
Definition second_closed : TCPConnection := after second_half [EndInput; Segment (peer_segment 2 false false 2)].

Lemma first_run :
  calls (new_TCPConnection sample_config 0) first_opening = Ret first_half ∧
  calls first_half [Segment (peer_segment 1 false true 2)] = Ret first_closed ∧ finished first_closed ∧ snd_ok [] (cn_sender first_closed).
Proof.
  unfold finished. split_and!; try (vm_compute; reflexivity). destruct closed_first_ok as (c & Hc & Hs).
  assert (closed_first = Ret first_closed) as Heq by (vm_compute; reflexivity). rewrite Heq in Hc. clear Heq. revert Hc.
  generalize first_closed. by intros ? [= ->].
Qed.

Lemma second_run :
  calls (new_TCPConnection sample_config 0) second_opening = Ret second_half ∧
  calls second_half [EndInput; Segment (peer_segment 2 false false 2)] = Ret second_closed ∧ finished second_closed ∧
  ∃ c0, segment_received c0 (peer_segment 1 false true 1) = Ret second_half.
Proof.
  split; [vm_compute; reflexivity|]. split; [vm_compute; reflexivity|]. split; [unfold finished; split_and!; vm_compute; reflexivity|].
  exists (after (new_TCPConnection sample_config 0) [Connect; Segment (peer_segment 0 true false 1)]).
  vm_compute. reflexivity.
Qed.

Lemma lingers_witness :
  (active first_closed = true ∧ active (tick first_closed 9999) = true ∧ active (tick first_closed 10000) = false) ∧ active second_closed = false.
Proof.
  split.
  - destruct first_run as (H1 & H2 & Hf & Hs). destruct (lingers sample_config 0 _ _ _ _ H1 H2 Hf) as [Hfirst _].
    destruct (Hfirst [] 9999) as [-> ->]; [vm_compute; reflexivity|vm_compute; reflexivity|by repeat constructor|exact Hs|lia|vm_compute; split; [discriminate|reflexivity]|].
    destruct (Hfirst [] 10000) as [_ ->]; [vm_compute; reflexivity|vm_compute; reflexivity|by repeat constructor|exact Hs|lia|vm_compute; split; [discriminate|reflexivity]|].
    split_and!; vm_compute; reflexivity.
  - destruct second_run as (H1 & H2 & Hf & c0 & Hseg). destruct (lingers sample_config 0 _ _ _ _ H1 H2 Hf) as [_ Hsecond].
    apply (Hsecond c0 (peer_segment 1 false true 1) Hseg); vm_compute; reflexivity.
Defined.
