(* ===== verification/EndToEnd.v ===== *)
(** Two connections over a network that loses, repeats, delays and reorders
    segments: what each application reads is a prefix of what the other one
    wrote. *)
From S2P Require Import Prelude Buffer ByteStream StreamReassembler WrappingIntegers TCPSegment TCPReceiver TCPSender TCPState TCPConnection.

(** One side: its connection, the bytes its application has read so far and
    the segments it has handed to the network. *)
Record side := mkSide {
  sd_conn : TCPConnection;
  sd_out : list byte;
  sd_sent : list TCPSegment
}.

(** The owner takes bytes from the inbound stream. *)
Definition set_inbound (bs : ByteStream) (c : TCPConnection) : TCPConnection :=
  set_receiver (with_stream_out (cn_receiver c) bs) c.

(** What can happen to a side whose application writes [S] when the segments
    [avail] were once sent to it. *)
Inductive side_step (S : list byte) (avail : list TCPSegment) (x : side) : side -> Prop :=
| side_write data c n :
    bs_input_ended (stream_in (sd_conn x)) = false ->
    slice_of S (bs_total_written (stream_in (sd_conn x))) (ztake (ByteStream.write (stream_in (sd_conn x)) data).2 data) ->
    write (sd_conn x) data = Ret (c, n) -> side_step S avail x (mkSide c (sd_out x) (sd_sent x))
| side_end c :
    bs_total_written (stream_in (sd_conn x)) = zlen S ->
    end_input_stream (sd_conn x) = Ret c -> side_step S avail x (mkSide c (sd_out x) (sd_sent x))
| side_connect c : connect (sd_conn x) = Ret c -> side_step S avail x (mkSide c (sd_out x) (sd_sent x))
| side_tick ms : side_step S avail x (mkSide (tick (sd_conn x) ms) (sd_out x) (sd_sent x))
| side_deliver seg c :
    seg ∈ avail -> segment_received (sd_conn x) seg = Ret c -> side_step S avail x (mkSide c (sd_out x) (sd_sent x))
| side_emit seg q :
    cn_segments_out (sd_conn x) = seg :: q ->
    side_step S avail x (mkSide (set_out q (sd_conn x)) (sd_out x) (seg :: sd_sent x))
| side_read len bs s :
    0 <= len -> read (inbound_stream (sd_conn x)) len = Ret (bs, s) ->
    side_step S avail x (mkSide (set_inbound bs (sd_conn x)) (sd_out x ++ s) (sd_sent x)).

(** The two sides; any segment ever sent may arrive, any number of times. *)
Inductive world_step (SA SB : list byte) : side * side -> side * side -> Prop :=
| step_A a b a' : side_step SA (sd_sent b) a a' -> world_step SA SB (a, b) (a', b)
| step_B a b b' : side_step SB (sd_sent a) b b' -> world_step SA SB (a, b) (a, b').

(** [x] writes [S] from [isnS] and has read what is left of [T] below its
    expected index. *)
Record side_ok (S T : list byte) (isnS isnT : WrappingInt32) (x : side) : Prop := {
  sx_conn : conn_ok S T isnT (sd_conn x);
  sx_isn : sd_isn (cn_sender (sd_conn x)) = isnS;
  sx_out : sd_out x ++ contents (inbound_stream (sd_conn x)) =
    slice T 0 (sr_expected_index (rc_reassembler (cn_receiver (sd_conn x))));
  sx_sent : Forall (wire_ok S isnS) (sd_sent x)
}.

Lemma advances_out T isnT r r' out :
  rcv_ok T isnT r -> advances T r r' ->
  out ++ contents (stream_out r) = slice T 0 (sr_expected_index (rc_reassembler r)) ->
  out ++ contents (stream_out r') = slice T 0 (sr_expected_index (rc_reassembler r')).
Proof.
  intros Hr [Hle Hc] Hout. rewrite Hc, app_assoc, Hout. symmetry. apply slice_app; [|done].
  pose proof (inv_pos _ _ _ (ro_sr _ _ _ Hr)). lia.
Qed.

Section sides.
Context (S T : list byte) (isnS isnT : WrappingInt32).
Hypothesis HS : zlen S + 2 < 2 ^ 31.
Hypothesis HT : zlen T + 2 < 2 ^ 31.
Hypothesis HisnT : wint_ok isnT.

Let ok := side_ok S T isnS isnT.

(** The receiver advanced, the rest stayed: the side is still fine. *)
Lemma side_advance x c :
  ok x -> conn_ok S T isnT c -> sd_isn (cn_sender c) = sd_isn (cn_sender (sd_conn x)) ->
  advances T (cn_receiver (sd_conn x)) (cn_receiver c) -> ok (mkSide c (sd_out x) (sd_sent x)).
Proof.
  intros [Hc Hi Ho Hs] Hc' Hi' Hadv. split; cbn; [done|congruence| |done].
  eapply advances_out; [apply Hc|done|done].
Qed.

Lemma side_step_ok avail x x' :
  Forall (wire_ok T isnT) avail -> ok x -> side_step S avail x x' -> ok x'.
Proof.
  intros Hav Hx Hstep. pose proof (zlen_nonneg S) as HS0. pose proof (sx_conn _ _ _ _ _ Hx) as Hc.
  assert (zlen S < 2 ^ 62) as HS' by lia.
  destruct Hstep as [data c n Hie Hsl Hrun|c Hw Hrun|c Hrun|ms|seg c Hin Hrun|seg q Hq|len bs s Hlen Hrun].
  - destruct (conn_write_ok S T isnT HS' _ data Hc Hie Hsl) as ([c1 n1] & Hrun1 & Hc1 & Hr & Hi & _).
    rewrite Hrun in Hrun1. injection Hrun1 as <- <-. apply side_advance; try done. rewrite Hr. apply advances_refl.
  - destruct (conn_end_ok S T isnT HS' _ Hc Hw) as (c1 & Hrun1 & Hc1 & Hr & Hi & _).
    rewrite Hrun in Hrun1. injection Hrun1 as <-. apply side_advance; try done. rewrite Hr. apply advances_refl.
  - destruct (connect_ok S T isnT HS' _ Hc) as (c1 & Hrun1 & Hc1 & Hr & Hi & _).
    rewrite Hrun in Hrun1. injection Hrun1 as <-. apply side_advance; try done. rewrite Hr. apply advances_refl.
  - destruct (conn_tick_ok S T isnT _ ms Hc) as (Hc1 & (Hi & _) & Hadv). by apply side_advance.
  - rewrite Forall_forall in Hav.
    destruct (segment_received_ok S T isnT HS' HT HisnT _ seg Hc (Hav _ Hin)) as (c1 & Hrun1 & Hc1 & (Hi & _) & Hadv).
    rewrite Hrun in Hrun1. injection Hrun1 as <-. by apply side_advance.
  - destruct Hx as [_ Hi Ho Hs]. destruct Hc as [Hc1 Hc2 Hc3 Hc4]. rewrite Hq in Hc4.
    apply Forall_cons in Hc4 as [Hw Hc4]. split; cbn; [by split|done|done|].
    apply Forall_cons. split; [by rewrite <- Hi|done].
  - destruct Hx as [_ Hi Ho Hs]. destruct Hc as [Hc1 Hc2 Hc3 Hc4]. pose proof (zlen_nonneg T).
    destruct (rcv_read_ok T isnT (cn_receiver (sd_conn x)) len bs s Hc2 Hlen) as [Hr Hs']; [lia|done|].
    split; cbn; [by split|done| |done]. rewrite <- app_assoc.
    unfold inbound_stream, set_inbound, stream_out in *. cbn in *. by rewrite Hs'.
Qed.
End sides.

(** A run of both sides keeps them fine. *)
Lemma world_ok SA SB cfgA cfgB randomA randomB a b :
  let A := new_TCPConnection cfgA randomA in
  let B := new_TCPConnection cfgB randomB in
  let isnA := sd_isn (cn_sender A) in
  let isnB := sd_isn (cn_sender B) in
  zlen SA + 2 < 2 ^ 31 -> zlen SB + 2 < 2 ^ 31 -> wint_ok isnA -> wint_ok isnB ->
  is_u64 (send_capacity cfgA) -> is_u64 (send_capacity cfgB) ->
  0 <= recv_capacity cfgA < 2 ^ 62 -> 0 <= recv_capacity cfgB < 2 ^ 62 ->
  rtc (world_step SA SB) (mkSide A [] [], mkSide B [] []) (a, b) ->
  side_ok SA SB isnA isnB a ∧ side_ok SB SA isnB isnA b.
Proof.
  intros A B isnA isnB HSA HSB HiA HiB HsA HsB HrA HrB Hreach.
  remember (mkSide A [] [], mkSide B [] []) as w0 eqn:Hw0. remember (a, b) as w eqn:Hw.
  assert (side_ok SA SB isnA isnB w0.1 ∧ side_ok SB SA isnB isnA w0.2) as H0.
  { rewrite Hw0. split; (split; [by apply new_conn_ok|done|done|constructor]). }
  clear Hw0. assert (side_ok SA SB isnA isnB w.1 ∧ side_ok SB SA isnB isnA w.2) as Hend; [|by rewrite Hw in Hend].
  clear Hw. induction Hreach as [|w1 w2 w3 Hstep _ IH]; [done|]. apply IH.
  destruct H0 as [H1 H2], Hstep as [a0 b0 a' Hst|a0 b0 b' Hst]; cbn in *.
  - split; [|done]. apply (side_step_ok SA SB isnA isnB HSA HSB HiB (sd_sent b0) a0); [apply H2|done|done].
  - split; [done|]. apply (side_step_ok SB SA isnB isnA HSB HSA HiA (sd_sent a0) b0); [apply H1|done|done].
Qed.

(** C1: end-to-end reliability. Two endpoints run in any order of writes,
    reads, ticks, connects and closes, over a network that delivers the segments
    either has ever sent in any order, any number of times or never. At every
    moment what an application has read, followed by what it can read now, is a
    prefix of the stream the other application writes; and each endpoint can
    process any segment that may arrive. *)
Theorem end_to_end SA SB cfgA cfgB randomA randomB a b :
  let A := new_TCPConnection cfgA randomA in
  let B := new_TCPConnection cfgB randomB in
  let isnA := sd_isn (cn_sender A) in
  let isnB := sd_isn (cn_sender B) in
  zlen SA + 2 < 2 ^ 31 -> zlen SB + 2 < 2 ^ 31 -> wint_ok isnA -> wint_ok isnB ->
  is_u64 (send_capacity cfgA) -> is_u64 (send_capacity cfgB) ->
  0 <= recv_capacity cfgA < 2 ^ 62 -> 0 <= recv_capacity cfgB < 2 ^ 62 ->
  rtc (world_step SA SB) (mkSide A [] [], mkSide B [] []) (a, b) ->
  sd_out b ++ contents (inbound_stream (sd_conn b)) `prefix_of` SA ∧
  sd_out a ++ contents (inbound_stream (sd_conn a)) `prefix_of` SB ∧
  (∀ seg, seg ∈ sd_sent a -> ∃ c, segment_received (sd_conn b) seg = Ret c) ∧
  (∀ seg, seg ∈ sd_sent b -> ∃ c, segment_received (sd_conn a) seg = Ret c).
Proof.
  intros A B isnA isnB HSA HSB HiA HiB HsA HsB HrA HrB Hreach.
  destruct (world_ok SA SB cfgA cfgB randomA randomB a b HSA HSB HiA HiB HsA HsB HrA HrB Hreach) as [Ha Hb].
  pose proof (zlen_nonneg SA). pose proof (zlen_nonneg SB).
  pose proof (sx_sent _ _ _ _ _ Ha) as Hsa. pose proof (sx_sent _ _ _ _ _ Hb) as Hsb. rewrite Forall_forall in Hsa, Hsb.
  split_and!.
  - rewrite (sx_out _ _ _ _ _ Hb). apply slice_0_prefix.
  - rewrite (sx_out _ _ _ _ _ Ha). apply slice_0_prefix.
  - intros seg Hin. destruct (segment_received_ok SB SA isnA ltac:(lia) HSA HiA _ seg (sx_conn _ _ _ _ _ Hb) (Hsa _ Hin)) as (c & ? & _).
    eauto.
  - intros seg Hin. destruct (segment_received_ok SA SB isnB ltac:(lia) HSB HiB _ seg (sx_conn _ _ _ _ _ Ha) (Hsb _ Hin)) as (c & ? & _).
    eauto.
Qed.

(** A run: the active side connects, its SYN reaches the passive side twice,
    the answer returns, and "a" is written and read. *)
Lemma end_to_end_witness :
  ∃ a b, sd_out b = [x61] ∧
  sd_out b ++ contents (inbound_stream (sd_conn b)) `prefix_of` [x61; x62] ∧
  sd_out a ++ contents (inbound_stream (sd_conn a)) `prefix_of` [] ∧
  (∀ seg, seg ∈ sd_sent a -> ∃ c, segment_received (sd_conn b) seg = Ret c) ∧
  (∀ seg, seg ∈ sd_sent b -> ∃ c, segment_received (sd_conn a) seg = Ret c).
Proof.
  eexists _, _. split; cycle 1.
  - eapply (end_to_end [x61; x62] [] sample_config sample_config 0 0);
      try (unfold wint_ok, is_u32, is_u64; cbn; unfold DEFAULT_CAPACITY; lia).
    + vm_compute. reflexivity.
    + vm_compute. reflexivity.
    + eapply rtc_l; [apply step_A; eapply side_connect; vm_compute; reflexivity|].
      eapply rtc_l; [apply step_A; eapply side_emit; cbn; reflexivity|].
      eapply rtc_l; [apply step_B; eapply side_deliver; [cbn; apply list_elem_of_here|vm_compute; reflexivity]|].
      eapply rtc_l; [apply step_B; eapply side_deliver; [cbn; apply list_elem_of_here|vm_compute; reflexivity]|].
      eapply rtc_l; [apply step_B; eapply side_emit; cbn; reflexivity|].
      eapply rtc_l; [apply step_A; eapply side_deliver; [cbn; apply list_elem_of_here|vm_compute; reflexivity]|].
      eapply rtc_l; [apply step_A; eapply (side_write _ _ _ [x61]); [reflexivity|split_and!; vm_compute; congruence|vm_compute; reflexivity]|].
      eapply rtc_l; [apply step_A; eapply side_emit; cbn; reflexivity|].
      eapply rtc_l; [apply step_A; eapply side_emit; cbn; reflexivity|].
      eapply rtc_l; [apply step_B; eapply side_deliver; [cbn; apply list_elem_of_here|vm_compute; reflexivity]|].
      eapply rtc_l; [apply step_B; eapply (side_read _ _ _ 5); [lia|vm_compute; reflexivity]|].
      apply rtc_refl.
  - reflexivity.
Defined.

(** C25: what an endpoint sends fits. In any run of two endpoints every segment
    handed to the network has each header field within its width and a data offset
    of 5 to 15 words, so that it can be serialized without loss, and a payload of
    at most [MAX_PAYLOAD_SIZE] bytes, so that it fits one datagram. *)
Theorem segments_fit SA SB cfgA cfgB randomA randomB a b seg :
  let A := new_TCPConnection cfgA randomA in
  let B := new_TCPConnection cfgB randomB in
  zlen SA + 2 < 2 ^ 31 -> zlen SB + 2 < 2 ^ 31 -> wint_ok (sd_isn (cn_sender A)) -> wint_ok (sd_isn (cn_sender B)) ->
  is_u64 (send_capacity cfgA) -> is_u64 (send_capacity cfgB) ->
  0 <= recv_capacity cfgA < 2 ^ 62 -> 0 <= recv_capacity cfgB < 2 ^ 62 ->
  rtc (world_step SA SB) (mkSide A [] [], mkSide B [] []) (a, b) -> seg ∈ sd_sent a ++ sd_sent b ->
  header_ok (header seg) ∧ size (payload seg) <= MAX_PAYLOAD_SIZE.
Proof.
  intros A B HSA HSB HiA HiB HsA HsB HrA HrB Hreach Hin.
  destruct (world_ok SA SB cfgA cfgB randomA randomB a b HSA HSB HiA HiB HsA HsB HrA HrB Hreach) as [Ha Hb].
  pose proof (sx_sent _ _ _ _ _ Ha) as Hsa. pose proof (sx_sent _ _ _ _ _ Hb) as Hsb. rewrite Forall_forall in Hsa, Hsb.
  apply elem_of_app in Hin as [Hin|Hin]; [by destruct (Hsa _ Hin)|by destruct (Hsb _ Hin)].
Qed.

Lemma segments_fit_witness : ∃ seg, syn (header seg) = true ∧ header_ok (header seg) ∧ size (payload seg) <= MAX_PAYLOAD_SIZE.
Proof.
  eexists _. split; cycle 1.
  - eapply (segments_fit [x61; x62] [] sample_config sample_config 0 0);
      try (unfold wint_ok, is_u32, is_u64; cbn; unfold DEFAULT_CAPACITY; lia).
    + vm_compute. reflexivity.
    + vm_compute. reflexivity.
    + eapply rtc_l; [apply step_A; eapply side_connect; vm_compute; reflexivity|].
      eapply rtc_l; [apply step_A; eapply side_emit; cbn; reflexivity|]. apply rtc_refl.
    + cbn. apply list_elem_of_here.
  - reflexivity.
Defined.
