(* ===== verification/IPv4.v ===== *)
(** [tcp_helpers/ipv4_header.hh], [ipv4_header.cc], [ipv4_datagram.hh],
    [ipv4_datagram.cc]: Internet datagrams on the wire. *)
From S2P Require Import Prelude Buffer Parser Checksum.

(** ** IPv4Header *)

Definition IP_LENGTH : Z := 20.
Definition DEFAULT_TTL : Z := 128.
Definition PROTO_TCP : Z := 6.

Record IPv4Header := mkIPv4Header {
  ip_ver : Z;
  ip_hlen : Z;
  ip_tos : Z;
  ip_len : Z;
  ip_id : Z;
  ip_df : bool;
  ip_mf : bool;
  ip_offset : Z;
  ip_ttl : Z;
  ip_proto : Z;
  ip_cksum : Z;
  ip_src : Z;
  ip_dst : Z
}.

Definition default_ip_header : IPv4Header :=
  mkIPv4Header 4 (IP_LENGTH / 4) 0 0 0 true false 0 DEFAULT_TTL PROTO_TCP 0 0 0.

(** Assignments to one field. *)
Definition set_ip_cksum (x : Z) (h : IPv4Header) : IPv4Header :=
  mkIPv4Header (ip_ver h) (ip_hlen h) (ip_tos h) (ip_len h) (ip_id h) (ip_df h) (ip_mf h) (ip_offset h)
    (ip_ttl h) (ip_proto h) x (ip_src h) (ip_dst h).
Definition set_ip_ttl (x : Z) (h : IPv4Header) : IPv4Header :=
  mkIPv4Header (ip_ver h) (ip_hlen h) (ip_tos h) (ip_len h) (ip_id h) (ip_df h) (ip_mf h) (ip_offset h)
    x (ip_proto h) (ip_cksum h) (ip_src h) (ip_dst h).
Definition set_ip_addresses (s d : Z) (h : IPv4Header) : IPv4Header :=
  mkIPv4Header (ip_ver h) (ip_hlen h) (ip_tos h) (ip_len h) (ip_id h) (ip_df h) (ip_mf h) (ip_offset h)
    (ip_ttl h) (ip_proto h) (ip_cksum h) s d.
Definition set_ip_len (x : Z) (h : IPv4Header) : IPv4Header :=
  mkIPv4Header (ip_ver h) (ip_hlen h) (ip_tos h) x (ip_id h) (ip_df h) (ip_mf h) (ip_offset h)
    (ip_ttl h) (ip_proto h) (ip_cksum h) (ip_src h) (ip_dst h).

(** [h0] is the header before the call: it is left alone when the packet is
    shorter than a header. *)
Definition ip_header_parse (h0 : IPv4Header) : parserM (IPv4Header * ParseResult) := λ p0,
  let original_serialized_version := np_buffer p0 in
  let data_size := size (np_buffer p0) in
  if data_size <? IP_LENGTH then Ret ((h0, PacketTooShort), p0)
  else
    (first_byte ← get_u8;
     tos ← get_u8;
     len ← get_u16;
     id ← get_u16;
     fo_val ← get_u16;
     ttl ← get_u8;
     proto ← get_u8;
     cksum ← get_u16;
     src ← get_u32;
     dst ← get_u32;
     let hlen := Z.land first_byte 0x0f in
     let h := mkIPv4Header (Z.shiftr first_byte 4) hlen tos len id (flag fo_val 0x4000) (flag fo_val 0x2000)
       (Z.land fo_val 0x1fff) ttl proto cksum src dst in
     if data_size <? 4 * hlen then mret (h, PacketTooShort)
     else if negb (ip_ver h =? 4) then mret (h, WrongIPVersion)
     else if hlen <? 5 then mret (h, HeaderTooShort)
     else if negb (data_size =? len) then mret (h, TruncatedPacket)
     else
       _ ← parser_remove_prefix (hlen * 4 - IP_LENGTH);
       ((λ p, if error p then Ret ((h, get_error p), p)
         else
           v ← value (add (new_InternetChecksum 0) (ztake (4 * hlen) (str original_serialized_version)));
           if negb (v =? 0) then Ret ((h, BadChecksum), p) else Ret ((h, NoError), p))
          : parserM (IPv4Header * ParseResult))) p0.

Definition ip_first_byte (h : IPv4Header) : Z := u8 (Z.lor (Z.shiftl (ip_ver h) 4) (Z.land (ip_hlen h) 0xf)).
Definition ip_fo_val (h : IPv4Header) : Z :=
  Z.lor (Z.lor (if ip_df h then 0x4000 else 0) (if ip_mf h then 0x2000 else 0)) (Z.land (ip_offset h) 0x1fff).

Definition ip_header_serialize (h : IPv4Header) : outcome (list byte) :=
  if negb (ip_ver h =? 4) then Throw (runtime_error "wrong IP version")
  else if 4 * ip_hlen h <? IP_LENGTH then Throw (runtime_error "IP header too short")
  else
    let ret := [] in
    let ret := put_u8 ret (ip_first_byte h) in
    let ret := put_u8 ret (ip_tos h) in
    let ret := put_u16 ret (ip_len h) in
    let ret := put_u16 ret (ip_id h) in
    let ret := put_u16 ret (ip_fo_val h) in
    let ret := put_u8 ret (ip_ttl h) in
    let ret := put_u8 ret (ip_proto h) in
    let ret := put_u16 ret (ip_cksum h) in
    let ret := put_u32 ret (ip_src h) in
    let ret := put_u32 ret (ip_dst h) in
    Ret (resize ret (4 * ip_hlen h)).

Definition payload_length (h : IPv4Header) : Z := u16 (ip_len h - 4 * ip_hlen h).

Definition pseudo_cksum (h : IPv4Header) : Z :=
  let pcksum := u32 (Z.shiftr (ip_src h) 16 + Z.land (ip_src h) 0xffff) in
  let pcksum := u32 (pcksum + u32 (Z.shiftr (ip_dst h) 16 + Z.land (ip_dst h) 0xffff)) in
  let pcksum := u32 (pcksum + ip_proto h) in
  u32 (pcksum + payload_length h).

(** ** IPv4Datagram *)

Record IPv4Datagram := mkIPv4Datagram {
  dg_header : IPv4Header;
  dg_payload : BufferList
}.

Definition default_datagram : IPv4Datagram := mkIPv4Datagram default_ip_header [].

(** The result of [_header.parse(p)] is discarded by the source. *)
Definition datagram_parse (d0 : IPv4Datagram) (buffer : Buffer) : outcome (IPv4Datagram * ParseResult) :=
  '((h, _), p) ← ip_header_parse (dg_header d0) (new_NetParser buffer);
  let payload := [np_buffer p] in
  let d := mkIPv4Datagram h payload in
  if negb (list_size payload =? payload_length h) then Ret (d, PacketTooShort)
  else Ret (d, get_error p).

Definition datagram_serialize (d : IPv4Datagram) : outcome BufferList :=
  if negb (list_size (dg_payload d) =? payload_length (dg_header d)) then
    Throw (runtime_error "IPv4Datagram::serialize: payload is wrong size")
  else
    let header_out := set_ip_cksum 0 (dg_header d) in
    header_zero_checksum ← ip_header_serialize header_out;
    c ← value (add (new_InternetChecksum 0) header_zero_checksum);
    s ← ip_header_serialize (set_ip_cksum c header_out);
    Ret (append [Buffer_of_string s] (dg_payload d)).

#[global] Arguments ip_header_parse : simpl never.
#[global] Arguments ip_header_serialize : simpl never.
#[global] Arguments datagram_parse : simpl never.
#[global] Arguments datagram_serialize : simpl never.

(** ** Wire format *)

Record ip_header_ok (h : IPv4Header) : Prop := {
  ipk_ver : ip_ver h = 4;
  ipk_hlen : 5 <= ip_hlen h <= 15;
  ipk_tos : is_u8 (ip_tos h);
  ipk_len : is_u16 (ip_len h);
  ipk_id : is_u16 (ip_id h);
  ipk_offset : 0 <= ip_offset h < 2 ^ 13;
  ipk_ttl : is_u8 (ip_ttl h);
  ipk_proto : is_u8 (ip_proto h);
  ipk_cksum : is_u16 (ip_cksum h);
  ipk_src : is_u32 (ip_src h);
  ipk_dst : is_u32 (ip_dst h)
}.

(** The bytes before the checksum field, and those after it. *)
Definition ip_front (h : IPv4Header) : list byte :=
  be_bytes 1 (64 + ip_hlen h) ++ be_bytes 1 (ip_tos h) ++ be_bytes 2 (ip_len h) ++ be_bytes 2 (ip_id h) ++
  be_bytes 2 (ip_fo_val h) ++ be_bytes 1 (ip_ttl h) ++ be_bytes 1 (ip_proto h).
Definition ip_back (h : IPv4Header) : list byte :=
  be_bytes 4 (ip_src h) ++ be_bytes 4 (ip_dst h) ++ replicate (Z.to_nat (4 * ip_hlen h - 20)) x00.
Definition ip_header_bytes (h : IPv4Header) : list byte :=
  ip_front h ++ be_bytes 2 (ip_cksum h) ++ ip_back h.
#[global] Arguments ip_header_bytes : simpl never.

Lemma first_byte_spec h : ip_ver h = 4 -> 0 <= ip_hlen h <= 15 ->
  ip_first_byte h = 64 + ip_hlen h ∧ Z.shiftr (64 + ip_hlen h) 4 = 4 ∧ Z.land (64 + ip_hlen h) 0x0f = ip_hlen h.
Proof.
  intros Hv Hl. unfold ip_first_byte. rewrite Hv. destruct h as [? hl]. simpl in *. clear Hv.
  assert (hl ∈ seqZ 0 16) as Hin by (apply elem_of_seqZ; lia). revert Hin. generalize hl. clear.
  apply Forall_forall. repeat constructor.
Qed.

Lemma land_mask_small o m : 0 <= o < 2 ^ 13 -> Z.land 0x1fff m = 0 -> Z.land o m = 0.
Proof.
  intros Ho Hm. assert (o = Z.land o 0x1fff) as ->.
  { change 0x1fff with (Z.ones 13). rewrite Z.land_ones, Z.mod_small by lia. done. }
  by rewrite <- Z.land_assoc, Hm, Z.land_0_r.
Qed.

Lemma fo_val_spec h : 0 <= ip_offset h < 2 ^ 13 ->
  is_u16 (ip_fo_val h) ∧ flag (ip_fo_val h) 0x4000 = ip_df h ∧ flag (ip_fo_val h) 0x2000 = ip_mf h ∧
  Z.land (ip_fo_val h) 0x1fff = ip_offset h.
Proof.
  intros Ho. unfold ip_fo_val, flag.
  assert (Z.land (ip_offset h) 0x1fff = ip_offset h) as Hm
    by (change 0x1fff with (Z.ones 13); rewrite Z.land_ones, Z.mod_small by lia; done).
  rewrite Hm, !Z.land_lor_distr_l, Hm, !(land_mask_small (ip_offset h)) by done. split_and!.
  - assert (∀ x, Z.land x (Z.ones 16) = x -> is_u16 x) as Hr.
    { intros x <-. rewrite Z.land_ones by lia. apply u16_range. }
    apply Hr. rewrite !Z.land_lor_distr_l, (Z.land_ones (ip_offset h)), (Z.mod_small (ip_offset h)) by lia.
    by destruct (ip_df h), (ip_mf h).
  - by destruct (ip_df h), (ip_mf h).
  - by destruct (ip_df h), (ip_mf h).
  - by destruct (ip_df h), (ip_mf h).
Qed.

Lemma zlen_ip_front h : zlen (ip_front h) = 10.
Proof. unfold ip_front. by rewrite !zlen_app, !zlen_be_bytes. Qed.

Lemma zlen_ip_header_bytes h : 5 <= ip_hlen h -> zlen (ip_header_bytes h) = 4 * ip_hlen h.
Proof.
  intros. unfold ip_header_bytes, ip_back.
  rewrite !zlen_app, zlen_ip_front, !zlen_be_bytes, zlen_replicate. lia.
Qed.

Lemma ip_header_serialize_spec h : ip_header_ok h -> ip_header_serialize h = Ret (ip_header_bytes h).
Proof.
  intros [H1 H2 H3 H4 H5 H6 H7 H8 H9 H10 H11]. unfold ip_header_serialize. rewrite H1.
  change (negb (4 =? 4)) with false. cbv iota. unfold IP_LENGTH.
  destruct (Z.ltb_spec (4 * ip_hlen h) 20); [lia|]. cbv zeta.
  destruct (first_byte_spec h H1 ltac:(lia)) as (-> & _ & _). destruct (fo_val_spec h H6) as [Hfo _].
  rewrite !put_u8_spec, !put_u16_spec, !put_u32_spec.
  rewrite (u8_id (64 + ip_hlen h)) by (unfold is_u8; lia). rewrite !u8_id, !u16_id, !u32_id by done.
  unfold resize. rewrite !app_nil_l.
  set (l := be_bytes 1 (64 + ip_hlen h)). rewrite !zlen_app. subst l. rewrite !zlen_be_bytes.
  rewrite ztake_ge by (rewrite !zlen_app, !zlen_be_bytes; lia).
  unfold ip_header_bytes, ip_front, ip_back. rewrite <- !app_assoc. do 11 f_equal.
Qed.

(** Everything the parser checks. *)
Definition ip_checks (h : IPv4Header) (bytes : list byte) : Prop :=
  ip_len h = zlen bytes ∧ ones_fold (word_sum false (ztake (4 * ip_hlen h) bytes)) = 65535.

Lemma ip_header_parse_bytes h h0 p rest :
  ip_header_ok h -> at_bytes p (ip_header_bytes h ++ rest) -> ip_checks h (ip_header_bytes h ++ rest) ->
  returns (ip_header_parse h0 p) (λ '(r, p'), r = (h, NoError) ∧ at_bytes p' rest).
Proof.
  intros Hh Hp [Hlen Hck]. pose proof Hh as [H1 H2 H3 H4 H5 H6 H7 H8 H9 H10 H11].
  pose proof (zlen_ip_header_bytes h ltac:(lia)) as Hbl. pose proof (zlen_nonneg rest).
  unfold ip_header_parse, size. pose proof Hp as (_ & _ & Hs). rewrite Hs, zlen_app, Hbl. unfold IP_LENGTH.
  rewrite ztake_app_le, ztake_ge in Hck by lia.
  destruct (Z.ltb_spec (4 * ip_hlen h + zlen rest) 20); [lia|].
  assert (value (add (new_InternetChecksum 0) (ip_header_bytes h)) = Ret 0) as Hv.
  { pose proof (word_sum_range false (ip_header_bytes h)).
    rewrite value_add by (unfold is_u32; lia). by rewrite Z.add_0_l, Hck. }
  rewrite zlen_app, Hbl in Hlen. clear Hs.
  destruct (first_byte_spec h H1 ltac:(lia)) as (_ & Hsh & Hla). destruct (fo_val_spec h H6) as (Hfo & Hdf & Hmf & Hof).
  unfold get_u16, get_u32, get_u8. unfold ip_header_bytes, ip_front, ip_back in Hp.
  do 10 parse_field Hp. rewrite Hsh, Hla, Hdf, Hmf, Hof. cbv zeta. cbn [ip_ver].
  destruct (Z.ltb_spec (4 * ip_hlen h + zlen rest) (4 * ip_hlen h)); [lia|].
  change (negb (4 =? 4)) with false. cbv iota.
  destruct (Z.ltb_spec (ip_hlen h) 5); [lia|]. rewrite Hlen, Z.eqb_refl. cbn [negb].
  eapply parser_bind_returns; [eapply parser_remove_prefix_at; [exact Hp|]|].
  { rewrite zlen_app, zlen_replicate. lia. }
  intros u q Hq. cbv beta in Hq.
  rewrite zdrop_app_ge, zlen_replicate in Hq by (rewrite zlen_replicate; lia).
  rewrite zdrop_le_0 in Hq by lia.
  pose proof Hq as (_ & He & _). unfold error. rewrite He. 
  rewrite bool_decide_eq_true_2 by done. cbn [negb].
  rewrite ztake_app_le, ztake_ge, Hv by lia. apply returns_ret.
  split; [|done]. rewrite <- Hlen, <- H1. by destruct h.
Qed.

(** The sum over a header is the sum without the checksum plus the checksum. *)
Lemma word_sum_ip_header h c :
  5 <= ip_hlen h -> is_u16 c ->
  word_sum false (ip_header_bytes (set_ip_cksum c h)) = word_sum false (ip_header_bytes (set_ip_cksum 0 h)) + c.
Proof.
  intros Hd Hc. unfold ip_header_bytes.
  change (ip_front (set_ip_cksum c h)) with (ip_front h). change (ip_front (set_ip_cksum 0 h)) with (ip_front h).
  change (ip_back (set_ip_cksum c h)) with (ip_back h). change (ip_back (set_ip_cksum 0 h)) with (ip_back h).
  rewrite !word_sum_app, zlen_ip_front, !zlen_be_bytes. change (Z.odd 10) with false.
  change (Z.odd (Z.of_nat 2)) with false. cbn [xorb ip_cksum set_ip_cksum].
  rewrite !word_sum_u16 by (done || unfold is_u16; lia). lia.
Qed.

Lemma ip_header_ok_cksum h c : ip_header_ok h -> is_u16 c -> ip_header_ok (set_ip_cksum c h).
Proof. intros [] ?. by split. Qed.

(** A datagram whose header describes it. *)
Definition datagram_ok (d : IPv4Datagram) : Prop :=
  ip_header_ok (dg_header d) ∧ ip_len (dg_header d) = 4 * ip_hlen (dg_header d) + zlen (concatenate (dg_payload d)).

Definition ip_checksum (h : IPv4Header) : Z := 65535 - ones_fold (word_sum false (ip_header_bytes (set_ip_cksum 0 h))).

Lemma ip_checksum_u16 h : is_u16 (ip_checksum h).
Proof.
  unfold ip_checksum, is_u16. pose proof (word_sum_range false (ip_header_bytes (set_ip_cksum 0 h))).
  pose proof (ones_fold_range (word_sum false (ip_header_bytes (set_ip_cksum 0 h))) ltac:(lia)). lia.
Qed.

Lemma payload_length_ok d :
  datagram_ok d -> payload_length (dg_header d) = zlen (concatenate (dg_payload d)).
Proof.
  intros [Hh Hl]. unfold payload_length. rewrite Hl. pose proof (ipk_len _ Hh) as Hu. pose proof (ipk_hlen _ Hh).
  pose proof (zlen_nonneg (concatenate (dg_payload d))). unfold is_u16 in Hu. rewrite u16_id; unfold is_u16; lia.
Qed.

(** What a datagram is on the wire. *)
Definition dg_wire (d : IPv4Datagram) : BufferList :=
  Buffer_of_string (ip_header_bytes (set_ip_cksum (ip_checksum (dg_header d)) (dg_header d))) :: dg_payload d.

Lemma datagram_serialize_spec d : datagram_ok d -> datagram_serialize d = Ret (dg_wire d).
Proof.
  intros Hd. pose proof Hd as [Hh Hl]. unfold datagram_serialize.
  rewrite list_size_concatenate, payload_length_ok, Z.eqb_refl by done. cbn [negb].
  rewrite ip_header_serialize_spec by (apply ip_header_ok_cksum; [done|unfold is_u16; lia]).
  pose proof (ip_checksum_u16 (dg_header d)) as Hc. unfold mbind, outcome_bind. cbv zeta.
  pose proof (word_sum_range false (ip_header_bytes (set_ip_cksum 0 (dg_header d)))) as Hr.
  rewrite zlen_ip_header_bytes in Hr by (cbn; pose proof (ipk_hlen _ Hh); lia). cbn [ip_hlen set_ip_cksum] in Hr.
  pose proof (ipk_hlen _ Hh).
  rewrite value_add, Z.add_0_l by (unfold is_u32; lia). fold (ip_checksum (dg_header d)).
  rewrite ip_header_serialize_spec by (apply (ip_header_ok_cksum (set_ip_cksum 0 _)); [|done]; by apply ip_header_ok_cksum).
  done.
Qed.

Lemma ip_checks_serialized h rest :
  ip_header_ok h -> ip_len h = 4 * ip_hlen h + zlen rest ->
  ip_checks (set_ip_cksum (ip_checksum h) h) (ip_header_bytes (set_ip_cksum (ip_checksum h) h) ++ rest).
Proof.
  intros Hh Hl. pose proof (ipk_hlen _ Hh). pose proof (ip_checksum_u16 h) as Hc.
  pose proof (zlen_ip_header_bytes (set_ip_cksum (ip_checksum h) h) ltac:(cbn; lia)) as Hbl. cbn [ip_hlen set_ip_cksum] in Hbl.
  split; cbn [ip_len ip_hlen set_ip_cksum].
  - rewrite zlen_app, Hbl. done.
  - rewrite ztake_app_le, ztake_ge, word_sum_ip_header by (done || lia). unfold ip_checksum.
    apply ones_fold_complement. pose proof (word_sum_range false (ip_header_bytes (set_ip_cksum 0 h))). lia.
Qed.

Lemma datagram_parse_checksummed d0 d :
  datagram_ok d ->
  ∃ d', datagram_parse d0 (Buffer_of_string (concatenate (dg_wire d))) = Ret (d', NoError) ∧
    dg_header d' = set_ip_cksum (ip_checksum (dg_header d)) (dg_header d) ∧
    concatenate (dg_payload d') = concatenate (dg_payload d) ∧
    (∃ b, dg_payload d' = [b] ∧ at_bytes (new_NetParser b) (concatenate (dg_payload d))) ∧
    ∃ p, ip_header_parse (dg_header d0) (new_NetParser (Buffer_of_string (concatenate (dg_wire d)))) = Ret ((dg_header d', NoError), p).
Proof.
  intros Hd. pose proof Hd as [Hh Hl]. set (c := ip_checksum (dg_header d)).
  pose proof (ip_checksum_u16 (dg_header d)) as Hc. fold c in Hc.
  assert (ip_header_ok (set_ip_cksum c (dg_header d))) as Hh' by by apply ip_header_ok_cksum.
  pose proof (ipk_hlen _ Hh). pose proof (ipk_len _ Hh) as Hu. unfold is_u16 in Hu.
  destruct (ip_header_parse_bytes (set_ip_cksum c (dg_header d)) (dg_header d0)
    (new_NetParser (Buffer_of_string (ip_header_bytes (set_ip_cksum c (dg_header d)) ++ concatenate (dg_payload d))))
    (concatenate (dg_payload d)) Hh') as ([r p] & Hp & -> & Hok & He & Hs).
  { apply new_parser_at. rewrite zlen_app, zlen_ip_header_bytes by (cbn; lia). cbn [ip_hlen set_ip_cksum]. lia. }
  { by apply ip_checks_serialized. }
  eexists (mkIPv4Datagram (set_ip_cksum c (dg_header d)) [np_buffer p]).
  unfold dg_wire. cbn [concatenate]. rewrite str_of_string. fold c.
  split_and!; [|done|cbn; by rewrite app_nil_r|by exists (np_buffer p)|by exists p].
  unfold datagram_parse. rewrite Hp. unfold mbind, outcome_bind.
  rewrite list_size_concatenate. cbn [concatenate]. rewrite app_nil_r, Hs.
  change (payload_length (set_ip_cksum c (dg_header d))) with (payload_length (dg_header d)).
  rewrite payload_length_ok, Z.eqb_refl by done. cbn [negb]. unfold get_error. by rewrite He.
Qed.

Lemma datagram_parse_wire d0 d :
  datagram_ok d ->
  ∃ d' c, datagram_parse d0 (Buffer_of_string (concatenate (dg_wire d))) = Ret (d', NoError) ∧
    dg_header d' = set_ip_cksum c (dg_header d) ∧ concatenate (dg_payload d') = concatenate (dg_payload d) ∧
    (∃ b, dg_payload d' = [b] ∧ at_bytes (new_NetParser b) (concatenate (dg_payload d))) ∧
    ∃ p, ip_header_parse (dg_header d0) (new_NetParser (Buffer_of_string (concatenate (dg_wire d)))) = Ret ((dg_header d', NoError), p).
Proof. intros Hd. destruct (datagram_parse_checksummed d0 d Hd) as (d' & H). by exists d', (ip_checksum (dg_header d)). Qed.

(** C37: an Internet datagram survives the wire: what [serialize] produces is
    accepted by the header parser with its checksum verified, and the datagram
    parser gives back the header, with its checksum filled in, and the payload. *)
Theorem ipv4_datagram_roundtrip d0 d :
  datagram_ok d ->
  ∃ bl d' c, datagram_serialize d = Ret bl ∧
    datagram_parse d0 (Buffer_of_string (concatenate bl)) = Ret (d', NoError) ∧
    dg_header d' = set_ip_cksum c (dg_header d) ∧ concatenate (dg_payload d') = concatenate (dg_payload d) ∧
    ∃ p, ip_header_parse (dg_header d0) (new_NetParser (Buffer_of_string (concatenate bl))) = Ret ((dg_header d', NoError), p).
Proof.
  intros Hd. destruct (datagram_parse_wire d0 d Hd) as (d' & c & ? & ? & ? & _ & ?).
  exists (dg_wire d), d', c. by rewrite datagram_serialize_spec.
Qed.

Definition sample_datagram : IPv4Datagram :=
  mkIPv4Datagram (mkIPv4Header 4 6 0 27 513 true false 77 64 PROTO_TCP 0 3232235777 167772161)
    [Buffer_of_string [x61; x62]; Buffer_of_string [x63]].

Lemma sample_datagram_ok : datagram_ok sample_datagram.
Proof. split; [split; unfold is_u8, is_u16, is_u32; cbn; unfold PROTO_TCP; lia|reflexivity]. Qed.

Lemma ipv4_datagram_roundtrip_witness :
  ∃ bl d' c, datagram_serialize sample_datagram = Ret bl ∧
    datagram_parse default_datagram (Buffer_of_string (concatenate bl)) = Ret (d', NoError) ∧
    dg_header d' = set_ip_cksum c (dg_header sample_datagram) ∧
    concatenate (dg_payload d') = concatenate (dg_payload sample_datagram) ∧
    ∃ p, ip_header_parse (dg_header default_datagram) (new_NetParser (Buffer_of_string (concatenate bl))) =
      Ret ((dg_header d', NoError), p).
Proof. apply (ipv4_datagram_roundtrip default_datagram sample_datagram sample_datagram_ok). Defined.

(** ** What the parsers check *)

Lemma drop_zdrop {A} n (l : list A) : drop n l = zdrop (Z.of_nat n) l.
Proof. unfold zdrop. by rewrite Nat2Z.id. Qed.

(** Parsing any bytes. *)
Lemma ip_header_parse_any h0 s :
  zlen s < 2 ^ 63 -> is_u32 (ip_src h0) -> is_u32 (ip_dst h0) ->
  returns (ip_header_parse h0 (new_NetParser (Buffer_of_string s))) (λ '((h, res), p),
    (parser_ok p ∧ is_u32 (ip_src h) ∧ is_u32 (ip_dst h)) ∧
    (res = NoError ->
       (ip_header_ok h ∧ np_error p = NoError) ∧ 4 * ip_hlen h <= zlen s ∧ ip_len h = zlen s ∧
       value (add (new_InternetChecksum 0) (ztake (4 * ip_hlen h) s)) = Ret 0 ∧
       str (np_buffer p) = zdrop (4 * ip_hlen h) s)).
Proof.
  intros Hs Hsrc0 Hdst0. pose proof (new_parser_at s ltac:(lia)) as Hp.
  unfold ip_header_parse, size. cbn [np_buffer new_NetParser]. rewrite str_of_string. unfold IP_LENGTH.
  destruct (Z.ltb_spec (zlen s) 20); [apply returns_ret; split; [by split; [apply Hp|]|done]|].
  unfold get_u8, get_u16, get_u32.
  do 10 (eapply parser_bind_returns;
    [eapply parse_int_any; [exact Hp|rewrite ?drop_drop, ?drop_zdrop, ?zlen_zdrop; cbn; lia]|];
    clear Hp; let v := fresh "v" in let p' := fresh "p" in let Hv := fresh "Hv" in
    cbv beta; intros v p' [Hp Hv]; rewrite ?drop_drop in Hp).
  cbv zeta. cbn [ip_ver]. cbn [Nat.add] in Hp. set (hl := Z.land v 15) in *.
  assert (0 <= hl < 16) as Hhl by (unfold hl; change 15 with (Z.ones 4); rewrite Z.land_ones by lia; apply Z.mod_pos_bound; lia).
  assert (0 <= Z.land v3 8191 < 2 ^ 13) as Hoff
    by (change 8191 with (Z.ones 13); rewrite Z.land_ones by lia; apply Z.mod_pos_bound; lia).
  clearbody hl.
  destruct (Z.ltb_spec (zlen s) (4 * hl)); [by apply returns_ret; split; [split; [apply Hp|split]|]|].
  destruct (Z.eqb_spec (Z.shiftr v 4) 4) as [Hver|]; [|by apply returns_ret; split; [split; [apply Hp|split]|]]. cbn [negb].
  destruct (Z.ltb_spec hl 5); [by apply returns_ret; split; [split; [apply Hp|split]|]|].
  destruct (Z.eqb_spec (zlen s) v1) as [Hlen|]; [|by apply returns_ret; split; [split; [apply Hp|split]|]]. cbn [negb].
  eapply parser_bind_returns; [eapply parser_remove_prefix_at; [exact Hp|rewrite drop_zdrop, zlen_zdrop; lia]|].
  intros u q Hq. cbv beta in Hq. rewrite drop_zdrop, zdrop_zdrop in Hq by lia.
  replace (Z.of_nat 20 + (hl * 4 - 20)) with (4 * hl) in Hq by lia.
  pose proof Hq as (Hqok & He & Hst). unfold error. rewrite He, bool_decide_eq_true_2 by done. cbn [negb].
  destruct (value_returns 0 (ztake (4 * hl) s)) as [c Hv9]; [unfold is_u32; lia|]. rewrite Hv9. cbn.
  destruct (Z.eqb_spec c 0) as [->|]; cbn; apply returns_ret; (split; [by split_and!|]); [|done]. intros _.
  split_and!; [split; cbn; try done; lia|done..].
Qed.

(** C39: the header parser terminates normally on any bytes, and what it
    accepts is a header of version 4, at least 20 bytes long, whose length field
    is the size of the packet and whose checksum is right; the parser is then
    left at the payload. *)
Theorem ip_header_parse_sound s :
  zlen s < 2 ^ 63 ->
  ∃ h res p, ip_header_parse default_ip_header (new_NetParser (Buffer_of_string s)) = Ret ((h, res), p) ∧
    (res = NoError ->
       ip_header_ok h ∧ 4 * ip_hlen h <= zlen s ∧ ip_len h = zlen s ∧
       value (add (new_InternetChecksum 0) (ztake (4 * ip_hlen h) s)) = Ret 0 ∧
       str (np_buffer p) = zdrop (4 * ip_hlen h) s).
Proof.
  intros Hs. destruct (ip_header_parse_any default_ip_header s Hs) as ([[h res] p] & Hp & _ & Hr); [done..|].
  exists h, res, p. split; [done|]. intros ((? & _) & ?)%Hr. by split.
Qed.

Lemma datagram_parse_any s :
  zlen s < 2 ^ 63 ->
  returns (datagram_parse default_datagram (Buffer_of_string s)) (λ '(d, res),
    is_u32 (ip_src (dg_header d)) ∧ is_u32 (ip_dst (dg_header d)) ∧ ∃ b, dg_payload d = [b] ∧ buffer_ok b).
Proof.
  intros Hs. destruct (ip_header_parse_any (dg_header default_datagram) s Hs) as ([[h res] p] & Hp & (Hok & Hsrc & Hdst) & _); [done..|].
  unfold datagram_parse. rewrite Hp. unfold mbind, outcome_bind. destruct (negb _); apply returns_ret; eauto.
Qed.

(** A packet without payload. *)
Definition minimal_packet : list byte :=
  [x45; x00; x00; x14; x00; x00; x40; x00; x80; x06; xfa; xe4] ++ replicate 8 x00.

Lemma ip_header_parse_sound_witness :
  ∃ h res p, ip_header_parse default_ip_header (new_NetParser (Buffer_of_string minimal_packet)) = Ret ((h, res), p) ∧
    (res = NoError ->
       ip_header_ok h ∧ 4 * ip_hlen h <= zlen minimal_packet ∧ ip_len h = zlen minimal_packet ∧
       value (add (new_InternetChecksum 0) (ztake (4 * ip_hlen h) minimal_packet)) = Ret 0 ∧
       str (np_buffer p) = zdrop (4 * ip_hlen h) minimal_packet).
Proof. apply (ip_header_parse_sound minimal_packet). vm_compute. reflexivity. Defined.

(** [IPv4Datagram::parse] discards the result of [IPv4Header::parse]: a
    datagram whose header checksum is wrong, and one of version 6, are refused by
    the header parser and accepted by the datagram parser. *)
Theorem datagram_parse_ignores_header_error :
  let bad_checksum := [x45; x00; x00; x15; x00; x00; x40; x00; x80; x06; x00; x00] ++ replicate 8 x00 ++ [x61] in
  let version_6 := [x65; x00; x00; x15; x00; x00; x40; x00; x80; x06; x00; x00] ++ replicate 8 x00 ++ [x61] in
  (∃ h p d, ip_header_parse default_ip_header (new_NetParser (Buffer_of_string bad_checksum)) = Ret ((h, BadChecksum), p) ∧
     datagram_parse default_datagram (Buffer_of_string bad_checksum) = Ret (d, NoError)) ∧
  (∃ h p d, ip_header_parse default_ip_header (new_NetParser (Buffer_of_string version_6)) = Ret ((h, WrongIPVersion), p) ∧
     datagram_parse default_datagram (Buffer_of_string version_6) = Ret (d, NoError)).
Proof.
  split; eexists _, _, _; (split; [vm_compute; reflexivity|vm_compute; reflexivity]).
Qed.
