(* ===== verification/Ethernet.v ===== *)
(** [tcp_helpers/ethernet_header.hh], [ethernet_header.cc],
    [ethernet_frame.hh], [ethernet_frame.cc], [arp_message.hh],
    [arp_message.cc]: Ethernet frames and ARP messages on the wire. *)
From S2P Require Import Prelude Buffer Parser.

(** [std::array<uint8_t, 6>] *)
Definition EthernetAddress := list Z.
Definition ETHERNET_BROADCAST : EthernetAddress := [0xff; 0xff; 0xff; 0xff; 0xff; 0xff].
(** [EthernetAddress{}] *)
Definition zero_address : EthernetAddress := [0; 0; 0; 0; 0; 0].

(** The loop that assigns each byte of an array of [n] bytes from the parser. *)
Fixpoint get_bytes (n : nat) : parserM (list Z) :=
  match n with
  | O => mret []
  | S n' => b ← get_u8; l ← get_bytes n'; mret (b :: l)
  end.
Definition get_address : parserM EthernetAddress := get_bytes 6.

(** The loop that writes each byte of an array. *)
Definition put_address (s : list byte) (a : EthernetAddress) : list byte := foldl put_u8 s a.

(** ** EthernetHeader *)

Definition ETHERNET_LENGTH : Z := 14.
Definition TYPE_IPv4 : Z := 0x800.
Definition TYPE_ARP : Z := 0x806.

Record EthernetHeader := mkEthernetHeader {
  eth_dst : EthernetAddress;
  eth_src : EthernetAddress;
  eth_type : Z
}.

Definition default_eth_header : EthernetHeader := mkEthernetHeader zero_address zero_address 0.

Definition eth_header_parse (h0 : EthernetHeader) : parserM (EthernetHeader * ParseResult) := λ p0,
  if size (np_buffer p0) <? ETHERNET_LENGTH then Ret ((h0, PacketTooShort), p0)
  else
    (dst ← get_address;
     src ← get_address;
     type ← get_u16;
     ((λ p, Ret ((mkEthernetHeader dst src type, get_error p), p)) : parserM (EthernetHeader * ParseResult))) p0.

Definition eth_header_serialize (h : EthernetHeader) : list byte :=
  let ret := [] in
  let ret := put_address ret (eth_dst h) in
  let ret := put_address ret (eth_src h) in
  put_u16 ret (eth_type h).

(** ** EthernetFrame *)

Record EthernetFrame := mkEthernetFrame {
  fr_header : EthernetHeader;
  fr_payload : BufferList
}.

Definition default_frame : EthernetFrame := mkEthernetFrame default_eth_header [].

(** The result of [_header.parse(p)] is discarded by the source. *)
Definition frame_parse (f0 : EthernetFrame) (buffer : Buffer) : outcome (EthernetFrame * ParseResult) :=
  '((h, _), p) ← eth_header_parse (fr_header f0) (new_NetParser buffer);
  Ret (mkEthernetFrame h [np_buffer p], get_error p).

Definition frame_serialize (f : EthernetFrame) : BufferList :=
  append [Buffer_of_string (eth_header_serialize (fr_header f))] (fr_payload f).

(** ** ARPMessage *)

Definition ARP_LENGTH : Z := 28.
Definition TYPE_ETHERNET : Z := 1.
Definition OPCODE_REQUEST : Z := 1.
Definition OPCODE_REPLY : Z := 2.

Record ARPMessage := mkARP {
  hardware_type : Z;
  protocol_type : Z;
  hardware_address_size : Z;
  protocol_address_size : Z;
  opcode : Z;
  sender_ethernet_address : EthernetAddress;
  sender_ip_address : Z;
  target_ethernet_address : EthernetAddress;
  target_ip_address : Z
}.

Definition default_arp : ARPMessage :=
  mkARP TYPE_ETHERNET TYPE_IPv4 6 4 0 zero_address 0 zero_address 0.

Definition supported (m : ARPMessage) : bool :=
  (hardware_type m =? TYPE_ETHERNET) && (protocol_type m =? TYPE_IPv4) &&
  (hardware_address_size m =? 6) && (protocol_address_size m =? 4) &&
  ((opcode m =? OPCODE_REQUEST) || (opcode m =? OPCODE_REPLY)).

Definition arp_parse_fields (m0 : ARPMessage) : parserM (ARPMessage * ParseResult) :=
  hardware_type ← get_u16;
  protocol_type ← get_u16;
  hardware_address_size ← get_u8;
  protocol_address_size ← get_u8;
  opcode ← get_u16;
  let m1 := mkARP hardware_type protocol_type hardware_address_size protocol_address_size opcode
    (sender_ethernet_address m0) (sender_ip_address m0) (target_ethernet_address m0) (target_ip_address m0) in
  if negb (supported m1) then mret (m1, Unsupported)
  else
    sender_eth ← get_address;
    sender_ip ← get_u32;
    target_eth ← get_address;
    target_ip ← get_u32;
    ((λ p, Ret ((mkARP hardware_type protocol_type hardware_address_size protocol_address_size opcode
        sender_eth sender_ip target_eth target_ip, get_error p), p)) : parserM (ARPMessage * ParseResult)).

Definition arp_parse (m0 : ARPMessage) (buffer : Buffer) : outcome (ARPMessage * ParseResult) :=
  let p := new_NetParser buffer in
  if size (np_buffer p) <? ARP_LENGTH then Ret (m0, PacketTooShort)
  else '(r, _) ← arp_parse_fields m0 p; Ret r.

Definition arp_serialize (m : ARPMessage) : outcome (list byte) :=
  if negb (supported m) then
    Throw (runtime_error "ARPMessage::serialize(): unsupported field combination (must be Ethernet/IP, and request or reply)")
  else
    let ret := [] in
    let ret := put_u16 ret (hardware_type m) in
    let ret := put_u16 ret (protocol_type m) in
    let ret := put_u8 ret (hardware_address_size m) in
    let ret := put_u8 ret (protocol_address_size m) in
    let ret := put_u16 ret (opcode m) in
    let ret := put_address ret (sender_ethernet_address m) in
    let ret := put_u32 ret (sender_ip_address m) in
    let ret := put_address ret (target_ethernet_address m) in
    Ret (put_u32 ret (target_ip_address m)).

#[global] Arguments eth_header_parse : simpl never.
#[global] Arguments frame_parse : simpl never.
#[global] Arguments arp_parse : simpl never.
#[global] Arguments arp_parse_fields : simpl never.
#[global] Arguments arp_serialize : simpl never.
#[global] Arguments get_bytes : simpl never.

(** ** Wire format *)

(** Six bytes. *)
Definition address_ok (a : EthernetAddress) : Prop := length a = 6%nat ∧ Forall is_u8 a.

Definition address_bytes (a : EthernetAddress) : list byte := map byte_of a.

Lemma put_address_spec s a : Forall is_u8 a -> put_address s a = s ++ address_bytes a.
Proof.
  unfold put_address, address_bytes. revert s. induction a as [|b a IH]; intros s; cbn [foldl map]; [by rewrite app_nil_r|].
  intros [Hb Ha]%Forall_cons. rewrite IH, put_u8_spec, u8_id by done. rewrite <- app_assoc. f_equal.
  change (be_bytes 1 b) with [byte_of (b / 1)]. by rewrite Z.div_1_r.
Qed.

Lemma zlen_address_bytes a : address_ok a -> zlen (address_bytes a) = 6.
Proof. intros [Hl _]. unfold zlen, address_bytes. rewrite length_map, Hl. done. Qed.

Lemma get_bytes_spec n a p rest :
  length a = n -> Forall is_u8 a -> at_bytes p (address_bytes a ++ rest) ->
  returns (get_bytes n p) (λ '(a', p'), a' = a ∧ at_bytes p' rest).
Proof.
  revert a p. induction n as [|n IH]; intros a p Hl Ha Hp.
  - apply nil_length_inv in Hl as ->. by apply returns_ret.
  - destruct a as [|b a]; [done|]. apply Forall_cons in Ha as [Hb Ha]. cbn [address_bytes map app] in Hp.
    change (get_bytes (S n)) with (b ← get_u8; l ← get_bytes n; mret (b :: l) : parserM (list Z)).
    eapply parser_bind_returns; [eapply (parse_int_bytes 1 p b (address_bytes a ++ rest))|].
    + change (be_bytes 1 b) with [byte_of (b / 1)]. by rewrite Z.div_1_r.
    + unfold is_u8 in Hb. by change (256 ^ Z.of_nat 1) with 256.
    + cbv beta. intros v q [-> Hq].
      eapply parser_bind_returns; [apply (IH a q); [cbn in Hl; lia|done|done]|].
      cbv beta. intros l q' [-> Hq']. by apply returns_ret.
Qed.

Ltac parse_address Hp :=
  eapply parser_bind_returns;
  [eapply get_bytes_spec; [| |rewrite <- ?app_assoc in Hp; exact Hp]; assumption|];
  let v := fresh "v" in let p' := fresh "p" in
  clear Hp; cbv beta; intros v p' [-> Hp].

Record eth_header_ok (h : EthernetHeader) : Prop := {
  ek_dst : address_ok (eth_dst h);
  ek_src : address_ok (eth_src h);
  ek_type : is_u16 (eth_type h)
}.

Definition eth_header_bytes (h : EthernetHeader) : list byte :=
  address_bytes (eth_dst h) ++ address_bytes (eth_src h) ++ be_bytes 2 (eth_type h).

Lemma zlen_eth_header_bytes h : eth_header_ok h -> zlen (eth_header_bytes h) = 14.
Proof. intros []. unfold eth_header_bytes. by rewrite !zlen_app, zlen_be_bytes, !zlen_address_bytes. Qed.

Lemma eth_header_serialize_spec h : eth_header_ok h -> eth_header_serialize h = eth_header_bytes h.
Proof.
  intros [[_ Hd] [_ Hs] Ht]. unfold eth_header_serialize, eth_header_bytes. cbv zeta.
  rewrite put_u16_spec, !put_address_spec, u16_id by done. rewrite app_nil_l, <- !app_assoc. done.
Qed.

Lemma eth_header_parse_bytes h h0 p rest :
  eth_header_ok h -> at_bytes p (eth_header_bytes h ++ rest) ->
  returns (eth_header_parse h0 p) (λ '(r, p'), r = (h, NoError) ∧ at_bytes p' rest).
Proof.
  intros Hh Hp. pose proof Hh as [[Hd1 Hd2] [Hs1 Hs2] Ht]. unfold eth_header_parse, size.
  pose proof Hp as (_ & _ & Hs). rewrite Hs, zlen_app, zlen_eth_header_bytes by done. unfold ETHERNET_LENGTH.
  pose proof (zlen_nonneg rest). destruct (Z.ltb_spec (14 + zlen rest) 14); [lia|]. clear Hs.
  unfold eth_header_bytes, get_address, get_u16 in *. do 2 parse_address Hp. parse_field Hp.
  apply returns_ret. pose proof Hp as (_ & He & _). unfold get_error. rewrite He. split; [|done]. by destruct h.
Qed.

Lemma frame_parse_bytes f0 h s :
  eth_header_ok h -> zlen s < 2 ^ 63 ->
  returns (frame_parse f0 (Buffer_of_string (eth_header_bytes h ++ s))) (λ '(f, res),
    res = NoError ∧ fr_header f = h ∧ concatenate (fr_payload f) = s).
Proof.
  intros Hh Hs. unfold frame_parse.
  destruct (eth_header_parse_bytes h (fr_header f0) (new_NetParser (Buffer_of_string (eth_header_bytes h ++ s))) s Hh)
    as ([r p] & -> & -> & _ & He & Hst).
  { apply new_parser_at. rewrite zlen_app, zlen_eth_header_bytes by done. lia. }
  cbn. apply returns_ret. unfold get_error. rewrite He. cbn. by rewrite app_nil_r.
Qed.

Lemma frame_serialize_bytes f :
  eth_header_ok (fr_header f) ->
  concatenate (frame_serialize f) = eth_header_bytes (fr_header f) ++ concatenate (fr_payload f).
Proof.
  intros Hh. unfold frame_serialize, append. rewrite concatenate_app. cbn [concatenate].
  by rewrite str_of_string, app_nil_r, eth_header_serialize_spec.
Qed.

Record arp_ok (m : ARPMessage) : Prop := {
  ak_supported : supported m = true;
  ak_sender : address_ok (sender_ethernet_address m);
  ak_sender_ip : is_u32 (sender_ip_address m);
  ak_target : address_ok (target_ethernet_address m);
  ak_target_ip : is_u32 (target_ip_address m)
}.

Definition arp_bytes (m : ARPMessage) : list byte :=
  be_bytes 2 (hardware_type m) ++ be_bytes 2 (protocol_type m) ++ be_bytes 1 (hardware_address_size m) ++
  be_bytes 1 (protocol_address_size m) ++ be_bytes 2 (opcode m) ++
  address_bytes (sender_ethernet_address m) ++ be_bytes 4 (sender_ip_address m) ++
  address_bytes (target_ethernet_address m) ++ be_bytes 4 (target_ip_address m).

Lemma supported_ranges m :
  supported m = true -> is_u16 (hardware_type m) ∧ is_u16 (protocol_type m) ∧ is_u8 (hardware_address_size m) ∧
    is_u8 (protocol_address_size m) ∧ is_u16 (opcode m).
Proof.
  unfold supported, TYPE_ETHERNET, TYPE_IPv4, OPCODE_REQUEST, OPCODE_REPLY.
  rewrite !andb_true_iff, orb_true_iff, !Z.eqb_eq. unfold is_u8, is_u16. lia.
Qed.

Lemma zlen_arp_bytes m : arp_ok m -> zlen (arp_bytes m) = 28.
Proof. intros []. unfold arp_bytes. by rewrite !zlen_app, !zlen_be_bytes, !zlen_address_bytes. Qed.

Lemma arp_serialize_spec m : arp_ok m -> arp_serialize m = Ret (arp_bytes m).
Proof.
  intros [Hsup [_ Hs] Hsi [_ Ht] Hti]. destruct (supported_ranges m Hsup) as (H1 & H2 & H3 & H4 & H5).
  unfold arp_serialize, arp_bytes. rewrite Hsup. cbn [negb]. cbv zeta.
  rewrite !put_u16_spec, !put_u32_spec, !put_u8_spec, !put_address_spec by done.
  rewrite !u16_id, !u32_id, !u8_id by done. rewrite app_nil_l, <- !app_assoc. done.
Qed.

Lemma arp_parse_bytes m m0 rest :
  arp_ok m -> zlen rest < 2 ^ 63 -> arp_parse m0 (Buffer_of_string (arp_bytes m ++ rest)) = Ret (m, NoError).
Proof.
  intros Hm Hr. unfold arp_parse, size. cbn [np_buffer new_NetParser].
  rewrite str_of_string, zlen_app, zlen_arp_bytes by done. unfold ARP_LENGTH. pose proof (zlen_nonneg rest).
  destruct (Z.ltb_spec (28 + zlen rest) 28); [lia|].
  pose proof (new_parser_at (arp_bytes m ++ rest)) as Hp. rewrite zlen_app, zlen_arp_bytes in Hp by done.
  specialize (Hp ltac:(lia)). cut (returns (arp_parse_fields m0 (new_NetParser (Buffer_of_string (arp_bytes m ++ rest))))
    (λ '(r, p'), r = (m, NoError))).
  { intros ([r p] & -> & ->). done. }
  pose proof Hm as [Hsup [Hs1 Hs2] Hsi [Ht1 Ht2] Hti]. destruct (supported_ranges m Hsup) as (H1 & H2 & H3 & H4 & H5).
  revert Hp. generalize (new_NetParser (Buffer_of_string (arp_bytes m ++ rest))) as p0. intros p0 Hp.
  unfold arp_parse_fields, arp_bytes, get_address, get_u8, get_u16, get_u32 in *.
  do 5 parse_field Hp. cbv zeta.
  assert (∀ a b c d, supported (mkARP (hardware_type m) (protocol_type m) (hardware_address_size m) (protocol_address_size m)
    (opcode m) a b c d) = supported m) as -> by done.
  rewrite Hsup. cbn [negb]. parse_address Hp. parse_field Hp. parse_address Hp. parse_field Hp.
  apply returns_ret. pose proof Hp as (_ & He & _). unfold get_error. rewrite He. by destruct m.
Qed.

Lemma get_bytes_any n p l :
  at_bytes p l -> Z.of_nat n <= zlen l ->
  returns (get_bytes n p) (λ '(a, p'), at_bytes p' (drop n l) ∧ length a = n ∧ Forall is_u8 a).
Proof.
  revert p l. induction n as [|n IH]; intros p l Hp Hl.
  - apply returns_ret. by split_and!; [rewrite drop_0| |constructor].
  - change (get_bytes (S n)) with (b ← get_u8; l ← get_bytes n; mret (b :: l) : parserM (list Z)).
    eapply parser_bind_returns; [apply (parse_int_at 1 p l Hp); lia|]. cbv beta. intros v q [Hv Hq].
    assert (zlen (drop 1 l) = zlen l - 1) as Hd by (unfold zlen in *; rewrite length_drop; lia).
    eapply parser_bind_returns; [apply (IH q _ Hq); lia|]. cbv beta. intros a q' (Hq' & Ha & Hf).
    apply returns_ret. rewrite drop_drop in Hq'. split_and!; [done|cbn; lia|]. constructor; [|done].
    rewrite Hv. pose proof (be_val_range (take 1 l)) as Hr.
    assert (zlen (take 1 l) = 1) as Ht by (unfold zlen in *; rewrite length_take; lia). rewrite Ht in Hr. exact Hr.
Qed.

(** Parsing any bytes as a frame: the addresses fit, and the payload is no
    longer than the bytes. *)
Lemma frame_parse_any f0 s :
  zlen s < 2 ^ 63 -> address_ok (eth_src (fr_header f0)) ->
  returns (frame_parse f0 (Buffer_of_string s)) (λ '(f, _),
    address_ok (eth_src (fr_header f)) ∧ zlen (concatenate (fr_payload f)) <= zlen s).
Proof.
  intros Hs H0. unfold frame_parse, eth_header_parse, size. cbn [np_buffer new_NetParser]. rewrite str_of_string. unfold ETHERNET_LENGTH.
  destruct (Z.ltb_spec (zlen s) 14) as [|Hlen].
  { apply returns_ret. cbn [fr_header fr_payload concatenate np_buffer new_NetParser]. rewrite str_of_string, app_nil_r. split; [done|lia]. }
  pose proof (new_parser_at s ltac:(lia)) as Hp. revert Hp. generalize (new_NetParser (Buffer_of_string s)) as p0. intros p0 Hp.
  assert (∀ k, zlen (drop k s) = Z.max 0 (zlen s - Z.of_nat k)) as Hdl by (intros k; unfold zlen; rewrite length_drop; lia).
  unfold get_address, get_u16.
  cut (returns ((get_bytes 6 ≫= λ dst, get_bytes 6 ≫= λ src, _parse_int 2 ≫= λ type,
        ((λ p, Ret ((mkEthernetHeader dst src type, get_error p), p)) : parserM (EthernetHeader * ParseResult))) p0)
      (λ '((h, _), p), address_ok (eth_src h) ∧ zlen (str (np_buffer p)) <= zlen s)).
  { intros ([[h r] p] & -> & Hh & Hb). apply returns_ret. cbn [fr_header fr_payload concatenate]. by rewrite app_nil_r. }
  eapply parser_bind_returns; [eapply get_bytes_any; [exact Hp|lia]|].
  clear Hp. cbv beta. intros deth q1 (Hp & _).
  eapply parser_bind_returns; [eapply get_bytes_any; [exact Hp|rewrite Hdl; lia]|].
  clear Hp. cbv beta. intros seth q2 (Hp & Hseth). rewrite drop_drop in Hp.
  eapply parser_bind_returns; [eapply parse_int_any; [exact Hp|rewrite Hdl; cbn; lia]|].
  cbv beta. intros ty q3 [(_ & _ & Hq3) _]. apply returns_ret. split; [exact Hseth|]. rewrite Hq3, drop_drop, Hdl. cbn. lia.
Qed.

(** Parsing any bytes as ARP; an accepted message is well formed. *)
Lemma arp_parse_any m0 s :
  zlen s < 2 ^ 63 ->
  returns (arp_parse m0 (Buffer_of_string s)) (λ '(m, res), res = NoError -> arp_ok m).
Proof.
  intros Hs. unfold arp_parse, size. cbn [np_buffer new_NetParser]. rewrite str_of_string. unfold ARP_LENGTH.
  destruct (Z.ltb_spec (zlen s) 28) as [|Hlen]; [by apply returns_ret|].
  pose proof (new_parser_at s ltac:(lia)) as Hp.
  cut (returns (arp_parse_fields m0 (new_NetParser (Buffer_of_string s))) (λ '((m, res), p'), res = NoError -> arp_ok m)).
  { intros ([[m res] p] & -> & H). by apply returns_ret. }
  revert Hp. generalize (new_NetParser (Buffer_of_string s)) as p0. intros p0 Hp.
  unfold arp_parse_fields, get_address, get_u8, get_u16, get_u32.
  assert (∀ k, zlen (drop k s) = Z.max 0 (zlen s - Z.of_nat k)) as Hdl
    by (intros k; unfold zlen; rewrite length_drop; lia).
  do 5 (eapply parser_bind_returns; [eapply parse_int_any; [exact Hp|rewrite ?drop_drop, ?Hdl; cbn; lia]|];
    clear Hp; cbv beta; intros ? ? [Hp ?]; rewrite ?drop_drop in Hp).
  cbv zeta. destruct (supported _) eqn:Hsup; cbn [negb]; [|by apply returns_ret].
  eapply parser_bind_returns; [eapply get_bytes_any; [exact Hp|rewrite Hdl; cbn; lia]|].
  clear Hp. cbv beta. intros seth q1 (Hp & Ha1). rewrite drop_drop in Hp.
  eapply parser_bind_returns; [eapply parse_int_any; [exact Hp|rewrite Hdl; cbn; lia]|].
  clear Hp. cbv beta. intros sip q2 [Hp Hip1]. rewrite drop_drop in Hp.
  eapply parser_bind_returns; [eapply get_bytes_any; [exact Hp|rewrite Hdl; cbn; lia]|].
  clear Hp. cbv beta. intros teth q3 (Hp & Ha2). rewrite drop_drop in Hp.
  eapply parser_bind_returns; [eapply parse_int_any; [exact Hp|rewrite Hdl; cbn; lia]|].
  clear Hp. cbv beta. intros tip q4 [_ Hip2]. apply returns_ret. intros _.
  split; cbn; [exact Hsup|exact Ha1|exact Hip1|exact Ha2|exact Hip2].
Qed.

(** C38: an ARP message inside an Ethernet frame survives the wire: parsing
    the serialized frame gives back the header, and parsing its payload gives back
    the message, whatever padding follows it. *)
Theorem arp_frame_roundtrip h m padding f0 m0 :
  eth_header_ok h -> arp_ok m -> zlen padding < 2 ^ 62 ->
  ∃ s f, arp_serialize m = Ret s ∧
    frame_parse f0 (Buffer_of_string (concatenate (frame_serialize (mkEthernetFrame h [Buffer_of_string (s ++ padding)])))) =
      Ret (f, NoError) ∧
    fr_header f = h ∧ arp_parse m0 (Buffer_of_string (concatenate (fr_payload f))) = Ret (m, NoError).
Proof.
  intros Hh Hm Hl. exists (arp_bytes m). rewrite frame_serialize_bytes by done. cbn [fr_header fr_payload concatenate].
  rewrite str_of_string, app_nil_r.
  destruct (frame_parse_bytes f0 h (arp_bytes m ++ padding) Hh) as ([f res] & Hp & -> & Hf & Hpl).
  { rewrite zlen_app, zlen_arp_bytes by done. lia. }
  exists f. split_and!; [by apply arp_serialize_spec|done|done|]. rewrite Hpl. apply arp_parse_bytes; [done|lia].
Qed.

Definition sample_address : EthernetAddress := [2; 0; 0; 0; 0; 1].
Definition sample_arp : ARPMessage :=
  mkARP TYPE_ETHERNET TYPE_IPv4 6 4 OPCODE_REQUEST sample_address 3232235777 zero_address 3232235778.
Definition sample_eth_header : EthernetHeader := mkEthernetHeader ETHERNET_BROADCAST sample_address TYPE_ARP.

Lemma address_ok_check a : (length a =? 6)%nat && forallb (λ b, (0 <=? b) && (b <? 256)) a = true -> address_ok a.
Proof.
  intros [Hl%Nat.eqb_eq Ha]%andb_true_iff. split; [done|]. rewrite forallb_forall in Ha.
  apply Forall_forall. intros b Hb%list_elem_of_In%Ha. unfold is_u8. lia.
Qed.

Lemma arp_frame_roundtrip_witness :
  ∃ s f, arp_serialize sample_arp = Ret s ∧
    frame_parse default_frame (Buffer_of_string (concatenate (frame_serialize (mkEthernetFrame sample_eth_header [Buffer_of_string (s ++ [x00])])))) =
      Ret (f, NoError) ∧
    fr_header f = sample_eth_header ∧ arp_parse default_arp (Buffer_of_string (concatenate (fr_payload f))) = Ret (sample_arp, NoError).
Proof.
  apply (arp_frame_roundtrip sample_eth_header sample_arp [x00]).
  - split; [by apply address_ok_check..|]. unfold is_u16. cbn. unfold TYPE_ARP. lia.
  - split; [done|by apply address_ok_check|unfold is_u32; cbn; lia|by apply address_ok_check|unfold is_u32; cbn; lia].
  - vm_compute. reflexivity.
Defined.

(** [EthernetFrame::parse] discards the result of [EthernetHeader::parse],
    which reports a frame shorter than a header without recording the error in
    the parser: such a frame is accepted. *)
Theorem frame_parse_ignores_header_error s f0 :
  zlen s < 14 ->
  eth_header_parse (fr_header f0) (new_NetParser (Buffer_of_string s)) =
    Ret ((fr_header f0, PacketTooShort), new_NetParser (Buffer_of_string s)) ∧
  frame_parse f0 (Buffer_of_string s) = Ret (mkEthernetFrame (fr_header f0) [Buffer_of_string s], NoError).
Proof.
  intros Hs. assert (eth_header_parse (fr_header f0) (new_NetParser (Buffer_of_string s)) =
    Ret ((fr_header f0, PacketTooShort), new_NetParser (Buffer_of_string s))) as H.
  { unfold eth_header_parse, size. cbn [np_buffer new_NetParser]. rewrite str_of_string. unfold ETHERNET_LENGTH.
    by destruct (Z.ltb_spec (zlen s) 14); [|lia]. }
  split; [done|]. unfold frame_parse. by rewrite H.
Qed.

Lemma frame_parse_ignores_header_error_witness :
  eth_header_parse default_eth_header (new_NetParser (Buffer_of_string [x61])) =
    Ret ((default_eth_header, PacketTooShort), new_NetParser (Buffer_of_string [x61])) ∧
  frame_parse default_frame (Buffer_of_string [x61]) = Ret (mkEthernetFrame default_eth_header [Buffer_of_string [x61]], NoError).
Proof. apply (frame_parse_ignores_header_error [x61] default_frame). vm_compute. reflexivity. Defined.
