(* ===== verification/Random.v ===== *)
(** Random numbers, as the source draws them from [random_device], and the
    Ethernet addresses made of them. *)
From S2P Require Import Prelude Parser Ethernet.

(** A generator: a state and the function that gives the next number. *)
Class RandomGenerator (R : Type) := rand_next : R -> Z * R.

(** [addr.at(0) |= 0x02; addr.at(0) &= 0xfe;] *)
Definition make_private (addr : EthernetAddress) : EthernetAddress :=
  match addr with b :: rest => Z.land (Z.lor b 0x02) 0xfe :: rest | [] => [] end.

Section random.
Context {R : Type} `{RandomGenerator R}.

(** [byte = rd()] for [n] bytes *)
Fixpoint random_bytes (n : nat) (g : R) : list Z * R :=
  match n with
  | O => ([], g)
  | S n => let '(x, g) := rand_next g in let '(l, g) := random_bytes n g in (u8 x :: l, g)
  end.

Definition random_private_ethernet_address (g : R) : EthernetAddress * R :=
  let '(addr, g) := random_bytes 6 g in (make_private addr, g).

Lemma random_bytes_spec n g : ∃ l g', random_bytes n g = (l, g') ∧ length l = n ∧ Forall is_u8 l.
Proof.
  revert g. induction n as [|n IH]; intros g; cbn [random_bytes]; [by exists [], g|].
  destruct (rand_next g) as [x g1]. destruct (IH g1) as (l & g' & -> & Hl & Hu). exists (u8 x :: l), g'.
  split_and!; [done|cbn; by rewrite Hl|]. constructor; [apply u8_range|done].
Qed.

(** The address is one of a single station, administered locally. *)
Definition private_address (a : EthernetAddress) : Prop := address_ok a ∧ ∃ b, head a = Some b ∧ Z.testbit b 0 = false ∧ Z.testbit b 1 = true.

Lemma private_address_spec g : ∃ a g', random_private_ethernet_address g = (a, g') ∧ private_address a.
Proof.
  unfold random_private_ethernet_address. destruct (random_bytes_spec 6 g) as (l & g' & -> & Hl & Hu).
  exists (make_private l), g'. split; [done|]. destruct l as [|b l]; [done|]. apply Forall_cons in Hu as [Hb Hu]. cbn [make_private].
  assert (is_u8 (Z.land (Z.lor b 2) 254)) as Hr.
  { change 254 with (Z.land 254 (Z.ones 8)). rewrite Z.land_assoc, Z.land_ones by lia. apply u8_range. }
  split; [split; [done|by constructor]|]. eexists. split; [done|]. rewrite !Z.land_spec, !Z.lor_spec. split; [apply andb_false_r|].
  change (Z.testbit 2 1) with true. by rewrite orb_true_r.
Qed.

Lemma private_not_broadcast a : private_address a -> a ≠ ETHERNET_BROADCAST.
Proof. intros [_ (b & Hb & H0 & _)] ->. injection Hb as <-. discriminate. Qed.
End random.
