(* ===== verification/Mersenne.v ===== *)
(** [get_random_generator] of [util/util.cc]: a [std::mt19937] seeded with as many
    words of [random_device] as its state has, through a [std::seed_seq]. Both are
    modelled as the C++ standard defines them, the words are an argument. *)
From S2P Require Import Prelude Random.

(** ** [std::seed_seq] *)

Definition word (l : list Z) (k : Z) : Z := nth (Z.to_nat (k mod zlen l)) l 0.
Definition set_word (k x : Z) (l : list Z) : list Z := <[Z.to_nat (k mod zlen l) := x]> l.

Definition seed_T (x : Z) : Z := Z.lxor x (Z.shiftr x 27).

Definition seed_t (n : Z) : Z :=
  if 623 <=? n then 11 else if 68 <=? n then 7 else if 39 <=? n then 5 else if 7 <=? n then 3 else (n - 1) / 2.

(** The two loops of [generate], of which the first one adds and the second one
    subtracts and combines; [v] are the words the sequence was made of. *)
Definition generate_add (v : list Z) (n k : Z) (b : list Z) : list Z :=
  let p := (n - seed_t n) / 2 in
  let q := p + seed_t n in
  let s := zlen v in
  let r1 := u32 (1664525 * seed_T (Z.lxor (Z.lxor (word b k) (word b (k + p))) (word b (k - 1)))) in
  let r2 := u32 (r1 + (if k =? 0 then s else if k <=? s then k mod n + nth (Z.to_nat (k - 1)) v 0 else k mod n)) in
  let b := set_word (k + p) (u32 (word b (k + p) + r1)) b in
  let b := set_word (k + q) (u32 (word b (k + q) + r2)) b in
  set_word k r2 b.

Definition generate_mix (n k : Z) (b : list Z) : list Z :=
  let p := (n - seed_t n) / 2 in
  let q := p + seed_t n in
  let r3 := u32 (1566083941 * seed_T (u32 (word b k + word b (k + p) + word b (k - 1)))) in
  let r4 := u32 (r3 - k mod n) in
  let b := set_word (k + p) (Z.lxor (word b (k + p)) r3) b in
  let b := set_word (k + q) (Z.lxor (word b (k + q)) r4) b in
  set_word k r4 b.

(** [seed_seq(v).generate] into [n] words. *)
Definition seed_generate (v : list Z) (n : nat) : list Z :=
  let m := Nat.max (S (length v)) n in
  let b := fold_left (λ b k, generate_add v (Z.of_nat n) (Z.of_nat k) b) (seq 0 m) (replicate n 0x8b8b8b8b) in
  fold_left (λ b k, generate_mix (Z.of_nat n) (Z.of_nat k) b) (seq m n) b.

(** ** [std::mt19937]

    The last 624 numbers of the recurrence, the oldest first. *)
Definition state_size : nat := 624.
Definition mt_shift : nat := 397.

Record mt19937 := mkMt { mt_state : list Z }.

(** The next number of the recurrence: the upper bit of the oldest one, the rest
    of the one after it, and the one [mt_shift] further. *)
Definition twist (x0 x1 xm : Z) : Z :=
  let y := Z.lor (Z.land x0 0x80000000) (Z.land x1 0x7fffffff) in
  Z.lxor (Z.lxor xm (Z.shiftr y 1)) (if Z.odd y then 0x9908b0df else 0).

Definition temper (x : Z) : Z :=
  let z := Z.lxor x (Z.shiftr x 11) in
  let z := Z.lxor z (Z.land (u32 (Z.shiftl z 7)) 0x9d2c5680) in
  let z := Z.lxor z (Z.land (u32 (Z.shiftl z 15)) 0xefc60000) in
  Z.lxor z (Z.shiftr z 18).

#[export] Instance mt_next : RandomGenerator mt19937 := λ g,
  let x := twist (nth 0 (mt_state g) 0) (nth 1 (mt_state g) 0) (nth mt_shift (mt_state g) 0) in
  (temper x, mkMt (tail (mt_state g) ++ [x])).

(** A state without any of the bits that the recurrence uses is replaced. *)
Definition mt_of_words (a : list Z) : mt19937 :=
  if (Z.land (nth 0 a 0) 0x80000000 =? 0) && forallb (λ x, x =? 0) (tail a) then mkMt (0x80000000 :: tail a) else mkMt a.

(** [mt19937(seed)] for a seed sequence made of [v] *)
Definition mt_of_seed_seq (v : list Z) : mt19937 := mt_of_words (seed_generate v state_size).

(** [seed_data] are the values of [rd()]. *)
Definition get_random_generator (seed_data : list Z) : mt19937 := mt_of_seed_seq seed_data.

(** [mt19937(value)], for comparison. *)
Fixpoint linear_words (n : nat) (i x : Z) : list Z :=
  match n with
  | O => []
  | S n => x :: linear_words n (i + 1) (u32 (1812433253 * Z.lxor x (Z.shiftr x 30) + (i + 1)))
  end.

Fixpoint discard (n : nat) (g : mt19937) : mt19937 := match n with O => g | S n => discard n (rand_next g).2 end.

(** ** Numbers of 32 bits *)

Lemma is_u32_bits z : is_u32 z <-> 0 <= z ∧ ∀ i, 32 <= i -> Z.testbit z i = false.
Proof.
  unfold is_u32. split.
  - intros Hz. split; [lia|]. intros i Hi. destruct (decide (z = 0)) as [->|]; [apply Z.testbit_0_l|].
    apply Z.bits_above_log2; [lia|]. assert (Z.log2 z < 32); [apply Z.log2_lt_pow2; lia|lia].
  - intros [Hz Hb]. split; [done|]. destruct (decide (z = 0)) as [->|]; [done|]. apply Z.log2_lt_pow2; [lia|].
    destruct (decide (Z.log2 z < 32)) as [|Hl]; [done|]. specialize (Hb (Z.log2 z) ltac:(lia)). rewrite Z.bit_log2 in Hb by lia. done.
Qed.

Lemma lxor_u32 a b : is_u32 a -> is_u32 b -> is_u32 (Z.lxor a b).
Proof.
  rewrite !is_u32_bits. intros [Ha Hab] [Hb Hbb]. split; [by apply Z.lxor_nonneg; split|]. intros i Hi. by rewrite Z.lxor_spec, Hab, Hbb.
Qed.

Lemma lor_u32 a b : is_u32 a -> is_u32 b -> is_u32 (Z.lor a b).
Proof.
  rewrite !is_u32_bits. intros [Ha Hab] [Hb Hbb]. split; [by apply Z.lor_nonneg|]. intros i Hi. by rewrite Z.lor_spec, Hab, Hbb.
Qed.

Lemma land_u32 a b : is_u32 b -> is_u32 (Z.land a b).
Proof.
  rewrite !is_u32_bits. intros [Hb Hbb]. split; [apply Z.land_nonneg; by right|]. intros i Hi. by rewrite Z.land_spec, Hbb, andb_false_r.
Qed.

Lemma shiftr_u32 a n : 0 <= n -> is_u32 a -> is_u32 (Z.shiftr a n).
Proof.
  rewrite !is_u32_bits. intros Hn [Ha Hab]. split; [by apply Z.shiftr_nonneg|]. intros i Hi. rewrite Z.shiftr_spec by lia. apply Hab. lia.
Qed.

Create HintDb words.
#[local] Hint Resolve lxor_u32 lor_u32 land_u32 u32_range : words.
#[local] Hint Extern 1 (is_u32 (Z.shiftr _ _)) => apply shiftr_u32; [lia|] : words.
#[local] Hint Extern 1 (is_u32 (Zpos _)) => unfold is_u32; lia : words.

Definition words_ok (l : list Z) : Prop := Forall is_u32 l.

Lemma nth_u32 l i : words_ok l -> is_u32 (nth i l 0).
Proof.
  intros Hl. destruct (nth_in_or_default i l 0) as [Hi| ->]; [|by unfold is_u32]. unfold words_ok in Hl. rewrite Forall_forall in Hl.
  by apply Hl, list_elem_of_In.
Qed.

Lemma set_word_ok k x l : words_ok l -> is_u32 x -> words_ok (set_word k x l) ∧ length (set_word k x l) = length l.
Proof. intros Hl Hx. split; [by apply Forall_insert|apply length_insert]. Qed.

#[local] Hint Resolve nth_u32 : words.
#[local] Hint Extern 1 (is_u32 (word _ _)) => apply nth_u32 : words.

(** A pass of [generate] replaces three words. *)
Lemma three_words k1 k2 k3 x1 x2 x3 n l :
  words_ok l -> length l = n -> is_u32 x1 -> is_u32 x2 -> is_u32 x3 ->
  words_ok (set_word k3 x3 (set_word k2 x2 (set_word k1 x1 l))) ∧ length (set_word k3 x3 (set_word k2 x2 (set_word k1 x1 l))) = n.
Proof.
  intros Hl Hn H1 H2 H3. destruct (set_word_ok k1 x1 l Hl H1) as [Ho1 Hl1]. destruct (set_word_ok k2 x2 _ Ho1 H2) as [Ho2 Hl2].
  destruct (set_word_ok k3 x3 _ Ho2 H3) as [Ho3 Hl3]. split; [done|congruence].
Qed.

Lemma generate_add_ok v m k n b : words_ok b -> length b = n -> words_ok (generate_add v m k b) ∧ length (generate_add v m k b) = n.
Proof. intros Hb Hn. unfold generate_add. cbv zeta. apply three_words; auto with words. Qed.

Lemma generate_mix_ok m k n b : words_ok b -> length b = n -> words_ok (generate_mix m k b) ∧ length (generate_mix m k b) = n.
Proof.
  intros Hb Hn. unfold generate_mix. cbv zeta. apply three_words; auto with words.
  apply lxor_u32; auto with words. apply nth_u32, set_word_ok; auto with words.
Qed.

Lemma fold_words (f : list Z -> nat -> list Z) ks n b :
  (∀ b k, words_ok b -> length b = n -> words_ok (f b k) ∧ length (f b k) = n) ->
  words_ok b -> length b = n -> words_ok (fold_left f ks b) ∧ length (fold_left f ks b) = n.
Proof. intros Hf. revert b. induction ks as [|k ks IH]; intros b Hb Hn; [done|]. cbn. by apply IH; apply Hf. Qed.

Lemma seed_generate_ok v n : words_ok (seed_generate v n) ∧ length (seed_generate v n) = n.
Proof.
  unfold seed_generate. cbv zeta. set (b := fold_left _ (seq 0 _) _).
  assert (words_ok b ∧ length b = n) as [Hb Hn].
  { apply fold_words; [intros; by apply generate_add_ok|apply Forall_replicate; by unfold is_u32|apply length_replicate]. }
  apply fold_words; [intros; by apply generate_mix_ok|done|done].
Qed.

(** ** The generator *)
Record mt_ok (g : mt19937) : Prop := {
  mt_length : length (mt_state g) = state_size;
  mt_words : words_ok (mt_state g)
}.

Lemma temper_u32 x : is_u32 x -> is_u32 (temper x).
Proof. intros Hx. unfold temper. cbv zeta. auto 20 with words. Qed.

Lemma twist_u32 x0 x1 xm : is_u32 xm -> is_u32 (twist x0 x1 xm).
Proof. intros Hx. unfold twist. cbv zeta. apply lxor_u32; [auto 10 with words|]. by destruct (Z.odd _); unfold is_u32. Qed.

(** Every number drawn has 32 bits, and the state keeps its size. *)
Lemma mt_next_ok g : mt_ok g -> is_u32 (rand_next g).1 ∧ mt_ok (rand_next g).2.
Proof.
  intros [Hl Hw]. unfold rand_next, mt_next. cbn [fst snd].
  assert (is_u32 (twist (nth 0 (mt_state g) 0) (nth 1 (mt_state g) 0) (nth mt_shift (mt_state g) 0))) as Hx by (by apply twist_u32, nth_u32).
  split; [by apply temper_u32|]. destruct (mt_state g) as [|y l] eqn:Hs; [done|]. cbn [tail]. apply Forall_cons in Hw as [_ Hw]. split; cbn [mt_state].
  - rewrite length_app. cbn in *. lia.
  - apply Forall_app. split; [done|]. by apply Forall_singleton.
Qed.

Lemma mt_of_words_ok a : words_ok a -> length a = state_size -> mt_ok (mt_of_words a).
Proof.
  intros Hw Hl. unfold mt_of_words. destruct (_ && _); [|by split]. destruct a as [|x l]; [done|]. apply Forall_cons in Hw as [_ Hw].
  split; [exact Hl|]. constructor; [by unfold is_u32|done].
Qed.

(** It is not the state from which only zeros follow. *)
Definition mt_nonzero (g : mt19937) : Prop :=
  ¬ (Z.land (nth 0 (mt_state g) 0) 0x80000000 = 0 ∧ Forall (λ x, x = 0) (tail (mt_state g))).

Lemma mt_of_words_nonzero a : mt_nonzero (mt_of_words a).
Proof.
  unfold mt_nonzero, mt_of_words. destruct (Z.land (nth 0 a 0) 0x80000000 =? 0) eqn:H0; cbn [andb]; [|by apply Z.eqb_neq in H0; intros [? _]].
  destruct (forallb _ (tail a)) eqn:Hz; cbn [mt_state tail nth]; [by intros [? _]|]. intros [_ Ht].
  apply not_true_iff_false in Hz. apply Hz, forallb_forall. intros x Hx%list_elem_of_In. rewrite Forall_forall in Ht. by rewrite (Ht x Hx).
Qed.

Lemma discard_ok n g : mt_ok g -> mt_ok (discard n g).
Proof. revert g. induction n as [|n IH]; intros g Hg; [done|]. cbn [discard]. by apply IH, mt_next_ok. Qed.

(** The generator is properly seeded. Whatever the device gives, the state has
    its 624 words of 32 bits, is not the one from which only zeros would follow,
    and every number that is ever drawn has 32 bits. *)
Theorem random_generator_ok seed_data n :
  mt_nonzero (get_random_generator seed_data) ∧ mt_ok (discard n (get_random_generator seed_data)) ∧
  is_u32 (rand_next (discard n (get_random_generator seed_data))).1.
Proof.
  unfold get_random_generator, mt_of_seed_seq. destruct (seed_generate_ok seed_data state_size) as [Hw Hl].
  pose proof (discard_ok n _ (mt_of_words_ok _ Hw Hl)) as Hd. split; [apply mt_of_words_nonzero|]. split; [exact Hd|].
  exact (proj1 (mt_next_ok _ Hd)).
Qed.

(** The values that the C++ standard and its library give for the two classes. *)
Example mt19937_10000th : (rand_next (discard (Z.to_nat 9999) (mkMt (linear_words state_size 0 5489)))).1 = 4123659995.
Proof. vm_compute. reflexivity. Qed.

Example seed_seq_12345 :
  seed_generate [1; 2; 3; 4; 5] 10 =
    [4204997637; 4246533866; 1856049002; 1129615051; 690460811; 1075771511; 46783058; 3904109078; 1534123438; 1495905678].
Proof. vm_compute. reflexivity. Qed.
