(* ===== verification/Clock.v ===== *)
(** [timestamp_ms] of [util/util.cc], and the time that its callers hand on.

    A reading of [steady_clock] is a number of nanoseconds and an argument; that
    the clock is steady is a hypothesis. *)
From S2P Require Import Prelude.

Definition NS_PER_MS : Z := 1000000.

(** [program_start] is the static variable, set by the first call from the reading
    [first]. The conversion to milliseconds truncates. *)
Definition timestamp_ms (program_start : option Z) (first now : Z) : Z * option Z :=
  let start := match program_start with Some t => t | None => first end in
  (u64 (Z.quot (now - start) NS_PER_MS), Some start).

(** The differences of successive times, as [_tcp_loop] and the other callers
    take them: [next - base], after which [base] is [next]. *)
Fixpoint intervals (base : Z) (times : list Z) : list Z :=
  match times with
  | [] => []
  | next :: times => u64 (next - base) :: intervals next times
  end.

(** The times that the calls return for the given readings. *)
Definition timestamps (start : Z) (readings : list Z) : list Z := map (λ now, (timestamp_ms (Some start) start now).1) readings.

(** ** A steady clock *)

(** The readings never go back, and all fit into 63 bits from the start. *)
Fixpoint steady (from : Z) (readings : list Z) : Prop :=
  match readings with
  | [] => True
  | now :: readings => from <= now ∧ steady now readings
  end.

Lemma timestamp_value start first now :
  start <= now < start + 2 ^ 63 -> (timestamp_ms (Some start) first now).1 = (now - start) / NS_PER_MS ∧ is_u64 ((now - start) / NS_PER_MS).
Proof.
  intros Hn. unfold timestamp_ms. cbn [fst]. unfold NS_PER_MS. rewrite Z.quot_div_nonneg by lia.
  assert (is_u64 ((now - start) / 1000000)) as Hu by (unfold is_u64; split; [apply Z.div_pos; lia|apply Z.div_lt_upper_bound; lia]).
  split; [by apply u64_id|done].
Qed.

Definition total (l : list Z) : Z := fold_right Z.add 0 l.

Lemma intervals_total start r readings :
  start <= r -> steady r readings -> Forall (λ now, now < start + 2 ^ 63) readings ->
  total (intervals ((r - start) / NS_PER_MS) (timestamps start readings)) =
    (List.last readings r - start) / NS_PER_MS - (r - start) / NS_PER_MS ∧
  Forall (λ ms, 0 <= ms) (intervals ((r - start) / NS_PER_MS) (timestamps start readings)).
Proof.
  revert r. induction readings as [|now l IH]; intros r Hr Hs Hb; cbn [timestamps map intervals]; [cbn; split; [lia|constructor]|].
  destruct Hs as [Hn Hs]. apply Forall_cons in Hb as [Hb Hbs]. destruct (timestamp_value start start now ltac:(lia)) as [Ht Hu]. rewrite Ht.
  destruct (IH now ltac:(lia) Hs Hbs) as [Htot Hnn]. fold (timestamps start l).
  change (total (?x :: ?l')) with (x + total l'). rewrite Htot.
  assert (0 <= (r - start) / NS_PER_MS <= (now - start) / NS_PER_MS) as Hle.
  { unfold NS_PER_MS. split; [apply Z.div_pos; lia|apply Z.div_le_mono; lia]. }
  unfold is_u64 in Hu. rewrite u64_id by (unfold is_u64; lia). split; [|constructor; [lia|done]].
  replace (List.last (now :: l) r) with (List.last l now); [lia|]. destruct l as [|m l]; [done|]. clear.
  revert m. induction l as [|k l IHl]; intros m; [done|]. cbn in *. apply IHl.
Qed.

(** No time is lost or made up. When the clock is steady, what the callers hand to
    [tick] is never negative, and adds up to the time that has passed, to less
    than a millisecond, however often they look at the clock. *)
Theorem ticks_add_up start r readings :
  start <= r -> steady r readings -> Forall (λ now, now < start + 2 ^ 63) readings ->
  let ms := intervals ((r - start) / NS_PER_MS) (timestamps start readings) in
  Forall (λ ms, 0 <= ms) ms ∧ Z.abs (total ms * NS_PER_MS - (List.last readings r - r)) < NS_PER_MS.
Proof.
  intros Hr Hs Hb. cbv zeta. destruct (intervals_total start r readings Hr Hs Hb) as [-> Hn]. split; [done|].
  unfold NS_PER_MS. Z.to_euclidean_division_equations. lia.
Qed.

Lemma ticks_add_up_witness :
  intervals 0 (timestamps 100 [1999999; 2000099; 2000100; 9000100]) = [1; 0; 1; 7] ∧
  Z.abs (total [1; 0; 1; 7] * NS_PER_MS - (9000100 - 100)) < NS_PER_MS.
Proof.
  split; [vm_compute; reflexivity|].
  refine (proj2 (ticks_add_up 100 100 [1999999; 2000099; 2000100; 9000100] _ _ _)); [lia|cbn; lia|repeat constructor; lia].
Defined.

(** The first call starts the clock, not the program. *)
Lemma timestamp_first_call first : timestamp_ms None first first = (0, Some first).
Proof. unfold timestamp_ms. by rewrite Z.sub_diag. Qed.
