(* ===== verification/Format.v ===== *)
(** Text: the formatting of numbers that the printing functions of the
    source obtain from iostreams, [inet_ntoa] and [inet_aton], [strtol], and
    [hexdump] of [util/util.cc]. A [std::string] is its list of bytes. *)
From Stdlib Require Strings.String.
From S2P Require Import Prelude.

(** A string literal. *)
Definition chars (s : string) : list byte := String.list_byte_of_string s.

(** The message of an exception built from a [std::string]. *)
Definition message (s : list byte) : string := String.string_of_list_byte s.

Definition newline : byte := x0a.
Definition spaces (n : Z) : list byte := replicate (Z.to_nat n) x20.

(** ** Numbers *)

Definition digit_char (d : Z) : byte := byte_of (if d <? 10 then 48 + d else 87 + d).

(** The digits of a number, the last one first into [acc]. *)
Fixpoint digits_go (fuel : nat) (base n : Z) (acc : list byte) : list byte :=
  match fuel with
  | O => acc
  | S fuel =>
      let acc := digit_char (n mod base) :: acc in
      if n <? base then acc else digits_go fuel base (n / base) acc
  end.

(** [os << n] for an unsigned number of at most 64 bits. *)
Definition print_uint (base n : Z) : list byte := digits_go 64 base n [].
Definition dec (n : Z) : list byte := print_uint 10 n.
Definition hex (n : Z) : list byte := print_uint 16 n.

(** [std::boolalpha] *)
Definition bool_alpha (b : bool) : list byte := if b then chars "true" else chars "false".

(** [std::setw(w)] with [std::setfill(c)] *)
Definition pad (w : Z) (c : byte) (s : list byte) : list byte := replicate (Z.to_nat (w - zlen s)) c ++ s.

Definition digit_val (b : byte) : option Z :=
  let c := byte_val b in
  if (48 <=? c) && (c <=? 57) then Some (c - 48)
  else if (97 <=? c) && (c <=? 122) then Some (c - 87)
  else if (65 <=? c) && (c <=? 90) then Some (c - 55)
  else None.

(** Reads digits below [base]: the number, started at [acc], and the rest. *)
Fixpoint scan (base : Z) (s : list byte) (acc : Z) : Z * list byte :=
  match s with
  | [] => (acc, [])
  | c :: s' =>
      match digit_val c with
      | Some d => if d <? base then scan base s' (acc * base + d) else (acc, s)
      | None => (acc, s)
      end
  end.

Definition is_digit (base : Z) (s : list byte) : bool :=
  match s with
  | c :: _ => match digit_val c with Some d => d <? base | None => false end
  | [] => false
  end.

(** A number with the prefix of its base: [0x], [0] or none. *)
Definition scan_prefixed (s : list byte) : Z * list byte :=
  match s with
  | x30 :: (x78 | x58) :: s' => if is_digit 16 s' then scan 16 s' 0 else (0, tail s)
  | x30 :: _ => scan 8 s 0
  | _ => scan 10 s 0
  end.

Definition is_space (b : byte) : bool :=
  let c := byte_val b in (c =? 32) || ((9 <=? c) && (c <=? 13)).

Fixpoint skip_spaces (s : list byte) : list byte :=
  match s with
  | c :: s' => if is_space c then skip_spaces s' else s
  | [] => []
  end.

(** [strtol(s, nullptr, 0)] on a 64-bit [long]. *)
Definition strtol (s : list byte) : Z :=
  let s := skip_spaces s in
  let '(neg, s) := match s with
                   | x2d :: s' => (true, s')
                   | x2b :: s' => (false, s')
                   | _ => (false, s)
                   end in
  let n := (scan_prefixed s).1 in
  Z.max (- 2 ^ 63) (Z.min (2 ^ 63 - 1) (if neg then - n else n)).

#[global] Arguments chars : simpl never.
#[global] Arguments print_uint : simpl never.

(** ** Internet addresses in dotted notation *)

(** [inet_ntoa({htobe32(ip)})] *)
Definition inet_ntoa (ip : Z) : list byte :=
  dec (Z.shiftr ip 24) ++ x2e :: dec (Z.land (Z.shiftr ip 16) 0xff) ++
  x2e :: dec (Z.land (Z.shiftr ip 8) 0xff) ++ x2e :: dec (Z.land ip 0xff).

(** The numeric notations [getaddrinfo] accepts: one to four numbers, the
    last of which fills the remaining bytes. [parts] of them are left, [hi] is
    the value of those before. *)
Fixpoint aton_parts (parts : nat) (hi : Z) (s : list byte) : option Z :=
  if negb (is_digit 10 s) then None
  else
    let '(val, rest) := scan_prefixed s in
    match rest with
    | [] => if val <? 256 ^ Z.of_nat parts then Some (hi * 256 ^ Z.of_nat parts + val) else None
    | x2e :: rest =>
        match parts with
        | S (S _ as parts') => if val <? 256 then aton_parts parts' (hi * 256 + val) rest else None
        | _ => None
        end
    | _ => None
    end.
Definition inet_aton (s : list byte) : option Z := aton_parts 4 0 s.

(** ** [hexdump] *)

(** A [stringstream] constructed from a string: writing starts at its
    beginning and overwrites it. *)
Record stringstream := mkStream {
  ss_str : list byte;
  ss_pos : nat
}.
Definition stream_of (s : list byte) : stringstream := mkStream s 0.
Definition put (ss : stringstream) (c : byte) : stringstream :=
  mkStream (take (ss_pos ss) (ss_str ss) ++ c :: drop (S (ss_pos ss)) (ss_str ss)) (S (ss_pos ss)).

Definition isprint (b : byte) : bool := (32 <=? byte_val b) && (byte_val b <=? 126).

(** The state of the loop: what went to [cout], [pchars] and [printed]. *)
Record dump := mkDump {
  du_out : list byte;
  du_pchars : stringstream;
  du_printed : Z
}.

Definition dump_byte (indent : Z) (d : dump) (b : byte) : outcome dump :=
  let printed := du_printed d in
  let d :=
    if Z.land printed 0xf =? 0 then
      let d := if negb (printed =? 0)
               then mkDump (du_out d ++ spaces 4 ++ ss_str (du_pchars d) ++ [newline]) (stream_of [x20]) printed
               else d in
      mkDump (du_out d ++ spaces indent ++ pad 8 x30 (hex printed) ++ chars ":    ") (du_pchars d) printed
    else if Z.land printed 1 =? 0 then mkDump (du_out d ++ [x20]) (du_pchars d) printed
    else d in
  if printed =? 2 ^ 31 - 1 then Undef
  else Ret (mkDump (du_out d ++ pad 2 x30 (hex (byte_val b)))
              (put (du_pchars d) (if isprint b then b else x2e)) (printed + 1)).

Fixpoint dump_bytes (indent : Z) (d : dump) (data : list byte) : outcome dump :=
  match data with
  | [] => Ret d
  | b :: data => d ← dump_byte indent d b; dump_bytes indent d data
  end.

(** What [hexdump(data, len, indent)] prints. *)
Definition hexdump (data : list byte) (indent : Z) : outcome (list byte) :=
  d ← dump_bytes indent (mkDump [] (stream_of [x20]) 0) data;
  let print_rem := (16 - Z.land (du_printed d) 0xf) mod 16 in
  Ret (du_out d ++ spaces (2 * print_rem + print_rem / 2 + 4) ++ ss_str (du_pchars d) ++ [newline; newline]).

(** ** Reading back what was printed *)

Lemma digit_val_char d : 0 <= d < 16 -> digit_val (digit_char d) = Some d.
Proof.
  intros Hd. unfold digit_val, digit_char. rewrite byte_val_of.
  rewrite u8_id by (unfold is_u8; destruct (Z.ltb_spec d 10); lia).
  repeat case_match; destruct (Z.ltb_spec d 10); try (f_equal; lia); lia.
Qed.

Lemma scan_digits_go fuel base n acc :
  1 < base <= 16 -> 0 <= n < base ^ Z.of_nat (S fuel) ->
  ∃ k, 0 <= k ∧ ∀ v, scan base (digits_go (S fuel) base n acc) v = scan base acc (v * base ^ k + n).
Proof.
  intros Hb. revert n acc. induction fuel as [|fuel IH]; intros n acc Hn; cbn [digits_go];
    pose proof (Z.mod_pos_bound n base) as Hm.
  - rewrite Z.pow_1_r in Hn. exists 1. split; [lia|]. intros v.
    destruct (Z.ltb_spec n base); [|lia]. cbn [scan]. rewrite digit_val_char, Z.mod_small by lia.
    destruct (Z.ltb_spec n base); [|lia]. by rewrite Z.pow_1_r.
  - destruct (Z.ltb_spec n base) as [Hlt|Hge].
    + exists 1. split; [lia|]. intros v. cbn [scan]. rewrite digit_val_char, Z.mod_small by lia.
      destruct (Z.ltb_spec n base); [|lia]. by rewrite Z.pow_1_r.
    + destruct (IH (n / base) (digit_char (n mod base) :: acc)) as (k & Hk & Hs).
      { split; [apply Z.div_pos; lia|]. apply Z.div_lt_upper_bound; [lia|].
        rewrite <- Z.pow_succ_r by lia. replace (Z.succ (Z.of_nat (S fuel))) with (Z.of_nat (S (S fuel))) by lia. lia. }
      exists (k + 1). split; [lia|]. intros v.
      change (if n / base <? base then _ else _) with (digits_go (S fuel) base (n / base) (digit_char (n mod base) :: acc)).
      rewrite Hs. cbn [scan]. rewrite digit_val_char by lia. destruct (Z.ltb_spec (n mod base) base); [|lia].
      f_equal. rewrite Z.pow_add_r, Z.pow_1_r by lia. pose proof (Z.div_mod n base). nia.
Qed.

Lemma scan_stop base s v : is_digit base s = false -> scan base s v = (v, s).
Proof. destruct s as [|c s]; cbn; [done|]. destruct (digit_val c) as [d|]; [|done]. by intros ->. Qed.

Lemma digits_go_app fuel base n acc : digits_go fuel base n acc = digits_go fuel base n [] ++ acc.
Proof.
  revert n acc. induction fuel as [|fuel IH]; intros n acc; cbn [digits_go]; [done|].
  destruct (n <? base); [done|]. by rewrite IH, (IH _ [_]), <- app_assoc.
Qed.

(** Reading a printed number gives it back. *)
Lemma scan_print base n rest :
  1 < base <= 16 -> is_u64 n -> is_digit base rest = false -> scan base (print_uint base n ++ rest) 0 = (n, rest).
Proof.
  intros Hb Hn Hr. unfold print_uint. rewrite <- digits_go_app.
  destruct (scan_digits_go 63 base n rest Hb) as (k & _ & ->); [|by rewrite scan_stop].
  unfold is_u64 in Hn. split; [lia|]. apply Z.lt_le_trans with (2 ^ 64); [lia|]. apply Z.pow_le_mono_l. lia.
Qed.

Lemma print_uint_inj base n m : 1 < base <= 16 -> is_u64 n -> is_u64 m -> print_uint base n = print_uint base m -> n = m.
Proof.
  intros Hb Hn Hm He. pose proof (scan_print base n [] Hb Hn eq_refl) as H1.
  pose proof (scan_print base m [] Hb Hm eq_refl) as H2. rewrite He in H1. congruence.
Qed.

(** The first digit is the digit of a number below the base, zero for zero
    only. *)
Lemma digits_go_head fuel base n acc :
  1 < base -> 0 <= n < base ^ Z.of_nat (S fuel) ->
  ∃ d s, digits_go (S fuel) base n acc = digit_char d :: s ∧ 0 <= d < base ∧ (d = 0 -> n = 0 ∧ s = acc).
Proof.
  intros Hb. revert n acc. induction fuel as [|fuel IH]; intros n acc Hn; cbn [digits_go];
    (destruct (Z.ltb_spec n base) as [Hlt|Hge]; [exists n, acc; rewrite Z.mod_small by lia; split_and!; [done|lia|lia|by intros ->]|]).
  - rewrite Z.pow_1_r in Hn. lia.
  - change (if n / base <? base then _ else _) with (digits_go (S fuel) base (n / base) (digit_char (n mod base) :: acc)).
    destruct (IH (n / base) (digit_char (n mod base) :: acc)) as (d & s & He & Hd & H0).
    { split; [apply Z.div_pos; lia|]. apply Z.div_lt_upper_bound; [lia|].
      rewrite <- Z.pow_succ_r by lia. replace (Z.succ (Z.of_nat (S fuel))) with (Z.of_nat (S (S fuel))) by lia. lia. }
    exists d, s. split_and!; [done|lia|lia|]. intros [Hz _]%H0.
    assert (1 <= n / base) by (apply Z.div_le_lower_bound; lia). lia.
Qed.

Lemma digit_char_0 d : 0 <= d < 16 -> digit_char d = x30 -> d = 0.
Proof.
  intros Hd He. pose proof (digit_val_char d Hd) as Hv. rewrite He in Hv.
  change (digit_val x30) with (Some 0) in Hv. congruence.
Qed.

(** A decimal number is read in base ten, as its notation has no prefix. *)
Lemma scan_prefixed_dec n rest :
  is_u64 n -> is_digit 10 rest = false -> (∀ c s, rest = c :: s -> c ≠ x78 ∧ c ≠ x58) ->
  is_digit 10 (dec n ++ rest) = true ∧ scan_prefixed (dec n ++ rest) = (n, rest).
Proof.
  intros Hn Hr Hx. pose proof (scan_print 10 n rest ltac:(lia) Hn Hr) as Hs. unfold dec. revert Hs.
  unfold print_uint. rewrite <- digits_go_app.
  destruct (digits_go_head 63 10 n rest) as (d & s & -> & Hd & H0); [lia| |].
  { unfold is_u64 in Hn. split; [lia|]. apply Z.lt_le_trans with (2 ^ 64); [lia|]. apply Z.pow_le_mono_l. lia. }
  intros Hs. split; [cbn; rewrite digit_val_char by lia; lia|]. destruct (decide (d = 0)) as [->|Hne].
  - destruct (H0 eq_refl) as [-> ->]. change (digit_char 0) with x30. unfold scan_prefixed.
    assert (scan 8 (x30 :: rest) 0 = (0, rest)) as Hs8.
    { cbn [scan]. change (digit_val x30) with (Some 0). cbn [Z.ltb Z.compare]. apply scan_stop.
      destruct rest as [|c rest]; [done|]. cbn in Hr |- *. destruct (digit_val c); [|done]. lia. }
    destruct rest as [|c rest]; [done|]. destruct (Hx c rest eq_refl). destruct c; done.
  - assert (digit_char d ≠ x30) as H30 by (intros ?%digit_char_0; lia). unfold scan_prefixed.
    by destruct (digit_char d).
Qed.

Lemma land_ff z : Z.land z 0xff = z mod 256.
Proof. change 0xff with (Z.ones 8). by rewrite Z.land_ones. Qed.

Lemma aton_next parts hi n s :
  is_u8 n -> aton_parts (S (S parts)) hi (dec n ++ x2e :: s) = aton_parts (S parts) (hi * 256 + n) s.
Proof.
  intros Hn. destruct (scan_prefixed_dec n (x2e :: s)) as [Hd Hs];
    [unfold is_u64, is_u8 in *; lia|done|by intros c s' [= <- _]|].
  cbn [aton_parts]. rewrite Hd, Hs. cbn [negb]. by destruct (Z.ltb_spec n 256); [|unfold is_u8 in Hn; lia].
Qed.

Lemma aton_last hi n : is_u8 n -> aton_parts 1 hi (dec n) = Some (hi * 256 + n).
Proof.
  intros Hn. destruct (scan_prefixed_dec n []) as [Hd Hs]; [unfold is_u64, is_u8 in *; lia|done|done|].
  rewrite app_nil_r in *. cbn [aton_parts]. rewrite Hd, Hs. cbn [negb]. change (256 ^ Z.of_nat 1) with 256.
  by destruct (Z.ltb_spec n 256); [|unfold is_u8 in Hn; lia].
Qed.

(** Reading the dotted notation of an address gives it back. *)
(** [strtol] reads what was printed. *)
Lemma strtol_dec n : 0 <= n < 2 ^ 63 -> strtol (dec n) = n.
Proof.
  intros Hn. destruct (scan_prefixed_dec n []) as [Hd Hs]; [unfold is_u64; lia|done|done|]. rewrite app_nil_r in *.
  unfold strtol. destruct (dec n) as [|c s] eqn:He; [done|].
  assert (is_space c = false ∧ c ≠ x2d ∧ c ≠ x2b) as (Hsp & Hm & Hp) by (revert Hd; clear; by destruct c).
  cbn [skip_spaces]. rewrite Hsp.
  assert (match c :: s with x2d :: s' => (true, s') | x2b :: s' => (false, s') | _ => (false, c :: s) end = (false, c :: s)) as -> by (by destruct c).
  rewrite Hs. cbn [fst]. lia.
Qed.

Lemma inet_aton_ntoa ip : is_u32 ip -> inet_aton (inet_ntoa ip) = Some ip.
Proof.
  intros Hip. unfold inet_aton, inet_ntoa. rewrite !land_ff, !Z.shiftr_div_pow2 by lia.
  rewrite !aton_next, aton_last by uint_lia. f_equal. uint_lia.
Qed.

(** ** The layout of a dump *)

(** The bytes from column [j] on, in groups of two. *)
Fixpoint hex_columns (j : Z) (l : list byte) : list byte :=
  match l with
  | [] => []
  | b :: l =>
      (if (0 <? j) && (j mod 2 =? 0) then [x20] else []) ++ pad 2 x30 (hex (byte_val b)) ++ hex_columns (j + 1) l
  end.
Definition text_column (l : list byte) : list byte := map (λ b, if isprint b then b else x2e) l.

Definition dump_row (indent offset : Z) (l : list byte) : list byte :=
  spaces indent ++ pad 8 x30 (hex offset) ++ chars ":    " ++ hex_columns 0 l.

(** The rows of a dump: sixteen bytes each, with their text after four
    spaces, the text of a shorter last row in the column of the others. *)
Fixpoint dump_rows (indent offset : Z) (rows : list (list byte)) : list byte :=
  match rows with
  | [] => spaces 4 ++ [x20]
  | [l] =>
      let missing := 16 - zlen l in
      dump_row indent offset l ++ spaces (2 * missing + missing / 2 + 4) ++ text_column l
  | l :: rows => dump_row indent offset l ++ spaces 4 ++ text_column l ++ newline :: dump_rows indent (offset + 16) rows
  end.

(** Rows of sixteen bytes, the last one shorter but not empty. *)
Inductive rows_of : list byte -> list (list byte) -> Prop :=
| rows_none : rows_of [] []
| rows_last l : 0 < zlen l <= 16 -> rows_of l [l]
| rows_more l data rows : zlen l = 16 -> data ≠ [] -> rows_of data rows -> rows_of (l ++ data) (l :: rows).

Lemma land_low printed j : 0 <= j < 16 -> Z.divide 16 printed -> Z.land (printed + j) 0xf = j ∧ Z.land (printed + j) 1 = j mod 2.
Proof.
  intros Hj [k ->]. change 0xf with (Z.ones 4). change 1 with (Z.ones 1) at 1. rewrite !Z.land_ones by lia.
  change (2 ^ 4) with 16. change (2 ^ 1) with 2. Z.to_euclidean_division_equations. lia.
Qed.

Lemma put_end s c n : n = length s -> put (mkStream s n) c = mkStream (s ++ [c]) (S n).
Proof. intros ->. unfold put; cbn [ss_str ss_pos]. by rewrite take_ge, drop_ge by lia. Qed.

Lemma dump_in_row indent out s offset j l :
  Z.divide 16 offset -> 0 < j -> j + zlen l <= 16 -> zlen s = j -> 0 <= offset -> offset + j + zlen l < 2 ^ 31 ->
  dump_bytes indent (mkDump out (mkStream s (length s)) (offset + j)) l =
    Ret (mkDump (out ++ hex_columns j l) (mkStream (s ++ text_column l) (length (s ++ text_column l))) (offset + j + zlen l)).
Proof.
  intros Hd. revert out s j. induction l as [|b l IH]; intros out s j Hj Hl Hs Ho Hlt; cbn [dump_bytes hex_columns text_column map].
  { rewrite !app_nil_r. rewrite zlen_nil. by rewrite Z.add_0_r. }
  rewrite zlen_cons in *. pose proof (zlen_nonneg l). destruct (land_low offset j) as [H16 H2]; [lia|done|].
  unfold dump_byte. cbn [du_printed du_out du_pchars]. rewrite H16, H2.
  destruct (Z.eqb_spec j 0); [lia|]. destruct (Z.ltb_spec 0 j); [|lia]. cbn [andb].
  destruct (Z.eqb_spec (offset + j) (2 ^ 31 - 1)); [lia|].
  destruct (Z.eqb_spec (j mod 2) 0); unfold mbind, outcome_bind; cbn [du_out du_pchars]; rewrite put_end by done;
    (replace (S (length s)) with (length (s ++ [if isprint b then b else x2e])) by (rewrite length_app; cbn; lia));
    replace (offset + j + 1) with (offset + (j + 1)) by lia;
    (rewrite IH by (rewrite ?zlen_app, ?zlen_cons, ?zlen_nil; lia)); rewrite <- !app_assoc; cbn [app]; do 2 f_equal; lia.
Qed.

Lemma dump_first_row indent out pch offset l :
  Z.divide 16 offset -> 0 < zlen l <= 16 -> 0 <= offset -> offset + zlen l < 2 ^ 31 ->
  let out' := if offset =? 0 then out else out ++ spaces 4 ++ ss_str pch ++ [newline] in
  (offset = 0 -> pch = stream_of [x20]) ->
  dump_bytes indent (mkDump out pch offset) l =
    Ret (mkDump (out' ++ dump_row indent offset l) (mkStream (text_column l) (length (text_column l))) (offset + zlen l)).
Proof.
  intros Hd Hl Ho Hlt out' Hp. destruct l as [|b l]; [unfold zlen in Hl; cbn in Hl; lia|]. rewrite zlen_cons in *.
  destruct (land_low offset 0) as [H16 _]; [lia|done|]. rewrite Z.add_0_r in H16.
  cbn [dump_bytes]. unfold dump_byte at 1. cbn [du_printed du_out du_pchars]. rewrite H16.
  destruct (Z.eqb_spec offset (2 ^ 31 - 1)); [pose proof (zlen_nonneg l); lia|].
  unfold mbind, outcome_bind. cbn [Z.eqb].
  assert (∀ c, put (stream_of [x20]) c = mkStream [c] 1) as Hput by done.
  unfold dump_row, out'. destruct (Z.eqb_spec offset 0) as [Hz|Hz]; cbn [negb du_out du_pchars].
  - rewrite (Hp Hz), Hput, (dump_in_row indent _ [_] offset 1) by (done || lia).
    cbn [hex_columns text_column map app Z.ltb Z.compare andb]. rewrite <- !app_assoc. do 2 f_equal. lia.
  - rewrite Hput, (dump_in_row indent _ [_] offset 1) by (done || lia).
    cbn [hex_columns text_column map app Z.ltb Z.compare andb]. rewrite <- !app_assoc. do 2 f_equal. lia.
Qed.

Lemma dump_bytes_app indent d l1 l2 :
  dump_bytes indent d (l1 ++ l2) = dump_bytes indent d l1 ≫= λ d, dump_bytes indent d l2.
Proof.
  revert d. induction l1 as [|b l1 IH]; intros d; cbn [dump_bytes app]; [done|].
  destruct (dump_byte indent d b); [|done..]. unfold mbind, outcome_bind at 1 3. apply IH.
Qed.

(** What the end of [hexdump] prints after the loop. *)
Definition dump_end (d : dump) : list byte :=
  let print_rem := (16 - Z.land (du_printed d) 0xf) mod 16 in
  du_out d ++ spaces (2 * print_rem + print_rem / 2 + 4) ++ ss_str (du_pchars d).

Lemma dump_rows_spec indent data rows :
  rows_of data rows -> data ≠ [] -> ∀ out pch offset,
  Z.divide 16 offset -> 0 <= offset -> offset + zlen data < 2 ^ 31 -> (offset = 0 -> pch = stream_of [x20]) ->
  returns (dump_bytes indent (mkDump out pch offset) data) (λ d,
    dump_end d = (if offset =? 0 then out else out ++ spaces 4 ++ ss_str pch ++ [newline]) ++ dump_rows indent offset rows).
Proof.
  induction 1 as [|l Hl|l data rows Hl Hne Hr IH]; intros Hd out pch offset Hdiv Ho Hlt Hp; [done| |].
  - rewrite dump_first_row by (done || lia). apply returns_ret. unfold dump_end. cbn [du_printed du_out du_pchars ss_str dump_rows].
    replace ((16 - Z.land (offset + zlen l) 15) mod 16) with (16 - zlen l); [by rewrite <- !app_assoc|].
    change 15 with (Z.ones 4). rewrite Z.land_ones by lia. destruct Hdiv as [k ->].
    change (2 ^ 4) with 16. Z.to_euclidean_division_equations. lia.
  - rewrite zlen_app in Hlt. pose proof (zlen_nonneg data). rewrite dump_bytes_app, dump_first_row by (done || lia).
    unfold mbind, outcome_bind. eapply returns_mono; [apply (IH Hne); [|lia..]|].
    + rewrite Hl. by apply Z.divide_add_r; [|exists 1].
    + cbv beta. intros d ->. destruct (Z.eqb_spec (offset + zlen l) 0); [lia|]. cbn [ss_str].
      assert (rows ≠ []) as Hrne by (by destruct Hr). rewrite Hl.
      destruct rows as [|r rows]; [done|]. cbn [dump_rows]. by rewrite <- !app_assoc.
Qed.

Lemma rows_exist data : ∃ rows, rows_of data rows.
Proof.
  remember (length data) as n eqn:Hn. revert data Hn.
  induction (lt_wf n) as [n _ IH]; intros data ->. destruct (Z.leb_spec (zlen data) 16) as [Hle|Hgt].
  - destruct data as [|b data]; [by eexists; constructor|]. exists [b :: data]. constructor. zlen_lia.
  - assert (zlen (ztake 16 data) = 16) as Hl by (rewrite zlen_ztake; lia).
    assert (zlen (zdrop 16 data) = zlen data - 16) as Hd by (rewrite zlen_zdrop; lia).
    destruct (IH (length (zdrop 16 data))) with (data := zdrop 16 data) as [rows Hr]; [|done|].
    { unfold zlen in *. lia. }
    exists (ztake 16 data :: rows). rewrite <- (ztake_zdrop 16 data) at 1. constructor; [done| |done].
    intros He. rewrite He, zlen_nil in Hd. lia.
Qed.

Lemma rows_concat data rows : rows_of data rows -> concat rows = data.
Proof. induction 1 as [|l Hl|l data rows Hl Hne Hr IH]; cbn; [done|by rewrite app_nil_r|by rewrite IH]. Qed.

Lemma rows_nil data rows : rows_of data rows -> data = [] -> rows = [].
Proof.
  destruct 1 as [|l Hl|l data rows Hl Hne Hr]; intros He; [done|..].
  - subst l. unfold zlen in Hl. cbn in Hl. lia.
  - by apply app_eq_nil in He as [_ ->].
Qed.

Lemma hex_byte_width b : zlen (pad 2 x30 (hex (byte_val b))) = 2.
Proof. by destruct b. Qed.

Lemma hex_columns_width j l : 0 < j -> zlen (hex_columns j l) = 2 * zlen l + ((j + zlen l - 1) / 2 - (j - 1) / 2).
Proof.
  revert j. induction l as [|b l IH]; intros j Hj; cbn [hex_columns].
  - rewrite zlen_nil. replace (j + 0 - 1) with (j - 1) by lia. lia.
  - rewrite !zlen_app, IH, hex_byte_width, zlen_cons by lia.
    destruct (Z.ltb_spec 0 j); [|lia]. cbn [andb].
    destruct (Z.eqb_spec (j mod 2) 0); rewrite ?zlen_cons, ?zlen_nil; Z.to_euclidean_division_equations; lia.
Qed.

Lemma spaces_width n : 0 <= n -> zlen (spaces n) = n.
Proof. intros. unfold spaces. rewrite zlen_replicate. lia. Qed.

Lemma row_width l :
  0 < zlen l <= 16 -> zlen (hex_columns 0 l ++ spaces (2 * (16 - zlen l) + (16 - zlen l) / 2)) = 39.
Proof.
  destruct l as [|b l]; [unfold zlen; cbn; lia|]. intros Hl. rewrite zlen_app, spaces_width
    by (Z.to_euclidean_division_equations; lia).
  cbn [hex_columns]. rewrite !zlen_app, hex_columns_width, hex_byte_width, zlen_cons in * by lia.
  cbn [Z.ltb Z.compare andb]. rewrite zlen_nil. Z.to_euclidean_division_equations. lia.
Qed.

Lemma hexdump_rows indent data rows :
  rows_of data rows -> zlen data < 2 ^ 31 -> hexdump data indent = Ret (dump_rows indent 0 rows ++ [newline; newline]).
Proof.
  intros Hr Hlt. unfold hexdump. destruct (decide (data = [])) as [->|Hne]; [by rewrite (rows_nil _ _ Hr eq_refl)|].
  destruct (dump_rows_spec indent data rows Hr Hne [] (stream_of [x20]) 0) as (d & -> & Hd); [by exists 0|lia|lia|done|].
  unfold mbind, outcome_bind. cbn [Z.eqb app] in Hd. rewrite <- Hd. unfold dump_end. by rewrite <- !app_assoc.
Qed.

Lemma hexdump_returns data indent : zlen data < 2 ^ 31 -> ∃ text, hexdump data indent = Ret text.
Proof. intros Hlt. destruct (rows_exist data) as [rows Hr]. eexists. by apply hexdump_rows. Qed.

(** The output of [hexdump] on fewer than 2^31 bytes is the dump of its
    rows of sixteen bytes: offset, the bytes in hexadecimal in groups of two, and
    their printable characters, a shorter last row filled up so that its text
    starts where that of the others does. *)
Theorem hexdump_layout data indent :
  zlen data < 2 ^ 31 ->
  ∃ rows, rows_of data rows ∧ concat rows = data ∧
    hexdump data indent = Ret (dump_rows indent 0 rows ++ [newline; newline]) ∧
    Forall (λ l, zlen (hex_columns 0 l ++ spaces (2 * (16 - zlen l) + (16 - zlen l) / 2)) = 39) rows.
Proof.
  intros Hlt. destruct (rows_exist data) as [rows Hr]. exists rows. split_and!; [done|by apply rows_concat|by apply hexdump_rows|].
  clear Hlt. induction Hr; [constructor|by apply Forall_singleton, row_width|]. constructor; [|done]. apply row_width. lia.
Qed.

Lemma hexdump_layout_witness :
  ∃ rows, rows_of [x48; x69; x0a] rows ∧ concat rows = [x48; x69; x0a] ∧
    hexdump [x48; x69; x0a] 2 = Ret (dump_rows 2 0 rows ++ [newline; newline]) ∧
    Forall (λ l, zlen (hex_columns 0 l ++ spaces (2 * (16 - zlen l) + (16 - zlen l) / 2)) = 39) rows.
Proof. apply (hexdump_layout [x48; x69; x0a] 2). reflexivity. Defined.

Example hexdump_text :
  hexdump (chars "Hello, world!") 2 =
    Ret (chars "  00000000:    4865 6c6c 6f2c 2077 6f72 6c64 21           Hello, world!" ++ [newline; newline]).
Proof. reflexivity. Qed.
Example strtol_examples : map strtol (map chars ["42"; " -0x1F"; "010"; "9z"; ""; "99999999999999999999"]) =
  [42; -31; 8; 9; 0; 9223372036854775807].
Proof. reflexivity. Qed.
Example inet_aton_examples : map inet_aton (map chars ["10.0.0.1"; "0"; "1.2"; "256.1.1.1"; "1.2.3.4.5"; "host"]) =
  [Some 167772161; Some 0; Some 16777218; None; None; None].
Proof. reflexivity. Qed.
