(* ===== verification/Printing.v ===== *)
(** The printing functions of headers and messages: [to_string] and
    [summary] of [tcp_header.cc], [ipv4_header.cc], [ethernet_header.cc] and
    [arp_message.cc], and the output operator of sequence numbers. *)
From S2P Require Import Prelude Buffer WrappingIntegers Format TCPSegment IPv4 Ethernet.

(** [os << a] prints the raw value, in the base of the stream. *)
Definition print_seqno (base : Z) (a : WrappingInt32) : list byte := print_uint base (raw_value a).

(** [label << +n << '\n'] on a stream set to [hex] *)
Definition hex_line (label : string) (n : Z) : list byte := chars label ++ hex n ++ [newline].

Definition tcp_to_string (h : TCPHeader) : list byte :=
  hex_line "TCP source port: " (sport h) ++
  hex_line "TCP dest port: " (dport h) ++
  chars "TCP seqno: " ++ print_seqno 16 (seqno h) ++ [newline] ++
  chars "TCP ackno: " ++ print_seqno 16 (ackno h) ++ [newline] ++
  hex_line "TCP doff: " (doff h) ++
  chars "Flags: urg: " ++ bool_alpha (urg h) ++ chars " ack: " ++ bool_alpha (ack h) ++ chars " psh: " ++ bool_alpha (psh h) ++
  chars " rst: " ++ bool_alpha (rst h) ++ chars " syn: " ++ bool_alpha (syn h) ++
  chars " fin: " ++ bool_alpha (fin h) ++ [newline] ++
  hex_line "TCP winsize: " (win h) ++
  hex_line "TCP cksum: " (cksum h) ++
  hex_line "TCP uptr: " (uptr h).

Definition tcp_summary (h : TCPHeader) : list byte :=
  chars "Header(flags=" ++ (if syn h then chars "S" else []) ++ (if ack h then chars "A" else []) ++
  (if rst h then chars "R" else []) ++ (if fin h then chars "F" else []) ++
  chars ",seqno=" ++ print_seqno 10 (seqno h) ++ chars ",ack=" ++ print_seqno 10 (ackno h) ++
  chars ",win=" ++ dec (win h) ++ chars ")".

Definition ip_to_string (h : IPv4Header) : list byte :=
  hex_line "IP version: " (ip_ver h) ++
  hex_line "IP hdr len: " (ip_hlen h) ++
  hex_line "IP tos: " (ip_tos h) ++
  hex_line "IP dgram len: " (ip_len h) ++
  hex_line "IP id: " (ip_id h) ++
  chars "Flags: df: " ++ bool_alpha (ip_df h) ++ chars " mf: " ++ bool_alpha (ip_mf h) ++ [newline] ++
  hex_line "Offset: " (ip_offset h) ++
  hex_line "TTL: " (ip_ttl h) ++
  hex_line "Protocol: " (ip_proto h) ++
  hex_line "Checksum: " (ip_cksum h) ++
  hex_line "Src addr: " (ip_src h) ++
  hex_line "Dst addr: " (ip_dst h).

Definition ip_summary (h : IPv4Header) : list byte :=
  chars "IPv" ++ hex (ip_ver h) ++ chars ", " ++ chars "len=" ++ hex (ip_len h) ++ chars ", " ++
  chars "protocol=" ++ hex (ip_proto h) ++ chars ", " ++
  (if 10 <=? ip_ttl h then [] else chars "ttl=" ++ dec (ip_ttl h) ++ chars ", ") ++
  chars "src=" ++ inet_ntoa (ip_src h) ++ chars ", " ++ chars "dst=" ++ inet_ntoa (ip_dst h).

(** The loop over the bytes of an address, with a colon between them. *)
Fixpoint ethernet_to_string (address : EthernetAddress) : list byte :=
  match address with
  | [] => []
  | [b] => pad 2 x30 (hex b)
  | b :: address => pad 2 x30 (hex b) ++ chars ":" ++ ethernet_to_string address
  end.

Definition eth_header_to_string (h : EthernetHeader) : list byte :=
  chars "dst=" ++ ethernet_to_string (eth_dst h) ++ chars ", src=" ++ ethernet_to_string (eth_src h) ++
  chars ", type=" ++
  (if eth_type h =? TYPE_IPv4 then chars "IPv4"
   else if eth_type h =? TYPE_ARP then chars "ARP"
   else chars "[unknown type " ++ hex (eth_type h) ++ chars "!]").

Definition arp_to_string (m : ARPMessage) : list byte :=
  let opcode_str := chars "(unknown type)" in
  let opcode_str := if opcode m =? OPCODE_REQUEST then chars "REQUEST" else opcode_str in
  let opcode_str := if opcode m =? OPCODE_REPLY then chars "REPLY" else opcode_str in
  chars "opcode=" ++ opcode_str ++ chars ", sender=" ++ ethernet_to_string (sender_ethernet_address m) ++ chars "/" ++
  inet_ntoa (sender_ip_address m) ++ chars ", target=" ++ ethernet_to_string (target_ethernet_address m) ++ chars "/" ++
  inet_ntoa (target_ip_address m).

(** ** A printed header identifies the header *)

Lemma print_inj base n m r1 r2 :
  1 < base <= 16 -> is_u64 n -> is_u64 m -> is_digit base r1 = false -> is_digit base r2 = false ->
  print_uint base n ++ r1 = print_uint base m ++ r2 -> n = m ∧ r1 = r2.
Proof.
  intros Hb Hn Hm H1 H2 He. pose proof (scan_print base n r1 Hb Hn H1) as Hs1.
  pose proof (scan_print base m r2 Hb Hm H2) as Hs2. rewrite He, Hs2 in Hs1. by injection Hs1 as -> ->.
Qed.

Lemma line_inj base n m s1 s2 :
  1 < base <= 16 -> is_u64 n -> is_u64 m ->
  print_uint base n ++ [newline] ++ s1 = print_uint base m ++ [newline] ++ s2 -> n = m ∧ s1 = s2.
Proof. intros Hb Hn Hm [-> [= ->]]%print_inj; done. Qed.

Lemma hex_line_inj label n m s1 s2 :
  is_u64 n -> is_u64 m -> hex_line label n ++ s1 = hex_line label m ++ s2 -> n = m ∧ s1 = s2.
Proof.
  intros Hn Hm. unfold hex_line. rewrite <- !app_assoc. intros He%app_inv_head. by apply line_inj in He.
Qed.

Lemma bool_inj b c s1 s2 : bool_alpha b ++ s1 = bool_alpha c ++ s2 -> b = c ∧ s1 = s2.
Proof. destruct b, c; cbn; intros [=]; done. Qed.

(** Peels the common fields off an equation between two printed headers. *)
Ltac peel H :=
  let peel_with L :=
    (let Ha := fresh "Hf" in apply L in H as [Ha H]; [|unfold_uint; lia..]) in
  lazymatch type of H with
  | hex_line _ _ ++ _ = _ => peel_with hex_line_inj
  | hex_line _ _ = _ => apply (f_equal (λ s, s ++ [])) in H; peel_with hex_line_inj
  | bool_alpha _ ++ _ = _ => apply bool_inj in H as [? H]
  | print_uint _ _ ++ _ = _ => peel_with line_inj
  | newline :: _ = _ => apply (app_inv_head [newline]) in H
  | _ ++ _ = _ => apply app_inv_head in H
  end.

(** [to_string] loses nothing of a well-formed TCP or IPv4 header: headers
    that print the same are the same. *)
Theorem to_string_inj :
  (∀ h h', header_ok h -> header_ok h' -> tcp_to_string h = tcp_to_string h' -> h = h') ∧
  (∀ h h', ip_header_ok h -> ip_header_ok h' -> ip_to_string h = ip_to_string h' -> h = h').
Proof.
  split.
  - intros [? ? [?] [?] ? ? ? ? ? ? ? ? ? ?] [? ? [?] [?] ? ? ? ? ? ? ? ? ? ?] [] [] He.
    unfold tcp_to_string, print_seqno in He. cbn in *. unfold_uint.
    repeat peel He. by subst.
  - intros [] [] [] [] He. unfold ip_to_string in He. cbn in *. unfold_uint.
    repeat peel He. by subst.
Qed.

Example printed_headers :
  tcp_summary (set_syn true (set_win 64000 default_header)) = chars "Header(flags=S,seqno=0,ack=0,win=64000)" ∧
  ip_summary (set_ip_addresses 167772161 2886729730 default_ip_header) =
    chars "IPv4, len=0, protocol=6, src=10.0.0.1, dst=172.16.0.2" ∧
  eth_header_to_string sample_eth_header = chars "dst=ff:ff:ff:ff:ff:ff, src=02:00:00:00:00:01, type=ARP".
Proof. done. Qed.

