(* ===== verification/Address.v ===== *)
(** [util/address.hh], [util/address.cc]: IPv4 socket addresses. On numeric
    addresses and ports [getaddrinfo] and [getnameinfo] convert between numbers
    and their notation; the lookup of names is an argument. *)
From S2P Require Import Prelude Format.

Definition AF_INET : Z := 2.
(** [sizeof(sockaddr_in)] *)
Definition sockaddr_in_size : Z := 16.

(** A [sockaddr_storage] and the length in use; the fields are those of a
    [sockaddr_in], in host byte order. *)
Record Address := mkAddress {
  ad_size : Z;
  ad_family : Z;
  ad_port : Z;
  ad_ip : Z
}.

#[export] Instance Address_eq_dec : EqDecision Address.
Proof. solve_decision. Defined.

Definition ipv4_numeric (a : Address) : outcome Z :=
  if negb (ad_family a =? AF_INET) || negb (ad_size a =? sockaddr_in_size) then
    Throw (runtime_error "ipv4_numeric called on non-IPV4 address")
  else Ret (ad_ip a).

Definition from_ipv4_numeric (ip_address : Z) : Address := mkAddress sockaddr_in_size AF_INET 0 ip_address.

(** The lookup of a host name and of a service name: an address or a port, or
    the error code of [getaddrinfo]. *)
Class Resolver := {
  lookup_host : list byte -> Z + Z;
  lookup_service : list byte -> Z + Z
}.

Definition EAI_NONAME : Z := -2.
Definition EAI_FAMILY : Z := -6.

(** The service argument of [getaddrinfo]: a decimal number, of which the
    socket address holds 16 bits, or a name. *)
Definition numeric_service (service : list byte) : option Z :=
  match scan 10 service 0 with
  | (n, []) => Some (u16 n)
  | _ => None
  end.

(** The fields of [addrinfo] that are given as hints; the others are zero. *)
Record addrinfo := mkAddrinfo {
  ai_flags : Z;
  ai_family : Z
}.

Definition make_hints (flags family : Z) : addrinfo := mkAddrinfo flags family.

Definition AI_NUMERICHOST : Z := 0x4.
Definition AI_ALL : Z := 0x10.
Definition AI_NUMERICSERV : Z := 0x400.

Definition has_flag (hints : addrinfo) (flag : Z) : bool := negb (Z.land (ai_flags hints) flag =? 0).

(** [getaddrinfo] for IPv4: two flags forbid lookups, and [AI_ALL] says nothing
    without [AI_V4MAPPED]. *)
Definition getaddrinfo `{Resolver} (node service : list byte) (hints : addrinfo) : Z + (Z * Z) :=
  let host := match inet_aton node with
              | Some ip => inr ip
              | None => if has_flag hints AI_NUMERICHOST then inl EAI_NONAME else lookup_host node
              end in
  let port := match numeric_service service with
              | Some n => inr n
              | None => if has_flag hints AI_NUMERICSERV then inl EAI_NONAME else lookup_service service
              end in
  match port, host with
  | inr n, inr ip => inr (ip, n)
  | inl code, _ | _, inl code => inl code
  end.

(** [Address(node, service, hints)]; [getaddrinfo] gives a result when it
    succeeds. *)
Definition resolve_address `{Resolver} (node service : list byte) (hints : addrinfo) : outcome Address :=
  match getaddrinfo node service hints with
  | inl code => Throw (tagged_error (message (chars "getaddrinfo(" ++ node ++ chars ", " ++ service ++ chars ")")) code)
  | inr (ip, n) => Ret (mkAddress sockaddr_in_size AF_INET n ip)
  end.

(** [Address(hostname, service)] *)
Definition Address_named `{Resolver} (hostname service : list byte) : outcome Address :=
  resolve_address hostname service (make_hints AI_ALL AF_INET).

(** [Address(ip, port)], which never looks anything up. *)
Definition no_lookup : Resolver := {| lookup_host := λ _, inl EAI_NONAME; lookup_service := λ _, inl EAI_NONAME |}.
Definition Address_numeric (ip : list byte) (port : Z) : outcome Address :=
  resolve_address (H := no_lookup) ip (dec port) (make_hints (Z.lor AI_NUMERICHOST AI_NUMERICSERV) AF_INET).

(** [ip_port()]: [getnameinfo] prints address and port as numbers, and
    [stoi] reads the port. *)
Definition ip_port (a : Address) : outcome (list byte * Z) :=
  if negb (ad_family a =? AF_INET) || (ad_size a <? sockaddr_in_size) then Throw (tagged_error "getnameinfo" EAI_FAMILY)
  else Ret (inet_ntoa (ad_ip a), u16 (scan 10 (dec (ad_port a)) 0).1).

Definition address_to_string (a : Address) : outcome (list byte) :=
  '(ip, p) ← ip_port a; Ret (ip ++ chars ":" ++ dec p).

(** [port()] of an IPv4 address: [getnameinfo] prints the port number of the
    socket address, which [stoi] reads back. *)
Definition port (a : Address) : Z := ad_port a.

(** [Address(inet_ntoa({htobe32(ip)}), port)]: [getaddrinfo] with
    [AI_NUMERICHOST] and [AI_NUMERICSERV] on the dotted quad of [ip]. *)
Definition Address_of_ip (ip port : Z) : Address := mkAddress sockaddr_in_size AF_INET port ip.

(** [Address::Address(const sockaddr *, size_t)]; the size of a
    [sockaddr_storage] is 128. *)
Definition Address_of_sockaddr (addr : Address) (size : Z) : outcome Address :=
  if 128 <? size then Throw (runtime_error "invalid sockaddr size")
  else Ret (mkAddress size (ad_family addr) (ad_port addr) (ad_ip addr)).

(** [operator==], on addresses of [sockaddr_in] size. *)
Definition address_eqb (a other : Address) : bool :=
  if negb (ad_size a =? ad_size other) then false else bool_decide (a = other).

(** An IPv4 address. *)
Definition ipv4_ok (a : Address) : Prop :=
  ad_family a = AF_INET ∧ ad_size a = sockaddr_in_size ∧ is_u32 (ad_ip a) ∧ is_u16 (ad_port a).

Lemma ipv4_numeric_ok a : ipv4_ok a -> ipv4_numeric a = Ret (ad_ip a).
Proof. intros (Hf & Hs & _). unfold ipv4_numeric. by rewrite Hf, Hs. Qed.

Lemma from_ipv4_ok ip : is_u32 ip -> ipv4_ok (from_ipv4_numeric ip) ∧ ad_ip (from_ipv4_numeric ip) = ip.
Proof. intros. split; [|done]. unfold ipv4_ok, is_u16. cbn. split_and!; done || lia. Qed.

Lemma Address_of_ip_ok ip p : is_u32 ip -> is_u16 p -> ipv4_ok (Address_of_ip ip p).
Proof. done. Qed.

Lemma address_eqb_eq a b : address_eqb a b = true <-> a = b.
Proof.
  unfold address_eqb. split; [|intros ->; rewrite Z.eqb_refl; by apply bool_decide_eq_true].
  destruct (negb _); [done|]. by rewrite bool_decide_eq_true.
Qed.

(** The constructor from a dotted quad and a port, on the text of an address. *)
Lemma Address_numeric_ntoa ip p : is_u32 ip -> is_u16 p -> Address_numeric (inet_ntoa ip) p = Ret (Address_of_ip ip p).
Proof.
  intros Hip Hp. unfold Address_numeric, resolve_address, getaddrinfo. rewrite inet_aton_ntoa by done.
  unfold numeric_service, dec. rewrite <- (app_nil_r (print_uint 10 p)), scan_print by (done || uint_lia).
  by rewrite u16_id.
Qed.

(** An IPv4 address survives printing: [ip_port()] gives a text and a
    port from which the constructor builds the same address, and the port is the
    address's own; equal texts mean equal addresses. *)
Theorem address_text_roundtrip a :
  ipv4_ok a ->
  ∃ text, ip_port a = Ret (text, port a) ∧ Address_numeric text (port a) = Ret a ∧
    address_to_string a = Ret (text ++ chars ":" ++ dec (port a)) ∧
    ∀ b, ipv4_ok b -> ip_port b = ip_port a -> b = a.
Proof.
  assert (∀ a, ipv4_ok a -> ip_port a = Ret (inet_ntoa (ad_ip a), port a) ∧ Address_numeric (inet_ntoa (ad_ip a)) (port a) = Ret a) as H.
  { intros [sz fam p ip] (Hf & Hs & Hip & Hp). cbn in *. subst. split.
    - unfold ip_port, dec. cbn [ad_family ad_size ad_port ad_ip port].
      rewrite <- (app_nil_r (print_uint 10 p)), scan_print by (done || uint_lia). cbn. by rewrite u16_id.
    - by apply Address_numeric_ntoa. }
  intros Ha. destruct (H a Ha) as [Hp Hn]. exists (inet_ntoa (ad_ip a)). split_and!; [done|done|by unfold address_to_string; rewrite Hp|].
  intros b Hb Heq. destruct (H b Hb) as [Hpb Hnb]. rewrite Hp, Hpb in Heq. injection Heq as Hi Hport. congruence.
Qed.

Lemma address_text_roundtrip_witness :
  ∃ text, ip_port (Address_of_ip 2886729729 1440) = Ret (text, 1440) ∧
    Address_numeric text 1440 = Ret (Address_of_ip 2886729729 1440) ∧
    address_to_string (Address_of_ip 2886729729 1440) = Ret (text ++ chars ":" ++ dec 1440) ∧
    ∀ b, ipv4_ok b -> ip_port b = ip_port (Address_of_ip 2886729729 1440) -> b = Address_of_ip 2886729729 1440.
Proof. apply (address_text_roundtrip (Address_of_ip 2886729729 1440)). apply Address_of_ip_ok; uint_lia. Defined.

Example address_texts :
  address_to_string (Address_of_ip 2886729729 1440) = Ret (chars "172.16.0.1:1440") ∧
  Address_numeric (chars "host") 1 = Throw (tagged_error "getaddrinfo(host, 1)" EAI_NONAME).
Proof. done. Qed.
