(* ===== verification/NetworkInterface.v ===== *)
(** [network_interface.hh], [network_interface.cc]: between Internet
    datagrams and Ethernet frames, with ARP. *)
From S2P Require Import Prelude Buffer Parser Checksum IPv4 Ethernet Address.

Definition FIVE_THOUSANDS_MS : Z := 5000.
Definition THIRTY_THOUSANDS_MS : Z := 30000.

Record NetworkInterface := mkInterface {
  ni_ethernet_address : EthernetAddress;
  ni_ip_address : Address;
  ni_frames_out : list EthernetFrame;
  ni_ip_to_eth_table : gmap Z EthernetAddress;
  ni_ip_timeout_table : gmap Z Z;
  ni_dg_map : gmap Z (list IPv4Datagram);
  ni_system_time : Z
}.

Definition new_NetworkInterface (ethernet_address : EthernetAddress) (ip_address : Address) : NetworkInterface :=
  mkInterface ethernet_address ip_address [] ∅ ∅ ∅ 0.

(** Assignments to one member. *)
Definition set_frames (q : list EthernetFrame) (n : NetworkInterface) : NetworkInterface :=
  mkInterface (ni_ethernet_address n) (ni_ip_address n) q (ni_ip_to_eth_table n) (ni_ip_timeout_table n)
    (ni_dg_map n) (ni_system_time n).
Definition set_eth_table (m : gmap Z EthernetAddress) (n : NetworkInterface) : NetworkInterface :=
  mkInterface (ni_ethernet_address n) (ni_ip_address n) (ni_frames_out n) m (ni_ip_timeout_table n)
    (ni_dg_map n) (ni_system_time n).
Definition set_timeout_table (m : gmap Z Z) (n : NetworkInterface) : NetworkInterface :=
  mkInterface (ni_ethernet_address n) (ni_ip_address n) (ni_frames_out n) (ni_ip_to_eth_table n) m
    (ni_dg_map n) (ni_system_time n).
Definition set_dg_map (m : gmap Z (list IPv4Datagram)) (n : NetworkInterface) : NetworkInterface :=
  mkInterface (ni_ethernet_address n) (ni_ip_address n) (ni_frames_out n) (ni_ip_to_eth_table n)
    (ni_ip_timeout_table n) m (ni_system_time n).
Definition set_system_time (t : Z) (n : NetworkInterface) : NetworkInterface :=
  mkInterface (ni_ethernet_address n) (ni_ip_address n) (ni_frames_out n) (ni_ip_to_eth_table n)
    (ni_ip_timeout_table n) (ni_dg_map n) t.

(** [std::map::insert]: an existing entry is left alone. *)
Definition insert_new {V} (k : Z) (v : V) (m : gmap Z V) : gmap Z V :=
  match m !! k with Some _ => m | None => <[k := v]> m end.

(** [_dg_map[ip]], which creates an empty queue where there is none. *)
Definition queue_at (n : NetworkInterface) (ip : Z) : list IPv4Datagram := default [] (ni_dg_map n !! ip).

(** [_dg_map[ip].push(dgram)] *)
Definition push_datagram (ip : Z) (dgram : IPv4Datagram) (n : NetworkInterface) : NetworkInterface :=
  set_dg_map (<[ip := queue_at n ip ++ [dgram]]> (ni_dg_map n)) n.

Definition push_frame (f : EthernetFrame) (n : NetworkInterface) : NetworkInterface :=
  set_frames (ni_frames_out n ++ [f]) n.

(** The loop of [flush_buffer], over the queue it empties. *)
Fixpoint flush_loop (q : list IPv4Datagram) (ip_addr : Z) (eth_addr : EthernetAddress) (n : NetworkInterface)
    : outcome NetworkInterface :=
  match q with
  | [] => Ret (set_dg_map (<[ip_addr := []]> (ni_dg_map n)) n)
  | dg :: q' =>
      payload ← datagram_serialize dg;
      let n := set_dg_map (<[ip_addr := q']> (ni_dg_map n)) n in
      flush_loop q' ip_addr eth_addr
        (push_frame (mkEthernetFrame (mkEthernetHeader eth_addr (ni_ethernet_address n) TYPE_IPv4) payload) n)
  end.
Definition flush_buffer (n : NetworkInterface) (ip_addr : Z) (eth_addr : EthernetAddress) : outcome NetworkInterface :=
  flush_loop (queue_at n ip_addr) ip_addr eth_addr n.

Definition send_datagram (n : NetworkInterface) (dgram : IPv4Datagram) (next_hop : Address) : outcome NetworkInterface :=
  next_hop_ip ← ipv4_numeric next_hop;
  let n := set_dg_map (insert_new next_hop_ip [] (ni_dg_map n)) n in
  let to_it := ni_ip_timeout_table n !! next_hop_ip in
  match ni_ip_to_eth_table n !! next_hop_ip with
  | Some eth => flush_buffer (push_datagram next_hop_ip dgram n) next_hop_ip eth
  | None =>
      let n := push_datagram next_hop_ip dgram n in
      let ask := match to_it with
                 | None => true
                 | Some t => FIVE_THOUSANDS_MS <? u64 (ni_system_time n - t)
                 end in
      if ask then
        own_ip ← ipv4_numeric (ni_ip_address n);
        s ← arp_serialize (mkARP TYPE_ETHERNET TYPE_IPv4 6 4 OPCODE_REQUEST (ni_ethernet_address n) own_ip
                             zero_address next_hop_ip);
        let n := push_frame (mkEthernetFrame (mkEthernetHeader ETHERNET_BROADCAST (ni_ethernet_address n) TYPE_ARP)
                               [Buffer_of_string s]) n in
        match to_it with
        | None => Ret (set_timeout_table (insert_new next_hop_ip (ni_system_time n) (ni_ip_timeout_table n)) n)
        | Some _ => Ret n
        end
      else Ret n
  end.

(** What is learned from an ARP message: nothing where the address is known. *)
Definition learn (n : NetworkInterface) (ip : Z) (eth : EthernetAddress) : NetworkInterface :=
  match ni_ip_to_eth_table n !! ip with
  | Some _ => n
  | None =>
      set_timeout_table (insert_new ip (ni_system_time n) (ni_ip_timeout_table n))
        (set_eth_table (insert_new ip eth (ni_ip_to_eth_table n)) n)
  end.

Definition receive_arp (n : NetworkInterface) (arp_req : ARPMessage) (src : EthernetAddress) : outcome NetworkInterface :=
  let n := learn n (sender_ip_address arp_req) src in
  own_ip ← ipv4_numeric (ni_ip_address n);
  if (target_ip_address arp_req =? own_ip) && (opcode arp_req =? OPCODE_REQUEST) then
    s ← arp_serialize (mkARP TYPE_ETHERNET TYPE_IPv4 6 4 OPCODE_REPLY (ni_ethernet_address n) own_ip
                         src (sender_ip_address arp_req));
    Ret (push_frame (mkEthernetFrame (mkEthernetHeader src (ni_ethernet_address n) TYPE_ARP) [Buffer_of_string s]) n)
  else if (target_ip_address arp_req =? own_ip) && (opcode arp_req =? OPCODE_REPLY) then
    flush_buffer n (sender_ip_address arp_req) (sender_ethernet_address arp_req)
  else Ret n.

Definition recv_frame (n : NetworkInterface) (frame : EthernetFrame) : outcome (NetworkInterface * option IPv4Datagram) :=
  let payload := Buffer_of_string (concatenate (fr_payload frame)) in
  let h := fr_header frame in
  if negb (bool_decide (eth_dst h = ETHERNET_BROADCAST)) && negb (bool_decide (eth_dst h = ni_ethernet_address n)) then
    Ret (n, None)
  else if eth_type h =? TYPE_IPv4 then
    '(dgram, res) ← datagram_parse default_datagram payload;
    if bool_decide (res = NoError) then Ret (n, Some dgram) else Ret (n, None)
  else if eth_type h =? TYPE_ARP then
    '(arp_req, res) ← arp_parse default_arp payload;
    if bool_decide (res = NoError) then n ← receive_arp n arp_req (eth_src h); Ret (n, None)
    else Ret (n, None)
  else Ret (n, None).

(** The keys whose time is more than thirty seconds ago. *)
Definition expired (n : NetworkInterface) : list Z :=
  map fst (filter (λ p, THIRTY_THOUSANDS_MS <? u64 (ni_system_time n - p.2)) (map_to_list (ni_ip_timeout_table n))).

Definition tick (n : NetworkInterface) (ms_since_last_tick : Z) : NetworkInterface :=
  let n := set_system_time (u64 (ni_system_time n + ms_since_last_tick)) n in
  let q := expired n in
  set_timeout_table (foldr delete (ni_ip_timeout_table n) q)
    (set_eth_table (foldr delete (ni_ip_to_eth_table n) q) n).

(** ** Invariant *)

Record interface_ok (n : NetworkInterface) : Prop := {
  nk_eth : address_ok (ni_ethernet_address n);
  nk_ip : ipv4_ok (ni_ip_address n);
  nk_queues : map_Forall (λ _ q, Forall datagram_ok q) (ni_dg_map n);
  nk_learned : map_Forall (λ ip eth, address_ok eth ∧ is_Some (ni_ip_timeout_table n !! ip)) (ni_ip_to_eth_table n);
  nk_times : map_Forall (λ _ t, 0 <= t <= ni_system_time n) (ni_ip_timeout_table n);
  nk_time : is_u64 (ni_system_time n)
}.

Definition own_ip (n : NetworkInterface) : Z := ad_ip (ni_ip_address n).

(** The frames the interface emits. *)
Definition dg_frame (own eth : EthernetAddress) (dg : IPv4Datagram) : EthernetFrame :=
  mkEthernetFrame (mkEthernetHeader eth own TYPE_IPv4) (dg_wire dg).
Definition arp_frame (dst : EthernetAddress) (m : ARPMessage) : EthernetFrame :=
  mkEthernetFrame (mkEthernetHeader dst (sender_ethernet_address m) TYPE_ARP) [Buffer_of_string (arp_bytes m)].
Definition arp_request (n : NetworkInterface) (ip : Z) : ARPMessage :=
  mkARP TYPE_ETHERNET TYPE_IPv4 6 4 OPCODE_REQUEST (ni_ethernet_address n) (own_ip n) zero_address ip.
Definition arp_reply (n : NetworkInterface) (eth : EthernetAddress) (ip : Z) : ARPMessage :=
  mkARP TYPE_ETHERNET TYPE_IPv4 6 4 OPCODE_REPLY (ni_ethernet_address n) (own_ip n) eth ip.

(** Whether a request for [ip] goes out with the next datagram for it. *)
Definition must_ask (n : NetworkInterface) (ip : Z) : bool :=
  match ni_ip_timeout_table n !! ip with
  | None => true
  | Some t => 5000 <? ni_system_time n - t
  end.

Lemma zero_address_ok : address_ok zero_address.
Proof. by apply address_ok_check. Qed.
Lemma broadcast_ok : address_ok ETHERNET_BROADCAST.
Proof. by apply address_ok_check. Qed.

Lemma nk_own n : interface_ok n -> is_u32 (own_ip n).
Proof. intros []. unfold own_ip. by destruct nk_ip0 as (_ & _ & ? & _). Qed.

Lemma arp_request_ok n ip : interface_ok n -> is_u32 ip -> arp_ok (arp_request n ip).
Proof. intros Hn Hip. pose proof (nk_own n Hn). destruct Hn. split; cbn; done || apply zero_address_ok. Qed.
Lemma arp_reply_ok n eth ip : interface_ok n -> address_ok eth -> is_u32 ip -> arp_ok (arp_reply n eth ip).
Proof. intros Hn He Hip. pose proof (nk_own n Hn). destruct Hn. split; cbn; done. Qed.

Lemma queue_ok n ip : interface_ok n -> Forall datagram_ok (queue_at n ip).
Proof.
  intros Hn. unfold queue_at. destruct (ni_dg_map n !! ip) as [q|] eqn:Hq; [|constructor].
  by apply (nk_queues n Hn ip q).
Qed.

Lemma queue_at_insert n m ip q ip' :
  ni_dg_map n = <[ip := q]> m -> queue_at n ip' = if bool_decide (ip' = ip) then q else default [] (m !! ip').
Proof.
  unfold queue_at. intros ->. case_bool_decide as H; [by subst; rewrite lookup_insert_eq|by rewrite lookup_insert_ne].
Qed.

Lemma flush_loop_spec q ip eth n :
  Forall datagram_ok q ->
  flush_loop q ip eth n =
    Ret (set_frames (ni_frames_out n ++ map (dg_frame (ni_ethernet_address n) eth) q)
           (set_dg_map (<[ip := []]> (ni_dg_map n)) n)).
Proof.
  revert n. induction q as [|dg q IH]; intros n Hq; cbn [flush_loop map].
  - by rewrite app_nil_r.
  - apply Forall_cons in Hq as [Hdg Hq]. rewrite datagram_serialize_spec by done.
    unfold mbind, outcome_bind. rewrite IH by done.
    unfold push_frame, set_frames, set_dg_map; cbn. by rewrite insert_insert_eq, <- app_assoc.
Qed.

Lemma insert_new_insert {V} k (v w : V) m : <[k := w]> (insert_new k v m) = <[k := w]> m.
Proof. unfold insert_new. destruct (m !! k); [done|]. by rewrite insert_insert_eq. Qed.

Lemma queue_insert_new ip ip' (m : gmap Z (list IPv4Datagram)) :
  default [] (insert_new ip [] m !! ip') = default [] (m !! ip').
Proof.
  unfold insert_new. destruct (m !! ip) eqn:Hm; [done|]. destruct (decide (ip' = ip)) as [->|].
  - by rewrite lookup_insert_eq, Hm.
  - by rewrite lookup_insert_ne.
Qed.

(** *** [send_datagram] *)

(** What [send_datagram] does, as one expression. *)
Definition sent (n : NetworkInterface) (dgram : IPv4Datagram) (ip : Z) : NetworkInterface :=
  match ni_ip_to_eth_table n !! ip with
  | Some eth =>
      set_frames (ni_frames_out n ++ map (dg_frame (ni_ethernet_address n) eth) (queue_at n ip ++ [dgram]))
        (set_dg_map (<[ip := []]> (ni_dg_map n)) n)
  | None =>
      set_timeout_table (insert_new ip (ni_system_time n) (ni_ip_timeout_table n))
        (set_frames (ni_frames_out n ++ if must_ask n ip then [arp_frame ETHERNET_BROADCAST (arp_request n ip)] else [])
          (set_dg_map (<[ip := queue_at n ip ++ [dgram]]> (ni_dg_map n)) n))
  end.

Lemma asked_time n t ip :
  interface_ok n -> ni_ip_timeout_table n !! ip = Some t -> u64 (ni_system_time n - t) = ni_system_time n - t.
Proof.
  intros Hn Ht. pose proof (nk_times n Hn ip t Ht) as H. cbn in H. pose proof (nk_time n Hn) as Hu.
  apply u64_id. unfold is_u64 in *. lia.
Qed.

Lemma send_datagram_sent n dgram hop :
  interface_ok n -> datagram_ok dgram -> ipv4_ok hop -> send_datagram n dgram hop = Ret (sent n dgram (ad_ip hop)).
Proof.
  intros Hn Hd Hh. unfold send_datagram, sent. rewrite ipv4_numeric_ok by done. unfold mbind, outcome_bind at 1.
  pose proof Hh as (_ & _ & Hip & _). set (ip := ad_ip hop) in *.
  assert (queue_at (set_dg_map (insert_new ip [] (ni_dg_map n)) n) ip = queue_at n ip) as Hq
    by apply queue_insert_new.
  unfold push_datagram. rewrite Hq. cbn [ni_ip_to_eth_table ni_ip_timeout_table ni_dg_map set_dg_map].
  rewrite insert_new_insert. destruct (ni_ip_to_eth_table n !! ip) as [eth|].
  { unfold flush_buffer. erewrite queue_at_insert by reflexivity. rewrite bool_decide_true by done.
    rewrite flush_loop_spec by (apply Forall_app; split; [by apply queue_ok|by constructor]).
    unfold set_frames, set_dg_map; cbn. by rewrite insert_insert_eq. }
  assert (match ni_ip_timeout_table n !! ip with None => true | Some t => FIVE_THOUSANDS_MS <? u64 (ni_system_time n - t) end
    = must_ask n ip) as Hask.
  { unfold must_ask. destruct (_ !! ip) as [t|] eqn:Ht; [|done]. by rewrite (asked_time n t ip). }
  cbn [ni_system_time set_dg_map]. rewrite Hask. unfold insert_new. destruct (must_ask n ip) eqn:Hm.
  - cbn [ni_ip_address set_dg_map]. rewrite ipv4_numeric_ok by by destruct Hn. unfold outcome_bind at 1.
    change (arp_serialize _) with (arp_serialize (arp_request n ip)).
    rewrite arp_serialize_spec by by apply arp_request_ok.
    unfold outcome_bind. unfold push_frame, set_timeout_table, set_frames, set_dg_map; cbn.
    by destruct (ni_ip_timeout_table n !! ip).
  - destruct (ni_ip_timeout_table n !! ip) eqn:Ht; [|by unfold must_ask in Hm; rewrite Ht in Hm].
    unfold set_timeout_table, set_frames, set_dg_map; cbn. by rewrite app_nil_r.
Qed.

Lemma interface_ok_frames n q : interface_ok n -> interface_ok (set_frames q n).
Proof. by intros []; split. Qed.

Lemma interface_ok_queue n ip q : interface_ok n -> Forall datagram_ok q -> interface_ok (set_dg_map (<[ip := q]> (ni_dg_map n)) n).
Proof. intros [] Hq. split; cbn; try done. by apply map_Forall_insert_2. Qed.

Lemma insert_new_Some {V} k (v : V) m k' : is_Some (insert_new k v m !! k') <-> k' = k ∨ is_Some (m !! k').
Proof.
  unfold insert_new. destruct (m !! k) eqn:Hm.
  - split; [by right|]. by intros [->|]; [rewrite Hm|].
  - destruct (decide (k' = k)) as [->|]; [rewrite lookup_insert_eq|rewrite lookup_insert_ne by done].
    + split; [by left|done].
    + split; [by right|]. by intros [|].
Qed.

Lemma insert_new_Forall {V} k (v : V) m (P : Z -> V -> Prop) :
  P k v -> map_Forall P m -> map_Forall P (insert_new k v m).
Proof. intros Hv Hm. unfold insert_new. destruct (m !! k); [done|]. by apply map_Forall_insert_2. Qed.

Lemma interface_ok_timeout n ip :
  interface_ok n -> interface_ok (set_timeout_table (insert_new ip (ni_system_time n) (ni_ip_timeout_table n)) n).
Proof.
  intros [???? Ht Hu]. split; cbn; try done.
  - intros k e Hk. destruct (nk_learned0 k e Hk). split; [done|]. apply insert_new_Some. by right.
  - apply insert_new_Forall; [|done]. cbn. unfold is_u64 in Hu. lia.
Qed.

#[local] Hint Resolve interface_ok_frames interface_ok_queue interface_ok_timeout queue_ok : core.

Lemma sent_ok n dgram ip : interface_ok n -> datagram_ok dgram -> interface_ok (sent n dgram ip).
Proof.
  intros Hn Hd. unfold sent. destruct (_ !! ip); [auto|].
  apply (interface_ok_timeout (set_frames _ (set_dg_map _ n)) ip). auto 10 using Forall_app_2.
Qed.

(** *** [recv_frame] *)

Lemma interface_ok_learn n ip eth : interface_ok n -> address_ok eth -> interface_ok (learn n ip eth).
Proof.
  intros Hn He. unfold learn. destruct (_ !! ip) eqn:Hi; [done|].
  destruct (interface_ok_timeout n ip Hn) as []. split; try done. cbn in *.
  apply insert_new_Forall; [|done]. split; [done|]. apply insert_new_Some. by left.
Qed.

(** What a well-formed ARP message in a frame from [src] does. *)
Definition received_arp (n : NetworkInterface) (m : ARPMessage) (src : EthernetAddress) : NetworkInterface :=
  let n := learn n (sender_ip_address m) src in
  if target_ip_address m =? own_ip n then
    if opcode m =? OPCODE_REQUEST then
      push_frame (arp_frame src (arp_reply n src (sender_ip_address m))) n
    else
      set_frames (ni_frames_out n ++ map (dg_frame (ni_ethernet_address n) (sender_ethernet_address m))
                                       (queue_at n (sender_ip_address m)))
        (set_dg_map (<[sender_ip_address m := []]> (ni_dg_map n)) n)
  else n.

Lemma supported_opcode m : supported m = true -> opcode m = OPCODE_REQUEST ∨ opcode m = OPCODE_REPLY.
Proof. unfold supported. rewrite !andb_true_iff, orb_true_iff, !Z.eqb_eq. tauto. Qed.

Lemma receive_arp_received n m src :
  interface_ok n -> arp_ok m -> address_ok src -> receive_arp n m src = Ret (received_arp n m src).
Proof.
  intros Hn Hm Hs. unfold receive_arp, received_arp. pose proof (interface_ok_learn n (sender_ip_address m) src Hn Hs) as Hl.
  set (n' := learn _ _ _) in *. rewrite ipv4_numeric_ok by by destruct Hl. unfold mbind, outcome_bind at 1.
  fold (own_ip n'). destruct (Z.eqb_spec (target_ip_address m) (own_ip n')) as [|]; [|done].
  destruct (supported_opcode m (ak_supported m Hm)) as [-> | ->]; cbn -[flush_buffer arp_serialize].
  - change (arp_serialize _) with (arp_serialize (arp_reply n' src (sender_ip_address m))).
    rewrite arp_serialize_spec by (apply arp_reply_ok; [done..|by destruct Hm]). done.
  - unfold flush_buffer. rewrite flush_loop_spec by auto. done.
Qed.

Lemma received_arp_ok n m src : interface_ok n -> arp_ok m -> address_ok src -> interface_ok (received_arp n m src).
Proof.
  intros Hn Hm Hs. unfold received_arp. pose proof (interface_ok_learn n (sender_ip_address m) src Hn Hs).
  repeat case_match; unfold push_frame; auto.
Qed.

(** A frame as it is read from the device: its length and its source address fit. *)
Definition frame_in_ok (f : EthernetFrame) : Prop :=
  address_ok (eth_src (fr_header f)) ∧ zlen (concatenate (fr_payload f)) < 2 ^ 63.

(** Whether a frame is for this interface. *)
Definition for_me (n : NetworkInterface) (f : EthernetFrame) : Prop :=
  eth_dst (fr_header f) = ETHERNET_BROADCAST ∨ eth_dst (fr_header f) = ni_ethernet_address n.

#[export] Instance for_me_dec n f : Decision (for_me n f).
Proof. unfold for_me. apply _. Defined.

Lemma recv_frame_cases n f :
  interface_ok n -> frame_in_ok f ->
  (∃ m, for_me n f ∧ eth_type (fr_header f) = TYPE_ARP ∧ arp_ok m ∧
     arp_parse default_arp (Buffer_of_string (concatenate (fr_payload f))) = Ret (m, NoError) ∧
     recv_frame n f = Ret (received_arp n m (eth_src (fr_header f)), None)) ∨
  (∃ d, for_me n f ∧ eth_type (fr_header f) = TYPE_IPv4 ∧
     datagram_parse default_datagram (Buffer_of_string (concatenate (fr_payload f))) = Ret (d, NoError) ∧
     recv_frame n f = Ret (n, Some d)) ∨
  recv_frame n f = Ret (n, None).
Proof.
  intros Hn [Hsrc Hlen]. unfold recv_frame. destruct (negb _ && negb _) eqn:Hme; [by right; right|].
  assert (for_me n f) as Hfor.
  { unfold for_me. revert Hme. repeat case_bool_decide; auto. done. }
  clear Hme. destruct (Z.eqb_spec (eth_type (fr_header f)) TYPE_IPv4) as [Ht|_].
  { destruct (datagram_parse_any _ Hlen) as ([d res] & Hp & Hd). rewrite Hp. unfold mbind, outcome_bind.
    case_bool_decide as Hres; [|by right; right]. subst. right; left. eauto 10. }
  destruct (Z.eqb_spec (eth_type (fr_header f)) TYPE_ARP) as [Ht|_]; [|by right; right].
  destruct (arp_parse_any default_arp _ Hlen) as ([m res] & Hp & Hm). rewrite Hp. unfold mbind, outcome_bind.
  case_bool_decide as Hres; [|by right; right]. left. exists m. subst. specialize (Hm eq_refl).
  by rewrite receive_arp_received.
Qed.

(** *** [tick] *)

Lemma elem_of_expired n ip :
  ip ∈ expired n <-> ∃ t, ni_ip_timeout_table n !! ip = Some t ∧ 30000 < u64 (ni_system_time n - t).
Proof.
  unfold expired. rewrite list_elem_of_fmap. split.
  - intros ([k t] & -> & [Ht Hk%elem_of_map_to_list]%list_elem_of_filter). exists t. split; [done|].
    apply Is_true_true in Ht. cbn in Ht. unfold THIRTY_THOUSANDS_MS in Ht. lia.
  - intros (t & Hk & Ht). exists (ip, t). split; [done|]. apply list_elem_of_filter.
    split; [|by apply elem_of_map_to_list].
    apply Is_true_true. cbn. unfold THIRTY_THOUSANDS_MS. lia.
Qed.

(** Whether the entry of [ip] is dropped at time [now]. *)
Definition stale (n : NetworkInterface) (now ip : Z) : bool :=
  match ni_ip_timeout_table n !! ip with Some t => 30000 <? now - t | None => false end.

Lemma lookup_foldr_delete_elem {V} (m : gmap Z V) l k : foldr delete m l !! k = if bool_decide (k ∈ l) then None else m !! k.
Proof.
  case_bool_decide; [by apply lookup_foldr_delete|by apply lookup_foldr_delete_not_elem_of].
Qed.

Lemma expired_stale n ms ip :
  interface_ok n -> 0 <= ms -> ni_system_time n + ms < 2 ^ 64 ->
  bool_decide (ip ∈ expired (set_system_time (u64 (ni_system_time n + ms)) n)) = stale n (ni_system_time n + ms) ip.
Proof.
  intros Hn Hms Hlt. pose proof (nk_time n Hn) as Hu. rewrite u64_id by (unfold is_u64 in *; lia).
  apply eq_bool_prop_intro. rewrite bool_decide_spec. rewrite elem_of_expired. unfold stale. cbn.
  destruct (ni_ip_timeout_table n !! ip) as [t|] eqn:Ht.
  - pose proof (nk_times n Hn ip t Ht) as Hr. cbn in Hr. unfold is_u64 in *. split.
    + intros (t' & [= <-] & H). rewrite u64_id in H by (unfold is_u64; lia). apply Is_true_true. lia.
    + intros H%Is_true_true. exists t. rewrite u64_id by (unfold is_u64; lia). split; [done|lia].
  - split; [by intros (? & ? & _)|done].
Qed.

Lemma tick_ok n ms :
  interface_ok n -> 0 <= ms -> ni_system_time n + ms < 2 ^ 64 -> interface_ok (tick n ms).
Proof.
  intros Hn Hms Hlt. pose proof Hn as [???? Ht Hu]. split; cbn; try done.
  - intros ip e. rewrite !lookup_foldr_delete_elem, !expired_stale by done. destruct (stale _ _ _); [done|]. apply nk_learned0.
  - intros ip t. rewrite lookup_foldr_delete_elem. case_bool_decide; [done|]. intros Hk%Ht. cbn in Hk.
    rewrite u64_id by (unfold is_u64 in *; lia). lia.
  - apply u64_range.
Qed.

(** ** Runs of an interface *)

(** The calls of the owner of an interface; [OpTransmit] moves the oldest frame
    of [frames_out()] to the wire, if there is one. *)
Inductive ni_op :=
| OpSend (dgram : IPv4Datagram) (next_hop : Address)
| OpRecv (frame : EthernetFrame)
| OpTick (ms : Z)
| OpTransmit.

Definition ni_state : Type := NetworkInterface * list EthernetFrame.

Definition run_op (st : ni_state) (op : ni_op) : outcome ni_state :=
  let '(n, wire) := st in
  match op with
  | OpSend dgram next_hop => n ← send_datagram n dgram next_hop; Ret (n, wire)
  | OpRecv frame => '(n, _) ← recv_frame n frame; Ret (n, wire)
  | OpTick ms => Ret (tick n ms, wire)
  | OpTransmit =>
      match ni_frames_out n with
      | [] => Ret (n, wire)
      | f :: q => Ret (set_frames q n, wire ++ [f])
      end
  end.

Fixpoint run_ops (st : ni_state) (ops : list ni_op) : outcome ni_state :=
  match ops with
  | [] => Ret st
  | op :: ops => st ← run_op st op; run_ops st ops
  end.

Definition op_ok (op : ni_op) : Prop :=
  match op with
  | OpSend dgram next_hop => datagram_ok dgram ∧ ipv4_ok next_hop
  | OpRecv frame => frame_in_ok frame
  | OpTick ms => 0 <= ms
  | OpTransmit => True
  end.

Definition elapsed (ops : list ni_op) : Z :=
  foldr (λ op t, match op with OpTick ms => ms + t | _ => t end) 0 ops.

(** The datagrams handed over for next hop [ip], in order. *)
Definition submitted (ip : Z) (ops : list ni_op) : list IPv4Datagram :=
  omap (λ op, match op with
              | OpSend dgram next_hop => if ad_ip next_hop =? ip then Some dgram else None
              | _ => None
              end) ops.

(** The IPv4 frames among some frames. *)
Definition ip_frames (fs : list EthernetFrame) : list EthernetFrame :=
  filter (λ f, eth_type (fr_header f) =? TYPE_IPv4) fs.

(** A transmission: the next hop and Ethernet address it was for, and the datagram. *)
Definition transmission : Type := Z * EthernetAddress * IPv4Datagram.

Definition transmitted_to (ip : Z) (log : list transmission) : list IPv4Datagram :=
  omap (λ '(ip', _, dg), if ip' =? ip then Some dg else None) log.

Definition tx_frame (own : EthernetAddress) (tx : transmission) : EthernetFrame := dg_frame own tx.1.2 tx.2.

Lemma submitted_snoc ip ops op : submitted ip (ops ++ [op]) = submitted ip ops ++ submitted ip [op].
Proof. apply omap_app. Qed.

Lemma elapsed_snoc ops op : elapsed (ops ++ [op]) = elapsed ops + elapsed [op].
Proof.
  unfold elapsed. induction ops as [|o ops IH]; cbn [foldr app]; [lia|]. rewrite IH. cbn [foldr]. destruct o; lia.
Qed.

(** A frame received by the interface with address [own] brought an ARP message from
    [ip], from the Ethernet address [eth] or naming it as the sender's. *)
Definition announced (own : EthernetAddress) (ops : list ni_op) (ip : Z) (eth : EthernetAddress) : Prop :=
  ∃ f m, OpRecv f ∈ ops ∧ (eth_dst (fr_header f) = ETHERNET_BROADCAST ∨ eth_dst (fr_header f) = own) ∧
    eth_type (fr_header f) = TYPE_ARP ∧
    arp_parse default_arp (Buffer_of_string (concatenate (fr_payload f))) = Ret (m, NoError) ∧
    sender_ip_address m = ip ∧ (eth = eth_src (fr_header f) ∨ eth = sender_ethernet_address m).

(** The address a transmission went to is one that was announced for its next hop. *)
Definition addressed (own : EthernetAddress) (ops : list ni_op) (log : list transmission) : Prop :=
  Forall (λ tx, announced own ops tx.1.1 tx.1.2) log.

Lemma announced_app own ops ops' ip eth : announced own ops ip eth ∨ announced own ops' ip eth -> announced own (ops ++ ops') ip eth.
Proof. intros [(f & m & Hin & ?)|(f & m & Hin & ?)]; exists f, m; (split; [apply elem_of_app; auto|done]). Qed.

Lemma addressed_app own ops ops' log : addressed own ops log -> addressed own (ops ++ ops') log.
Proof. intros Hl. eapply Forall_impl; [exact Hl|]. intros tx Htx. apply announced_app. by left. Qed.

Lemma addressed_flush own ops ip eth (q : list IPv4Datagram) :
  announced own ops ip eth -> addressed own ops (map (λ dg, (ip, eth, dg)) q).
Proof. intros Ha. apply Forall_map, Forall_true. by intros dg. Qed.

(** What a run keeps, with the calls made so far. *)
Record run_inv (eth : EthernetAddress) (ops : list ni_op) (st : ni_state) : Prop := {
  ri_ok : interface_ok st.1;
  ri_eth : ni_ethernet_address st.1 = eth;
  ri_time : ni_system_time st.1 = elapsed ops;
  ri_table ip e : ni_ip_to_eth_table st.1 !! ip = Some e -> announced eth ops ip e;
  ri_log : ∃ log : list transmission,
    ip_frames (st.2 ++ ni_frames_out st.1) = map (tx_frame eth) log ∧ addressed eth ops log ∧
    ∀ ip, transmitted_to ip log ++ queue_at st.1 ip = submitted ip ops
}.

Lemma ip_frames_app l k : ip_frames (l ++ k) = ip_frames l ++ ip_frames k.
Proof. apply filter_app. Qed.

Lemma ip_frames_dg own eth q : ip_frames (map (dg_frame own eth) q) = map (dg_frame own eth) q.
Proof. unfold ip_frames. induction q as [|d q IH]; cbn [map]; [done|]. by rewrite filter_cons_True, IH. Qed.

Lemma ip_frames_arp dst m : ip_frames [arp_frame dst m] = [].
Proof. done. Qed.

Lemma transmitted_flush ip ip' eth q :
  transmitted_to ip' (map (λ dg, (ip, eth, dg)) q) = if ip =? ip' then q else [].
Proof.
  unfold transmitted_to. induction q as [|d q IH]; cbn; [by destruct (ip =? ip')|]. rewrite IH. by destruct (ip =? ip').
Qed.

(** A step that sends out the queue of one next hop with some more datagrams. *)
Lemma run_inv_flush own log fs ip eth q :
  ip_frames fs = map (tx_frame own) log ->
  ip_frames (fs ++ map (dg_frame own eth) q) = map (tx_frame own) (log ++ map (λ dg, (ip, eth, dg)) q).
Proof. intros H. rewrite ip_frames_app, H, ip_frames_dg, map_app, map_map. done. Qed.

Lemma queue_at_push n ip q ip' :
  queue_at (set_dg_map (<[ip := q]> (ni_dg_map n)) n) ip' = if ip =? ip' then q else queue_at n ip'.
Proof.
  erewrite queue_at_insert by reflexivity.
  destruct (Z.eqb_spec ip ip') as [->|]; [by rewrite bool_decide_true|by rewrite bool_decide_false].
Qed.
Lemma queue_at_frames n q ip : queue_at (set_frames q n) ip = queue_at n ip.
Proof. done. Qed.
Lemma queue_at_timeout n m ip : queue_at (set_timeout_table m n) ip = queue_at n ip.
Proof. done. Qed.
Lemma queue_at_learn n ip eth ip' : queue_at (learn n ip eth) ip' = queue_at n ip'.
Proof. unfold learn. by destruct (_ !! _). Qed.
Lemma transmitted_app ip log log' : transmitted_to ip (log ++ log') = transmitted_to ip log ++ transmitted_to ip log'.
Proof. apply omap_app. Qed.
Lemma submitted_send ip dgram hop : submitted ip [OpSend dgram hop] = if ad_ip hop =? ip then [dgram] else [].
Proof. cbn. by destruct (_ =? _). Qed.

Create Rewrite HintDb netif.
#[local] Hint Rewrite queue_at_push queue_at_frames queue_at_timeout queue_at_learn transmitted_app transmitted_flush
  submitted_snoc submitted_send elapsed_snoc : netif.

Lemma run_inv_send eth ops st dgram hop :
  run_inv eth ops st -> datagram_ok dgram -> ipv4_ok hop ->
  returns (run_op st (OpSend dgram hop)) (run_inv eth (ops ++ [OpSend dgram hop])).
Proof.
  destruct st as [n wire]. intros [Hok He Ht Htab (log & Hlog & Had & Hq)] Hd Hh. cbn [fst snd run_op] in *.
  rewrite send_datagram_sent by done. apply returns_ret. split; cbn [fst snd].
  - by apply sent_ok.
  - unfold sent. by destruct (_ !! _).
  - autorewrite with netif. rewrite <- Ht. unfold sent. destruct (_ !! _); cbn; lia.
  - intros ip e He'. apply announced_app. left. apply Htab. unfold sent in He'. by destruct (_ !! ad_ip hop).
  - set (ip := ad_ip hop). unfold sent. destruct (_ !! ip) as [e|] eqn:Hip.
    + exists (log ++ map (λ dg, (ip, e, dg)) (queue_at n ip ++ [dgram])). cbn [ni_frames_out set_frames]. rewrite app_assoc, He.
      split; [by apply run_inv_flush|]. split; [apply addressed_app, Forall_app_2; [done|by apply addressed_flush, Htab]|].
      intros ip'. autorewrite with netif. fold ip. rewrite <- Hq.
      destruct (Z.eqb_spec ip ip') as [<-|]; [by rewrite app_nil_r, app_assoc|by rewrite !app_nil_r].
    + exists log. cbn [ni_frames_out set_frames set_timeout_table]. rewrite app_assoc, ip_frames_app, Hlog.
      split; [by case_match; rewrite ?ip_frames_arp, app_nil_r|]. split; [by apply addressed_app|].
      intros ip'. autorewrite with netif. fold ip. rewrite <- Hq.
      destruct (Z.eqb_spec ip ip') as [<-|]; [by rewrite app_assoc|by rewrite app_nil_r].
Qed.

Lemma run_inv_other eth ops st op n' :
  run_inv eth ops st -> interface_ok n' -> ni_ethernet_address n' = eth ->
  ni_system_time n' = ni_system_time st.1 + elapsed [op] ->
  (∀ ip, submitted ip [op] = []) ->
  (∀ ip e, ni_ip_to_eth_table n' !! ip = Some e -> ni_ip_to_eth_table st.1 !! ip = Some e ∨ announced eth [op] ip e) ->
  (∃ ip e, announced eth [op] ip e ∧
     ip_frames (ni_frames_out n') = ip_frames (ni_frames_out st.1) ++ map (dg_frame eth e) (queue_at st.1 ip) ∧
     ∀ ip', queue_at n' ip' = if ip =? ip' then [] else queue_at st.1 ip') ∨
  (ip_frames (ni_frames_out n') = ip_frames (ni_frames_out st.1) ∧ ∀ ip, queue_at n' ip = queue_at st.1 ip) ->
  run_inv eth (ops ++ [op]) (n', st.2).
Proof.
  destruct st as [n wire]. cbn [fst snd]. intros [Hok He Ht Htab (log & Hlog & Had & Hq)] Hok' He' Ht' Hsub Hnew Hcase. cbn [fst snd] in *.
  split; cbn [fst snd]; [done|done|by rewrite elapsed_snoc, <- Ht| |].
  { intros ip e Hip. apply announced_app. destruct (Hnew ip e Hip); auto. }
  rewrite ip_frames_app in Hlog |- *. destruct Hcase as [(ip & e & Han & Hf & Hq')|[Hf Hq']].
  - exists (log ++ map (λ dg, (ip, e, dg)) (queue_at n ip)). rewrite Hf, app_assoc, Hlog, map_app, map_map. split; [done|].
    split; [apply Forall_app_2; [by apply addressed_app|apply addressed_flush, announced_app; by right]|].
    intros ip'. autorewrite with netif. rewrite Hq', Hsub, <- Hq.
    destruct (Z.eqb_spec ip ip') as [<-|]; by rewrite !app_nil_r.
  - exists log. rewrite Hf. split; [done|]. split; [by apply addressed_app|].
    intros ip. autorewrite with netif. by rewrite Hq', Hsub, <- Hq, app_nil_r.
Qed.

(** An ARP message leaves the table as it was, except for its sender's address. *)
Lemma received_arp_table n m src ip e :
  ni_ip_to_eth_table (received_arp n m src) !! ip = Some e ->
  ni_ip_to_eth_table n !! ip = Some e ∨ (ip = sender_ip_address m ∧ e = src).
Proof.
  assert (ni_ip_to_eth_table (received_arp n m src) = ni_ip_to_eth_table (learn n (sender_ip_address m) src)) as ->.
  { unfold received_arp. by repeat case_match. }
  unfold learn. destruct (_ !! sender_ip_address m) eqn:Hn; [by left|]. cbn. unfold insert_new. rewrite Hn.
  destruct (decide (ip = sender_ip_address m)) as [->|]; [rewrite lookup_insert_eq; intros [= <-]; by right|].
  rewrite lookup_insert_ne by done. by left.
Qed.

Lemma run_inv_recv eth ops st f :
  run_inv eth ops st -> frame_in_ok f -> returns (run_op st (OpRecv f)) (run_inv eth (ops ++ [OpRecv f])).
Proof.
  intros Hi Hf. pose proof Hi as [Hok He _ _ _]. destruct st as [n wire]. cbn [fst snd run_op] in *.
  destruct (recv_frame_cases n f Hok Hf) as [(m & Hme & Hty & Hm & Hparse & ->)|[(d & _ & _ & _ & ->)| ->]]; apply returns_ret.
  2, 3: apply (run_inv_other _ _ _ _ _ Hi); cbn; [done..|lia|done|by left|by right].
  set (src := eth_src (fr_header f)).
  assert (∀ e, e = src ∨ e = sender_ethernet_address m -> announced eth [OpRecv f] (sender_ip_address m) e) as Han.
  { intros e Hsrc. exists f, m. unfold for_me in Hme. rewrite He in Hme. split_and!; try done. by apply list_elem_of_singleton. }
  pose proof (received_arp_ok n m _ Hok Hm (proj1 Hf)) as Hok'. apply (run_inv_other _ _ _ _ _ Hi Hok'); cbn [fst snd].
  1, 2: unfold received_arp, learn; repeat case_match; cbn; done || lia.
  { done. }
  { intros ip e [?|[-> ->]]%received_arp_table; [by left|right; apply Han; by left]. }
  unfold received_arp. fold src.
  assert (ni_frames_out (learn n (sender_ip_address m) src) = ni_frames_out n ∧
    ni_ethernet_address (learn n (sender_ip_address m) src) = eth) as [Hfr Heth] by (unfold learn; by destruct (_ !! _)).
  repeat case_match; unfold push_frame; cbn [ni_frames_out set_frames]; rewrite ?ip_frames_app, ?Hfr, ?Heth.
  - right. rewrite ip_frames_arp, app_nil_r. split; [done|]. intros ip. by autorewrite with netif.
  - left. exists (sender_ip_address m), (sender_ethernet_address m). split; [apply Han; by right|]. rewrite ip_frames_dg. autorewrite with netif.
    split; [done|]. intros ip'. by autorewrite with netif.
  - right. split; [done|]. intros ip. by autorewrite with netif.
Qed.

Lemma run_inv_step eth ops st op :
  run_inv eth ops st -> op_ok op -> elapsed (ops ++ [op]) < 2 ^ 64 ->
  returns (run_op st op) (run_inv eth (ops ++ [op])).
Proof.
  intros Hi Ho Hlt. destruct op as [dgram hop|f|ms|].
  - destruct Ho. by apply run_inv_send.
  - by apply run_inv_recv.
  - pose proof Hi as [Hok He Ht _ _]. rewrite elapsed_snoc, <- Ht in Hlt. destruct st as [n wire]. cbn in Hlt, Ho, Hok, Ht.
    pose proof (nk_time n Hok) as Hu. apply returns_ret. apply (run_inv_other _ _ _ _ _ Hi); cbn [fst snd]; [|done| |done| |by right].
    + apply tick_ok; [done|done|lia].
    + cbn. rewrite u64_id; unfold is_u64 in *; lia.
    + intros ip e. cbn. rewrite lookup_foldr_delete_elem. case_bool_decide; [done|by left].
  - destruct st as [n wire]. pose proof Hi as [Hok He Ht Htab (log & Hlog & Had & Hq)]. cbn in Hok, He, Ht. unfold run_op.
    destruct (ni_frames_out n) as [|f q] eqn:Hf; apply returns_ret.
    + apply (run_inv_other _ _ _ _ _ Hi); cbn; [done..|lia|done|by left|by right].
    + split; cbn [fst snd]; [auto|done|rewrite elapsed_snoc, <- Ht; cbn; lia|intros; apply announced_app; left; by apply Htab|]. exists log.
      cbn [fst snd ni_frames_out set_frames] in *. rewrite <- app_assoc. rewrite Hf in Hlog. split; [done|]. split; [by apply addressed_app|].
      intros ip. rewrite submitted_snoc, app_nil_r. apply Hq.
Qed.

Lemma elapsed_nonneg ops : Forall op_ok ops -> 0 <= elapsed ops.
Proof. induction 1 as [|op ops Ho _ IH]; cbn; [lia|]. fold (elapsed ops). destruct op; cbn in Ho; lia. Qed.

Lemma run_inv_ops eth h ops st :
  run_inv eth h st -> Forall op_ok ops -> elapsed (h ++ ops) < 2 ^ 64 ->
  returns (run_ops st ops) (run_inv eth (h ++ ops)).
Proof.
  revert h st. induction ops as [|op ops IH]; intros h st Hi Ho Hlt; cbn [run_ops].
  - rewrite app_nil_r. by apply returns_ret.
  - apply Forall_cons in Ho as [Ho Hos]. rewrite (cons_middle op), app_assoc in Hlt |- *.
    assert (elapsed (h ++ [op]) < 2 ^ 64) as Hl.
    { pose proof (elapsed_nonneg ops Hos). revert Hlt. generalize (h ++ [op]). intros l.
      assert (elapsed (l ++ ops) = elapsed l + elapsed ops) as ->; [|lia].
      unfold elapsed. induction l as [|o l IHl]; cbn [foldr app]; [done|]. rewrite IHl. destruct o; lia. }
    eapply returns_bind; [by apply run_inv_step|]. intros st' Hi'. by apply IH.
Qed.

Lemma run_inv_new eth ip : address_ok eth -> ipv4_ok ip -> run_inv eth [] (new_NetworkInterface eth ip, []).
Proof.
  intros He Hip. split; cbn; [|done|done|done|exists []; split_and!; [done|constructor|done]].
  split; cbn; [done|done|apply map_Forall_empty..|unfold is_u64; lia].
Qed.

(** ** Properties *)


Definition local_ip : Address := mkAddress 16 AF_INET 0 3232235777.
Definition remote_ip : Address := mkAddress 16 AF_INET 0 3232235778.
Definition remote_eth : EthernetAddress := [2; 0; 0; 0; 0; 2].

Lemma sample_ips_ok : ipv4_ok local_ip ∧ ipv4_ok remote_ip.
Proof. unfold ipv4_ok, is_u32, is_u16; cbn. split_and!; done || lia. Qed.

(** A datagram, the answer of its next hop, and a second datagram. *)
Definition sample_answer : EthernetFrame :=
  arp_frame sample_address (mkARP TYPE_ETHERNET TYPE_IPv4 6 4 OPCODE_REPLY remote_eth 3232235778 sample_address 3232235777).
Definition sample_ops : list ni_op :=
  [OpSend sample_datagram remote_ip; OpTick 10; OpTransmit; OpRecv sample_answer; OpTransmit; OpSend sample_datagram remote_ip].


(** [send_datagram]. With the next hop's Ethernet address known, the
    datagrams queued for it and then this one go out to that address; otherwise
    the datagram is queued and an ARP request is broadcast unless the timeout
    table has an entry for this next hop of the last five seconds; the entry is
    made by the first request. Other next hops keep
    their queues and nothing is learned or forgotten. *)
Theorem send_datagram_spec n dgram hop :
  interface_ok n -> datagram_ok dgram -> ipv4_ok hop ->
  ∃ n', send_datagram n dgram hop = Ret n' ∧ interface_ok n' ∧
    match ni_ip_to_eth_table n !! ad_ip hop with
    | Some eth =>
        ni_frames_out n' = ni_frames_out n ++
          map (dg_frame (ni_ethernet_address n) eth) (queue_at n (ad_ip hop) ++ [dgram]) ∧ queue_at n' (ad_ip hop) = []
    | None =>
        ni_frames_out n' = ni_frames_out n ++
          (if must_ask n (ad_ip hop) then [arp_frame ETHERNET_BROADCAST (arp_request n (ad_ip hop))] else []) ∧
        queue_at n' (ad_ip hop) = queue_at n (ad_ip hop) ++ [dgram] ∧
        ni_ip_timeout_table n' !! ad_ip hop = Some (default (ni_system_time n) (ni_ip_timeout_table n !! ad_ip hop))
    end ∧
    (∀ ip, ip ≠ ad_ip hop -> queue_at n' ip = queue_at n ip ∧ ni_ip_timeout_table n' !! ip = ni_ip_timeout_table n !! ip) ∧
    ni_ip_to_eth_table n' = ni_ip_to_eth_table n.
Proof.
  intros Hn Hd Hh. exists (sent n dgram (ad_ip hop)). split_and!; [by apply send_datagram_sent|by apply sent_ok|..];
    unfold sent; destruct (_ !! ad_ip hop); cbn [ni_frames_out ni_ip_to_eth_table ni_ip_timeout_table set_frames set_dg_map set_timeout_table].
  - autorewrite with netif. by rewrite Z.eqb_refl.
  - autorewrite with netif. rewrite Z.eqb_refl. split_and!; [done..|]. unfold insert_new.
    destruct (ni_ip_timeout_table n !! ad_ip hop) as [t|] eqn:Ht; [done|]. by rewrite lookup_insert_eq.
  - intros ip Hip. autorewrite with netif. by destruct (Z.eqb_spec (ad_ip hop) ip).
  - intros ip Hip. autorewrite with netif. unfold insert_new. destruct (Z.eqb_spec (ad_ip hop) ip); [done|].
    split; [done|]. destruct (ni_ip_timeout_table n !! ad_ip hop); [done|]. by rewrite lookup_insert_ne.
  - done.
  - done.
Qed.

Definition fresh_interface : NetworkInterface := new_NetworkInterface sample_address local_ip.
Lemma fresh_interface_ok : interface_ok fresh_interface.
Proof. apply (run_inv_new sample_address local_ip); [by apply address_ok_check|apply sample_ips_ok]. Qed.

Lemma send_datagram_spec_witness :
  ∃ n', send_datagram fresh_interface sample_datagram remote_ip = Ret n' ∧ interface_ok n' ∧
    (ni_frames_out n' = [arp_frame ETHERNET_BROADCAST (arp_request fresh_interface 3232235778)] ∧
     queue_at n' 3232235778 = [sample_datagram] ∧
     ni_ip_timeout_table n' !! 3232235778 = Some 0) ∧
    (∀ ip, ip ≠ 3232235778 -> queue_at n' ip = queue_at fresh_interface ip ∧
       ni_ip_timeout_table n' !! ip = ni_ip_timeout_table fresh_interface !! ip) ∧
    ni_ip_to_eth_table n' = ni_ip_to_eth_table fresh_interface.
Proof.
  apply (send_datagram_spec fresh_interface sample_datagram remote_ip);
    [apply fresh_interface_ok|apply sample_datagram_ok|apply sample_ips_ok].
Defined.

(** [tick] advances the clock and drops exactly the entries of the timeout
    table older than thirty seconds, with the addresses learned for them; it
    sends nothing and keeps every queued datagram. *)
Theorem tick_expiry n ms :
  interface_ok n -> 0 <= ms -> ni_system_time n + ms < 2 ^ 64 ->
  interface_ok (tick n ms) ∧ ni_system_time (tick n ms) = ni_system_time n + ms ∧
  (∀ ip, ni_ip_to_eth_table (tick n ms) !! ip =
           (if stale n (ni_system_time n + ms) ip then None else ni_ip_to_eth_table n !! ip) ∧
         ni_ip_timeout_table (tick n ms) !! ip =
           (if stale n (ni_system_time n + ms) ip then None else ni_ip_timeout_table n !! ip)) ∧
  ni_dg_map (tick n ms) = ni_dg_map n ∧ ni_frames_out (tick n ms) = ni_frames_out n.
Proof.
  intros Hn Hms Hlt. pose proof (nk_time n Hn) as Hu. split_and!; [by apply tick_ok| |..|done|done].
  - cbn. rewrite u64_id; [done|]. unfold is_u64 in *. lia.
  - intros ip. cbn [ni_ip_to_eth_table ni_ip_timeout_table tick set_timeout_table set_eth_table set_system_time].
    by rewrite !lookup_foldr_delete_elem, !expired_stale.
Qed.

Definition known_interface : NetworkInterface :=
  learn fresh_interface 3232235778 remote_eth.
Lemma known_interface_ok : interface_ok known_interface.
Proof. apply interface_ok_learn; [apply fresh_interface_ok|by apply address_ok_check]. Qed.

Lemma tick_expiry_witness :
  interface_ok (tick known_interface 30001) ∧ ni_system_time (tick known_interface 30001) = 30001 ∧
  (∀ ip, ni_ip_to_eth_table (tick known_interface 30001) !! ip =
           (if stale known_interface 30001 ip then None else ni_ip_to_eth_table known_interface !! ip) ∧
         ni_ip_timeout_table (tick known_interface 30001) !! ip =
           (if stale known_interface 30001 ip then None else ni_ip_timeout_table known_interface !! ip)) ∧
  ni_dg_map (tick known_interface 30001) = ni_dg_map known_interface ∧
  ni_frames_out (tick known_interface 30001) = ni_frames_out known_interface.
Proof. apply (tick_expiry known_interface 30001); [apply known_interface_ok|lia|vm_compute; reflexivity]. Defined.

(** *** Two interfaces on one link *)

(** The frame that carries an ARP message for [n]. *)
Lemma recv_arp_frame n m dst :
  interface_ok n -> arp_ok m -> dst = ETHERNET_BROADCAST ∨ dst = ni_ethernet_address n ->
  recv_frame n (arp_frame dst m) = Ret (received_arp n m (sender_ethernet_address m), None).
Proof.
  intros Hn Hm Hd. unfold recv_frame, arp_frame. cbn [fr_header fr_payload eth_dst eth_src eth_type concatenate].
  rewrite str_of_string, (arp_parse_bytes m default_arp []) by done.
  destruct (negb _ && negb _) eqn:Hme.
  { exfalso. revert Hme. rewrite andb_true_iff, !negb_true_iff, !bool_decide_eq_false. tauto. }
  unfold mbind, outcome_bind. cbn. by rewrite receive_arp_received by (done || by destruct Hm).
Qed.

(** The frame that carries a datagram for [n]. *)
Lemma recv_dg_frame n own dg :
  datagram_ok dg ->
  ∃ d c, recv_frame n (dg_frame own (ni_ethernet_address n) dg) = Ret (n, Some d) ∧
    dg_header d = set_ip_cksum c (dg_header dg) ∧ concatenate (dg_payload d) = concatenate (dg_payload dg).
Proof.
  intros Hd. destruct (datagram_parse_wire default_datagram dg Hd) as (d & c & Hp & Hh & Hpl & _ & _). exists d, c.
  split; [|done]. unfold recv_frame, dg_frame. cbn [fr_header fr_payload eth_dst eth_type].
  rewrite Hp, (bool_decide_true (_ = ni_ethernet_address n)), andb_false_r by done. done.
Qed.

(** What changes at the three stages of a resolution. *)
Lemma sent_queues a dgram ip :
  ni_ip_to_eth_table a !! ip = None ->
  let a' := sent a dgram ip in
  ni_ip_to_eth_table a' = ni_ip_to_eth_table a ∧ ni_ethernet_address a' = ni_ethernet_address a ∧ own_ip a' = own_ip a ∧
  ni_frames_out a' = ni_frames_out a ++ (if must_ask a ip then [arp_frame ETHERNET_BROADCAST (arp_request a ip)] else []) ∧
  queue_at a' ip = queue_at a ip ++ [dgram].
Proof. intros Hn a'. unfold a', sent. rewrite Hn. autorewrite with netif. by rewrite Z.eqb_refl. Qed.

Lemma learn_keeps n ip eth :
  ni_ethernet_address (learn n ip eth) = ni_ethernet_address n ∧ own_ip (learn n ip eth) = own_ip n ∧
  ni_frames_out (learn n ip eth) = ni_frames_out n.
Proof. unfold learn. by destruct (_ !! _). Qed.

Lemma request_answered b m src :
  target_ip_address m = own_ip b -> opcode m = OPCODE_REQUEST ->
  ni_ethernet_address (received_arp b m src) = ni_ethernet_address b ∧
  ni_frames_out (received_arp b m src) = ni_frames_out b ++ [arp_frame src (arp_reply b src (sender_ip_address m))].
Proof.
  intros Ht Ho. destruct (learn_keeps b (sender_ip_address m) src) as (He & Hi & Hf). unfold received_arp.
  rewrite Ht, Hi, Z.eqb_refl, Ho. cbn. unfold arp_reply. by rewrite He, Hi, Hf.
Qed.

Lemma reply_flushes a m src :
  target_ip_address m = own_ip a -> opcode m = OPCODE_REPLY -> ni_ip_to_eth_table a !! sender_ip_address m = None ->
  let a' := received_arp a m src in
  ni_frames_out a' = ni_frames_out a ++
    map (dg_frame (ni_ethernet_address a) (sender_ethernet_address m)) (queue_at a (sender_ip_address m)) ∧
  queue_at a' (sender_ip_address m) = [] ∧ ni_ip_to_eth_table a' !! sender_ip_address m = Some src.
Proof.
  intros Ht Ho Hn a'. destruct (learn_keeps a (sender_ip_address m) src) as (He & Hi & Hf). unfold a', received_arp.
  rewrite Ht, Hi, Z.eqb_refl, Ho. cbn [Z.eqb OPCODE_REPLY OPCODE_REQUEST Pos.eqb].
  cbn [ni_frames_out ni_ip_to_eth_table set_frames set_dg_map]. autorewrite with netif. rewrite Z.eqb_refl, He, Hf.
  split_and!; [done..|]. unfold learn. rewrite Hn. cbn. unfold insert_new. by rewrite Hn, lookup_insert_eq.
Qed.

(** Every datagram of a list is handed up by the interface it is sent to. *)
Definition handed_up (n : NetworkInterface) (own : EthernetAddress) (dgrams : list IPv4Datagram) : Prop :=
  Forall (λ dg, ∃ d c, recv_frame n (dg_frame own (ni_ethernet_address n) dg) = Ret (n, Some d) ∧
    dg_header d = set_ip_cksum c (dg_header dg) ∧ concatenate (dg_payload d) = concatenate (dg_payload dg)) dgrams.

Lemma queue_handed_up n own dgrams : Forall datagram_ok dgrams -> handed_up n own dgrams.
Proof. intros Hq. eapply Forall_impl; [exact Hq|]. intros dg. apply recv_dg_frame. Qed.

(** C28: address resolution. Interface [a], which does not know the Ethernet
    address of [b], sends [b] a datagram. It broadcasts a request for the address,
    unless the first request for it was made within the last five seconds; [b]
    answers the request (this one or the one before), and on that answer [a] sends
    every datagram queued for [b], this one last, to [b]'s address and remembers
    it; of each of these frames, [recv_frame] of [b] hands the datagram up, with
    its header and payload. *)
Theorem arp_resolution a b dgram hop :
  interface_ok a -> interface_ok b -> datagram_ok dgram -> ipv4_ok hop -> ad_ip hop = own_ip b ->
  ni_ip_to_eth_table a !! own_ip b = None ->
  ∃ a1 b1 a2 reply,
    let request := arp_frame ETHERNET_BROADCAST (arp_request a (own_ip b)) in
    let dgrams := queue_at a (own_ip b) ++ [dgram] in
    send_datagram a dgram hop = Ret a1 ∧
    ni_frames_out a1 = ni_frames_out a ++ (if must_ask a (own_ip b) then [request] else []) ∧
    recv_frame b request = Ret (b1, None) ∧ ni_frames_out b1 = ni_frames_out b ++ [reply] ∧
    recv_frame a1 reply = Ret (a2, None) ∧
    ni_frames_out a2 = ni_frames_out a1 ++ map (dg_frame (ni_ethernet_address a) (ni_ethernet_address b1)) dgrams ∧
    queue_at a2 (own_ip b) = [] ∧ ni_ip_to_eth_table a2 !! own_ip b = Some (ni_ethernet_address b1) ∧
    handed_up b1 (ni_ethernet_address a) dgrams.
Proof.
  intros Ha Hb Hd Hh Hip Hnone. pose proof (nk_own a Ha) as Hua. pose proof (nk_own b Hb) as Hub.
  set (req := arp_request a (own_ip b)). assert (arp_ok req) as Hreq by by apply arp_request_ok.
  set (rep := arp_reply b (ni_ethernet_address a) (own_ip a)).
  assert (arp_ok rep) as Hrep by (apply arp_reply_ok; [done| |done]; by destruct Ha).
  destruct (sent_queues a dgram (own_ip b) Hnone) as (Htab & Hea & Hoa & Hfa & Hqa).
  destruct (request_answered b req (ni_ethernet_address a) eq_refl eq_refl) as (Heb & Hfb).
  destruct (reply_flushes (sent a dgram (own_ip b)) rep (ni_ethernet_address b)) as (Hf2 & Hq2 & Ht2);
    [by rewrite Hoa|done|by rewrite Htab|].
  exists (sent a dgram (own_ip b)), (received_arp b req (ni_ethernet_address a)),
    (received_arp (sent a dgram (own_ip b)) rep (ni_ethernet_address b)), (arp_frame (ni_ethernet_address a) rep). cbv zeta. rewrite Heb.
  split_and!; [by rewrite <- Hip in *; apply send_datagram_sent|done|by apply (recv_arp_frame b req); [..|left]|done| | |done|done|].
  - apply (recv_arp_frame _ rep); [by apply sent_ok|done|by right; rewrite Hea].
  - rewrite Hf2. cbn [rep arp_reply sender_ip_address sender_ethernet_address]. by rewrite Hea, Hqa.
  - apply queue_handed_up, Forall_app_2; [by apply queue_ok|by constructor].
Qed.

Definition remote_interface : NetworkInterface := new_NetworkInterface remote_eth remote_ip.
Lemma remote_interface_ok : interface_ok remote_interface.
Proof. apply (run_inv_new remote_eth remote_ip); [by apply address_ok_check|apply sample_ips_ok]. Qed.

(** The first datagram for an address, and a second one right after it. *)
Definition asking_interface : NetworkInterface := sent fresh_interface sample_datagram 3232235778.

Lemma arp_resolution_witness :
  (∃ a1 b1 a2 reply,
    let request := arp_frame ETHERNET_BROADCAST (arp_request fresh_interface 3232235778) in
    send_datagram fresh_interface sample_datagram remote_ip = Ret a1 ∧ ni_frames_out a1 = [request] ∧
    recv_frame remote_interface request = Ret (b1, None) ∧ ni_frames_out b1 = [reply] ∧
    recv_frame a1 reply = Ret (a2, None) ∧
    ni_frames_out a2 = ni_frames_out a1 ++ [dg_frame sample_address (ni_ethernet_address b1) sample_datagram] ∧
    queue_at a2 3232235778 = [] ∧ ni_ip_to_eth_table a2 !! 3232235778 = Some (ni_ethernet_address b1) ∧
    handed_up b1 sample_address [sample_datagram]) ∧
  (∃ a1 b1 a2 reply,
    let request := arp_frame ETHERNET_BROADCAST (arp_request asking_interface 3232235778) in
    let dgrams := [sample_datagram; sample_datagram] in
    send_datagram asking_interface sample_datagram remote_ip = Ret a1 ∧
    ni_frames_out a1 = ni_frames_out asking_interface ++ [] ∧
    recv_frame remote_interface request = Ret (b1, None) ∧ ni_frames_out b1 = [reply] ∧
    recv_frame a1 reply = Ret (a2, None) ∧
    ni_frames_out a2 = ni_frames_out a1 ++ map (dg_frame sample_address (ni_ethernet_address b1)) dgrams ∧
    queue_at a2 3232235778 = [] ∧ ni_ip_to_eth_table a2 !! 3232235778 = Some (ni_ethernet_address b1) ∧
    handed_up b1 sample_address dgrams).
Proof.
  split.
  - apply (arp_resolution fresh_interface remote_interface sample_datagram remote_ip);
      [apply fresh_interface_ok|apply remote_interface_ok|apply sample_datagram_ok|apply sample_ips_ok|reflexivity..].
  - apply (arp_resolution asking_interface remote_interface sample_datagram remote_ip);
      [apply sent_ok; [apply fresh_interface_ok|apply sample_datagram_ok]|apply remote_interface_ok|apply sample_datagram_ok|apply sample_ips_ok|reflexivity..].
Defined.

(** A pending request is not renewed. Once the first request for an
    unanswered next hop is more than five seconds old, every further datagram
    for it broadcasts another request, with no pause between them. *)
Theorem arp_requests_repeat n hop t dgrams :
  interface_ok n -> ipv4_ok hop -> Forall datagram_ok dgrams ->
  ni_ip_to_eth_table n !! ad_ip hop = None -> ni_ip_timeout_table n !! ad_ip hop = Some t -> 5000 < ni_system_time n - t ->
  ∃ n', run_ops (n, []) (map (λ dg, OpSend dg hop) dgrams) = Ret (n', []) ∧
    ni_frames_out n' = ni_frames_out n ++ map (λ _, arp_frame ETHERNET_BROADCAST (arp_request n (ad_ip hop))) dgrams.
Proof.
  intros Hn Hh Hd Hnone Ht Ht5. revert n Hn Hnone Ht Ht5. induction Hd as [|dg dgrams Hdg _ IH]; intros n Hn Hnone Ht Ht5.
  { exists n. by rewrite app_nil_r. }
  assert (must_ask n (ad_ip hop) = true) as Hm by (unfold must_ask; rewrite Ht; lia).
  destruct (sent_queues n dg (ad_ip hop) Hnone) as (Htab & He & Hi & Hf & _). rewrite Hm in Hf. cbn [map run_ops run_op].
  rewrite send_datagram_sent by done. unfold mbind, outcome_bind.
  destruct (IH (sent n dg (ad_ip hop))) as (n' & -> & Hf'); [by apply sent_ok|by rewrite Htab| | |].
  - unfold sent. rewrite Hnone. cbn. unfold insert_new. by rewrite Ht.
  - unfold sent. rewrite Hnone. cbn. done.
  - exists n'. split; [done|]. rewrite Hf', Hf, <- app_assoc. unfold arp_request. by rewrite He, Hi.
Qed.

Definition waiting_interface : NetworkInterface := tick (sent fresh_interface sample_datagram 3232235778) 5001.

Lemma arp_requests_repeat_witness :
  ∃ n', run_ops (waiting_interface, []) [OpSend sample_datagram remote_ip; OpSend sample_datagram remote_ip] = Ret (n', []) ∧
    ni_frames_out n' = ni_frames_out waiting_interface ++
      map (λ _, arp_frame ETHERNET_BROADCAST (arp_request waiting_interface 3232235778)) [sample_datagram; sample_datagram].
Proof.
  apply (arp_requests_repeat waiting_interface remote_ip 0 [sample_datagram; sample_datagram]).
  - apply tick_ok; [apply sent_ok; [apply fresh_interface_ok|apply sample_datagram_ok]|lia|vm_compute; reflexivity].
  - apply sample_ips_ok.
  - repeat constructor; apply sample_datagram_ok.
  - vm_compute. reflexivity.
  - vm_compute. reflexivity.
  - vm_compute. reflexivity.
Defined.

(** A learned address does not last thirty seconds. The address learned
    from an answer to a request of time [t] is forgotten by the first tick past
    [t + 30000], however recent the answer. *)
Theorem mapping_ages_from_request n m src t ms :
  interface_ok n -> arp_ok m -> address_ok src ->
  ni_ip_to_eth_table n !! sender_ip_address m = None -> ni_ip_timeout_table n !! sender_ip_address m = Some t ->
  0 <= ms -> ni_system_time n + ms < 2 ^ 64 -> 30000 < ni_system_time n + ms - t ->
  ∃ n', receive_arp n m src = Ret n' ∧ ni_ip_to_eth_table n' !! sender_ip_address m = Some src ∧
    ni_ip_to_eth_table (tick n' ms) !! sender_ip_address m = None.
Proof.
  intros Hn Hm Hs Hnone Ht Hms Hlt Hold. exists (received_arp n m src). split; [by apply receive_arp_received|].
  assert (let n' := received_arp n m src in ni_ip_to_eth_table n' !! sender_ip_address m = Some src ∧
    ni_ip_timeout_table n' !! sender_ip_address m = Some t ∧ ni_system_time n' = ni_system_time n) as (He & Ht' & Hst).
  { unfold received_arp, learn. rewrite Hnone. repeat case_match; cbn; unfold insert_new;
      by rewrite Hnone, Ht, lookup_insert_eq. }
  split; [done|]. cbn [ni_ip_to_eth_table tick set_timeout_table set_eth_table set_system_time].
  rewrite lookup_foldr_delete_elem, expired_stale by (by apply received_arp_ok || lia).
  unfold stale. rewrite Ht', Hst. by destruct (Z.ltb_spec 30000 (ni_system_time n + ms - t)); [|lia].
Qed.

Definition late_interface : NetworkInterface := tick (sent fresh_interface sample_datagram 3232235778) 30000.
Definition late_reply : ARPMessage := arp_reply remote_interface sample_address 3232235777.

Lemma mapping_ages_from_request_witness :
  ∃ n', receive_arp late_interface late_reply remote_eth = Ret n' ∧
    ni_ip_to_eth_table n' !! 3232235778 = Some remote_eth ∧ ni_ip_to_eth_table (tick n' 1) !! 3232235778 = None.
Proof.
  apply (mapping_ages_from_request late_interface late_reply remote_eth 0 1).
  - apply tick_ok; [apply sent_ok; [apply fresh_interface_ok|apply sample_datagram_ok]|lia|vm_compute; reflexivity].
  - split; [reflexivity|by apply address_ok_check|unfold is_u32; cbn; lia|by apply address_ok_check|unfold is_u32; cbn; lia].
  - by apply address_ok_check.
  - vm_compute. reflexivity.
  - vm_compute. reflexivity.
  - lia.
  - vm_compute. reflexivity.
  - vm_compute. reflexivity.
Defined.
