(* ===== verification/Router.v ===== *)
(** [router.hh], [router.cc]: asynchronous interfaces and a router that
    forwards between them by longest-prefix match. *)
From Stdlib Require Import Sorting.Sorted.
From S2P Require Import Prelude Buffer Parser IPv4 Ethernet Address NetworkInterface.

(** ** AsyncNetworkInterface *)

Record AsyncNetworkInterface := mkAsync {
  ai_base : NetworkInterface;
  ai_datagrams_out : list IPv4Datagram
}.

Definition AsyncNetworkInterface_of (interface : NetworkInterface) : AsyncNetworkInterface := mkAsync interface [].

Definition async_recv_frame (i : AsyncNetworkInterface) (frame : EthernetFrame) : outcome AsyncNetworkInterface :=
  '(n, optional_dgram) ← recv_frame (ai_base i) frame;
  match optional_dgram with
  | Some dgram => Ret (mkAsync n (ai_datagrams_out i ++ [dgram]))
  | None => Ret (mkAsync n (ai_datagrams_out i))
  end.

(** ** Router *)

(** [RoutingInfo]: prefix length and prefix; [NextHop]: the next hop, if the
    network is not attached, and the index of the interface. *)
Definition RoutingInfo : Type := Z * Z.
Definition NextHop : Type := option Address * Z.

Definition compare_prefix_length (rf1 rf2 : RoutingInfo) : bool := rf1.1 <=? rf2.1.

Definition Route : Type := RoutingInfo * NextHop.

Record Router := mkRouter {
  r_interfaces : list AsyncNetworkInterface;
  r_rtable : list Route
}.

Definition new_Router : Router := mkRouter [] [].

Definition add_interface (r : Router) (interface : AsyncNetworkInterface) : Router * Z :=
  let ifs := r_interfaces r ++ [interface] in
  (mkRouter ifs (r_rtable r), zlen ifs - 1).

(** [interface(N)], through [vector::at] *)
Definition interface (r : Router) (N : Z) : outcome AsyncNetworkInterface :=
  match r_interfaces r !! Z.to_nat N with
  | Some i => Ret i
  | None => Throw (out_of_range "vector::_M_range_check")
  end.

(** [std::map::insert] on the table, listed in iteration order. The new key
    goes where the search for it ends: left of the first key it compares below.
    As the comparison is reflexive, no key is found equal to another, and the
    insertion always happens; [descend_inorder] below relates this to the search
    in the tree. *)
Fixpoint rtable_insert (e : Route) (t : list Route) : list Route :=
  match t with
  | [] => [e]
  | e' :: t' => if compare_prefix_length e.1 e'.1 then e :: t else e' :: rtable_insert e t'
  end.

Definition add_route (r : Router) (route_prefix prefix_length : Z) (next_hop : option Address) (interface_num : Z) : Router :=
  mkRouter (r_interfaces r) (rtable_insert ((prefix_length, route_prefix), (next_hop, interface_num)) (r_rtable r)).

(** [1 << 31] is the least [int], from which one cannot be subtracted. *)
Definition mask_net (ip prefix_length : Z) : outcome Z :=
  if 32 <? prefix_length then Ret 0
  else if 0 <? prefix_length then
    let one := i32 (Z.shiftl 1 (32 - prefix_length)) in
    if one =? - 2 ^ 31 then Undef
    else Ret (Z.land ip (u32 (0xFFFFFFFF - (one - 1))))
  else Ret 0.

Definition set_ttl (ttl : Z) (d : IPv4Datagram) : IPv4Datagram :=
  mkIPv4Datagram (set_ip_ttl ttl (dg_header d)) (dg_payload d).

(** [_interfaces[num].send_datagram(dgram, next_hop)] *)
Definition send_on (r : Router) (num : Z) (dgram : IPv4Datagram) (next_hop : Address) : outcome Router :=
  match r_interfaces r !! Z.to_nat num with
  | Some i =>
      n ← send_datagram (ai_base i) dgram next_hop;
      Ret (mkRouter (<[Z.to_nat num := mkAsync n (ai_datagrams_out i)]> (r_interfaces r)) (r_rtable r))
  | None => Undef
  end.

(** The loop of [route_one_datagram], over the table in reverse order. *)
Fixpoint route_loop (its : list Route) (r : Router) (dgram : IPv4Datagram) : outcome Router :=
  match its with
  | [] => Ret r
  | ((prefix_length, prefix), (next_hop, num)) :: its' =>
      net ← mask_net (ip_dst (dg_header dgram)) prefix_length;
      if prefix =? net then
        let ttl := ip_ttl (dg_header dgram) in
        let dgram := if 0 <? ttl then set_ttl (ttl - 1) dgram else dgram in
        if ip_ttl (dg_header dgram) =? 0 then Ret r
        else
          match next_hop with
          | Some a => send_on r num dgram a
          | None => send_on r num dgram (from_ipv4_numeric (ip_dst (dg_header dgram)))
          end
      else route_loop its' r dgram
  end.

Definition route_one_datagram (r : Router) (dgram : IPv4Datagram) : outcome Router :=
  route_loop (reverse (r_rtable r)) r dgram.

(** [queue.pop()] on the queue of the interface with index [k]. *)
Definition pop_datagram (r : Router) (k : nat) : Router :=
  mkRouter (alter (λ i, mkAsync (ai_base i) (tail (ai_datagrams_out i))) k (r_interfaces r)) (r_rtable r).

(** The inner loop of [route]. *)
Fixpoint route_queue (fuel : nat) (r : Router) (k : nat) : outcome Router :=
  match r_interfaces r !! k with
  | None => Undef
  | Some i =>
      match ai_datagrams_out i with
      | [] => Ret r
      | dgram :: _ =>
          match fuel with
          | O => Diverge
          | S fuel => r ← route_one_datagram r dgram; route_queue fuel (pop_datagram r k) k
          end
      end
  end.

(** The outer loop of [route], over the interfaces from index [k] on. *)
Fixpoint route_from (fuel : nat) (ks : list nat) (r : Router) : outcome Router :=
  match ks with
  | [] => Ret r
  | k :: ks => r ← route_queue fuel r k; route_from fuel ks r
  end.

(** The datagrams that wait in the router. *)
Definition waiting (r : Router) : list IPv4Datagram := concat (map ai_datagrams_out (r_interfaces r)).

Definition route (r : Router) : outcome Router :=
  route_from (length (waiting r)) (seq 0 (length (r_interfaces r))) r.

(** ** The routing table *)

(** A search tree with its keys, as the map keeps it: the search goes left
    when the new key compares below the node's, and the new node is the leaf
    where it ends. Rebalancing keeps the order of the nodes. *)
Inductive rtree :=
| Leaf
| Node (l : rtree) (e : Route) (r : rtree).

Fixpoint inorder (t : rtree) : list Route :=
  match t with Leaf => [] | Node l e r => inorder l ++ e :: inorder r end.

Fixpoint descend (e : Route) (t : rtree) : rtree :=
  match t with
  | Leaf => Node Leaf e Leaf
  | Node l e' r => if compare_prefix_length e.1 e'.1 then Node (descend e l) e' r else Node l e' (descend e r)
  end.

(** The prefix length and the prefix of a route. *)
Definition plen (e : Route) : Z := e.1.1.
Definition pnet (e : Route) : Z := e.1.2.

Definition prefix_le (a b : Route) : Prop := plen a <= plen b.

#[export] Instance prefix_le_trans : Transitive prefix_le.
Proof. intros a b c. unfold prefix_le. lia. Qed.

Lemma compare_spec a b : reflect (prefix_le a b) (compare_prefix_length a.1 b.1).
Proof. unfold compare_prefix_length, prefix_le. apply Z.leb_spec0. Qed.

(** Where an entry goes: after the shorter prefixes, before the others. *)
Lemma rtable_insert_split e t :
  StronglySorted prefix_le t ->
  ∃ t1 t2, t = t1 ++ t2 ∧ rtable_insert e t = t1 ++ e :: t2 ∧
    Forall (λ a, plen a < plen e) t1 ∧ Forall (prefix_le e) t2.
Proof.
  induction 1 as [|a t Hs (t1 & t2 & -> & Hi & H1 & H2) Ha]; cbn [rtable_insert].
  { by exists [], []. }
  destruct (compare_spec e a) as [He|He].
  - exists [], (a :: t1 ++ t2). split_and!; [done..|]. constructor; [done|].
    eapply Forall_impl; [exact Ha|]. intros b Hb. by etrans.
  - exists (a :: t1), t2. rewrite Hi. split_and!; [done..| |done]. constructor; [|done]. unfold prefix_le in He. lia.
Qed.

Lemma rtable_insert_sorted e t : StronglySorted prefix_le t -> StronglySorted prefix_le (rtable_insert e t).
Proof.
  induction 1 as [|a t Hs IH Ha]; cbn [rtable_insert]; [repeat constructor|].
  destruct (compare_spec e a) as [He|He].
  - repeat constructor; [done..|]. eapply Forall_impl; [exact Ha|]. intros b Hb. by etrans.
  - constructor; [done|]. destruct (rtable_insert_split e t Hs) as (t1 & t2 & -> & -> & H1 & H2).
    rewrite Forall_app in Ha |- *. destruct Ha as [Ha1 Ha2]. split; [done|]. constructor; [|done].
    unfold prefix_le in *. lia.
Qed.

Lemma rtable_insert_app_l e t u :
  Forall (λ a, plen a < plen e) t -> rtable_insert e (t ++ u) = t ++ rtable_insert e u.
Proof.
  induction 1 as [|a t Ha _ IH]; [done|]. cbn. destruct (compare_spec e a) as [He|]; [unfold prefix_le in He; lia|]. by rewrite IH.
Qed.
Lemma rtable_insert_app_r e t a u :
  prefix_le e a -> rtable_insert e (t ++ a :: u) = rtable_insert e t ++ a :: u.
Proof.
  intros Ha. induction t as [|b t IH]; cbn.
  - by destruct (compare_spec e a).
  - destruct (compare_spec e b); [done|]. by rewrite IH.
Qed.

Lemma sorted_mid (l : list Route) e r :
  StronglySorted prefix_le (l ++ e :: r) -> StronglySorted prefix_le l ∧ StronglySorted prefix_le r ∧ Forall (λ a, prefix_le a e) l.
Proof.
  induction l as [|a l IH]; cbn; inversion_clear 1 as [|? ? Hs Ha].
  - by split_and!; [constructor| |constructor].
  - destruct (IH Hs) as (H1 & H2 & H3). apply Forall_app in Ha as [Hl He]. inversion_clear He. split_and!; [by constructor|done|by constructor].
Qed.

(** The search in the tree inserts where [rtable_insert] does, whatever the
    shape of the tree. *)
Lemma descend_inorder e t :
  StronglySorted prefix_le (inorder t) -> inorder (descend e t) = rtable_insert e (inorder t).
Proof.
  induction t as [|l IHl a r IHr]; cbn [inorder descend]; [done|]. intros (Hl & Hr & Hle)%sorted_mid.
  destruct (compare_spec e a) as [He|He]; cbn [inorder].
  - by rewrite IHl, rtable_insert_app_r.
  - rewrite IHr by done. rewrite (cons_middle a _ (inorder r)), (cons_middle a _ (rtable_insert e _)), !app_assoc.
    symmetry. apply rtable_insert_app_l. apply Forall_app. unfold prefix_le in *. split.
    + eapply Forall_impl; [exact Hle|]. intros b Hb. cbn in Hb. lia.
    + repeat constructor. lia.
Qed.

(** ** Longest-prefix match *)

(** The network of an address: its first [len] bits. *)
Definition network (ip len : Z) : Z := Z.shiftl (Z.shiftr ip (32 - len)) (32 - len).

Definition applies (ip : Z) (e : Route) : bool := pnet e =? network ip (plen e).

(** A table entry whose mask the code can compute. *)
Definition prefix_length_ok (e : Route) : Prop := 0 <= plen e <= 32 ∧ plen e ≠ 1.

Lemma network_land ip k : is_u32 ip -> 0 <= k <= 32 -> Z.land ip (2 ^ 32 - 2 ^ k) = Z.shiftl (Z.shiftr ip k) k.
Proof.
  intros Hip Hk. apply Z.bits_inj'. intros i Hi. rewrite Z.land_spec, Z.shiftl_spec by done.
  replace (2 ^ 32 - 2 ^ k) with (Z.shiftl (Z.ones (32 - k)) k).
  2: { rewrite Z.shiftl_mul_pow2, Z.ones_equiv by lia. rewrite <- Z.sub_1_r, Z.mul_sub_distr_r, <- Z.pow_add_r by lia. f_equal; [f_equal; lia|lia]. }
  rewrite Z.shiftl_spec by done. destruct (Z.ltb_spec i k).
  { by rewrite (Z.testbit_neg_r _ (i - k)), (Z.testbit_neg_r (Z.shiftr _ _)), andb_false_r by lia. }
  rewrite Z.shiftr_spec by lia. replace (i - k + k) with i by lia. rewrite Z.testbit_ones_nonneg by lia.
  destruct (Z.ltb_spec (i - k) (32 - k)); [by rewrite andb_true_r|].
  rewrite andb_false_r. symmetry. apply Z.testbit_false; [done|]. unfold is_u32 in Hip.
  rewrite Z.div_small; [done|]. split; [lia|]. apply Z.lt_le_trans with (2 ^ 32); [lia|]. apply Z.pow_le_mono_r; lia.
Qed.

Lemma mask_net_network ip e : is_u32 ip -> prefix_length_ok e -> mask_net ip (plen e) = Ret (network ip (plen e)).
Proof.
  intros Hip [Hl H1]. unfold prefix_length_ok in *. set (len := plen e) in *. unfold mask_net, network. destruct (Z.ltb_spec 32 len); [lia|].
  destruct (Z.ltb_spec 0 len).
  - rewrite Z.shiftl_1_l. assert (2 ^ (32 - len) <= 2 ^ 30 ∨ len = 1) as [Hp|] by (destruct (decide (len = 1)); [by right|left; apply Z.pow_le_mono_r; lia]); [|done].
    assert (0 < 2 ^ (32 - len)) as Hpos by (apply Z.pow_pos_nonneg; lia).
    assert (i32 (2 ^ (32 - len)) = 2 ^ (32 - len)) as -> by (unfold i32; rewrite Z.mod_small; lia).
    destruct (Z.eqb_spec (2 ^ (32 - len)) (- 2 ^ 31)); [lia|]. rewrite u32_id by (unfold is_u32; lia).
    rewrite <- network_land by (done || lia). do 2 f_equal. lia.
  - assert (len = 0) as -> by lia. change (32 - 0) with 32. rewrite Z.shiftr_div_pow2 by lia.
    unfold is_u32 in Hip. by rewrite Z.div_small.
Qed.

(** The route the loop stops at. *)
Fixpoint first_route (ip : Z) (its : list Route) : option Route :=
  match its with
  | [] => None
  | e :: its => if applies ip e then Some e else first_route ip its
  end.

(** The route to take among those added, in the order of the additions:
    the longest prefix that applies, and among equally long ones the first. *)
Definition better (ip : Z) (best : option Route) (e : Route) : option Route :=
  if applies ip e then
    match best with
    | Some b => if plen b <? plen e then Some e else best
    | None => Some e
    end
  else best.
Definition best_route (ip : Z) (routes : list Route) : option Route := foldl (better ip) None routes.

Lemma first_route_app ip l k :
  first_route ip (l ++ k) = match first_route ip l with Some e => Some e | None => first_route ip k end.
Proof. induction l as [|e l IH]; cbn; [done|]. by destruct (applies ip e). Qed.

Lemma first_route_elem ip l e : first_route ip l = Some e -> e ∈ l ∧ applies ip e = true.
Proof.
  induction l as [|a l IH]; cbn; [done|]. destruct (applies ip a) eqn:Ha.
  - intros [= <-]. split; [left|done].
  - intros [H1 H2]%IH. split; [by right|done].
Qed.

Lemma first_route_insert ip e t :
  StronglySorted prefix_le t -> first_route ip (reverse (rtable_insert e t)) = better ip (first_route ip (reverse t)) e.
Proof.
  intros Hs. destruct (rtable_insert_split e t Hs) as (t1 & t2 & -> & -> & H1 & H2).
  rewrite !reverse_app, reverse_cons, !first_route_app. unfold better.
  destruct (first_route ip (reverse t2)) as [b|] eqn:Hb.
  - apply first_route_elem in Hb as [Hb _]. rewrite elem_of_reverse, Forall_forall in *. apply H2 in Hb. unfold prefix_le in Hb.
    destruct (Z.ltb_spec (plen b) (plen e)); [lia|]. by destruct (applies ip e).
  - cbn. destruct (applies ip e); [|done]. destruct (first_route ip (reverse t1)) as [b|] eqn:Hb1; [|done].
    apply first_route_elem in Hb1 as [Hb1 _]. rewrite elem_of_reverse, Forall_forall in *. apply H1 in Hb1.
    destruct (Z.ltb_spec (plen b) (plen e)); [done|lia].
Qed.

Definition add_routes (r : Router) (routes : list Route) : Router :=
  foldl (λ r e, add_route r (pnet e) (plen e) e.2.1 e.2.2) r routes.

Lemma add_routes_table r routes :
  StronglySorted prefix_le (r_rtable r) ->
  StronglySorted prefix_le (r_rtable (add_routes r routes)) ∧
  r_interfaces (add_routes r routes) = r_interfaces r ∧
  ∀ ip, first_route ip (reverse (r_rtable (add_routes r routes))) =
    foldl (better ip) (first_route ip (reverse (r_rtable r))) routes.
Proof.
  revert r. induction routes as [|[[len p] [h num]] routes IH]; intros r Hs; cbn [add_routes foldl]; [done|].
  destruct (IH (add_route r p len h num)) as (H1 & H2 & H3); [by apply rtable_insert_sorted|].
  split_and!; [done|done|]. intros ip. etrans; [apply H3|]. cbn [foldl]. f_equal.
  by apply first_route_insert.
Qed.

Lemma Forall_rtable_insert (P : Route -> Prop) e t : P e -> Forall P t -> Forall P (rtable_insert e t).
Proof. intros He. induction 1 as [|a t Ha Ht IH]; cbn; [by repeat constructor|]. destruct (compare_prefix_length _ _); by repeat constructor. Qed.

Lemma Forall_add_routes (P : Route -> Prop) r routes :
  Forall P (r_rtable r) -> Forall P routes -> Forall P (r_rtable (add_routes r routes)).
Proof.
  intros Hr Hp. revert r Hr. induction Hp as [|[[len p] [h num]] routes He _ IH]; intros r Hr; [done|].
  apply IH. by apply Forall_rtable_insert.
Qed.

Lemma best_route_spec ip routes :
  match best_route ip routes with
  | Some e => e ∈ routes ∧ applies ip e = true ∧ ∀ e', e' ∈ routes -> applies ip e' = true -> plen e' <= plen e
  | None => ∀ e, e ∈ routes -> applies ip e = false
  end.
Proof.
  induction routes as [|e routes IH] using rev_ind; [by intros e ?%not_elem_of_nil|].
  unfold best_route in *. rewrite foldl_snoc. unfold better at 1. revert IH.
  destruct (foldl (better ip) None routes) as [b|]; destruct (applies ip e) eqn:He.
  - intros (Hb & Hab & Hmax). destruct (Z.ltb_spec (plen b) (plen e)); (split; [set_solver|split; [done|]]);
      intros e' [Hin| ->%list_elem_of_singleton]%elem_of_app Ha'; try lia; specialize (Hmax e' Hin Ha'); lia.
  - intros (Hb & Hab & Hmax). split; [set_solver|split; [done|]].
    intros e' [Hin| ->%list_elem_of_singleton]%elem_of_app Ha'; [by apply Hmax|congruence].
  - intros Hno. split; [set_solver|split; [done|]].
    intros e' [Hin| ->%list_elem_of_singleton]%elem_of_app Ha'; [|lia]. by rewrite Hno in Ha'.
  - intros Hno e' [Hin| ->%list_elem_of_singleton]%elem_of_app; auto.
Qed.

(** ** Forwarding *)

(** The address a datagram is sent to over a route. *)
Definition hop_address (e : Route) (dgram : IPv4Datagram) : Address :=
  default (from_ipv4_numeric (ip_dst (dg_header dgram))) e.2.1.

Lemma route_loop_first its r dgram :
  datagram_ok dgram -> Forall prefix_length_ok its ->
  route_loop its r dgram =
    match first_route (ip_dst (dg_header dgram)) its with
    | None => Ret r
    | Some e =>
        let ttl := ip_ttl (dg_header dgram) in
        if ttl <=? 1 then Ret r else send_on r e.2.2 (set_ttl (ttl - 1) dgram) (hop_address e dgram)
    end.
Proof.
  intros [Hh _]. pose proof (ipk_ttl _ Hh) as Ht. unfold is_u8 in Ht.
  induction 1 as [|e its He _ IH]; [done|]. pose proof (mask_net_network (ip_dst (dg_header dgram)) e (ipk_dst _ Hh) He) as Hm.
  cbn [first_route]. unfold applies. destruct e as [[len p] [h num]]. cbn [route_loop]. unfold plen, pnet in *. cbn [fst snd] in *.
  rewrite Hm. unfold mbind, outcome_bind. destruct (Z.eqb_spec p (network (ip_dst (dg_header dgram)) len)); [|by rewrite IH].
  cbv zeta. unfold hop_address. destruct (Z.ltb_spec 0 (ip_ttl (dg_header dgram))); cbn [ip_ttl ip_dst dg_header set_ttl set_ip_ttl fst snd].
  - destruct (Z.eqb_spec (ip_ttl (dg_header dgram) - 1) 0), (Z.leb_spec (ip_ttl (dg_header dgram)) 1); try lia; by destruct h.
  - destruct (Z.eqb_spec (ip_ttl (dg_header dgram)) 0), (Z.leb_spec (ip_ttl (dg_header dgram)) 1); by try lia.
Qed.

(** C29: longest-prefix match. A router whose routes were added in any order
    sends a datagram over the route with the longest prefix that matches its
    destination, the first one added among equals, with its time to live
    decremented, to that route's next hop or, on an attached network, to the
    destination itself; a datagram with no matching route or with its time to
    live at an end is dropped. *)
Theorem route_longest_prefix ifs routes dgram :
  datagram_ok dgram -> Forall prefix_length_ok routes ->
  let r := add_routes (mkRouter ifs []) routes in
  let dst := ip_dst (dg_header dgram) in
  let ttl := ip_ttl (dg_header dgram) in
  match best_route dst routes with
  | Some e =>
      e ∈ routes ∧ applies dst e = true ∧ (∀ e', e' ∈ routes -> applies dst e' = true -> plen e' <= plen e) ∧
      route_one_datagram r dgram =
        if ttl <=? 1 then Ret r else send_on r e.2.2 (set_ttl (ttl - 1) dgram) (hop_address e dgram)
  | None => (∀ e, e ∈ routes -> applies dst e = false) ∧ route_one_datagram r dgram = Ret r
  end.
Proof.
  intros Hd Hr r dst ttl. pose proof (best_route_spec dst routes) as Hb.
  destruct (add_routes_table (mkRouter ifs []) routes) as (Hs & _ & Hf); [constructor|].
  assert (Forall prefix_length_ok (reverse (r_rtable r))) as Hok.
  { apply Forall_reverse. apply (Forall_add_routes _ (mkRouter ifs [])); [constructor|done]. }
  unfold route_one_datagram. rewrite (route_loop_first _ r dgram Hd Hok). fold dst. unfold r. rewrite Hf.
  change (foldl _ _ routes) with (best_route dst routes).
  destruct (best_route dst routes) as [e|]; [|done]. destruct Hb as (? & ? & ?). by split_and!.
Qed.

Definition sample_routes : list Route :=
  [((0, 0), (Some remote_ip, 0)); ((8, 167772160), (None, 1))].

Definition sample_interfaces : list AsyncNetworkInterface := [mkAsync fresh_interface []; mkAsync remote_interface []].

Lemma route_longest_prefix_witness :
  best_route 167772161 sample_routes = Some ((8, 167772160), (None, 1)) ∧
  let r := add_routes (mkRouter sample_interfaces []) sample_routes in
  ((8, 167772160), (None, 1)) ∈ sample_routes ∧ applies 167772161 ((8, 167772160), (None, 1)) = true ∧
  (∀ e', e' ∈ sample_routes -> applies 167772161 e' = true -> plen e' <= 8) ∧
  route_one_datagram r sample_datagram = send_on r 1 (set_ttl 63 sample_datagram) (from_ipv4_numeric 167772161).
Proof.
  split; [reflexivity|]. apply (route_longest_prefix sample_interfaces sample_routes sample_datagram); [apply sample_datagram_ok|].
  repeat constructor; cbn; lia.
Defined.

(** ** [route] *)

Definition async_ok (i : AsyncNetworkInterface) : Prop :=
  interface_ok (ai_base i) ∧ Forall datagram_ok (ai_datagrams_out i).

Record route_ok (count : Z) (e : Route) : Prop := {
  ek_prefix : prefix_length_ok e;
  ek_num : 0 <= e.2.2 < count;
  ek_hop : ∀ a, e.2.1 = Some a -> ipv4_ok a
}.

Record router_ok (r : Router) : Prop := {
  rk_interfaces : Forall async_ok (r_interfaces r);
  rk_routes : Forall (route_ok (zlen (r_interfaces r))) (r_rtable r)
}.

(** What forwarding one datagram does. *)
Definition forward (r : Router) (dgram : IPv4Datagram) : Router :=
  match first_route (ip_dst (dg_header dgram)) (reverse (r_rtable r)) with
  | None => r
  | Some e =>
      let ttl := ip_ttl (dg_header dgram) in
      if ttl <=? 1 then r
      else mkRouter
        (alter (λ i, mkAsync (sent (ai_base i) (set_ttl (ttl - 1) dgram) (ad_ip (hop_address e dgram))) (ai_datagrams_out i))
           (Z.to_nat e.2.2) (r_interfaces r)) (r_rtable r)
  end.

Lemma set_ttl_ok ttl d : datagram_ok d -> is_u8 ttl -> datagram_ok (set_ttl ttl d).
Proof. intros [[] Hl] Ht. by split; [split|]. Qed.

Lemma first_route_ok r ip e :
  router_ok r -> first_route ip (reverse (r_rtable r)) = Some e -> route_ok (zlen (r_interfaces r)) e.
Proof.
  intros [_ Hr] [He _]%first_route_elem. rewrite elem_of_reverse in He. rewrite Forall_forall in Hr. auto.
Qed.

Lemma hop_address_ok count e d : route_ok count e -> datagram_ok d -> ipv4_ok (hop_address e d).
Proof.
  intros [_ _ Hh] [Hd _]. unfold hop_address. destruct (e.2.1) as [a|]; [by apply Hh|].
  apply from_ipv4_ok. by destruct Hd.
Qed.

Lemma set_ttl_dec_ok d : datagram_ok d -> 1 < ip_ttl (dg_header d) -> datagram_ok (set_ttl (ip_ttl (dg_header d) - 1) d).
Proof. intros Hd Ht. pose proof (ipk_ttl _ (proj1 Hd)) as Hu. apply set_ttl_ok; [done|]. unfold is_u8 in *. lia. Qed.

Lemma route_one_forward r dgram :
  router_ok r -> datagram_ok dgram -> route_one_datagram r dgram = Ret (forward r dgram).
Proof.
  intros Hr Hd. unfold route_one_datagram, forward. rewrite route_loop_first; [|done|].
  2: { apply Forall_reverse. eapply Forall_impl; [apply Hr|]. by intros e []. }
  destruct (first_route _ _) as [e|] eqn:He; [|done]. apply first_route_ok in He; [|done]. cbv zeta.
  destruct (Z.leb_spec (ip_ttl (dg_header dgram)) 1); [done|]. pose proof (hop_address_ok _ _ _ He Hd) as Hh.
  pose proof (ek_num _ _ He) as Hn. unfold send_on.
  destruct (r_interfaces r !! Z.to_nat e.2.2) as [i|] eqn:Hi.
  2: { apply lookup_ge_None in Hi. unfold zlen in Hn. lia. }
  assert (async_ok i) as [Hok _] by (by eapply Forall_lookup_1; [apply Hr|]).
  rewrite send_datagram_sent by (done || by apply set_ttl_dec_ok). unfold mbind, outcome_bind. do 2 f_equal.
  rewrite list_insert_alter. apply list_alter_ext; [|done]. intros j Hj. by simplify_eq.
Qed.

Lemma forward_ok r dgram : router_ok r -> datagram_ok dgram -> router_ok (forward r dgram).
Proof.
  intros Hr Hd. unfold forward. destruct (first_route _ _) as [e|] eqn:He; [|done]. cbv zeta.
  destruct (Z.leb_spec (ip_ttl (dg_header dgram)) 1); [done|]. destruct Hr as [Hi Ht]. split; cbn [r_interfaces r_rtable].
  - apply Forall_alter; [done|]. intros i Hin [Hok Hq]. split; [|done]. apply sent_ok; [done|by apply set_ttl_dec_ok].
  - unfold zlen in *. by rewrite length_alter.
Qed.

(** Routers that differ at most in the datagrams that wait. *)
Definition same_network (r r' : Router) : Prop :=
  map ai_base (r_interfaces r) = map ai_base (r_interfaces r') ∧ r_rtable r = r_rtable r'.

#[export] Instance same_network_equivalence : Equivalence same_network.
Proof.
  split; [done|by intros ? ? []|]. intros r1 r2 r3 [H1 H2] [H3 H4]. split; by etrans.
Qed.

Lemma map_alter (f : AsyncNetworkInterface -> AsyncNetworkInterface) (g : NetworkInterface -> NetworkInterface) l k :
  (∀ i, ai_base (f i) = g (ai_base i)) -> map ai_base (alter f k l) = alter g k (map ai_base l).
Proof. intros Hfg. revert k. induction l as [|a l IH]; intros [|k]; cbn; [done..|by rewrite Hfg|]. f_equal. apply IH. Qed.

#[export] Instance forward_proper : Proper (same_network ==> (=) ==> same_network) forward.
Proof.
  intros r r' [Hb Ht] d ? <-. unfold forward. rewrite Ht. destruct (first_route _ _) as [e|]; [|done]. cbv zeta.
  case_match; [done|]. split; [|done]. cbn [r_interfaces].
  by rewrite !(map_alter _ (λ n, sent n (set_ttl (ip_ttl (dg_header d) - 1) d) (ad_ip (hop_address e d)))), Hb.
Qed.

#[export] Instance foldl_forward_proper : Proper (same_network ==> (=) ==> same_network) (foldl forward).
Proof. intros r r' Hr q ? <-. revert r r' Hr. induction q as [|d q IH]; intros r r' Hr; cbn; [done|]. apply IH. by rewrite Hr. Qed.

Lemma pop_same_network r k : same_network (pop_datagram r k) r.
Proof.
  split; [|done]. cbn. rewrite (map_alter _ (λ n, n)) by done. by apply list_alter_id.
Qed.

(** The queues of the interfaces. *)
Definition queues (r : Router) : list (list IPv4Datagram) := map ai_datagrams_out (r_interfaces r).

Lemma queues_forward r d : queues (forward r d) = queues r.
Proof.
  unfold forward. destruct (first_route _ _) as [e|]; [|done]. cbv zeta. case_match; [done|]. unfold queues; cbn.
  generalize (Z.to_nat e.2.2) as k. induction (r_interfaces r) as [|i l IH]; intros [|k]; cbn; [done..|]. f_equal. apply IH.
Qed.

Lemma queues_pop r k : queues (pop_datagram r k) = alter tail k (queues r).
Proof.
  unfold queues, pop_datagram. cbn. revert k. induction (r_interfaces r) as [|i l IH]; intros [|k]; cbn; [done..|]. f_equal. apply IH.
Qed.

Lemma pop_ok r k : router_ok r -> router_ok (pop_datagram r k).
Proof.
  intros [Hi Ht]. split; cbn [r_interfaces r_rtable pop_datagram].
  - apply Forall_alter; [done|]. intros i _ [Hok Hq]. split; [done|]. destruct Hq; [constructor|done].
  - unfold zlen in *. by rewrite length_alter.
Qed.

Lemma queues_lookup r k : queues r !! k = ai_datagrams_out <$> r_interfaces r !! k.
Proof. apply list_lookup_fmap. Qed.

Lemma route_queue_spec q fuel r k :
  router_ok r -> queues r !! k = Some q -> (length q <= fuel)%nat ->
  returns (route_queue fuel r k) (λ r', router_ok r' ∧ same_network r' (foldl forward r q) ∧ queues r' = <[k := []]> (queues r)).
Proof.
  revert fuel r. induction q as [|d q IH]; intros fuel r Hr Hk Hf; pose proof Hk as Hk';
    rewrite queues_lookup in Hk; apply fmap_Some in Hk as (i & Hi & Hq); destruct fuel as [|fuel]; cbn in Hf; try lia; cbn [route_queue];
    rewrite Hi, <- Hq.
  1, 2: apply returns_ret; split_and!; [done|done|by rewrite list_insert_id].
  assert (datagram_ok d) as Hd.
  { assert (async_ok i) as [_ Ho] by (by eapply Forall_lookup_1; [apply Hr|]). rewrite <- Hq in Ho. by inversion_clear Ho. }
  rewrite route_one_forward by done. unfold mbind, outcome_bind.
  assert (queues (pop_datagram (forward r d) k) = <[k := q]> (queues r)) as Hp.
  { rewrite queues_pop, queues_forward, list_insert_alter. apply list_alter_ext; [|done]. intros x Hx. by simplify_eq. }
  destruct (IH fuel (pop_datagram (forward r d) k)) as (r' & -> & Hok & Hs & Hqs).
  - by apply pop_ok, forward_ok.
  - rewrite Hp, list_lookup_insert_eq; [done|]. by apply lookup_lt_Some in Hk'.
  - lia.
  - apply returns_ret. split_and!; [done| |by rewrite Hqs, Hp, list_insert_insert_eq]. cbn [foldl]. by rewrite Hs, pop_same_network.
Qed.

Lemma route_from_spec fuel k rest r :
  router_ok r -> queues r = replicate k [] ++ rest -> (length (concat rest) <= fuel)%nat ->
  returns (route_from fuel (seq k (length rest)) r) (λ r',
    router_ok r' ∧ same_network r' (foldl forward r (concat rest)) ∧ queues r' = replicate (k + length rest) []).
Proof.
  revert k r. induction rest as [|q rest IH]; intros k r Hr Hq Hf; cbn [length seq route_from concat] in *.
  { apply returns_ret. rewrite app_nil_r in Hq. by rewrite Nat.add_0_r. }
  rewrite length_app in Hf. eapply returns_bind; [apply (route_queue_spec q); [done| |lia]|].
  { rewrite Hq, lookup_app_r by (rewrite length_replicate; lia). by rewrite length_replicate, Nat.sub_diag. }
  intros r' (Hok & Hs & Hq'). eapply returns_mono; [apply (IH (S k) r'); [done| |lia]|].
  - rewrite Hq', Hq, insert_app_r_alt by (rewrite length_replicate; lia). rewrite length_replicate, Nat.sub_diag. cbn.
    rewrite (cons_middle []), app_assoc, <- replicate_cons_app. done.
  - intros r'' (Hok' & Hs' & ->). split_and!; [done| |f_equal; lia]. by rewrite Hs', foldl_app, Hs.
Qed.

Lemma concat_replicate_nil {A} n : concat (replicate n ([] : list A)) = [].
Proof. by induction n. Qed.

(** C30: on a well-formed router, whose routes have a prefix length other than 1
    and name an interface that exists and whose waiting datagrams are all well
    formed, [route] terminates without an exception, leaves no datagram waiting and
    forwards each, in the order of the interfaces and of their queues, as
    [route_one_datagram] does; the router stays well formed. (The condition on the
    datagrams is needed: see [router_throws_on_bad_datagram].) *)
Theorem route_spec r :
  router_ok r ->
  ∃ r', route r = Ret r' ∧ router_ok r' ∧ waiting r' = [] ∧ same_network r' (foldl forward r (waiting r)) ∧
    (∀ dgram, datagram_ok dgram -> route_one_datagram r dgram = Ret (forward r dgram)).
Proof.
  intros Hr. unfold route, waiting. fold (queues r).
  destruct (route_from_spec (length (concat (queues r))) 0 (queues r) r Hr) as (r' & Hroute & Hok & Hs & Hq); [done|done|].
  unfold queues at 2 in Hroute. rewrite length_map in Hroute. exists r'. rewrite Hroute. fold (queues r'). rewrite Hq.
  split_and!; [done|done| |done|by intros; apply route_one_forward].
  apply concat_replicate_nil.
Qed.

Definition sample_router : Router :=
  add_routes (mkRouter [mkAsync fresh_interface []; mkAsync remote_interface [sample_datagram]] []) sample_routes.

Lemma sample_router_ok : router_ok sample_router.
Proof.
  pose proof fresh_interface_ok. pose proof remote_interface_ok. pose proof sample_datagram_ok.
  split; cbn.
  - apply Forall_cons; split; [by split|]. apply Forall_singleton. split; [done|by apply Forall_singleton].
  - apply Forall_cons; split; [|apply Forall_singleton]; (split; [unfold prefix_length_ok; cbn; lia|cbn; unfold zlen; cbn; lia|]).
    + intros a [= <-]. apply sample_ips_ok.
    + done.
Qed.

Lemma route_spec_witness :
  ∃ r', route sample_router = Ret r' ∧ router_ok r' ∧ waiting r' = [] ∧ same_network r' (foldl forward sample_router [sample_datagram]) ∧
    (∀ dgram, datagram_ok dgram -> route_one_datagram sample_router dgram = Ret (forward sample_router dgram)).
Proof. apply (route_spec sample_router sample_router_ok). Defined.

(** A frame to the second interface whose payload is a datagram of version 6
    but otherwise well formed, and a router that knows the next hop of its
    default route. *)
Definition bad_version_frame : EthernetFrame :=
  mkEthernetFrame (mkEthernetHeader remote_eth [2; 0; 0; 0; 0; 9] TYPE_IPv4)
    [Buffer_of_string ([x65; x00; x00; x15; x00; x00; x40; x00; x80; x06; x00; x00] ++ replicate 8 x00 ++ [x61])].

Definition exposed_router : Router :=
  add_routes (mkRouter [mkAsync known_interface []; mkAsync remote_interface []] []) [((0, 0), (Some remote_ip, 0))].

Definition receive_on (r : Router) (k : nat) (frame : EthernetFrame) : outcome Router :=
  match r_interfaces r !! k with
  | Some i => i ← async_recv_frame i frame; Ret (mkRouter (<[k := i]> (r_interfaces r)) (r_rtable r))
  | None => Undef
  end.

Lemma bind_throws {A B} (m : outcome A) (k : A -> outcome B) e :
  match m with Ret _ => true | _ => false end = true -> m ≫= k = Throw e -> ∃ a, m = Ret a ∧ k a = Throw e.
Proof. destruct m; try discriminate. eauto. Qed.

(** A single frame can bring the router down. The datagram parser accepts
    what the header parser refuses, and [route] lets the exception out that the
    serializer throws on it. *)
Theorem router_throws_on_bad_datagram :
  router_ok exposed_router ∧
  ∃ r, receive_on exposed_router 1 bad_version_frame = Ret r ∧ route r = Throw (runtime_error "wrong IP version").
Proof.
  split.
  - pose proof known_interface_ok. pose proof remote_interface_ok. split; cbn.
    + apply Forall_cons; split; [by split|]. by apply Forall_singleton.
    + apply Forall_singleton. split; [unfold prefix_length_ok; cbn; lia|cbn; unfold zlen; cbn; lia|].
      intros a [= <-]. apply sample_ips_ok.
  - apply bind_throws; vm_compute; reflexivity.
Qed.

(** Computing the mask of a prefix of length one subtracts one from the
    least [int], for any address. *)
Theorem mask_net_1_undefined ip : mask_net ip 1 = Undef.
Proof. reflexivity. Qed.
