(* ===== verification/Adapters.v ===== *)
(** [tcp_helpers/tcp_over_ip.cc], [tcp_helpers/fd_adapter.cc],
    [tcp_helpers/tuntap_adapter.cc] and [tcp_helpers/lossy_fd_adapter.hh]: the
    adapters that carry TCP segments over IPv4 on a TUN device, over IPv4 and
    Ethernet on a TAP device, or over UDP.

    What a device delivers is an argument of [read]; what is written to it is
    part of the result. *)
From S2P Require Import Prelude Buffer Parser Checksum TCPSegment IPv4 Ethernet Random Address NetworkInterface.

(** ** Configuration and base class *)

Record FdAdapterConfig := mkFdAdapterConfig {
  source : Address;
  destination : Address;
  loss_rate_dn : Z;
  loss_rate_up : Z
}.

(** [Address{"0", 0}] is 0.0.0.0, port 0. *)
Definition default_config : FdAdapterConfig := mkFdAdapterConfig (Address_of_ip 0 0) (Address_of_ip 0 0) 0 0.

Record FdAdapterBase := mkBase {
  config : FdAdapterConfig;
  listening : bool
}.

Definition new_FdAdapterBase : FdAdapterBase := mkBase default_config false.
Definition set_listening (l : bool) (a : FdAdapterBase) : FdAdapterBase := mkBase (config a) l.
Definition set_config (c : FdAdapterConfig) (a : FdAdapterBase) : FdAdapterBase := mkBase c (listening a).
Definition set_source (s : Address) (a : FdAdapterBase) : FdAdapterBase :=
  mkBase (mkFdAdapterConfig s (destination (config a)) (loss_rate_dn (config a)) (loss_rate_up (config a))) (listening a).
Definition set_destination (d : Address) (a : FdAdapterBase) : FdAdapterBase :=
  mkBase (mkFdAdapterConfig (source (config a)) d (loss_rate_dn (config a)) (loss_rate_up (config a))) (listening a).

(** ** TCPOverIPv4Adapter *)

(** The checks against the addresses of an established connection. *)
Definition unrelated (a : FdAdapterBase) (h : IPv4Header) : outcome bool :=
  if listening a then Ret false
  else
    src ← ipv4_numeric (source (config a));
    if negb (ip_dst h =? src) then Ret true
    else
      dst ← ipv4_numeric (destination (config a));
      Ret (negb (ip_src h =? dst)).

Definition unwrap_tcp_in_ip (a : FdAdapterBase) (ip_dgram : IPv4Datagram) : outcome (FdAdapterBase * option TCPSegment) :=
  let h := dg_header ip_dgram in
  skip ← unrelated a h;
  if skip : bool then Ret (a, None)
  else if negb (ip_proto h =? PROTO_TCP) then Ret (a, None)
  else
    b ← to_Buffer (dg_payload ip_dgram);
    '(tcp_seg, res) ← segment_parse default_segment b (pseudo_cksum h);
    if negb (bool_decide (res = NoError)) then Ret (a, None)
    else if negb (dport (header tcp_seg) =? port (source (config a))) then Ret (a, None)
    else
      let from_peer a := if negb (sport (header tcp_seg) =? port (destination (config a))) then Ret (a, None)
                         else Ret (a, Some tcp_seg) in
      if listening a then
        if syn (header tcp_seg) && negb (rst (header tcp_seg)) then
          let a := set_source (Address_of_ip (ip_dst h) (port (source (config a)))) a in
          let a := set_destination (Address_of_ip (ip_src h) (sport (header tcp_seg))) a in
          from_peer (set_listening false a)
        else Ret (a, None)
      else from_peer a.

(** The header of the datagram around a segment. *)
Definition wrap_header (src dst len : Z) : IPv4Header := set_ip_len len (set_ip_addresses src dst default_ip_header).

(** The segment is changed in place; it is the second result. *)
Definition wrap_tcp_in_ip (a : FdAdapterBase) (seg : TCPSegment) : outcome (IPv4Datagram * TCPSegment) :=
  let seg := on_header (set_ports (port (source (config a))) (port (destination (config a)))) seg in
  src ← ipv4_numeric (source (config a));
  dst ← ipv4_numeric (destination (config a));
  let h := wrap_header src dst
             (u16 (ip_hlen default_ip_header * 4 + doff (header seg) * 4 + size (payload seg))) in
  pl ← segment_serialize seg (pseudo_cksum h);
  Ret (mkIPv4Datagram h pl, seg).

(** ** TCPOverIPv4OverTunFdAdapter *)

(** [Buffer(_tun.read())] holds the packet the device delivers. *)
Definition tun_read (a : FdAdapterBase) (packet : list byte) : outcome (FdAdapterBase * option TCPSegment) :=
  '(ip_dgram, res) ← datagram_parse default_datagram (Buffer_of_string packet);
  if bool_decide (res = NoError) then unwrap_tcp_in_ip a ip_dgram else Ret (a, None).

Definition tun_write (a : FdAdapterBase) (seg : TCPSegment) : outcome (BufferList * TCPSegment) :=
  '(dgram, seg) ← wrap_tcp_in_ip a seg;
  bl ← datagram_serialize dgram;
  Ret (bl, seg).

(** ** TCPOverIPv4OverEthernetAdapter *)

Record EthernetAdapter := mkEthernetAdapter {
  ea_base : FdAdapterBase;
  ea_interface : NetworkInterface;
  ea_next_hop : Address
}.

Definition dummy_frame_bytes : BufferList := frame_serialize default_frame.

(** The constructor, with the frame it writes to the device. *)
Definition new_EthernetAdapter (eth_address : EthernetAddress) (ip_address next_hop : Address) : EthernetAdapter * list BufferList :=
  (mkEthernetAdapter new_FdAdapterBase (new_NetworkInterface eth_address ip_address) next_hop, [dummy_frame_bytes]).

(** [send_pending]: the frames, each serialized, in the order of the queue. *)
Fixpoint send_loop (q : list EthernetFrame) (n : NetworkInterface) (written : list BufferList) : NetworkInterface * list BufferList :=
  match q with
  | [] => (set_frames [] n, written)
  | f :: q => send_loop q (set_frames q n) (written ++ [frame_serialize f])
  end.
Definition send_pending (e : EthernetAdapter) : EthernetAdapter * list BufferList :=
  let '(n, written) := send_loop (ni_frames_out (ea_interface e)) (ea_interface e) [] in
  (mkEthernetAdapter (ea_base e) n (ea_next_hop e), written).

Definition eth_read (e : EthernetAdapter) (bytes : list byte) : outcome (EthernetAdapter * option TCPSegment * list BufferList) :=
  '(frame, res) ← frame_parse default_frame (Buffer_of_string bytes);
  if negb (bool_decide (res = NoError)) then Ret (e, None, [])
  else
    '(n, ip_dgram) ← recv_frame (ea_interface e) frame;
    let '(e, written) := send_pending (mkEthernetAdapter (ea_base e) n (ea_next_hop e)) in
    match ip_dgram with
    | Some d =>
        '(b, seg) ← unwrap_tcp_in_ip (ea_base e) d;
        Ret (mkEthernetAdapter b (ea_interface e) (ea_next_hop e), seg, written)
    | None => Ret (e, None, written)
    end.

Definition eth_tick (e : EthernetAdapter) (ms_since_last_tick : Z) : EthernetAdapter * list BufferList :=
  send_pending (mkEthernetAdapter (ea_base e) (tick (ea_interface e) ms_since_last_tick) (ea_next_hop e)).

Definition eth_write (e : EthernetAdapter) (seg : TCPSegment) : outcome (EthernetAdapter * TCPSegment * list BufferList) :=
  '(dgram, seg) ← wrap_tcp_in_ip (ea_base e) seg;
  n ← send_datagram (ea_interface e) dgram (ea_next_hop e);
  let '(e, written) := send_pending (mkEthernetAdapter (ea_base e) n (ea_next_hop e)) in
  Ret (e, seg, written).

(** ** TCPOverUDPSocketAdapter *)

(** A datagram from [recv()]: the sender's address and the payload. *)
Definition udp_read (a : FdAdapterBase) (source_address : Address) (payload : list byte)
    : outcome (FdAdapterBase * option TCPSegment) :=
  if negb (listening a) && negb (address_eqb source_address (destination (config a))) then Ret (a, None)
  else
    '(seg, res) ← segment_parse default_segment (Buffer_of_string payload) 0;
    if negb (bool_decide (res = NoError)) then Ret (a, None)
    else if listening a then
      if syn (header seg) && negb (rst (header seg)) then
        Ret (set_listening false (set_destination source_address a), Some seg)
      else Ret (a, None)
    else Ret (a, Some seg).

(** What [sendto] is called with. *)
Definition udp_write (a : FdAdapterBase) (seg : TCPSegment) : outcome (Address * BufferList * TCPSegment) :=
  let seg := on_header (set_ports (port (source (config a))) (port (destination (config a)))) seg in
  bl ← segment_serialize seg 0;
  Ret (destination (config a), bl, seg).

(** ** The interface of an adapter

    What the TCP stack and [LossyFdAdapter] use of an adapter, with the types
    of what the device delivers and takes. *)
Class FdAdapter (A : Type) := {
  wire_in : Type;
  wire_out : Type;
  adapter_read : A -> wire_in -> outcome (A * option TCPSegment * list wire_out);
  adapter_write : A -> TCPSegment -> outcome (A * TCPSegment * list wire_out);
  adapter_tick : A -> Z -> A * list wire_out;
  adapter_config : A -> FdAdapterConfig;
  adapter_set_config : FdAdapterConfig -> A -> A;
  adapter_set_listening : bool -> A -> A
}.

(** The two adapters that consist of the base class and a device. *)
Record TunAdapter := mkTun { tun_base : FdAdapterBase }.
Record UDPAdapter := mkUDP { udp_base : FdAdapterBase }.

#[export] Instance TunAdapter_FdAdapter : FdAdapter TunAdapter := {
  wire_in := list byte;
  wire_out := BufferList;
  adapter_read a packet := '(b, seg) ← tun_read (tun_base a) packet; Ret (mkTun b, seg, []);
  adapter_write a seg := '(bl, seg) ← tun_write (tun_base a) seg; Ret (a, seg, [bl]);
  adapter_tick a _ := (a, []);
  adapter_config a := config (tun_base a);
  adapter_set_config c a := mkTun (set_config c (tun_base a));
  adapter_set_listening l a := mkTun (set_listening l (tun_base a))
}.

#[export] Instance UDPAdapter_FdAdapter : FdAdapter UDPAdapter := {
  wire_in := Address * list byte;
  wire_out := Address * BufferList;
  adapter_read a w := '(b, seg) ← udp_read (udp_base a) w.1 w.2; Ret (mkUDP b, seg, []);
  adapter_write a seg := '(dst, bl, seg) ← udp_write (udp_base a) seg; Ret (a, seg, [(dst, bl)]);
  adapter_tick a _ := (a, []);
  adapter_config a := config (udp_base a);
  adapter_set_config c a := mkUDP (set_config c (udp_base a));
  adapter_set_listening l a := mkUDP (set_listening l (udp_base a))
}.

#[export] Instance EthernetAdapter_FdAdapter : FdAdapter EthernetAdapter := {
  wire_in := list byte;
  wire_out := BufferList;
  adapter_read := eth_read;
  adapter_write := eth_write;
  adapter_tick := eth_tick;
  adapter_config e := config (ea_base e);
  adapter_set_config c e := mkEthernetAdapter (set_config c (ea_base e)) (ea_interface e) (ea_next_hop e);
  adapter_set_listening l e := mkEthernetAdapter (set_listening l (ea_base e)) (ea_interface e) (ea_next_hop e)
}.

(** ** LossyFdAdapter

    [std::mt19937] is any generator. *)

Record LossyFdAdapter (R A : Type) := mkLossy {
  lossy_rand : R;
  lossy_adapter : A
}.
Arguments mkLossy {R A} lossy_rand lossy_adapter.
Arguments lossy_rand {R A} _.
Arguments lossy_adapter {R A} _.

Section lossy.
Context {R A : Type} `{RandomGenerator R} `{FdAdapter A}.

(** The generator is asked only where there is a loss rate. *)
Definition should_drop (l : LossyFdAdapter R A) (uplink : bool) : bool * LossyFdAdapter R A :=
  let cfg := adapter_config (lossy_adapter l) in
  let loss := if uplink then loss_rate_up cfg else loss_rate_dn cfg in
  if loss =? 0 then (false, l)
  else
    let '(x, g) := rand_next (lossy_rand l) in
    (u16 x <? loss, mkLossy g (lossy_adapter l)).

Definition lossy_read (l : LossyFdAdapter R A) (w : wire_in) : outcome (LossyFdAdapter R A * option TCPSegment * list wire_out) :=
  '(a, ret, out) ← adapter_read (lossy_adapter l) w;
  let '(drop, l) := should_drop (mkLossy (lossy_rand l) a) false in
  if drop : bool then Ret (l, None, out) else Ret (l, ret, out).

Definition lossy_write (l : LossyFdAdapter R A) (seg : TCPSegment) : outcome (LossyFdAdapter R A * TCPSegment * list wire_out) :=
  let '(drop, l) := should_drop l true in
  if drop : bool then Ret (l, seg, [])
  else '(a, seg, out) ← adapter_write (lossy_adapter l) seg; Ret (mkLossy (lossy_rand l) a, seg, out).

#[global] Instance LossyFdAdapter_FdAdapter : FdAdapter (LossyFdAdapter R A) := {
  wire_in := wire_in;
  wire_out := wire_out;
  adapter_read := lossy_read;
  adapter_write := lossy_write;
  adapter_tick l ms := let '(a, out) := adapter_tick (lossy_adapter l) ms in (mkLossy (lossy_rand l) a, out);
  adapter_config l := adapter_config (lossy_adapter l);
  adapter_set_config c l := mkLossy (lossy_rand l) (adapter_set_config c (lossy_adapter l));
  adapter_set_listening b l := mkLossy (lossy_rand l) (adapter_set_listening b (lossy_adapter l))
}.

End lossy.

(** ** What an adapter promises

    [adapter_ok] is preserved, no operation on what the device can deliver, or
    on a segment of the stack, throws, and each segment handed up is for the
    port the adapter is bound to. *)
Definition segment_ok (seg : TCPSegment) : Prop :=
  header_ok (header seg) ∧ 20 + 4 * doff (header seg) + zlen (str (payload seg)) <= 65535.

Class LawfulAdapter (A : Type) `{FdAdapter A} := {
  adapter_ok : A -> Prop;
  wire_ok : wire_in -> Prop;
  read_ok a w : adapter_ok a -> wire_ok w -> returns (adapter_read a w) (λ '(a', _, _), adapter_ok a');
  write_ok a seg : adapter_ok a -> segment_ok seg -> returns (adapter_write a seg) (λ '(a', _, _), adapter_ok a');
  config_ok a c : ipv4_ok (source c) -> ipv4_ok (destination c) -> adapter_ok a -> adapter_ok (adapter_set_config c a);
  listening_ok a l : adapter_ok a -> adapter_ok (adapter_set_listening l a)
}.

Section lossy_laws.
Context {R A : Type} `{RandomGenerator R} `{LawfulAdapter A}.
Implicit Types l : LossyFdAdapter R A.

Lemma lossy_read_spec l w :
  adapter_ok (lossy_adapter l) -> wire_ok w ->
  ∃ a ret out l' ret', adapter_read (lossy_adapter l) w = Ret (a, ret, out) ∧
    lossy_read l w = Ret (l', ret', out) ∧ lossy_adapter l' = a ∧ adapter_ok a ∧ (ret' = ret ∨ ret' = None) ∧
    (loss_rate_dn (adapter_config a) = 0 -> ret' = ret).
Proof.
  intros Hok Hw. destruct (read_ok (lossy_adapter l) w Hok Hw) as ([[a ret] out] & Hr & Ha). exists a, ret, out.
  unfold lossy_read, should_drop. rewrite Hr. cbn [mbind outcome_bind lossy_adapter lossy_rand].
  destruct (Z.eqb_spec (loss_rate_dn (adapter_config a)) 0); [eexists _, _; by split_and!; [..|left|]|].
  destruct (rand_next (lossy_rand l)) as [x g]. destruct (u16 x <? _); eexists _, _; (split_and!; [done..|auto|done]).
Qed.

Lemma lossy_write_spec l seg :
  adapter_ok (lossy_adapter l) -> segment_ok seg ->
  ∃ l' seg' out, lossy_write l seg = Ret (l', seg', out) ∧ adapter_ok (lossy_adapter l') ∧
    ((seg' = seg ∧ out = [] ∧ lossy_adapter l' = lossy_adapter l) ∨
     adapter_write (lossy_adapter l) seg = Ret (lossy_adapter l', seg', out)) ∧
    (loss_rate_up (adapter_config (lossy_adapter l)) = 0 ->
     adapter_write (lossy_adapter l) seg = Ret (lossy_adapter l', seg', out)).
Proof.
  intros Hok Hs. destruct (write_ok (lossy_adapter l) seg Hok Hs) as ([[a seg'] out] & Hr & Ha).
  unfold lossy_write, should_drop.
  destruct (Z.eqb_spec (loss_rate_up (adapter_config (lossy_adapter l))) 0).
  { rewrite Hr. cbn. eexists _, _, _. split_and!; [done..|by right|done]. }
  destruct (rand_next (lossy_rand l)) as [x g]. destruct (u16 x <? _).
  - eexists _, _, _. split_and!; [done..|by left|done].
  - cbn [lossy_adapter]. rewrite Hr. cbn. eexists _, _, _. split_and!; [done..|by right|done].
Qed.

End lossy_laws.

#[export] Program Instance LossyFdAdapter_lawful {R A} `{RandomGenerator R} `{LawfulAdapter A} : LawfulAdapter (LossyFdAdapter R A) := {
  adapter_ok l := adapter_ok (lossy_adapter l);
  wire_ok := wire_ok (A := A)
}.
Next Obligation.
  intros R A ? ? ? l w Hl Hw. destruct (lossy_read_spec l w Hl Hw) as (a & ret & out & l' & ret' & _ & Hq & <- & Ha & _).
  cbn. rewrite Hq. by apply returns_ret.
Qed.
Next Obligation.
  intros R A ? HA HL l seg Hl Hs. destruct (lossy_write_spec l seg Hl Hs) as (l' & seg' & out & Hq & Ha & _).
  cbn. rewrite Hq. by apply returns_ret.
Qed.
Next Obligation. intros R A ? ? ? l c Hs Hd Hl. cbn. by apply config_ok. Qed.
Next Obligation. intros R A ? ? ? l b Hl. cbn. by apply listening_ok. Qed.

(** ** Wrapping and unwrapping *)

Definition base_ok (a : FdAdapterBase) : Prop := ipv4_ok (source (config a)) ∧ ipv4_ok (destination (config a)).

Lemma u32_le z : 0 <= z -> 0 <= u32 z <= z.
Proof. intros. unfold u32. split; [apply Z.mod_pos_bound; lia|apply Z.mod_le; lia]. Qed.

Lemma halves_bound x : is_u32 x -> 0 <= Z.shiftr x 16 + Z.land x 65535 <= 131070.
Proof.
  unfold is_u32. intros Hx. rewrite Z.shiftr_div_pow2 by lia. change 65535 with (Z.ones 16). rewrite Z.land_ones by lia.
  Z.to_euclidean_division_equations. lia.
Qed.

Lemma pseudo_cksum_bound h : ip_header_ok h -> 0 <= pseudo_cksum h < 2 ^ 20.
Proof.
  intros Hh. unfold pseudo_cksum. cbv zeta. pose proof (halves_bound _ (ipk_src _ Hh)). pose proof (halves_bound _ (ipk_dst _ Hh)).
  pose proof (ipk_proto _ Hh) as Hp. unfold is_u8 in Hp. pose proof (u16_range (ip_len h - 4 * ip_hlen h)) as Hl. unfold is_u16 in Hl.
  fold (payload_length h) in Hl.
  set (a := Z.shiftr (ip_src h) 16 + _) in *. set (b := Z.shiftr (ip_dst h) 16 + _) in *.
  pose proof (u32_le a ltac:(lia)). pose proof (u32_le b ltac:(lia)). pose proof (u32_le (u32 a + u32 b) ltac:(lia)).
  pose proof (u32_le (u32 (u32 a + u32 b) + ip_proto h) ltac:(lia)).
  pose proof (u32_le (u32 (u32 (u32 a + u32 b) + ip_proto h) + payload_length h) ltac:(lia)). lia.
Qed.

(** The segment as it is written: with the ports of the connection. *)
Definition addressed (a : FdAdapterBase) (seg : TCPSegment) : TCPSegment :=
  on_header (set_ports (port (source (config a))) (port (destination (config a)))) seg.

Lemma addressed_ok a seg : base_ok a -> segment_ok seg -> segment_ok (addressed a seg).
Proof. intros [(_ & _ & _ & Hs) (_ & _ & _ & Hd)] [[] Hl]. by split; [split|]. Qed.

Lemma segment_sum_ok seg dlc : segment_ok seg -> 0 <= dlc < 2 ^ 20 -> segment_sum seg dlc < 2 ^ 32 - 2 ^ 16.
Proof.
  intros [Hh Hl] Hd. unfold segment_sum. pose proof (hok_doff _ Hh).
  pose proof (word_sum_range false (header_bytes (set_cksum 0 (header seg)))) as H1.
  rewrite zlen_header_bytes in H1 by (cbn; lia). cbn [doff set_cksum] in H1.
  pose proof (word_sum_range false (str (payload seg))). lia.
Qed.

Lemma wrap_spec a seg :
  base_ok a -> segment_ok seg ->
  ∃ d c, wrap_tcp_in_ip a seg = Ret (d, addressed a seg) ∧ datagram_ok d ∧ is_u16 c ∧
    dg_header d = wrap_header (ad_ip (source (config a))) (ad_ip (destination (config a)))
      (20 + 4 * doff (header seg) + zlen (str (payload seg))) ∧
    (∀ seg0 b, at_bytes (new_NetParser b) (concatenate (dg_payload d)) ->
       returns (segment_parse seg0 b (pseudo_cksum (dg_header d))) (λ '(seg', res), res = NoError ∧
         header seg' = set_cksum c (header (addressed a seg)) ∧ str (payload seg') = str (payload seg))).
Proof.
  intros Ha Hs. pose proof (addressed_ok a seg Ha Hs) as [Hh Hl]. pose proof (hok_doff _ Hh). pose proof (zlen_nonneg (str (payload seg))).
  destruct Ha as [Hsrc Hdst]. unfold wrap_tcp_in_ip. fold (addressed a seg).
  rewrite !ipv4_numeric_ok by done. unfold mbind, outcome_bind at 1 2. cbv zeta.
  set (len := 20 + 4 * doff (header seg) + zlen (str (payload seg))) in *.
  change (doff (header (addressed a seg))) with (doff (header seg)) in *. change (payload (addressed a seg)) with (payload seg) in *.
  replace (ip_hlen default_ip_header * 4 + doff (header seg) * 4 + size (payload seg)) with len
    by (change (ip_hlen default_ip_header) with 5; unfold len, size; lia).
  rewrite u16_id by (unfold is_u16; lia).
  set (h := wrap_header _ _ len). assert (ip_header_ok h) as Hok.
  { destruct Hsrc as (_ & _ & Hs1 & _), Hdst as (_ & _ & Hd1 & _).
    split; cbn; try (unfold is_u8, is_u16, PROTO_TCP, DEFAULT_TTL; lia); try done. }
  pose proof (pseudo_cksum_bound h Hok) as Hp.
  destruct (segment_wire (addressed a seg) (pseudo_cksum h) Hh) as (c & Hc & Hser & Hparse);
    [unfold is_u32; lia|by apply segment_sum_ok; [apply addressed_ok; [by split|done]|]|].
  rewrite Hser. cbn [outcome_bind]. eexists _, c. split; [done|]. cbn [dg_header dg_payload concatenate].
  rewrite str_of_string, app_nil_r. split_and!; [|done|done|exact Hparse].
  split; [done|]. cbn [dg_header dg_payload concatenate]. rewrite str_of_string, app_nil_r, zlen_app, zlen_header_bytes by (cbn; lia).
  change (ip_len h) with len. change (ip_hlen h) with 5. unfold len. cbn [doff set_cksum header payload addressed on_header set_ports]. lia.
Qed.

Lemma unrelated_ok a h :
  base_ok a -> unrelated a h = Ret (negb (listening a) && negb ((ip_dst h =? ad_ip (source (config a))) && (ip_src h =? ad_ip (destination (config a))))).
Proof.
  intros [Hs Hd]. unfold unrelated. destruct (listening a); [done|]. rewrite !ipv4_numeric_ok by done. unfold mbind, outcome_bind. cbn.
  by destruct (ip_dst h =? _), (ip_src h =? _).
Qed.

(** Any parsed datagram can be unwrapped. *)
Lemma unwrap_safe a d b :
  base_ok a -> is_u32 (ip_src (dg_header d)) -> is_u32 (ip_dst (dg_header d)) -> dg_payload d = [b] -> buffer_ok b ->
  returns (unwrap_tcp_in_ip a d) (λ '(a', seg), base_ok a' ∧ (listening a = false -> a' = a) ∧
    ∀ s, seg = Some s -> listening a' = false ∧ dport (header s) = port (source (config a')) ∧ sport (header s) = port (destination (config a'))).
Proof.
  intros Ha Hsrc Hdst Hpl Hb. unfold unwrap_tcp_in_ip. rewrite unrelated_ok by done. unfold mbind, outcome_bind at 1.
  destruct (negb _ && negb _); [by apply returns_ret|]. destruct (negb (ip_proto _ =? _)); [by apply returns_ret|].
  rewrite Hpl. cbn [to_Buffer outcome_bind].
  destruct (segment_parse_safe default_segment b (pseudo_cksum (dg_header d)) Hb (u32_range _)) as ([seg res] & -> & Hseg).
  unfold outcome_bind. case_bool_decide as Hres; [|by apply returns_ret]. destruct (Hseg Hres) as [Hsp Hdp]. cbn [negb].
  destruct (Z.eqb_spec (dport (header seg)) (port (source (config a)))) as [Hport|]; [|by apply returns_ret]. cbn [negb].
  pose proof Ha as [(_ & _ & _ & Hpt) _]. destruct (listening a) eqn:Hl.
  - destruct (syn _ && negb _); [|by apply returns_ret]. cbv zeta. cbn. rewrite Z.eqb_refl. apply returns_ret.
    split; [by split; apply Address_of_ip_ok|]. split; [done|]. by intros s [= <-].
  - cbv zeta. destruct (Z.eqb_spec (sport (header seg)) (port (destination (config a)))); apply returns_ret;
      (split; [done|split; [done|]]); [|done]. by intros s [= <-].
Qed.

Lemma tun_read_safe a packet : base_ok a -> zlen packet < 2 ^ 63 -> returns (tun_read a packet) (λ '(a', _), base_ok a').
Proof.
  intros Ha Hp. unfold tun_read. destruct (datagram_parse_any packet Hp) as ([d res] & -> & Hs & Hd & b & Hpl & Hb).
  unfold mbind, outcome_bind. case_bool_decide; [|by apply returns_ret].
  eapply returns_mono; [by apply (unwrap_safe a d b)|]. by intros [a' seg] [? _].
Qed.

Lemma tun_write_safe a seg :
  base_ok a -> segment_ok seg -> ∃ d, wrap_tcp_in_ip a seg = Ret (d, addressed a seg) ∧ datagram_ok d ∧ tun_write a seg = Ret (dg_wire d, addressed a seg).
Proof.
  intros Ha Hs. destruct (wrap_spec a seg Ha Hs) as (d & c & Hw & Hok & _). exists d. split; [done|]. split; [done|].
  unfold tun_write. rewrite Hw. unfold mbind, outcome_bind. by rewrite datagram_serialize_spec.
Qed.

(** The far end of a connection: addresses exchanged, or listening on the
    destination port. *)
Definition peer_of (a b : FdAdapterBase) : Prop :=
  if listening b then port (source (config b)) = port (destination (config a))
  else source (config b) = destination (config a) ∧ destination (config b) = source (config a).

(** What [unwrap_tcp_in_ip] makes of the adapter. *)
Definition peered (a b : FdAdapterBase) : FdAdapterBase :=
  if listening b then
    mkBase (mkFdAdapterConfig (Address_of_ip (ad_ip (destination (config a))) (port (source (config b))))
              (Address_of_ip (ad_ip (source (config a))) (port (source (config a))))
              (loss_rate_dn (config b)) (loss_rate_up (config b))) false
  else b.

(** A segment written to a TUN device by one adapter is what the adapter
    at the other end reads: the bytes are an IPv4 packet that parses, and
    unwrapping it gives the segment with its ports and checksum filled in. A
    listening adapter takes a SYN, and only a SYN, and then is bound to the
    sender's address and port. *)
Theorem tun_roundtrip a b seg :
  base_ok a -> base_ok b -> segment_ok seg -> peer_of a b ->
  ∃ packet seg', tun_write a seg = Ret (packet, addressed a seg) ∧
    if listening b && negb (syn (header seg) && negb (rst (header seg))) then
      tun_read b (concatenate packet) = Ret (b, None)
    else
      tun_read b (concatenate packet) = Ret (peered a b, Some seg') ∧
      (∃ c, header seg' = set_cksum c (header (addressed a seg))) ∧ str (payload seg') = str (payload seg).
Proof.
  intros Ha Hb Hs Hpeer. destruct (wrap_spec a seg Ha Hs) as (d & c & Hw & Hd & Hc & Hh & Hparse).
  destruct (tun_write_safe a seg Ha Hs) as (d' & Hw' & _ & Htw). rewrite Hw in Hw'. injection Hw' as <-.
  destruct (datagram_parse_wire default_datagram d Hd) as (d' & c' & Hdp & Hh' & _ & (buf & Hpl & Hat) & _).
  destruct (Hparse default_segment buf Hat) as ([seg' res] & Hsp & -> & Hsh & Hstr). exists (dg_wire d), seg'. split; [done|].
  assert (unwrap_tcp_in_ip b d' = if listening b && negb (syn (header seg) && negb (rst (header seg))) then Ret (b, None) else Ret (peered a b, Some seg')) as Hun.
  { unfold unwrap_tcp_in_ip. rewrite unrelated_ok by done. rewrite Hh', Hh, Hpl. unfold mbind, outcome_bind at 1.
    change (pseudo_cksum (set_ip_cksum c' ?h)) with (pseudo_cksum h). rewrite Hh in Hsp. cbn [to_Buffer outcome_bind]. rewrite Hsp.
    unfold outcome_bind. rewrite bool_decide_true by done. unfold peer_of, peered in *. cbn [ip_proto ip_src ip_dst set_ip_cksum wrap_header]. rewrite Hsh.
    destruct (listening b) eqn:Hl; cbn [negb andb].
    - rewrite Hpeer. cbn. rewrite Z.eqb_refl. cbn. destruct (syn (header seg) && negb (rst (header seg))); [|done]. by rewrite Z.eqb_refl, <- Hpeer.
    - destruct Hpeer as [-> ->]. by rewrite !Z.eqb_refl. }
  unfold tun_read. rewrite Hdp. unfold mbind, outcome_bind. rewrite bool_decide_true by done. rewrite Hun.
  destruct (listening b && _); [done|]. split_and!; [done|by exists c|done].
Qed.

Definition client_base : FdAdapterBase := mkBase (mkFdAdapterConfig (Address_of_ip 3232235777 40000) (Address_of_ip 167772161 80) 0 0) false.
Definition server_base : FdAdapterBase := mkBase (mkFdAdapterConfig (Address_of_ip 0 80) (Address_of_ip 0 0) 0 0) true.
Definition syn_segment : TCPSegment := mkTCPSegment (set_syn true default_header) Buffer_default.

Lemma base_ok_check ip1 p1 ip2 p2 dn up l :
  is_u32 ip1 -> is_u16 p1 -> is_u32 ip2 -> is_u16 p2 ->
  base_ok (mkBase (mkFdAdapterConfig (Address_of_ip ip1 p1) (Address_of_ip ip2 p2) dn up) l).
Proof. by split; apply Address_of_ip_ok. Qed.

Lemma client_base_ok : base_ok client_base.
Proof. apply base_ok_check; unfold is_u32, is_u16; lia. Qed.
Lemma server_base_ok : base_ok server_base.
Proof. apply base_ok_check; unfold is_u32, is_u16; lia. Qed.
Lemma syn_segment_ok : segment_ok syn_segment.
Proof. split; [split; vm_compute; split; discriminate || reflexivity|vm_compute; discriminate]. Qed.

Lemma tun_roundtrip_witness :
  ∃ packet seg', tun_write client_base syn_segment = Ret (packet, addressed client_base syn_segment) ∧
    tun_read server_base (concatenate packet) = Ret (peered client_base server_base, Some seg') ∧
    (∃ c, header seg' = set_cksum c (header (addressed client_base syn_segment))) ∧ str (payload seg') = str (payload syn_segment).
Proof.
  apply (tun_roundtrip client_base server_base syn_segment);
    [apply client_base_ok|apply server_base_ok|apply syn_segment_ok|reflexivity].
Defined.

(** ** The adapters keep their promises *)

#[export] Program Instance TunAdapter_lawful : LawfulAdapter TunAdapter := {
  adapter_ok a := base_ok (tun_base a);
  wire_ok packet := zlen packet < 2 ^ 63
}.
Next Obligation.
  intros a w Ha Hw. cbn. eapply returns_bind; [by apply tun_read_safe|]. intros [b seg] Hb. by apply returns_ret.
Qed.
Next Obligation.
  intros a seg Ha Hs. cbn. destruct (tun_write_safe _ _ Ha Hs) as (d & _ & _ & ->). by apply returns_ret.
Qed.
Next Obligation. by intros a c Hs Hd _. Qed.
Next Obligation. by intros a l []. Qed.

Lemma udp_read_safe a src payload :
  base_ok a -> ipv4_ok src -> zlen payload < 2 ^ 63 ->
  returns (udp_read a src payload) (λ '(a', seg), base_ok a' ∧ (is_Some seg -> listening a' = false ∧ destination (config a') = src)).
Proof.
  intros Ha Hsrc Hp. unfold udp_read. destruct (negb (listening a) && _) eqn:Hskip; [by apply returns_ret; split; [|intros []]|].
  destruct (segment_parse_safe default_segment (Buffer_of_string payload) 0) as ([seg res] & -> & _);
    [apply buffer_ok_of_string; lia|unfold is_u32; lia|].
  unfold mbind, outcome_bind. destruct (negb (bool_decide _)); [by apply returns_ret; split; [|intros []]|].
  destruct (listening a) eqn:Hl.
  - destruct (syn _ && _); apply returns_ret; [|by split; [|intros []]]. destruct Ha. by split.
  - apply returns_ret. split; [done|]. intros _. split; [done|]. cbn in Hskip. symmetry. apply address_eqb_eq.
    by apply negb_false_iff in Hskip.
Qed.

Lemma udp_write_safe a seg :
  base_ok a -> segment_ok seg -> ∃ bl, udp_write a seg = Ret (destination (config a), bl, addressed a seg) ∧
    ∀ seg0, zlen (concatenate bl) < 2 ^ 63 ∧ ∃ seg' c, is_u16 c ∧ segment_parse seg0 (Buffer_of_string (concatenate bl)) 0 = Ret (seg', NoError) ∧
      header seg' = set_cksum c (header (addressed a seg)) ∧ str (payload seg') = str (payload seg).
Proof.
  intros Ha Hs. pose proof (addressed_ok a seg Ha Hs) as Hs'. pose proof Hs' as [Hh Hl]. pose proof (hok_doff _ Hh).
  destruct (segment_wire (addressed a seg) 0 Hh) as (c & Hc & Hser & Hparse); [unfold is_u32; lia|by apply segment_sum_ok|].
  unfold udp_write. fold (addressed a seg). rewrite Hser. eexists. split; [done|]. intros seg0. cbn [concatenate].
  rewrite str_of_string, app_nil_r, zlen_app, zlen_header_bytes by (cbn [doff set_cksum]; lia).
  assert (4 * doff (header (addressed a seg)) + zlen (str (payload (addressed a seg))) < 2 ^ 63) as Hlt by lia.
  split; [exact Hlt|]. destruct (Hparse seg0 (Buffer_of_string (header_bytes (set_cksum c (header (addressed a seg))) ++ str (payload (addressed a seg)))))
    as ([seg' res] & Hp & -> & ? & ?).
  { apply new_parser_at. rewrite zlen_app, zlen_header_bytes by (cbn [doff set_cksum]; lia). cbn [doff set_cksum]. lia. }
  by exists seg', c.
Qed.

#[export] Program Instance UDPAdapter_lawful : LawfulAdapter UDPAdapter := {
  adapter_ok a := base_ok (udp_base a);
  wire_ok w := ipv4_ok w.1 ∧ zlen w.2 < 2 ^ 63
}.
Next Obligation.
  intros a w Ha [Hsrc Hw]. cbn. eapply returns_bind; [by apply udp_read_safe|]. intros [b seg] [Hb _]. by apply returns_ret.
Qed.
Next Obligation.
  intros a seg Ha Hs. cbn. destruct (udp_write_safe _ _ Ha Hs) as (bl & -> & _). by apply returns_ret.
Qed.
Next Obligation. by intros a c Hs Hd _. Qed.
Next Obligation. by intros a l []. Qed.

(** *** Ethernet *)

Record eth_adapter_ok (e : EthernetAdapter) : Prop := {
  eok_base : base_ok (ea_base e);
  eok_interface : interface_ok (ea_interface e);
  eok_hop : ipv4_ok (ea_next_hop e);
  eok_idle : ni_frames_out (ea_interface e) = []
}.

Lemma send_loop_spec q n w : send_loop q n w = (set_frames [] n, w ++ map frame_serialize q).
Proof. revert n w. induction q as [|f q IH]; intros n w; cbn; [by rewrite app_nil_r|]. by rewrite IH, <- app_assoc. Qed.

Lemma send_pending_spec e :
  send_pending e = (mkEthernetAdapter (ea_base e) (set_frames [] (ea_interface e)) (ea_next_hop e),
                    map frame_serialize (ni_frames_out (ea_interface e))).
Proof. unfold send_pending. by rewrite send_loop_spec. Qed.

Lemma eth_read_safe e bytes :
  eth_adapter_ok e -> zlen bytes < 2 ^ 63 -> returns (eth_read e bytes) (λ '(e', _, _), eth_adapter_ok e').
Proof.
  intros [Hb Hi Hh Hidle] Hs. unfold eth_read.
  destruct (frame_parse_any default_frame bytes Hs zero_address_ok) as ([f res] & -> & Hsrc & Hlen).
  unfold mbind, outcome_bind at 1. destruct (negb _); [by apply returns_ret|].
  assert (frame_in_ok f) as Hf by (split; [done|lia]).
  destruct (recv_frame_cases (ea_interface e) f Hi Hf) as [(m & _ & _ & Hm & _ & Hr)|[(d & _ & _ & Hp & Hr)|Hr]]; rewrite Hr;
    unfold outcome_bind; rewrite send_pending_spec; cbn [ea_base ea_interface ea_next_hop].
  - apply returns_ret. split; cbn; [done|apply interface_ok_frames, received_arp_ok; done|done|done].
  - destruct (datagram_parse_any _ (proj2 Hf)) as ([d' r'] & Hp' & H1 & H2 & b & Hpl & Hbok). rewrite Hp in Hp'. injection Hp' as <- <-.
    destruct (unwrap_safe (ea_base e) d b) as ([b' seg] & -> & Hb' & _); [done..|].
    apply returns_ret. split; cbn; [done|by apply interface_ok_frames|done|done].
  - apply returns_ret. split; cbn; [done|by apply interface_ok_frames|done|done].
Qed.

Lemma eth_write_safe e seg :
  eth_adapter_ok e -> segment_ok seg ->
  ∃ d, wrap_tcp_in_ip (ea_base e) seg = Ret (d, addressed (ea_base e) seg) ∧ datagram_ok d ∧
    eth_write e seg = Ret (mkEthernetAdapter (ea_base e) (set_frames [] (sent (ea_interface e) d (ad_ip (ea_next_hop e)))) (ea_next_hop e),
      addressed (ea_base e) seg, map frame_serialize (ni_frames_out (sent (ea_interface e) d (ad_ip (ea_next_hop e))))).
Proof.
  intros [Hb Hi Hh Hidle] Hs. destruct (wrap_spec (ea_base e) seg Hb Hs) as (d & c & Hw & Hd & _).
  exists d. split; [done|]. split; [done|]. unfold eth_write. rewrite Hw. unfold mbind, outcome_bind.
  by rewrite send_datagram_sent, send_pending_spec.
Qed.

#[export] Program Instance EthernetAdapter_lawful : LawfulAdapter EthernetAdapter := {
  adapter_ok := eth_adapter_ok;
  wire_ok bytes := zlen bytes < 2 ^ 63
}.
Next Obligation. intros e w He Hw. by apply eth_read_safe. Qed.
Next Obligation.
  intros e seg He Hs. cbn. destruct (eth_write_safe e seg He Hs) as (d & _ & Hd & ->). apply returns_ret.
  destruct He. split; cbn; [done|by apply interface_ok_frames, sent_ok|done|done].
Qed.
Next Obligation. intros e c Hs Hd []. by split. Qed.
Next Obligation. intros e l []. by split. Qed.

(** A generator, for concrete runs: the multiplier of [std::minstd_rand]. *)
#[export] Instance minstd : RandomGenerator Z := λ x, let y := x * 48271 mod 2147483647 in (y, y).

(** Dropping segments at random keeps an adapter's promises: over any
    adapter that keeps them, [LossyFdAdapter] does, and what it hands up or
    writes is what the adapter does or nothing; with a loss rate of zero it is the
    adapter. *)
Theorem lossy_lawful R A (HR : RandomGenerator R) (HA : FdAdapter A) (HL : LawfulAdapter A) (l : LossyFdAdapter R A) w seg :
  adapter_ok (lossy_adapter l) -> wire_ok w -> segment_ok seg ->
  (∃ a ret out l' ret', adapter_read (lossy_adapter l) w = Ret (a, ret, out) ∧
     lossy_read l w = Ret (l', ret', out) ∧ lossy_adapter l' = a ∧ adapter_ok a ∧ (ret' = ret ∨ ret' = None) ∧
     (loss_rate_dn (adapter_config a) = 0 -> ret' = ret)) ∧
  (∃ l' seg' out, lossy_write l seg = Ret (l', seg', out) ∧ adapter_ok (lossy_adapter l') ∧
     ((seg' = seg ∧ out = [] ∧ lossy_adapter l' = lossy_adapter l) ∨
      adapter_write (lossy_adapter l) seg = Ret (lossy_adapter l', seg', out)) ∧
     (loss_rate_up (adapter_config (lossy_adapter l)) = 0 ->
      adapter_write (lossy_adapter l) seg = Ret (lossy_adapter l', seg', out))).
Proof. intros Ha Hw Hs. split; [by apply lossy_read_spec|by apply lossy_write_spec]. Qed.

Definition lossy_client : LossyFdAdapter Z TunAdapter := mkLossy 1 (mkTun client_base).

Lemma lossy_lawful_witness :
  (∃ a ret out l' ret', adapter_read (mkTun client_base) [x45] = Ret (a, ret, out) ∧
     lossy_read lossy_client [x45] = Ret (l', ret', out) ∧ lossy_adapter l' = a ∧ adapter_ok a ∧ (ret' = ret ∨ ret' = None) ∧
     (loss_rate_dn (adapter_config a) = 0 -> ret' = ret)) ∧
  (∃ l' seg' out, lossy_write lossy_client syn_segment = Ret (l', seg', out) ∧ adapter_ok (lossy_adapter l') ∧
     ((seg' = syn_segment ∧ out = [] ∧ lossy_adapter l' = mkTun client_base) ∨
      adapter_write (mkTun client_base) syn_segment = Ret (lossy_adapter l', seg', out)) ∧
     (loss_rate_up (config client_base) = 0 ->
      adapter_write (mkTun client_base) syn_segment = Ret (lossy_adapter l', seg', out))).
Proof.
  apply (lossy_lawful Z TunAdapter minstd TunAdapter_FdAdapter TunAdapter_lawful lossy_client [x45] syn_segment);
    [apply client_base_ok|vm_compute; reflexivity|apply syn_segment_ok].
Defined.

(** The Ethernet adapter is total: whatever bytes the device delivers,
    [read] returns and sends out every frame the interface has queued; [write]
    puts a segment on the wire as a datagram for the next hop, or asks for its
    address. *)
Theorem ethernet_adapter_total e bytes seg :
  eth_adapter_ok e -> zlen bytes < 2 ^ 63 -> segment_ok seg ->
  (∃ e' s out, eth_read e bytes = Ret (e', s, out) ∧ eth_adapter_ok e') ∧
  (∃ e' d, wrap_tcp_in_ip (ea_base e) seg = Ret (d, addressed (ea_base e) seg) ∧ eth_adapter_ok e' ∧
     eth_write e seg = Ret (e', addressed (ea_base e) seg,
       match ni_ip_to_eth_table (ea_interface e) !! ad_ip (ea_next_hop e) with
       | Some eth => map frame_serialize (map (dg_frame (ni_ethernet_address (ea_interface e)) eth)
                       (queue_at (ea_interface e) (ad_ip (ea_next_hop e)) ++ [d]))
       | None => if must_ask (ea_interface e) (ad_ip (ea_next_hop e))
                 then [frame_serialize (arp_frame ETHERNET_BROADCAST (arp_request (ea_interface e) (ad_ip (ea_next_hop e))))]
                 else []
       end)).
Proof.
  intros He Hb Hs. split.
  { destruct (eth_read_safe e bytes He Hb) as ([[e' s] out] & H & Hok). by exists e', s, out. }
  destruct (eth_write_safe e seg He Hs) as (d & Hw & Hd & Hq). destruct He as [Hbase Hi Hh Hidle].
  eexists _, d. split; [done|]. split; [|rewrite Hq; do 2 f_equal].
  - split; cbn; [done|by apply interface_ok_frames, sent_ok|done|done].
  - unfold sent. destruct (_ !! _); cbn [ni_frames_out set_frames set_dg_map set_timeout_table]; rewrite Hidle; [done|].
    by destruct (must_ask _ _).
Qed.

Definition sample_eth_adapter : EthernetAdapter := mkEthernetAdapter client_base fresh_interface remote_ip.

Lemma ethernet_adapter_total_witness :
  (∃ e' s out, eth_read sample_eth_adapter [x45] = Ret (e', s, out) ∧ eth_adapter_ok e') ∧
  (∃ e' d, wrap_tcp_in_ip client_base syn_segment = Ret (d, addressed client_base syn_segment) ∧ eth_adapter_ok e' ∧
     eth_write sample_eth_adapter syn_segment = Ret (e', addressed client_base syn_segment,
       [frame_serialize (arp_frame ETHERNET_BROADCAST (arp_request fresh_interface 3232235778))])).
Proof.
  apply (ethernet_adapter_total sample_eth_adapter [x45] syn_segment).
  - split; cbn; [apply client_base_ok|apply fresh_interface_ok|apply sample_ips_ok|reflexivity].
  - vm_compute. reflexivity.
  - apply syn_segment_ok.
Defined.
