(* ===== verification/Carrier.v ===== *)
(** What the adapters carry: a segment that an adapter hands up is one that was
    written at the other end, its ports and checksum apart. The class
    [CarryingAdapter] states this of an adapter together with what it keeps back
    (datagrams that wait for an address); the adapters of the source are its
    instances. *)
From S2P Require Import Prelude Buffer ByteStream Parser Checksum WrappingIntegers TCPSegment TCPReceiver TCPSender TCPConnection IPv4 Ethernet Random Address NetworkInterface Adapters.

(** [seg'] is [seg] with ports and checksum filled in. *)
Definition carried (seg seg' : TCPSegment) : Prop :=
  (∃ s d c, is_u16 s ∧ is_u16 d ∧ is_u16 c ∧ header seg' = set_cksum c (set_ports s d (header seg))) ∧
  str (payload seg') = str (payload seg).

Lemma carried_wire S isn seg seg' : carried seg seg' -> TCPConnection.wire_ok S isn seg -> TCPConnection.wire_ok S isn seg'.
Proof.
  intros [(s & d & c & Hs & Hd & Hc & Hh) Hp] ((abs & [H1 H2 H3 H4]) & [] & Hsz). split_and!.
  - exists abs. split; unfold stream_index in *; rewrite ?Hh, ?Hp; done.
  - rewrite Hh. by split.
  - unfold size in *. by rewrite Hp.
Qed.

Lemma carried_rst seg seg' : carried seg seg' -> rst (header seg') = rst (header seg).
Proof. by intros [(s & d & c & _ & _ & _ & ->) _]. Qed.

(** What a device delivers to a lawful adapter is a segment that satisfies [P],
    or no segment. *)
Definition carries {A} `{LawfulAdapter A} (P : TCPSegment -> Prop) (w : wire_in) : Prop :=
  wire_ok w ∧ ∀ a a' seg out, adapter_ok a -> adapter_read a w = Ret (a', Some seg, out) -> ∃ seg0, P seg0 ∧ carried seg0 seg.

(** [transmit from o] is what the device at the other end delivers when [o] was
    written by an adapter whose device has the address [from]; [holds P a] says
    that what waits in [a] carries segments that satisfy [P]. *)
Class CarryingAdapter (A : Type) `{LawfulAdapter A} := {
  transmit : Address -> wire_out -> wire_in;
  holds : (TCPSegment -> Prop) -> A -> Prop;
  holds_read P from a w a' seg out :
    ipv4_ok from -> adapter_ok a -> wire_ok w -> holds P a -> adapter_read a w = Ret (a', seg, out) ->
    holds P a' ∧ Forall (λ o, carries P (transmit from o)) out;
  holds_write (P : TCPSegment -> Prop) from a seg a' seg' out :
    ipv4_ok from -> adapter_ok a -> segment_ok seg -> P seg -> holds P a -> adapter_write a seg = Ret (a', seg', out) ->
    holds P a' ∧ Forall (λ o, carries P (transmit from o)) out;
  holds_tick P from a ms :
    ipv4_ok from -> adapter_ok a -> holds P a ->
    holds P (adapter_tick a ms).1 ∧ Forall (λ o, carries P (transmit from o)) (adapter_tick a ms).2;
  holds_config P a c : holds P a -> holds P (adapter_set_config c a);
  holds_listening P a l : holds P a -> holds P (adapter_set_listening l a)
}.

(** ** Datagrams *)

(** Where a segment that was unwrapped comes from. *)
Lemma unwrap_some a d a' seg :
  unwrap_tcp_in_ip a d = Ret (a', Some seg) ->
  ∃ b, to_Buffer (dg_payload d) = Ret b ∧ segment_parse default_segment b (pseudo_cksum (dg_header d)) = Ret (seg, NoError).
Proof.
  unfold unwrap_tcp_in_ip. intros (skip & _ & H)%bind_ret_inv. destruct skip; [done|].
  destruct (negb (_ =? _)); [done|]. apply bind_ret_inv in H as (b & Hb & H). apply bind_ret_inv in H as ([s res] & Hs & H).
  exists b. split; [done|]. destruct (decide (res = NoError)) as [->|Hr]; [|by rewrite bool_decide_eq_false_2 in H].
  rewrite bool_decide_eq_true_2 in H by done. cbn [negb] in H. cbv zeta in H.
  enough (s = seg) as -> by done. revert H. repeat case_match; by intros [=].
Qed.

(** A datagram on the wire that carries a segment with [P]. *)
Definition dg_carries (P : TCPSegment -> Prop) (d : IPv4Datagram) : Prop :=
  datagram_ok d ∧ ∀ d' a a' seg, datagram_parse default_datagram (Buffer_of_string (concatenate (dg_wire d))) = Ret (d', NoError) ->
    unwrap_tcp_in_ip a d' = Ret (a', Some seg) -> ∃ seg0, P seg0 ∧ carried seg0 seg.

Lemma wrap_carries (P : TCPSegment -> Prop) a seg d seg' :
  base_ok a -> segment_ok seg -> P seg -> wrap_tcp_in_ip a seg = Ret (d, seg') -> dg_carries P d.
Proof.
  intros Ha Hs HP Hw. destruct (wrap_spec a seg Ha Hs) as (d0 & c & Hw0 & Hd & Hc & Hh & Hparse). rewrite Hw0 in Hw. injection Hw as -> _.
  split; [done|]. intros d' b b' s Hdp (buf & Hb & Hsp)%unwrap_some.
  destruct (datagram_parse_wire default_datagram d Hd) as (d1 & c' & Hdp' & Hh' & _ & (b1 & Hpl & Hat) & _).
  rewrite Hdp in Hdp'. injection Hdp' as ->. rewrite Hpl in Hb. injection Hb as <-.
  destruct (Hparse default_segment b1 Hat) as ([s' res] & Hsp' & -> & Hsh & Hstr). exists seg. split; [done|].
  rewrite Hh' in Hsp. change (pseudo_cksum (set_ip_cksum c' (dg_header d))) with (pseudo_cksum (dg_header d)) in Hsp.
  rewrite Hsp in Hsp'. injection Hsp' as ->. destruct Ha as [(_ & _ & _ & Hp1) (_ & _ & _ & Hp2)].
  split; [|done]. by exists (port (source (config a))), (port (destination (config a))), c.
Qed.

Lemma dg_wire_short d : datagram_ok d -> zlen (concatenate (dg_wire d)) < 2 ^ 62.
Proof.
  intros [Hh Hl]. pose proof (ipk_len _ Hh) as Hlen. pose proof (ipk_hlen _ Hh). unfold is_u16 in Hlen. unfold dg_wire. cbn [concatenate].
  rewrite str_of_string, zlen_app, zlen_ip_header_bytes by (cbn [ip_hlen set_ip_cksum]; lia). cbn [ip_hlen set_ip_cksum]. lia.
Qed.

(** ** TUN *)

Lemma tun_carries P d : dg_carries P d -> carries (A := TunAdapter) P (concatenate (dg_wire d)).
Proof.
  intros [Hd HP]. split; [change (zlen (concatenate (dg_wire d)) < 2 ^ 63); pose proof (dg_wire_short d Hd); lia|]. intros [a] [a'] seg out Ha. cbn -[tun_read]. unfold tun_read.
  intros ([b' s] & H & [= <- -> _])%bind_ret_inv. apply bind_ret_inv in H as ([d' res] & Hp & H).
  case_bool_decide as Hr; [|done]. subst res. by eapply HP.
Qed.

#[export] Program Instance TunAdapter_carrying : CarryingAdapter TunAdapter := {
  transmit _ bl := concatenate bl;
  holds _ _ := True
}.
Next Obligation.
  cbn -[tun_read tun_write udp_read udp_write]. intros P from a w a' seg out _ _ _ _ H. apply bind_ret_inv in H as ([b s] & _ & [= _ _ <-]). split; [done|constructor].
Qed.
Next Obligation.
  cbn -[tun_read tun_write udp_read udp_write]. intros P from [a] seg a' seg' out _ Ha Hs HP _ H. apply bind_ret_inv in H as ([bl s] & Hw & [= _ _ <-]). split; [done|].
  destruct (tun_write_safe a seg Ha Hs) as (d & Hd & _ & Htw). cbn [tun_base] in Hw. rewrite Htw in Hw. injection Hw as <- _.
  apply Forall_singleton, tun_carries. by eapply wrap_carries.
Qed.
Next Obligation. by repeat split. Qed.
Next Obligation. done. Qed.
Next Obligation. done. Qed.

(** ** UDP *)

Lemma udp_read_some a src bytes a' seg :
  udp_read a src bytes = Ret (a', Some seg) -> segment_parse default_segment (Buffer_of_string bytes) 0 = Ret (seg, NoError).
Proof.
  unfold udp_read. destruct (negb _ && negb _); [done|]. intros ([s res] & Hs & H)%bind_ret_inv.
  destruct (decide (res = NoError)) as [->|Hr]; [|by rewrite bool_decide_eq_false_2 in H].
  rewrite bool_decide_eq_true_2 in H by done. enough (s = seg) as -> by done. revert H. cbn [negb]. repeat case_match; by intros [=].
Qed.

#[export] Program Instance UDPAdapter_carrying : CarryingAdapter UDPAdapter := {
  transmit from o := (from, concatenate o.2);
  holds _ _ := True
}.
Next Obligation.
  cbn -[tun_read tun_write udp_read udp_write]. intros P from a w a' seg out _ _ _ _ H. apply bind_ret_inv in H as ([b s] & _ & [= _ _ <-]). split; [done|constructor].
Qed.
Next Obligation.
  cbn -[tun_read tun_write udp_read udp_write]. intros P from [a] seg a' seg' out Hfrom Ha Hs HP _ H. apply bind_ret_inv in H as ([[dst bl] s] & Hw & [= _ _ <-]). split; [done|].
  destruct (udp_write_safe a seg Ha Hs) as (bl' & Hw' & Hp). cbn [udp_base] in Hw. rewrite Hw in Hw'. injection Hw' as -> -> _.
  destruct (Hp default_segment) as (Hlen & seg1 & c & Hc & Hparse & Hh & Hstr). apply Forall_singleton. split; [done|].
  intros [b] [b'] s1 out Hb. cbn -[udp_read]. intros ([b1 s2] & Hr & [= _ -> _])%bind_ret_inv. apply udp_read_some in Hr. cbn in Hr. rewrite Hparse in Hr.
  injection Hr as <-. exists seg. split; [done|]. destruct Ha as [(_ & _ & _ & Hp1) (_ & _ & _ & Hp2)].
  split; [|done]. by exists (port (source (config a))), (port (destination (config a))), c.
Qed.
Next Obligation. by repeat split. Qed.
Next Obligation. done. Qed.
Next Obligation. done. Qed.

(** ** Lossy adapters *)

Section lossy.
Context {R A : Type} `{RandomGenerator R} `{CarryingAdapter A}.

Lemma drop_adapter (l : LossyFdAdapter R A) uplink : lossy_adapter (should_drop l uplink).2 = lossy_adapter l.
Proof. unfold should_drop. destruct (_ =? 0); [done|]. by destruct (rand_next (lossy_rand l)). Qed.

Lemma lossy_read_inv (l l' : LossyFdAdapter R A) w seg out :
  lossy_read l w = Ret (l', seg, out) ->
  ∃ a seg', adapter_read (lossy_adapter l) w = Ret (a, seg', out) ∧ lossy_adapter l' = a ∧ (seg = seg' ∨ seg = None).
Proof.
  unfold lossy_read. intros ([[a s] o] & Hr & Hd)%bind_ret_inv. pose proof (drop_adapter (mkLossy (lossy_rand l) a) false) as Ha.
  destruct (should_drop _ false) as [[] l1]; injection Hd as <- <- <-; exists a, s; auto.
Qed.

Lemma lossy_carries P w : carries (A := A) P w -> carries (A := LossyFdAdapter R A) P w.
Proof.
  intros [Hw HP]. split; [done|]. intros l l' seg out Hl (a & s & Hr & _ & [<-|?])%lossy_read_inv; [|done]. exact (HP _ _ _ _ Hl Hr).
Qed.

#[export] Program Instance LossyFdAdapter_carrying : CarryingAdapter (LossyFdAdapter R A) := {
  transmit := transmit (A := A);
  holds P l := holds P (lossy_adapter l)
}.
Next Obligation.
  cbn. intros P from l w l' seg out Hfrom Hl Hw Hh (a & s & Hr & -> & _)%lossy_read_inv.
  destruct (holds_read P from _ _ _ _ _ Hfrom Hl Hw Hh Hr) as [Ha Ho]. split; [done|]. eapply Forall_impl; [exact Ho|]; intros x; apply lossy_carries.
Qed.
Next Obligation.
  cbn. intros P from l seg l' seg' out Hfrom Hl Hs HP Hh. unfold lossy_write. pose proof (drop_adapter l true) as Hd.
  destruct (should_drop l true) as [[] l1]; cbn in Hd; [intros [= <- _ <-]; split; [by rewrite Hd|constructor]|].
  intros ([[a s] o] & Hw & [= <- _ <-])%bind_ret_inv. rewrite Hd in Hw.
  destruct (holds_write P from _ _ _ _ _ Hfrom Hl Hs HP Hh Hw) as [Ha Ho]. split; [done|]. eapply Forall_impl; [exact Ho|]; intros x; apply lossy_carries.
Qed.
Next Obligation.
  cbn. intros P from l ms Hfrom Hl Hh. destruct (holds_tick P from (lossy_adapter l) ms Hfrom Hl Hh) as [Ha Ho].
  destruct (adapter_tick (lossy_adapter l) ms) as [a out]. split; [done|]. eapply Forall_impl; [exact Ho|]; intros x; apply lossy_carries.
Qed.
Next Obligation. cbn. intros. by apply holds_config. Qed.
Next Obligation. cbn. intros. by apply holds_listening. Qed.
End lossy.

(** ** Ethernet *)

(** What an adapter makes of a frame that it receives: a segment only from the
    datagram in an IPv4 frame. *)
Lemma eth_read_some e h s e' seg out :
  eth_adapter_ok e -> eth_header_ok h -> zlen s < 2 ^ 62 -> eth_read e (eth_header_bytes h ++ s) = Ret (e', Some seg, out) ->
  eth_type h = TYPE_IPv4 ∧ ∃ d a', datagram_parse default_datagram (Buffer_of_string s) = Ret (d, NoError) ∧
    unwrap_tcp_in_ip (ea_base e) d = Ret (a', Some seg).
Proof.
  intros He Hh Hs. unfold eth_read. destruct (frame_parse_bytes default_frame h s Hh ltac:(lia)) as ([f res] & -> & -> & Hfh & Hfp).
  cbn [mbind outcome_bind]. rewrite bool_decide_eq_true_2 by done. cbn [negb].
  destruct (recv_frame_cases (ea_interface e) f (eok_interface _ He)) as [(m & _ & _ & _ & _ & ->)|[(d & _ & Ht & Hp & ->)| ->]].
  { split; rewrite ?Hfh, ?Hfp; [apply Hh|lia]. }
  all: cbn [mbind outcome_bind]; rewrite send_pending_spec; cbn [ea_base]; try done.
  intros ([a' sg] & Hu & [= _ -> _])%bind_ret_inv. rewrite Hfh in Ht. rewrite Hfp in Hp. eauto.
Qed.

Lemma eth_carries_dg P own eth d :
  address_ok own -> address_ok eth -> dg_carries P d -> carries (A := EthernetAdapter) P (concatenate (frame_serialize (dg_frame own eth d))).
Proof.
  intros Ho He [Hd HP]. pose proof (dg_wire_short d Hd) as Hl.
  assert (eth_header_ok (fr_header (dg_frame own eth d))) as Hh by (by split; cbn).
  rewrite frame_serialize_bytes by done. cbn [fr_payload dg_frame]. split.
  - change (zlen (eth_header_bytes (fr_header (dg_frame own eth d)) ++ concatenate (dg_wire d)) < 2 ^ 63).
    rewrite zlen_app, zlen_eth_header_bytes by done. lia.
  - intros e e' seg out Hok Hr. destruct (eth_read_some _ _ _ _ _ _ Hok Hh Hl Hr) as (_ & d' & a' & Hp & Hu). by eapply HP.
Qed.

Lemma eth_carries_arp P dst m :
  address_ok dst -> arp_ok m -> carries (A := EthernetAdapter) P (concatenate (frame_serialize (arp_frame dst m))).
Proof.
  intros Hd Hm. assert (eth_header_ok (fr_header (arp_frame dst m))) as Hh by (split; cbn; [done|by destruct Hm|by unfold is_u16, TYPE_ARP]).
  rewrite frame_serialize_bytes by done. cbn [fr_payload arp_frame concatenate]. rewrite str_of_string, app_nil_r. split.
  - change (zlen (eth_header_bytes (fr_header (arp_frame dst m)) ++ arp_bytes m) < 2 ^ 63).
    rewrite zlen_app, zlen_eth_header_bytes, zlen_arp_bytes by done. lia.
  - intros e e' seg out Hok Hr. assert (zlen (arp_bytes m) < 2 ^ 62) as Hl by (rewrite zlen_arp_bytes by done; lia).
    by destruct (eth_read_some _ _ _ _ _ _ Hok Hh Hl Hr) as [? _].
Qed.

(** The datagrams that wait for an address. *)
Definition waiting_carries (P : TCPSegment -> Prop) (n : NetworkInterface) : Prop :=
  map_Forall (λ _ q, Forall (dg_carries P) q) (ni_dg_map n).

Lemma waiting_queue P n ip : waiting_carries P n -> Forall (dg_carries P) (queue_at n ip).
Proof. intros Hn. unfold queue_at. destruct (_ !! ip) as [q|] eqn:Hq; [by apply (Hn ip q)|constructor]. Qed.

Definition frames_carry (P : TCPSegment -> Prop) (fs : list EthernetFrame) : Prop :=
  Forall (λ f, carries (A := EthernetAdapter) P (concatenate (frame_serialize f))) fs.

Lemma dg_frames_carry P own eth q :
  address_ok own -> address_ok eth -> Forall (dg_carries P) q -> frames_carry P (map (dg_frame own eth) q).
Proof. intros Ho He Hq. apply Forall_map. eapply Forall_impl; [exact Hq|]. intros d Hd. by apply eth_carries_dg. Qed.

Lemma sent_carries P n d ip :
  interface_ok n -> is_u32 ip -> ni_frames_out n = [] -> waiting_carries P n -> dg_carries P d ->
  waiting_carries P (sent n d ip) ∧ frames_carry P (ni_frames_out (sent n d ip)).
Proof.
  intros Hn Hip Hidle Hw Hd. pose proof (waiting_queue P n ip Hw) as Hq.
  assert (Forall (dg_carries P) (queue_at n ip ++ [d])) as Hq' by (apply Forall_app; split; [done|by apply Forall_singleton]).
  unfold sent. destruct (ni_ip_to_eth_table n !! ip) as [eth|] eqn:He; cbn; rewrite Hidle.
  - split; [by apply map_Forall_insert_2|]. apply dg_frames_carry; [apply Hn|by apply (nk_learned n Hn ip eth)|done].
  - split; [by apply map_Forall_insert_2|]. destruct (must_ask n ip); [|constructor].
    apply Forall_singleton, eth_carries_arp; [apply broadcast_ok|by apply arp_request_ok].
Qed.

Lemma learn_map n ip eth : ni_dg_map (learn n ip eth) = ni_dg_map n ∧ ni_frames_out (learn n ip eth) = ni_frames_out n.
Proof. unfold learn. by destruct (_ !! ip). Qed.

Lemma received_carries P n m src :
  interface_ok n -> arp_ok m -> address_ok src -> ni_frames_out n = [] -> waiting_carries P n ->
  waiting_carries P (received_arp n m src) ∧ frames_carry P (ni_frames_out (received_arp n m src)).
Proof.
  intros Hn Hm Hs Hidle Hw. pose proof (interface_ok_learn n (sender_ip_address m) src Hn Hs) as Hl.
  destruct (learn_map n (sender_ip_address m) src) as [Hmap Hf]. unfold received_arp. set (n' := learn _ _ _) in *.
  assert (waiting_carries P n') as Hw' by (unfold waiting_carries; by rewrite Hmap). rewrite Hidle in Hf.
  destruct (_ =? own_ip n'); [|split; [done|rewrite Hf; constructor]]. destruct (_ =? OPCODE_REQUEST); cbn; rewrite Hf.
  - split; [done|]. apply Forall_singleton, eth_carries_arp; [done|apply arp_reply_ok; [done..|by destruct Hm]].
  - split; [by apply map_Forall_insert_2; [constructor|]|]. apply dg_frames_carry; [apply Hl|by destruct Hm|by apply waiting_queue].
Qed.

#[export] Program Instance EthernetAdapter_carrying : CarryingAdapter EthernetAdapter := {
  transmit _ bl := concatenate bl;
  holds P e := waiting_carries P (ea_interface e)
}.
Next Obligation.
  cbn -[eth_read]. intros P from e bytes e' seg out _ [Hb Hi Hh Hidle] Hw Hold. unfold eth_read.
  destruct (frame_parse_any default_frame bytes Hw zero_address_ok) as ([f res] & -> & Hsrc & Hlen).
  cbn [mbind outcome_bind]. destruct (negb _); [intros [= <- _ <-]; split; [done|constructor]|].
  assert (frame_in_ok f) as Hf by (split; [done|lia]).
  destruct (recv_frame_cases (ea_interface e) f Hi Hf) as [(m & _ & _ & Hm & _ & ->)|[(d & _ & _ & Hp & ->)| ->]];
    cbn [mbind outcome_bind]; rewrite send_pending_spec; cbn [ea_base ea_interface ea_next_hop].
  - intros [= <- _ <-]. destruct (received_carries P _ m _ Hi Hm Hsrc Hidle Hold). split; [done|by apply Forall_map].
  - intros ([b' sg] & _ & [= <- _ <-])%bind_ret_inv. rewrite Hidle. split; [done|constructor].
  - intros [= <- _ <-]. rewrite Hidle. split; [done|constructor].
Qed.
Next Obligation.
  cbn -[eth_write]. intros P from e seg e' seg' out _ He Hs HP Hold Hw. destruct (eth_write_safe e seg He Hs) as (d & Hd & _ & Hq).
  rewrite Hw in Hq. injection Hq as -> _ ->. destruct He as [Hb Hi Hh Hidle]. pose proof Hh as (_ & _ & Hip & _).
  destruct (sent_carries P _ d _ Hi Hip Hidle Hold (wrap_carries P _ _ _ _ Hb Hs HP Hd)). split; [done|by apply Forall_map].
Qed.
Next Obligation.
  cbn. intros P from e ms _ [Hb Hi Hh Hidle] Hold. unfold eth_tick. rewrite send_pending_spec. cbn. rewrite Hidle. split; [done|constructor].
Qed.
Next Obligation. done. Qed.
Next Obligation. done. Qed.
