(* ===== verification/NetworkSimulator.v ===== *)
(** [apps/network_simulator.cc]: a router with seven interfaces, six hosts on
    five of its networks, and the traffic the program sends over them. The
    generator behind [rd] and the iteration order of the hash table of hosts are
    arguments; what goes to [cerr] is collected, colours apart. *)
From S2P Require Import Prelude Buffer Parser IPv4 Ethernet Random Format Printing Address NetworkInterface Router Adapters.

Section simulator.
Context {R : Type} `{RandomGenerator R}.

(** ** Random addresses *)

Definition random_host_ethernet_address (g : R) : EthernetAddress * R := random_private_ethernet_address g.

Definition random_router_ethernet_address (g : R) : EthernetAddress * R :=
  let '(addr, g) := random_bytes 6 g in
  (match addr with _ :: _ :: _ :: rest => 0x02 :: 0 :: 0 :: rest | _ => addr end, g).

(** [ip(str)] *)
Definition ip (str : string) : outcome Z := a ← Address_numeric (chars str) 0; ipv4_numeric a.

(** [clear(queue1, queue2)]; popping from an empty queue is undefined. *)
Fixpoint clear {T} (queue1 queue2 : list T) : outcome (list T) :=
  match queue1, queue2 with
  | [], _ => Ret queue2
  | _ :: queue1, _ :: queue2 => clear queue1 queue2
  | _ :: _, [] => Undef
  end.

Definition summary (frame : EthernetFrame) : outcome (list byte) :=
  let ret := eth_header_to_string (fr_header frame) in
  if eth_type (fr_header frame) =? TYPE_IPv4 then
    payload ← to_Buffer (fr_payload frame);
    '(dgram, res) ← datagram_parse default_datagram payload;
    if bool_decide (res = NoError) then
      Ret (ret ++ chars " " ++ ip_summary (dg_header dgram) ++ chars " payload=" ++ [x22] ++
           concatenate (dg_payload dgram) ++ [x22])
    else Ret (ret ++ chars " (bad IPv4)")
  else if eth_type (fr_header frame) =? TYPE_ARP then
    payload ← to_Buffer (fr_payload frame);
    '(arp, res) ← arp_parse default_arp payload;
    if bool_decide (res = NoError) then Ret (ret ++ chars " " ++ arp_to_string arp)
    else Ret (ret ++ chars " (bad ARP)")
  else Ret ret.

(** ** Host *)

Record Host := mkHost {
  h_name : string;
  h_my_address : Address;
  h_interface : AsyncNetworkInterface;
  h_next_hop : Address;
  h_expecting_to_receive : list IPv4Datagram
}.

Definition set_interface (i : AsyncNetworkInterface) (h : Host) : Host :=
  mkHost (h_name h) (h_my_address h) i (h_next_hop h) (h_expecting_to_receive h).
Definition set_expectations (l : list IPv4Datagram) (h : Host) : Host :=
  mkHost (h_name h) (h_my_address h) (h_interface h) (h_next_hop h) l.

Definition new_Host (name : string) (my_address next_hop : Address) (g : R) : Host * R :=
  let '(eth, g) := random_host_ethernet_address g in
  (mkHost name my_address (AsyncNetworkInterface_of (new_NetworkInterface eth my_address)) next_hop [], g).

(** [x.serialize().concatenate() == expected.serialize().concatenate()] *)
Definition same_wire (x expected : IPv4Datagram) : outcome bool :=
  sx ← datagram_serialize x;
  se ← datagram_serialize expected;
  Ret (bool_decide (concatenate sx = concatenate se)).

Fixpoint expecting_in (l : list IPv4Datagram) (expected : IPv4Datagram) : outcome bool :=
  match l with
  | [] => Ret false
  | x :: l => b ← same_wire x expected; if (b : bool) then Ret true else expecting_in l expected
  end.
Definition expecting (h : Host) (expected : IPv4Datagram) : outcome bool :=
  expecting_in (h_expecting_to_receive h) expected.

Fixpoint remove_from (l : list IPv4Datagram) (expected : IPv4Datagram) : outcome (list IPv4Datagram) :=
  match l with
  | [] => Ret []
  | x :: l =>
      b ← same_wire x expected;
      if (b : bool) then Ret l else l ← remove_from l expected; Ret (x :: l)
  end.
Definition remove_expectation (h : Host) (expected : IPv4Datagram) : outcome Host :=
  l ← remove_from (h_expecting_to_receive h) expected; Ret (set_expectations l h).

Definition dgram_text (d : IPv4Datagram) : list byte :=
  ip_summary (dg_header d) ++ chars " payload=" ++ [x22] ++ concatenate (dg_payload d) ++ [x22].

Definition log : Type := list (list byte).

Definition send_to (h : Host) (destination : Address) (ttl : Z) (g : R) (cerr : log)
    : outcome (IPv4Datagram * Host * R * log) :=
  src ← ipv4_numeric (h_my_address h);
  dst ← ipv4_numeric destination;
  let '(x, g) := rand_next g in
  let payload := [Buffer_of_string (chars "random payload: {" ++ dec (u32 x) ++ chars "}")] in
  let hdr := set_ip_addresses src dst default_ip_header in
  let hdr := set_ip_ttl ttl (set_ip_len (u16 (ip_hlen hdr * 4 + list_size payload)) hdr) in
  let dgram := mkIPv4Datagram hdr payload in
  n ← send_datagram (ai_base (h_interface h)) dgram (h_next_hop h);
  '(hop, _) ← ip_port (h_next_hop h);
  Ret (dgram, set_interface (mkAsync n (ai_datagrams_out (h_interface h))) h, g,
       cerr ++ [chars "Host " ++ chars (h_name h) ++ chars " trying to send datagram (with next hop = " ++ hop ++
                chars "): " ++ dgram_text dgram ++ [newline]]).

Definition expect (expected : IPv4Datagram) (h : Host) : Host :=
  set_expectations (h_expecting_to_receive h ++ [expected]) h.

(** The loop of [check], over the queue of received datagrams. *)
Fixpoint check_received (q : list IPv4Datagram) (h : Host) : outcome Host :=
  match q with
  | [] => Ret (set_interface (mkAsync (ai_base (h_interface h)) []) h)
  | dgram_received :: q =>
      b ← expecting h dgram_received;
      if negb b then
        Throw (runtime_error (message (chars "Host " ++ chars (h_name h) ++
          chars " received unexpected Internet datagram: " ++ dgram_text dgram_received)))
      else h ← remove_expectation h dgram_received; check_received q h
  end.

Definition check (h : Host) : outcome Host :=
  h ← check_received (ai_datagrams_out (h_interface h)) h;
  match h_expecting_to_receive h with
  | [] => Ret h
  | expected :: _ =>
      Throw (runtime_error (message (chars "Host " ++ chars (h_name h) ++
        chars " did NOT receive an expected Internet datagram: " ++ dgram_text expected)))
  end.

(** ** Network *)

(** The hash table of hosts is the list of its entries as they were inserted. *)
Record Network := mkNetwork {
  nw_router : Router;
  default_id : Z;
  eth0_id : Z;
  eth1_id : Z;
  eth2_id : Z;
  uun3_id : Z;
  hs4_id : Z;
  mit5_id : Z;
  nw_hosts : list (string * Host)
}.

Definition set_router (r : Router) (nw : Network) : Network :=
  mkNetwork r (default_id nw) (eth0_id nw) (eth1_id nw) (eth2_id nw) (uun3_id nw) (hs4_id nw) (mit5_id nw) (nw_hosts nw).
Definition set_hosts (l : list (string * Host)) (nw : Network) : Network :=
  mkNetwork (nw_router nw) (default_id nw) (eth0_id nw) (eth1_id nw) (eth2_id nw) (uun3_id nw) (hs4_id nw) (mit5_id nw) l.

Fixpoint find_host (name : string) (l : list (string * Host)) : option Host :=
  match l with
  | [] => None
  | (k, h) :: l => if String.eqb k name then Some h else find_host name l
  end.
Fixpoint put_host (name : string) (h : Host) (l : list (string * Host)) : list (string * Host) :=
  match l with
  | [] => []
  | (k, h') :: l => if String.eqb k name then (k, h) :: l else (k, h') :: put_host name h l
  end.

Definition host (nw : Network) (name : string) : outcome Host :=
  match find_host name (nw_hosts nw) with
  | None => Throw (runtime_error (message (chars "unknown host: " ++ chars name)))
  | Some h =>
      if negb (String.eqb (h_name h) name) then Throw (runtime_error (message (chars "invalid host: " ++ chars name)))
      else Ret h
  end.

(** The loop of [deliver], over the copy of the source's frames. *)
Fixpoint deliver (src_name : string) (to_send : list EthernetFrame) (dst_name : string)
    (dst : AsyncNetworkInterface) (cerr : log) : outcome (AsyncNetworkInterface * log) :=
  match to_send with
  | [] => Ret (dst, cerr)
  | frame :: to_send =>
      let frame := mkEthernetFrame (fr_header frame) [Buffer_of_string (concatenate (fr_payload frame))] in
      s ← summary frame;
      let cerr := cerr ++ [chars "Transferring frame from " ++ chars src_name ++ chars " to " ++ chars dst_name ++
                           chars ": " ++ s ++ [newline]] in
      dst ← async_recv_frame dst frame;
      deliver src_name to_send dst_name dst cerr
  end.

Definition frames_out (i : AsyncNetworkInterface) : list EthernetFrame := ni_frames_out (ai_base i).

(** [clear(frames, i.frames_out())] *)
Definition clear_frames (frames : list EthernetFrame) (i : AsyncNetworkInterface) : outcome AsyncNetworkInterface :=
  q ← clear frames (frames_out i); Ret (mkAsync (set_frames q (ai_base i)) (ai_datagrams_out i)).

Definition exchange_frames (x_name : string) (x : AsyncNetworkInterface) (y_name : string) (y : AsyncNetworkInterface)
    (cerr : log) : outcome (AsyncNetworkInterface * AsyncNetworkInterface * log) :=
  let x_frames := frames_out x in
  let y_frames := frames_out y in
  '(y, cerr) ← deliver x_name x_frames y_name y cerr;
  '(x, cerr) ← deliver y_name y_frames x_name x cerr;
  x ← clear_frames x_frames x;
  y ← clear_frames y_frames y;
  Ret (x, y, cerr).

Definition exchange_frames3 (x_name : string) (x : AsyncNetworkInterface) (y_name : string) (y : AsyncNetworkInterface)
    (z_name : string) (z : AsyncNetworkInterface) (cerr : log)
    : outcome (AsyncNetworkInterface * AsyncNetworkInterface * AsyncNetworkInterface * log) :=
  let x_frames := frames_out x in
  let y_frames := frames_out y in
  let z_frames := frames_out z in
  '(y, cerr) ← deliver x_name x_frames y_name y cerr;
  '(z, cerr) ← deliver x_name x_frames z_name z cerr;
  '(x, cerr) ← deliver y_name y_frames x_name x cerr;
  '(z, cerr) ← deliver y_name y_frames z_name z cerr;
  '(x, cerr) ← deliver z_name z_frames x_name x cerr;
  '(y, cerr) ← deliver z_name z_frames y_name y cerr;
  x ← clear_frames x_frames x;
  y ← clear_frames y_frames y;
  z ← clear_frames z_frames z;
  Ret (x, y, z, cerr).

(** The references [_router.interface(id)] and [host(name).interface()] are
    assigned through. *)
Definition put_interface (id : Z) (i : AsyncNetworkInterface) (nw : Network) : Network :=
  set_router (mkRouter (<[Z.to_nat id := i]> (r_interfaces (nw_router nw))) (r_rtable (nw_router nw))) nw.
Definition put_host_interface (name : string) (h : Host) (i : AsyncNetworkInterface) (nw : Network) : Network :=
  set_hosts (put_host name (set_interface i h) (nw_hosts nw)) nw.

(** One call of [exchange_frames] in [simulate_physical_connections]. *)
Definition connection (x_name : string) (id : Z) (y_name : string) (nw : Network) (cerr : log) : outcome (Network * log) :=
  x ← interface (nw_router nw) id;
  h ← host nw y_name;
  '(x, y, cerr) ← exchange_frames x_name x y_name (h_interface h) cerr;
  Ret (put_host_interface y_name h y (put_interface id x nw), cerr).

Definition connection3 (x_name : string) (id : Z) (y_name z_name : string) (nw : Network) (cerr : log) : outcome (Network * log) :=
  x ← interface (nw_router nw) id;
  hy ← host nw y_name;
  hz ← host nw z_name;
  '(x, y, z, cerr) ← exchange_frames3 x_name x y_name (h_interface hy) z_name (h_interface hz) cerr;
  Ret (put_host_interface z_name hz z (put_host_interface y_name hy y (put_interface id x nw)), cerr).

Definition simulate_physical_connections (nw : Network) (cerr : log) : outcome (Network * log) :=
  '(nw, cerr) ← connection "router.default" (default_id nw) "default_router" nw cerr;
  '(nw, cerr) ← connection "router.eth0" (eth0_id nw) "applesauce" nw cerr;
  '(nw, cerr) ← connection "router.eth2" (eth2_id nw) "cherrypie" nw cerr;
  '(nw, cerr) ← connection "router.hs4" (hs4_id nw) "hs_router" nw cerr;
  connection3 "router.uun3" (uun3_id nw) "dm42" "dm43" nw cerr.

Definition simulate_round (nw : Network) (cerr : log) : outcome (Network * log) :=
  r ← route (nw_router nw);
  simulate_physical_connections (set_router r nw) cerr.

Fixpoint simulate_rounds (n : nat) (nw : Network) (cerr : log) : outcome (Network * log) :=
  match n with
  | O => Ret (nw, cerr)
  | S n => '(nw, cerr) ← simulate_round nw cerr; simulate_rounds n nw cerr
  end.

(** The loop over the hosts, in the order of the hash table. *)
Fixpoint check_hosts (names : list string) (hosts : list (string * Host)) : outcome (list (string * Host)) :=
  match names with
  | [] => Ret hosts
  | name :: names =>
      match find_host name hosts with
      | None => Undef
      | Some h => h ← check h; check_hosts names (put_host name h hosts)
      end
  end.

Context (order : list string).

Definition simulate (nw : Network) (cerr : log) : outcome (Network * log) :=
  '(nw, cerr) ← simulate_rounds 256 nw cerr;
  hosts ← check_hosts order (nw_hosts nw);
  Ret (set_hosts hosts nw, cerr).

(** [_router.add_interface({random_router_ethernet_address(), {ip}})] *)
Definition add_random_interface (r : Router) (ip : string) (g : R) : outcome (Router * Z * R) :=
  let '(eth, g) := random_router_ethernet_address g in
  a ← Address_numeric (chars ip) 0;
  let '(r, id) := add_interface r (AsyncNetworkInterface_of (new_NetworkInterface eth a)) in
  Ret (r, id, g).

(** [_hosts.insert({name, {name, {my_address}, {next_hop}}})] *)
Definition add_host (hosts : list (string * Host)) (name my_address next_hop : string) (g : R)
    : outcome (list (string * Host) * R) :=
  a ← Address_numeric (chars my_address) 0;
  hop ← Address_numeric (chars next_hop) 0;
  let '(h, g) := new_Host name a hop g in
  Ret (match find_host name hosts with Some _ => hosts | None => hosts ++ [(name, h)] end, g).

(** [_router.add_route(ip(prefix), length, next_hop, id)] *)
Definition add_route_to (nw : Network) (prefix : string) (length : Z) (next_hop : option Address) (id : Z) : outcome Network :=
  p ← ip prefix; Ret (set_router (add_route (nw_router nw) p length next_hop id) nw).

Definition new_Network (g : R) : outcome (Network * R) :=
  '(r, default_id, g) ← add_random_interface new_Router "171.67.76.46" g;
  '(r, eth0_id, g) ← add_random_interface r "10.0.0.1" g;
  '(r, eth1_id, g) ← add_random_interface r "172.16.0.1" g;
  '(r, eth2_id, g) ← add_random_interface r "192.168.0.1" g;
  '(r, uun3_id, g) ← add_random_interface r "198.178.229.1" g;
  '(r, hs4_id, g) ← add_random_interface r "143.195.0.2" g;
  '(r, mit5_id, g) ← add_random_interface r "128.30.76.255" g;
  '(hosts, g) ← add_host [] "applesauce" "10.0.0.2" "10.0.0.1" g;
  '(hosts, g) ← add_host hosts "default_router" "171.67.76.1" "0" g;
  '(hosts, g) ← add_host hosts "cherrypie" "192.168.0.2" "192.168.0.1" g;
  '(hosts, g) ← add_host hosts "hs_router" "143.195.0.1" "0" g;
  '(hosts, g) ← add_host hosts "dm42" "198.178.229.42" "198.178.229.1" g;
  '(hosts, g) ← add_host hosts "dm43" "198.178.229.43" "198.178.229.1" g;
  let nw := mkNetwork r default_id eth0_id eth1_id eth2_id uun3_id hs4_id mit5_id hosts in
  default_router ← host nw "default_router";
  nw ← add_route_to nw "0.0.0.0" 0 (Some (h_my_address default_router)) default_id;
  nw ← add_route_to nw "10.0.0.0" 8 None eth0_id;
  nw ← add_route_to nw "172.16.0.0" 16 None eth1_id;
  nw ← add_route_to nw "192.168.0.0" 24 None eth2_id;
  nw ← add_route_to nw "198.178.229.0" 24 None uun3_id;
  hs_router ← host nw "hs_router";
  nw ← add_route_to nw "143.195.0.0" 17 (Some (h_my_address hs_router)) hs4_id;
  nw ← add_route_to nw "143.195.128.0" 18 (Some (h_my_address hs_router)) hs4_id;
  nw ← add_route_to nw "143.195.192.0" 19 (Some (h_my_address hs_router)) hs4_id;
  a ← Address_numeric (chars "128.30.0.1") 0;
  nw ← add_route_to nw "128.30.76.255" 16 (Some a) mit5_id;
  Ret (nw, g).

(** ** The program *)

(** The network, the state of [rd] and the lines written to [cerr]. *)
Definition world : Type := Network * R * log.

(** [auto dgram_sent = network.host(from).send_to(destination, ttl)] *)
Definition send_from (w : world) (from : string) (destination : Address) (ttl : Z) : outcome (IPv4Datagram * world) :=
  let '(nw, g, cerr) := w in
  h ← host nw from;
  '(dgram, h, g, cerr) ← send_to h destination ttl g cerr;
  Ret (dgram, (set_hosts (put_host from h (nw_hosts nw)) nw, g, cerr)).

(** One block of the program: a datagram is sent, expected with its time to
    live decremented at the host [to], if any, and the network simulated. *)
Definition traffic (w : world) (from : string) (destination : Address) (ttl : Z) (to : option string) : outcome world :=
  '(dgram_sent, (nw, g, cerr)) ← send_from w from destination ttl;
  nw ← match to with
       | None => Ret nw
       | Some name =>
           let dgram_sent := set_ttl (u8 (ip_ttl (dg_header dgram_sent) - 1)) dgram_sent in
           h ← host nw name;
           Ret (set_hosts (put_host name (expect dgram_sent h) (nw_hosts nw)) nw)
       end;
  '(nw, cerr) ← simulate nw cerr;
  Ret (nw, g, cerr).

(** [traffic] to the address of a host of the network. *)
Definition traffic_between (w : world) (from to : string) : outcome world :=
  h ← host w.1.1 to; traffic w from (h_my_address h) 64 (Some to).

(** [traffic] to a dotted address. *)
Definition traffic_to (w : world) (from destination : string) (ttl : Z) (to : option string) : outcome world :=
  a ← Address_numeric (chars destination) 0; traffic w from a ttl to.

Definition network_simulator (g : R) : outcome world :=
  '(network, g) ← new_Network g;
  let w := (network, g, []) in
  w ← traffic_between w "applesauce" "cherrypie";
  w ← traffic_between w "cherrypie" "applesauce";
  w ← traffic_to w "applesauce" "1.2.3.4" 64 (Some "default_router");
  w ← traffic_to w "applesauce" "143.195.131.17" 64 (Some "hs_router");
  w ← traffic_to w "cherrypie" "143.195.193.52" 64 (Some "hs_router");
  w ← traffic_to w "cherrypie" "143.195.223.255" 64 (Some "hs_router");
  w ← traffic_to w "cherrypie" "143.195.224.0" 64 (Some "default_router");
  w ← traffic_between w "dm42" "dm43";
  w ← traffic_to w "applesauce" "1.2.3.4" 1 None;
  traffic_to w "applesauce" "1.2.3.4" 0 None.

(** The exit status: an exception is reported as [EXIT_FAILURE]. *)
Definition main (g : R) : outcome Z :=
  match network_simulator g with
  | Ret _ => Ret 0
  | Throw _ => Ret 1
  | Undef => Undef
  | Diverge => Diverge
  end.
End simulator.
