(* ===== verification/Link.v ===== *)
(** Interfaces on one link, exchanging frames as [exchange_frames] of
    [apps/network_simulator.cc] does: a link of settled interfaces carries a
    datagram over a hop in at most three exchanges, with address resolution where
    it is needed. *)
From S2P Require Import Prelude Buffer Parser IPv4 Ethernet Format Printing Address NetworkInterface Router Adapters.
From S2P Require Import NetworkSimulator.

(** ** Interfaces at rest *)

(** A member of a link: its Ethernet and its IP address. *)
Abbreviation member := (EthernetAddress * Z)%type.
Definition ident (n : NetworkInterface) : member := (ni_ethernet_address n, own_ip n).

(** Nothing is queued, what was learned is true of the link, and no request
    is unanswered, except for the addresses in [asked]. *)
Record settled (ms : list member) (asked : Z -> Prop) (n : NetworkInterface) : Prop := {
  sd_ok : interface_ok n;
  sd_queues : ∀ ip, ~ asked ip -> queue_at n ip = [];
  sd_learned : ∀ ip e, ni_ip_to_eth_table n !! ip = Some e -> (e, ip) ∈ ms;
  sd_answered : ∀ ip, ~ asked ip -> ni_ip_to_eth_table n !! ip = None -> ni_ip_timeout_table n !! ip = None
}.

Definition nobody (ip : Z) : Prop := False.
Lemma not_nobody ip : ~ nobody ip.
Proof. by intros []. Qed.
#[local] Hint Resolve not_nobody : core.

Lemma settled_frames ms asked n q : settled ms asked n -> settled ms asked (set_frames q n).
Proof. intros []. split; try done. by apply interface_ok_frames. Qed.

Lemma settled_learn ms asked n ip e :
  settled ms asked n -> (e, ip) ∈ ms -> address_ok e -> settled ms asked (learn n ip e).
Proof.
  intros [Hok Hq Hl Ha] Hin He. split.
  - by apply interface_ok_learn.
  - intros ip' Hip. unfold learn, queue_at. destruct (ni_ip_to_eth_table n !! ip); by apply Hq.
  - intros ip' e'. unfold learn. destruct (ni_ip_to_eth_table n !! ip) eqn:Hip; [apply Hl|]. cbn. unfold insert_new. rewrite Hip.
    destruct (decide (ip' = ip)) as [->|]; [rewrite lookup_insert_eq; by intros [= <-]|rewrite lookup_insert_ne by done; apply Hl].
  - intros ip' Hip'. unfold learn. destruct (ni_ip_to_eth_table n !! ip) eqn:Hip; [by apply Ha|]. cbn. unfold insert_new. rewrite Hip.
    destruct (decide (ip' = ip)) as [->|]; [by rewrite lookup_insert_eq|rewrite lookup_insert_ne by done]. intros Hno.
    destruct (ni_ip_timeout_table n !! ip); [by apply Ha|]. rewrite lookup_insert_ne by done. by apply Ha.
Qed.

Lemma learn_eth n ip e : ident (learn n ip e) = ident n ∧ ni_frames_out (learn n ip e) = ni_frames_out n.
Proof. unfold learn. by destruct (_ !! ip). Qed.

(** A known neighbour: the datagram goes out at once. *)
Lemma sent_known ms n d ip e :
  settled ms nobody n -> datagram_ok d -> ni_ip_to_eth_table n !! ip = Some e -> ni_frames_out n = [] ->
  settled ms nobody (sent n d ip) ∧ ident (sent n d ip) = ident n ∧
  ni_frames_out (sent n d ip) = [dg_frame (ni_ethernet_address n) e d].
Proof.
  intros [Hok Hq Hl Ha] Hd Hip Hf. pose proof (sent_ok n d ip Hok Hd) as Hok'. unfold sent in *. rewrite Hip in *.
  split_and!; [|done|cbn; by rewrite Hf, (Hq ip (λ H, H))]. split; [done| |done|done].
  intros ip' _. unfold queue_at. cbn. destruct (decide (ip' = ip)) as [->|]; [by rewrite lookup_insert_eq|].
  rewrite lookup_insert_ne by done. by apply Hq.
Qed.

(** An unknown one: the datagram waits, and a request goes out. *)
Lemma sent_unknown ms n d ip :
  settled ms nobody n -> datagram_ok d -> ni_ip_to_eth_table n !! ip = None -> ni_frames_out n = [] ->
  settled ms (.= ip) (sent n d ip) ∧ ident (sent n d ip) = ident n ∧ queue_at (sent n d ip) ip = [d] ∧
  ni_ip_to_eth_table (sent n d ip) !! ip = None ∧
  ni_frames_out (sent n d ip) = [arp_frame ETHERNET_BROADCAST (arp_request n ip)].
Proof.
  intros [Hok Hq Hl Ha] Hd Hip Hf. pose proof (sent_ok n d ip Hok Hd) as Hok'. unfold sent, must_ask in *. rewrite Hip in *.
  rewrite (Ha ip (λ H, H) Hip) in *. split_and!; [|done|unfold queue_at at 1; cbn; by rewrite lookup_insert_eq, (Hq ip (λ H, H))|done|cbn; by rewrite Hf].
  split; [done| |done|].
  - intros ip' Hne. unfold queue_at. cbn. rewrite lookup_insert_ne by done. by apply Hq.
  - intros ip' Hne Hno. cbn. unfold insert_new. rewrite (Ha ip (λ H, H) Hip), lookup_insert_ne by done. by apply Ha.
Qed.

(** A request from [(e, ip)]: the interface it asks for answers, any other
    one only learns. *)
Lemma request_received ms n m :
  settled ms nobody n -> arp_ok m -> opcode m = OPCODE_REQUEST -> ni_frames_out n = [] ->
  (sender_ethernet_address m, sender_ip_address m) ∈ ms ->
  let n' := received_arp n m (sender_ethernet_address m) in
  settled ms nobody n' ∧ ident n' = ident n ∧
  ni_frames_out n' =
    if target_ip_address m =? own_ip n
    then [arp_frame (sender_ethernet_address m) (arp_reply n (sender_ethernet_address m) (sender_ip_address m))] else [].
Proof.
  intros Hs Hm Ho Hf Hin n'. pose proof (ak_sender m Hm) as He.
  pose proof (settled_learn ms nobody n (sender_ip_address m) _ Hs Hin He) as Hl.
  destruct (learn_eth n (sender_ip_address m) (sender_ethernet_address m)) as [Hi Hlf].
  assert (own_ip (learn n (sender_ip_address m) (sender_ethernet_address m)) = own_ip n) as Hown by (by injection Hi).
  unfold n', received_arp. rewrite Hown, Ho. destruct (target_ip_address m =? own_ip n); [|by split_and!; [|..|rewrite Hlf]].
  cbn [Z.eqb OPCODE_REQUEST Pos.eqb]. split_and!; [by apply settled_frames|done|]. cbn. rewrite Hlf, Hf. cbn.
  unfold arp_reply. rewrite Hown. injection Hi as -> _. done.
Qed.

(** The answer to the request for [ip]: the datagram that waited goes out. *)
Lemma reply_received ms n m d :
  settled ms (.= sender_ip_address m) n -> arp_ok m -> opcode m = OPCODE_REPLY -> target_ip_address m = own_ip n ->
  (sender_ethernet_address m, sender_ip_address m) ∈ ms -> ni_frames_out n = [] ->
  queue_at n (sender_ip_address m) = [d] -> ni_ip_to_eth_table n !! sender_ip_address m = None ->
  let n' := received_arp n m (sender_ethernet_address m) in
  settled ms nobody n' ∧ ident n' = ident n ∧
  ni_frames_out n' = [dg_frame (ni_ethernet_address n) (sender_ethernet_address m) d].
Proof.
  intros Hs Hm Ho Ht Hin Hf Hq Hno n'. set (ip := sender_ip_address m) in *. set (e := sender_ethernet_address m) in *.
  assert (ident n' = ident n ∧ ni_frames_out n' = [dg_frame (ni_ethernet_address n) e d]) as [Hid Hfr].
  { destruct (learn_eth n ip e) as [Hi Hlf]. injection Hi as Hi1 Hi2. unfold n', received_arp. fold ip. rewrite Hi2, Ht, Z.eqb_refl, Ho.
    cbn -[learn]. unfold ident, own_ip in *. cbn -[learn]. rewrite Hi1, Hi2, Hlf, Hf. split; [done|].
    replace (queue_at (learn n ip e) ip) with [d]; [done|]. unfold learn, queue_at in *. by rewrite Hno. }
  split_and!; [|done|done]. pose proof (received_arp_ok n m e (sd_ok _ _ _ Hs) Hm (ak_sender m Hm)) as Hok.
  assert (ni_ip_to_eth_table n' = <[ip := e]> (ni_ip_to_eth_table n) ∧
    ni_ip_timeout_table n' = insert_new ip (ni_system_time n) (ni_ip_timeout_table n) ∧
    ni_dg_map n' = <[ip := []]> (ni_dg_map n)) as (Htab & Htime & Hdg).
  { unfold n', received_arp, learn. fold ip. rewrite Hno. change (own_ip (set_timeout_table _ _)) with (own_ip n).
    rewrite Ht, Z.eqb_refl, Ho.
    cbn -[insert_new]. split_and!; [unfold insert_new; by rewrite Hno|done|done]. }
  destruct Hs as [_ Hqs Hls Has]. split; [done|..].
  - intros ip' _. unfold queue_at. rewrite Hdg. destruct (decide (ip' = ip)) as [->|Hne]; [by rewrite lookup_insert_eq|].
    rewrite lookup_insert_ne by done. by apply Hqs.
  - intros ip' e'. rewrite Htab. destruct (decide (ip' = ip)) as [->|]; [rewrite lookup_insert_eq; by intros [= <-]|].
    rewrite lookup_insert_ne by done. apply Hls.
  - intros ip' _. rewrite Htab, Htime. destruct (decide (ip' = ip)) as [->|]; [by rewrite lookup_insert_eq|].
    rewrite lookup_insert_ne by done. intros Hn. unfold insert_new. destruct (ni_ip_timeout_table n !! ip); [by apply Has|].
    rewrite lookup_insert_ne by done. by apply Has.
Qed.

(** ** Frames in transit *)

Definition flatten (f : EthernetFrame) : EthernetFrame :=
  mkEthernetFrame (fr_header f) [Buffer_of_string (concatenate (fr_payload f))].
Definition frame_size (f : EthernetFrame) : Z := zlen (concatenate (fr_payload f)).

Lemma concatenate_flat f : concatenate (fr_payload (flatten f)) = concatenate (fr_payload f).
Proof. cbn [flatten fr_payload concatenate]. by rewrite str_of_string, app_nil_r. Qed.

Lemma recv_flat x f : async_recv_frame x (flatten f) = async_recv_frame x f.
Proof. unfold async_recv_frame, recv_frame. by rewrite concatenate_flat. Qed.

Lemma summary_returns f : frame_size f < 2 ^ 63 -> ∃ s, summary (flatten f) = Ret s.
Proof.
  intros Hs. unfold summary. cbn [fr_header fr_payload flatten to_Buffer]. unfold mbind, outcome_bind at 1 3.
  destruct (datagram_parse_any _ Hs) as ([d r1] & -> & _). destruct (arp_parse_any default_arp _ Hs) as ([m r2] & -> & _).
  cbn. repeat case_match; eauto.
Qed.

Lemma deliver_one s f t dst dst' cerr :
  frame_size f < 2 ^ 63 -> async_recv_frame dst f = Ret dst' -> ∃ cerr', deliver s [f] t dst cerr = Ret (dst', cerr').
Proof.
  intros Hs Hr. destruct (summary_returns f Hs) as [text Ht]. cbn [deliver]. fold (flatten f). rewrite Ht.
  unfold mbind, outcome_bind. rewrite recv_flat, Hr. eauto.
Qed.

Definition quiet (x : AsyncNetworkInterface) : AsyncNetworkInterface :=
  mkAsync (set_frames [] (ai_base x)) (ai_datagrams_out x).

Lemma clear_nothing x : clear_frames [] x = Ret x.
Proof. by destruct x as [[] ?]. Qed.
Lemma clear_one x f : frames_out x = [f] -> clear_frames [f] x = Ret (quiet x).
Proof. intros Hf. unfold clear_frames. by rewrite Hf. Qed.

(** The interfaces on a link before and after [exchange_frames]. *)
Definition exchanges (l l' : list AsyncNetworkInterface) : Prop :=
  match l, l' with
  | [x; y], [x'; y'] => ∀ xn yn cerr, ∃ cerr', exchange_frames xn x yn y cerr = Ret (x', y', cerr')
  | [x; y; z], [x'; y'; z'] =>
      ∀ xn yn zn cerr, ∃ cerr', exchange_frames3 xn x yn y zn z cerr = Ret (x', y', z', cerr')
  | _, _ => False
  end.

Definition link_size (n : nat) : Prop := n = 2%nat ∨ n = 3%nat.

Lemma exchange_quiet l : link_size (length l) -> Forall (λ x, frames_out x = []) l -> exchanges l l.
Proof.
  destruct l as [|x [|y [|z [|]]]]; intros [|]; try done; rewrite !Forall_cons.
  - intros (Hx & Hy & _) xn yn cerr. exists cerr. unfold exchange_frames. rewrite Hx, Hy. cbn [deliver].
    unfold mbind, outcome_bind. by rewrite !clear_nothing.
  - intros (Hx & Hy & Hz & _) xn yn zn cerr. exists cerr. unfold exchange_frames3. rewrite Hx, Hy, Hz. cbn [deliver].
    unfold mbind, outcome_bind. by rewrite !clear_nothing.
Qed.

Lemma deliver_nothing s t x cerr : deliver s [] t x cerr = Ret (x, cerr).
Proof. done. Qed.

(** Runs the exchange through the deliveries that [Hd] provides. *)
Ltac run_exchange Hd Hc f :=
  repeat match goal with
  | |- context [deliver ?s [f] ?t ?x ?c] =>
      let at_position k := (destruct (Hd s t k x _ c eq_refl eq_refl ltac:(done)) as [? ->]) in
      first [at_position 0%nat | at_position 1%nat | at_position 2%nat]
  | _ => progress (rewrite ?Hc, ?clear_nothing, ?deliver_nothing; unfold mbind, outcome_bind; cbv beta iota)
  end; eexists; reflexivity.

(** One interface has a frame to send: every other one receives it. *)
Lemma exchange_one l l' i a f :
  link_size (length l) -> length l' = length l -> l !! i = Some a -> frames_out a = [f] -> frame_size f < 2 ^ 63 ->
  (∀ k x, l !! k = Some x -> k ≠ i -> frames_out x = []) ->
  l' !! i = Some (quiet a) ->
  (∀ k x x', l !! k = Some x -> l' !! k = Some x' -> k ≠ i -> async_recv_frame x f = Ret x') ->
  exchanges l l'.
Proof.
  intros Hn Hl Hi Hf Hsz Hq Hi' Hr.
  assert (∀ s t k x x' cerr, l !! k = Some x -> l' !! k = Some x' -> k ≠ i -> ∃ cerr', deliver s [f] t x cerr = Ret (x', cerr')) as Hd.
  { intros s t k x x' cerr Hk Hk' Hne. apply deliver_one; [done|by eapply Hr]. }
  pose proof (clear_one a f Hf) as Hc.
  assert (∀ k x, l !! k = Some x -> frames_out x = if (k =? i)%nat then [f] else []) as Hfs.
  { intros k x Hk. destruct (Nat.eqb_spec k i); [|by apply (Hq k)]. by simplify_eq. }
  destruct l as [|x [|y [|z [|]]]]; destruct Hn; try done; destruct l' as [|x' [|y' [|z' [|]]]]; try done;
    pose proof (Hfs 0%nat _ eq_refl) as Hx; pose proof (Hfs 1%nat _ eq_refl) as Hy; unfold exchanges.
  - unfold exchange_frames. rewrite Hx, Hy. destruct i as [|[|i]]; [..|done]; cbn in Hi, Hi'; simplify_eq; cbn [Nat.eqb];
      intros xn yn cerr; run_exchange Hd Hc f.
  - pose proof (Hfs 2%nat _ eq_refl) as Hz. unfold exchange_frames3. rewrite Hx, Hy, Hz.
    destruct i as [|[|[|i]]]; [..|done]; cbn in Hi, Hi'; simplify_eq; cbn [Nat.eqb]; intros xn yn zn cerr; run_exchange Hd Hc f.
Qed.

(** What an interface does with the frames of a hop. *)
Lemma recv_arp x m dst :
  interface_ok (ai_base x) -> arp_ok m -> dst = ETHERNET_BROADCAST ∨ dst = ni_ethernet_address (ai_base x) ->
  async_recv_frame x (arp_frame dst m) =
    Ret (mkAsync (received_arp (ai_base x) m (sender_ethernet_address m)) (ai_datagrams_out x)).
Proof. intros Hx Hm Hd. unfold async_recv_frame. by rewrite recv_arp_frame. Qed.

Lemma recv_other x f :
  eth_dst (fr_header f) ≠ ETHERNET_BROADCAST -> eth_dst (fr_header f) ≠ ni_ethernet_address (ai_base x) ->
  async_recv_frame x f = Ret x.
Proof.
  intros H1 H2. unfold async_recv_frame, recv_frame. rewrite !bool_decide_false by done. by destruct x.
Qed.

(** The datagram that arrives: its checksum is filled in. *)
Definition arrives (d d' : IPv4Datagram) : Prop :=
  dg_header d' = set_ip_cksum (ip_checksum (dg_header d)) (dg_header d) ∧
  concatenate (dg_payload d') = concatenate (dg_payload d).

Lemma recv_dgram x own dst d :
  datagram_ok d -> dst = ni_ethernet_address (ai_base x) ->
  ∃ d', async_recv_frame x (dg_frame own dst d) = Ret (mkAsync (ai_base x) (ai_datagrams_out x ++ [d'])) ∧ arrives d d'.
Proof.
  intros Hd ->. destruct (datagram_parse_checksummed default_datagram d Hd) as (d' & Hp & Hh & Hpl & _). exists d'. split; [|done].
  unfold async_recv_frame, recv_frame, dg_frame. cbn [fr_header fr_payload eth_dst eth_type].
  by rewrite Hp, (bool_decide_true (_ = ni_ethernet_address _)), andb_false_r.
Qed.

Lemma arp_frame_size dst m : arp_ok m -> frame_size (arp_frame dst m) < 2 ^ 63.
Proof.
  intros Hm. unfold frame_size, arp_frame. cbn [fr_payload concatenate]. rewrite str_of_string, app_nil_r, zlen_arp_bytes by done. lia.
Qed.
Lemma dg_frame_size own dst d : datagram_ok d -> frame_size (dg_frame own dst d) < 2 ^ 63.
Proof.
  intros [Hh Hl]. unfold frame_size, dg_frame, dg_wire. cbn [fr_payload concatenate].
  pose proof (ipk_hlen _ Hh). pose proof (ipk_len _ Hh) as Hu. unfold is_u16 in Hu.
  rewrite str_of_string, zlen_app, zlen_ip_header_bytes by (cbn; lia). cbn [ip_hlen set_ip_cksum]. lia.
Qed.

(** ** One hop *)

(** Exchanges on one link; only the last one hands datagrams up. *)
Inductive hop_run : nat -> list AsyncNetworkInterface -> list AsyncNetworkInterface -> Prop :=
| hop_last l l' : exchanges l l' -> hop_run 1 l l'
| hop_more n l l1 l' :
    exchanges l l1 -> map ai_datagrams_out l1 = map ai_datagrams_out l -> hop_run n l1 l' -> hop_run (S n) l l'.

Definition at_rest (ms : list member) (m : member) (x : AsyncNetworkInterface) : Prop :=
  ident (ai_base x) = m ∧ settled ms nobody (ai_base x) ∧ frames_out x = [].

(** A link whose members are at rest; their IP addresses differ, and their
    Ethernet addresses are not the broadcast address. *)
Record link (ms : list member) (l : list AsyncNetworkInterface) : Prop := {
  lk_rest : Forall2 (at_rest ms) ms l;
  lk_size : link_size (length l);
  lk_ips : NoDup ms.*2;
  lk_unicast : Forall (λ m, m.1 ≠ ETHERNET_BROADCAST) ms
}.

(** The members other than those at [i] and [j] have other addresses. *)
Definition apart (ms : list member) (i j : nat) : Prop :=
  ∀ k m mi mj, ms !! k = Some m -> ms !! i = Some mi -> ms !! j = Some mj -> k ≠ i -> k ≠ j -> m.1 ≠ mi.1 ∧ m.1 ≠ mj.1.

Lemma link_lookup ms l k x :
  link ms l -> l !! k = Some x -> ms !! k = Some (ident (ai_base x)) ∧ settled ms nobody (ai_base x) ∧ frames_out x = [].
Proof. intros [Hr _ _ _] Hx. by destruct (Forall2_lookup_r _ _ _ _ _ Hr Hx) as (m & Hm & <- & ? & ?). Qed.

Lemma link_change ms l l' :
  link ms l -> length l' = length l ->
  (∀ k x, l' !! k = Some x -> ms !! k = Some (ident (ai_base x)) ∧ settled ms nobody (ai_base x) ∧ frames_out x = []) ->
  link ms l'.
Proof.
  intros [Hr Hs Hi Hu] Hl Hx. split; [|by rewrite Hl|done|done]. apply Forall2_same_length_lookup.
  split; [by rewrite (Forall2_length _ _ _ Hr)|]. intros k m x Hm Hk. destruct (Hx k x Hk) as (Hm' & ? & ?). by simplify_eq.
Qed.

Lemma member_by_ip ms l j b e : link ms l -> l !! j = Some b -> (e, own_ip (ai_base b)) ∈ ms -> e = ni_ethernet_address (ai_base b).
Proof.
  intros Hl Hj (k & Hk)%list_elem_of_lookup. destruct (link_lookup ms l j b Hl Hj) as (Hm & _).
  assert (k = j) as ->; [|rewrite Hm in Hk; by injection Hk]. eapply (NoDup_lookup (ms.*2)); [apply Hl|..]; rewrite list_lookup_fmap; [by rewrite Hk|by rewrite Hm].
Qed.

Lemma unicast ms l k x : link ms l -> l !! k = Some x -> ni_ethernet_address (ai_base x) ≠ ETHERNET_BROADCAST.
Proof.
  intros Hl Hx. destruct (link_lookup ms l k x Hl Hx) as (Hm & _). pose proof (lk_unicast ms l Hl) as Hu.
  rewrite Forall_lookup in Hu. exact (Hu k _ Hm).
Qed.

Definition update (f : NetworkInterface -> NetworkInterface) (x : AsyncNetworkInterface) : AsyncNetworkInterface :=
  mkAsync (f (ai_base x)) (ai_datagrams_out x).

Section one_hop.
Context (ms : list member) (l : list AsyncNetworkInterface) (i j : nat) (a b : AsyncNetworkInterface) (d : IPv4Datagram).
Context (Hlink : link ms l) (Hi : l !! i = Some a) (Hj : l !! j = Some b) (Hij : i ≠ j) (Hapart : apart ms i j) (Hd : datagram_ok d).

Abbreviation ea := (ni_ethernet_address (ai_base a)).
Abbreviation eb := (ni_ethernet_address (ai_base b)).
Abbreviation ip_b := (own_ip (ai_base b)).

Lemma bystander k m : ms !! k = Some m -> k ≠ i -> k ≠ j -> m.1 ≠ ea ∧ m.1 ≠ eb ∧ ip_b ≠ m.2.
Proof.
  intros Hm Hki Hkj. destruct (link_lookup ms l i a Hlink Hi) as (Hma & _).
  destruct (link_lookup ms l j b Hlink Hj) as (Hmb & _).
  destruct (Hapart k _ _ _ Hm Hma Hmb Hki Hkj) as [H1 H2]. split_and!; [done|done|]. intros He. apply Hkj.
  eapply (NoDup_lookup (ms.*2)); [apply Hlink|..]; rewrite list_lookup_fmap; [by rewrite Hm|rewrite Hmb; cbn; by rewrite He].
Qed.

(** The last exchange: the sender has the datagram's frame, the others rest. *)
Lemma hop_final L a1 :
  length L = length l -> L !! i = Some a1 -> ident (ai_base a1) = ident (ai_base a) -> settled ms nobody (ai_base a1) ->
  frames_out a1 = [dg_frame ea eb d] ->
  (∀ k x, L !! k = Some x -> k ≠ i -> ms !! k = Some (ident (ai_base x)) ∧ settled ms nobody (ai_base x) ∧ frames_out x = []) ->
  ∃ L' d', exchanges L L' ∧ link ms L' ∧ arrives d d' ∧
    map ai_datagrams_out L' = alter (λ q, q ++ [d']) j (map ai_datagrams_out L).
Proof.
  intros Hlen Ha1 Hid Hs Hf Hrest. destruct (link_lookup ms l j b Hlink Hj) as (Hmb & _).
  destruct (lookup_lt_is_Some_2 L j) as [b1 Hb1]; [rewrite Hlen; by eapply lookup_lt_Some|].
  destruct (Hrest j b1 Hb1) as (Hm1 & Hs1 & Hf1); [done|]. assert (ident (ai_base b1) = ident (ai_base b)) as Hidb by congruence.
  destruct (recv_dgram b1 ea eb d Hd) as (d' & Hrecv & Harr); [by injection Hidb|].
  set (b2 := mkAsync _ _) in Hrecv. set (L' := <[j := b2]> (<[i := quiet a1]> L)).
  assert (L' !! i = Some (quiet a1)) as Hi'.
  { unfold L'. rewrite list_lookup_insert_ne, list_lookup_insert_eq by (done || by eapply lookup_lt_Some). done. }
  assert (L' !! j = Some b2) as Hj'.
  { apply list_lookup_insert_eq. rewrite length_insert. by eapply lookup_lt_Some. }
  assert (∀ k, k ≠ i -> k ≠ j -> L' !! k = L !! k) as Hk' by (intros k ??; unfold L'; by rewrite !list_lookup_insert_ne by done).
  exists L', d'. split_and!; [|..|done|].
  - apply (exchange_one L L' i a1 (dg_frame ea eb d)); [rewrite Hlen; apply Hlink|unfold L'; by rewrite !length_insert|done|done
      |by apply dg_frame_size|intros k x Hk Hne; by apply (Hrest k)|done|].
    intros k x x' Hk Hkx' Hne. destruct (decide (k = j)) as [->|Hkj]; [simplify_eq; exact Hrecv|].
    rewrite Hk' in Hkx' by done. simplify_eq. destruct (Hrest k x Hk Hne) as (Hmk & _).
    destruct (bystander k _ Hmk Hne Hkj) as (_ & Heb & _). apply recv_other; [by apply (unicast ms l j)|by apply not_eq_sym].
  - apply (link_change ms l); [done|unfold L'; by rewrite !length_insert|]. intros k x Hk.
    destruct (decide (k = i)) as [->|Hki].
    { rewrite Hi' in Hk. injection Hk as <-. destruct (link_lookup ms l i a Hlink Hi) as (Hm & _). rewrite Hm, <- Hid.
      split_and!; [done|by apply settled_frames|done]. }
    destruct (decide (k = j)) as [->|Hkj]; [simplify_eq; by apply (Hrest j b1)|]. rewrite Hk' in Hk by done. by apply (Hrest k).
  - unfold L'. rewrite !list_fmap_insert. rewrite (list_insert_id _ i) by (rewrite list_lookup_fmap, Ha1; done).
    rewrite list_insert_alter. apply list_alter_ext; [|done]. intros q Hq. rewrite list_lookup_fmap, Hb1 in Hq. by injection Hq as <-.
Qed.

(** After the request, [b] has its answer to send, and the others have at
    most learned the address of [a]. *)
Abbreviation request := (arp_request (ai_base a) ip_b).
Abbreviation a_asking := (update (λ n, sent n d ip_b) a).
Abbreviation reply := (arp_reply (ai_base b) ea (own_ip (ai_base a))).
Definition after_request : list AsyncNetworkInterface :=
  <[i := quiet a_asking]> (map (update (λ n, received_arp n request ea)) l).

Lemma a_member : (ea, own_ip (ai_base a)) ∈ ms ∧ (eb, ip_b) ∈ ms ∧ arp_ok request ∧ arp_ok reply.
Proof.
  destruct (link_lookup ms l i a Hlink Hi) as (Hma & [Hoka _ _ _] & _). destruct (link_lookup ms l j b Hlink Hj) as (Hmb & [Hokb _ _ _] & _).
  split_and!; [by eapply list_elem_of_lookup_2..| |].
  - apply arp_request_ok; [done|by apply nk_own].
  - apply arp_reply_ok; [done|by destruct Hoka|by apply nk_own].
Qed.

Lemma after_request_other k x :
  after_request !! k = Some x -> k ≠ i ->
  ms !! k = Some (ident (ai_base x)) ∧ settled ms nobody (ai_base x) ∧
  frames_out x = if (k =? j)%nat then [arp_frame ea reply] else [].
Proof.
  destruct a_member as (Hina & _ & Hreq & _). unfold after_request. intros Hk Hne. rewrite list_lookup_insert_ne, list_lookup_fmap in Hk by done.
  destruct (l !! k) as [y|] eqn:Hy; [|done]. injection Hk as <-. destruct (link_lookup ms l k y Hlink Hy) as (Hm & Hs & Hf).
  destruct (request_received ms (ai_base y) request Hs Hreq eq_refl Hf Hina) as (Hs' & Hid & Hf').
  split_and!; [rewrite Hm; f_equal; symmetry; exact Hid|done|]. unfold frames_out. cbn [ai_base update].
  etrans; [exact Hf'|]. cbn [target_ip_address arp_request]. destruct (Nat.eqb_spec k j) as [->|Hkj].
  - rewrite Hj in Hy. injection Hy as <-. by rewrite Z.eqb_refl.
  - destruct (bystander k _ Hm Hne Hkj) as (_ & _ & Hip). cbn in Hip. by destruct (Z.eqb_spec ip_b (own_ip (ai_base y))).
Qed.

Lemma request_exchange :
  ni_ip_to_eth_table (ai_base a) !! ip_b = None ->
  exchanges (<[i := a_asking]> l) after_request ∧
  map ai_datagrams_out after_request = map ai_datagrams_out (<[i := a_asking]> l).
Proof.
  intros Hno. destruct (link_lookup ms l i a Hlink Hi) as (Hma & Hsa & Hfa). destruct a_member as (_ & _ & Hreq & _).
  destruct (sent_unknown ms (ai_base a) d ip_b Hsa Hd Hno Hfa) as (_ & _ & _ & _ & Hf0).
  pose proof (lookup_lt_Some _ _ _ Hi) as Hlt. unfold after_request. split.
  - apply (exchange_one _ _ i a_asking (arp_frame ETHERNET_BROADCAST request)).
    + rewrite length_insert. apply Hlink.
    + by rewrite !length_insert, length_map.
    + by apply list_lookup_insert_eq.
    + done.
    + by apply arp_frame_size.
    + intros k x Hk Hne. rewrite list_lookup_insert_ne in Hk by done. by apply (link_lookup ms l k).
    + apply list_lookup_insert_eq. by rewrite length_map.
    + intros k x x' Hk Hk' Hne. rewrite list_lookup_insert_ne in Hk by done.
      rewrite list_lookup_insert_ne, list_lookup_fmap, Hk in Hk' by done. injection Hk' as <-.
      destruct (link_lookup ms l k x Hlink Hk) as (_ & [Hok _ _ _] & _). apply (recv_arp x request); [done|done|by left].
  - rewrite !list_fmap_insert. f_equal. rewrite map_map. done.
Qed.

(** After the answer, the datagram that waited is on its way. *)
Lemma reply_exchange :
  ni_ip_to_eth_table (ai_base a) !! ip_b = None ->
  ∃ l2 a2, exchanges after_request l2 ∧ map ai_datagrams_out l2 = map ai_datagrams_out after_request ∧
    length l2 = length l ∧ l2 !! i = Some a2 ∧ ident (ai_base a2) = ident (ai_base a) ∧ settled ms nobody (ai_base a2) ∧
    frames_out a2 = [dg_frame ea eb d] ∧
    ∀ k x, l2 !! k = Some x -> k ≠ i -> ms !! k = Some (ident (ai_base x)) ∧ settled ms nobody (ai_base x) ∧ frames_out x = [].
Proof.
  intros Hno. destruct (link_lookup ms l i a Hlink Hi) as (Hma & Hsa & Hfa). destruct a_member as (Hina & Hinb & Hreq & Hrep).
  destruct (sent_unknown ms (ai_base a) d ip_b Hsa Hd Hno Hfa) as (Hs0 & Hid0 & Hq0 & Hno0 & _).
  pose proof (lookup_lt_Some _ _ _ Hi) as Hlt. pose proof (lookup_lt_Some _ _ _ Hj) as Hltj.
  assert (length after_request = length l) as Hlen by (unfold after_request; by rewrite length_insert, length_map).
  assert (after_request !! i = Some (quiet a_asking)) as Hi1 by (apply list_lookup_insert_eq; by rewrite length_map).
  destruct (lookup_lt_is_Some_2 after_request j) as [b1 Hb1]; [by rewrite Hlen|].
  destruct (after_request_other j b1 Hb1) as (Hm1 & Hs1 & Hf1); [done|]. rewrite Nat.eqb_refl in Hf1.
  destruct (reply_received ms (set_frames [] (sent (ai_base a) d ip_b)) reply d) as (Hs2 & Hid2 & Hf2);
    [by apply settled_frames|done|done|by injection Hid0|done|done|done|done|].
  set (a2 := update (λ n, received_arp n reply eb) (quiet a_asking)).
  assert (ni_ethernet_address (sent (ai_base a) d ip_b) = ea) as Hea by (by injection Hid0).
  set (l2 := <[i := a2]> (<[j := quiet b1]> after_request)).
  assert (l2 !! i = Some a2) as Hi2 by (apply list_lookup_insert_eq; by rewrite length_insert, Hlen).
  assert (l2 !! j = Some (quiet b1)) as Hj2 by (unfold l2; rewrite list_lookup_insert_ne by done; apply list_lookup_insert_eq; by rewrite Hlen).
  assert (∀ k, k ≠ i -> k ≠ j -> l2 !! k = after_request !! k) as Hk2 by (intros; unfold l2; by rewrite !list_lookup_insert_ne).
  exists l2, a2. split_and!.
  - apply (exchange_one _ _ j b1 (arp_frame ea reply)); [rewrite Hlen; apply Hlink|unfold l2; by rewrite !length_insert|done|done
      |by apply arp_frame_size| |done|].
    + intros k x Hk Hne. destruct (decide (k = i)) as [->|Hki]; [rewrite Hi1 in Hk; by injection Hk as <-|].
      destruct (after_request_other k x Hk Hki) as (_ & _ & ->). by destruct (Nat.eqb_spec k j).
    + intros k x x' Hk Hk' Hne. destruct (decide (k = i)) as [->|Hki].
      { rewrite Hi1 in Hk. rewrite Hi2 in Hk'. injection Hk as <-. injection Hk' as <-.
        apply (recv_arp (quiet a_asking) reply); [apply interface_ok_frames, Hs0|done|by right]. }
      rewrite Hk2 in Hk' by done. rewrite Hk in Hk'. injection Hk' as <-. destruct (after_request_other k x Hk Hki) as (Hmk & _).
      destruct (bystander k _ Hmk Hki Hne) as (Hb & _). apply recv_other; [by apply (unicast ms l i)|by apply not_eq_sym].
  - unfold l2. rewrite !list_fmap_insert. rewrite (list_insert_id _ j) by (by rewrite list_lookup_fmap, Hb1).
    apply list_insert_id. by rewrite list_lookup_fmap, Hi1.
  - unfold l2. by rewrite !length_insert.
  - done.
  - etrans; [exact Hid2|exact Hid0].
  - done.
  - unfold frames_out, a2. cbn [ai_base update quiet]. etrans; [exact Hf2|]. cbn [set_frames ni_ethernet_address]. by rewrite Hea.
  - intros k x Hk Hki. destruct (decide (k = j)) as [->|Hkj].
    + rewrite Hj2 in Hk. injection Hk as <-. split_and!; [done|by apply settled_frames|done].
    + rewrite Hk2 in Hk by done. destruct (after_request_other k x Hk Hki) as (Hmk & Hsk & Hfk).
      split_and!; [done|done|]. rewrite Hfk. by destruct (Nat.eqb_spec k j).
Qed.

(** The hop: [a] sends the datagram to the address of [b]. *)
Lemma hop :
  ∃ n l' d', (n <= 3)%nat ∧ hop_run n (<[i := update (λ n, sent n d ip_b) a]> l) l' ∧ link ms l' ∧ arrives d d' ∧
    map ai_datagrams_out l' = alter (λ q, q ++ [d']) j (map ai_datagrams_out l).
Proof.
  destruct (link_lookup ms l i a Hlink Hi) as (Hma & Hsa & Hfa). destruct (link_lookup ms l j b Hlink Hj) as (Hmb & Hsb & Hfb).
  set (a0 := update _ a). set (l0 := <[i := a0]> l). assert (l0 !! i = Some a0) as Hi0 by (apply list_lookup_insert_eq; by eapply lookup_lt_Some).
  assert (∀ k, k ≠ i -> l0 !! k = l !! k) as Hk0 by (intros; by apply list_lookup_insert_ne).
  assert (map ai_datagrams_out l0 = map ai_datagrams_out l) as Hdg0.
  { unfold l0. rewrite list_fmap_insert. apply list_insert_id. by rewrite list_lookup_fmap, Hi. }
  assert (length l0 = length l) as Hlen0 by apply length_insert.
  destruct (ni_ip_to_eth_table (ai_base a) !! ip_b) as [e|] eqn:Hknown.
  - destruct (sent_known ms (ai_base a) d ip_b e Hsa Hd Hknown Hfa) as (Hs0 & Hid0 & Hf0).
    rewrite (member_by_ip ms l j b e Hlink Hj) in Hf0 by by apply (sd_learned _ _ _ Hsa).
    destruct (hop_final l0 a0) as (l' & d' & He & Hl' & Harr & Hdg); [done..| |].
    { intros k x Hk Hne. rewrite Hk0 in Hk by done. by apply (link_lookup ms l). }
    exists 1%nat, l', d'. rewrite Hdg, Hdg0. split_and!; [lia|by constructor|done..].
  - destruct (request_exchange Hknown) as (He1 & Hdg1).
    destruct (reply_exchange Hknown) as (l2 & a2 & He2 & Hdg2 & Hlen2 & Hi2 & Hid2 & Hs2 & Hf2 & Hrest2).
    destruct (hop_final l2 a2) as (l' & d' & He & Hl' & Harr & Hdg); [done..|].
    exists 3%nat, l', d'. rewrite Hdg, Hdg2, Hdg1. fold a0 l0. rewrite Hdg0. split_and!; [lia| |done..].
    eapply hop_more; [exact He1|exact Hdg1|]. eapply hop_more; [exact He2|exact Hdg2|]. by constructor.
Qed.
End one_hop.
