(* ===== verification/Simulation.v ===== *)
(** [apps/network_simulator.cc]: that the simulation succeeds, whatever the
    random numbers. Hops over links (file Link) and the router's forwarding carry
    each datagram to the host that expects it and leave every link at rest. *)
From S2P Require Import Prelude Buffer Parser IPv4 Ethernet Random Format Printing Address NetworkInterface Router Adapters.
From S2P Require Import NetworkSimulator Link.

#[local] Hint Resolve not_nobody : core.

(** ** The network of the program *)

(** The hosts, in the order of their insertion, and where each is: the link
    and the position on it; the router's interface is at position 0. *)
Definition host_names : list string := ["applesauce"; "default_router"; "cherrypie"; "hs_router"; "dm42"; "dm43"].

(** One case per host. *)
Ltac each_host H :=
  unfold host_names in H; repeat (apply elem_of_cons in H as [->|H]); [..|by apply not_elem_of_nil in H].

Definition quad (a b c d : Z) : Z := ((a * 256 + b) * 256 + c) * 256 + d.

Record host_info := mkInfo {
  hi_link : nat;
  hi_pos : nat;
  hi_ip : Z;
  hi_hop : Z
}.

Definition info (name : string) : host_info :=
  if String.eqb name "applesauce" then mkInfo 1 1 (quad 10 0 0 2) (quad 10 0 0 1)
  else if String.eqb name "default_router" then mkInfo 0 1 (quad 171 67 76 1) 0
  else if String.eqb name "cherrypie" then mkInfo 2 1 (quad 192 168 0 2) (quad 192 168 0 1)
  else if String.eqb name "hs_router" then mkInfo 3 1 (quad 143 195 0 1) 0
  else if String.eqb name "dm42" then mkInfo 4 1 (quad 198 178 229 42) (quad 198 178 229 1)
  else mkInfo 4 2 (quad 198 178 229 43) (quad 198 178 229 1).

Lemma info_u32 n : is_u32 (hi_ip (info n)) ∧ is_u32 (hi_hop (info n)).
Proof. unfold info, quad, is_u32. repeat case_match; cbn; lia. Qed.

Lemma info_ranges n : hi_pos (info n) ≠ 0%nat ∧ (hi_link (info n) < 5)%nat.
Proof. unfold info. repeat case_match; cbn; lia. Qed.

(** The index of the router's interface on each link. *)
Definition port_of (q : nat) : nat := match q with 0 => 0 | 1 => 1 | 2 => 3 | 3 => 5 | _ => 4 end%nat.

Definition link_shape : list nat := [2; 2; 2; 2; 3]%nat.

(** The addresses of the router's interfaces on the links. *)
Definition port_ip (q : nat) : Z :=
  match q with
  | 0%nat => quad 171 67 76 46
  | 1%nat => quad 10 0 0 1
  | 2%nat => quad 192 168 0 1
  | 3%nat => quad 143 195 0 2
  | _ => quad 198 178 229 1
  end.

Definition a_of (ip : Z) : Address := Address_of_ip ip 0.

Definition routes : list Route :=
  [((0, 0), (Some (a_of (quad 171 67 76 1)), 0));
   ((8, quad 10 0 0 0), (None, 1));
   ((16, quad 172 16 0 0), (None, 2));
   ((24, quad 192 168 0 0), (None, 3));
   ((24, quad 198 178 229 0), (None, 4));
   ((17, quad 143 195 0 0), (Some (a_of (quad 143 195 0 1)), 5));
   ((18, quad 143 195 128 0), (Some (a_of (quad 143 195 0 1)), 5));
   ((19, quad 143 195 192 0), (Some (a_of (quad 143 195 0 1)), 5));
   ((16, quad 128 30 76 255), (Some (a_of (quad 128 30 0 1)), 6))].
Definition table : list Route := r_rtable (add_routes new_Router routes).

Definition no_interface : AsyncNetworkInterface := AsyncNetworkInterface_of (new_NetworkInterface zero_address (a_of 0)).

Section network.
Context (p2 p6 : AsyncNetworkInterface).
Implicit Types (ls : list (list AsyncNetworkInterface)) (l : list AsyncNetworkInterface) (ex : string -> list IPv4Datagram).

Definition on_link (ls : list (list AsyncNetworkInterface)) (q i : nat) : AsyncNetworkInterface :=
  default no_interface (ls !! q ≫= λ l, l !! i).

Definition ports (ls : list (list AsyncNetworkInterface)) : list AsyncNetworkInterface :=
  [on_link ls 0 0; on_link ls 1 0; p2; on_link ls 2 0; on_link ls 4 0; on_link ls 3 0; p6].

Definition host_of (ls : list (list AsyncNetworkInterface)) (ex : string -> list IPv4Datagram) (name : string) : Host :=
  mkHost name (a_of (hi_ip (info name))) (on_link ls (hi_link (info name)) (hi_pos (info name)))
    (a_of (hi_hop (info name))) (ex name).

(** The network with these interfaces and expectations. *)
Definition net_of (ls : list (list AsyncNetworkInterface)) (ex : string -> list IPv4Datagram) : Network :=
  mkNetwork (mkRouter (ports ls) table) 0 1 2 3 4 5 6 (map (λ name, (name, host_of ls ex name)) host_names).

Lemma exchanges_two l l' :
  length l = 2%nat -> exchanges l l' ->
  ∃ x y x' y', l = [x; y] ∧ l' = [x'; y'] ∧ ∀ xn yn cerr, ∃ cerr', exchange_frames xn x yn y cerr = Ret (x', y', cerr').
Proof.
  destruct l as [|x [|y [|]]]; try done. intros _ He. destruct l' as [|x' [|y' [|]]]; try done. by exists x, y, x', y'.
Qed.
Lemma exchanges_three l l' :
  length l = 3%nat -> exchanges l l' ->
  ∃ x y z x' y' z', l = [x; y; z] ∧ l' = [x'; y'; z'] ∧
    ∀ xn yn zn cerr, ∃ cerr', exchange_frames3 xn x yn y zn z cerr = Ret (x', y', z', cerr').
Proof.
  destruct l as [|x [|y [|z [|]]]]; try done. intros _ He. destruct l' as [|x' [|y' [|z' [|]]]]; try done. by exists x, y, z, x', y', z'.
Qed.

Lemma connection_ret xn id yn nw cerr x h x' y' cerr' nw' :
  interface (nw_router nw) id = Ret x -> host nw yn = Ret h ->
  exchange_frames xn x yn (h_interface h) cerr = Ret (x', y', cerr') ->
  put_host_interface yn h y' (put_interface id x' nw) = nw' -> connection xn id yn nw cerr = Ret (nw', cerr').
Proof. intros Hx Hh He <-. unfold connection, mbind, outcome_bind. by rewrite Hx, Hh, He. Qed.
Lemma connection3_ret xn id yn zn nw cerr x hy hz x' y' z' cerr' nw' :
  interface (nw_router nw) id = Ret x -> host nw yn = Ret hy -> host nw zn = Ret hz ->
  exchange_frames3 xn x yn (h_interface hy) zn (h_interface hz) cerr = Ret (x', y', z', cerr') ->
  put_host_interface zn hz z' (put_host_interface yn hy y' (put_interface id x' nw)) = nw' ->
  connection3 xn id yn zn nw cerr = Ret (nw', cerr').
Proof. intros Hx Hy Hz He <-. unfold connection3, mbind, outcome_bind. by rewrite Hx, Hy, Hz, He. Qed.

Lemma connections ls ls' ex cerr :
  map length ls = link_shape -> Forall2 exchanges ls ls' ->
  ∃ cerr', simulate_physical_connections (net_of ls ex) cerr = Ret (net_of ls' ex, cerr').
Proof.
  intros Hsh He. pose proof (Forall2_length _ _ _ He) as Hlen.
  destruct ls as [|l0 [|l1 [|l2 [|l3 [|l4 [|]]]]]]; try discriminate. injection Hsh as H0 H1 H2 H3 H4.
  destruct ls' as [|l0' [|l1' [|l2' [|l3' [|l4' [|]]]]]]; try discriminate Hlen. rewrite !Forall2_cons in He.
  destruct He as (E0 & E1 & E2 & E3 & E4 & _).
  destruct (exchanges_two _ _ H0 E0) as (x0 & y0 & x0' & y0' & -> & -> & R0).
  destruct (exchanges_two _ _ H1 E1) as (x1 & y1 & x1' & y1' & -> & -> & R1).
  destruct (exchanges_two _ _ H2 E2) as (x2 & y2 & x2' & y2' & -> & -> & R2).
  destruct (exchanges_two _ _ H3 E3) as (x3 & y3 & x3' & y3' & -> & -> & R3).
  destruct (exchanges_three _ _ H4 E4) as (x4 & y4 & z4 & x4' & y4' & z4' & -> & -> & R4).
  destruct (R0 "router.default" "default_router" cerr)%string as [c0 S0].
  destruct (R1 "router.eth0" "applesauce" c0)%string as [c1 S1].
  destruct (R2 "router.eth2" "cherrypie" c1)%string as [c2 S2].
  destruct (R3 "router.hs4" "hs_router" c2)%string as [c3 S3].
  destruct (R4 "router.uun3" "dm42" "dm43" c3)%string as [c4 S4]. exists c4.
  unfold simulate_physical_connections, mbind, outcome_bind.
  set (L0 := [[x0; y0]; [x1; y1]; [x2; y2]; [x3; y3]; [x4; y4; z4]]).
  set (L1 := [[x0'; y0']; [x1; y1]; [x2; y2]; [x3; y3]; [x4; y4; z4]]).
  set (L2 := [[x0'; y0']; [x1'; y1']; [x2; y2]; [x3; y3]; [x4; y4; z4]]).
  set (L3 := [[x0'; y0']; [x1'; y1']; [x2'; y2']; [x3; y3]; [x4; y4; z4]]).
  set (L4 := [[x0'; y0']; [x1'; y1']; [x2'; y2']; [x3'; y3']; [x4; y4; z4]]).
  rewrite (connection_ret "router.default" (default_id (net_of L0 ex)) "default_router" (net_of L0 ex) cerr x0 (host_of L0 ex "default_router")
    x0' y0' c0 (net_of L1 ex) eq_refl eq_refl S0 eq_refl).
  rewrite (connection_ret "router.eth0" (eth0_id (net_of L1 ex)) "applesauce" (net_of L1 ex) c0 x1 (host_of L1 ex "applesauce")
    x1' y1' c1 (net_of L2 ex) eq_refl eq_refl S1 eq_refl).
  rewrite (connection_ret "router.eth2" (eth2_id (net_of L2 ex)) "cherrypie" (net_of L2 ex) c1 x2 (host_of L2 ex "cherrypie")
    x2' y2' c2 (net_of L3 ex) eq_refl eq_refl S2 eq_refl).
  rewrite (connection_ret "router.hs4" (hs4_id (net_of L3 ex)) "hs_router" (net_of L3 ex) c2 x3 (host_of L3 ex "hs_router")
    x3' y3' c3 (net_of L4 ex) eq_refl eq_refl S3 eq_refl).
  by apply (connection3_ret "router.uun3" 4 "dm42" "dm43" (net_of L4 ex) c3 x4 (host_of L4 ex "dm42") (host_of L4 ex "dm43")
    x4' y4' z4' c4 _ eq_refl eq_refl eq_refl S4).
Qed.

(** ** Rounds *)

Context (Hp2 : ai_datagrams_out p2 = []) (Hp6 : ai_datagrams_out p6 = []).

Definition ports_empty (ls : list (list AsyncNetworkInterface)) : Prop := ∀ q, ai_datagrams_out (on_link ls q 0) = [].

(** No frames on the links other than [q]. *)
Definition calm (q : nat) (ls : list (list AsyncNetworkInterface)) : Prop :=
  ∀ k l, ls !! k = Some l -> k ≠ q -> Forall (λ x, frames_out x = []) l.

Lemma route_idle r : Forall (λ i, ai_datagrams_out i = []) (r_interfaces r) -> route r = Ret r.
Proof.
  intros Hr. unfold route. generalize (length (waiting r)) as fuel. intros fuel.
  assert (∀ ks, Forall (λ k, k < length (r_interfaces r))%nat ks -> route_from fuel ks r = Ret r) as Hks.
  { induction 1 as [|k ks Hk _ IH]; [done|]. cbn [route_from]. apply lookup_lt_is_Some_2 in Hk as [i Hi].
    rewrite Forall_lookup in Hr. pose proof (Hr k i Hi) as Hq.
    assert (route_queue fuel r k = Ret r) as -> by (destruct fuel; cbn [route_queue]; by rewrite Hi, Hq). exact IH. }
  apply Hks, Forall_forall. intros k [_ Hk]%elem_of_seq. done.
Qed.

Lemma ports_idle ls : ports_empty ls -> Forall (λ i, ai_datagrams_out i = []) (ports ls).
Proof. intros He. unfold ports. rewrite !Forall_cons. split_and!; done || apply He. Qed.

Lemma shape_lookup ls q l : map length ls = link_shape -> ls !! q = Some l -> link_size (length l).
Proof.
  intros Hs Hl. assert (link_shape !! q = Some (length l)) as Hq by (rewrite <- Hs, list_lookup_fmap, Hl; done).
  destruct q as [|[|[|[|[|]]]]]; cbn in Hq; try done; unfold link_size; lia || (injection Hq; auto).
Qed.

Lemma exchanges_length l l' : exchanges l l' -> length l' = length l.
Proof. by destruct l as [|? [|? [|? [|]]]], l' as [|? [|? [|? [|]]]]. Qed.

Lemma insert_shape ls q l l' :
  map length ls = link_shape -> ls !! q = Some l -> length l' = length l -> map length (<[q := l']> ls) = link_shape.
Proof. intros Hs Hl He. rewrite list_fmap_insert, He, list_insert_id; [done|]. by rewrite list_lookup_fmap, Hl. Qed.

Lemma calm_insert ls q l : calm q ls -> calm q (<[q := l]> ls).
Proof. intros Hc k m Hk Hne. rewrite list_lookup_insert_ne in Hk by done. by apply (Hc k). Qed.

Lemma on_link_insert ls q l l' k i :
  ls !! q = Some l -> on_link (<[q := l']> ls) k i = if (k =? q)%nat then default no_interface (l' !! i) else on_link ls k i.
Proof.
  intros Hl. unfold on_link. destruct (Nat.eqb_spec k q) as [->|]; [|by rewrite list_lookup_insert_ne].
  by rewrite list_lookup_insert_eq by by eapply lookup_lt_Some.
Qed.

Lemma ports_empty_insert ls q l l' :
  ports_empty ls -> ls !! q = Some l -> map ai_datagrams_out l' = map ai_datagrams_out l -> ports_empty (<[q := l']> ls).
Proof.
  intros He Hl Hm k. rewrite (on_link_insert ls q l) by done. destruct (Nat.eqb_spec k q) as [->|]; [|apply He].
  pose proof (He q) as Hq. unfold on_link in Hq. rewrite Hl in Hq. cbn in Hq.
  destruct l as [|x l], l' as [|x' l']; try done. injection Hm as Hx _. cbn in *. congruence.
Qed.

Lemma round_at ls ex q l l' cerr :
  map length ls = link_shape -> calm q ls -> ls !! q = Some l -> exchanges l l' -> ports_empty ls ->
  ∃ cerr', simulate_round (net_of ls ex) cerr = Ret (net_of (<[q := l']> ls) ex, cerr').
Proof.
  intros Hs Hc Hl He Hp. unfold simulate_round. cbn [nw_router net_of]. rewrite route_idle by by apply ports_idle.
  unfold mbind, outcome_bind. change (set_router _ (net_of ls ex)) with (net_of ls ex). apply connections; [done|].
  apply Forall2_same_length_lookup. split; [by rewrite length_insert|]. intros k m m' Hm Hm'.
  destruct (decide (k = q)) as [->|Hne].
  - rewrite list_lookup_insert_eq in Hm' by by eapply lookup_lt_Some. by simplify_eq.
  - rewrite list_lookup_insert_ne in Hm' by done. simplify_eq. apply exchange_quiet; [by eapply shape_lookup|by apply (Hc k)].
Qed.

Lemma rounds_hop n l l' :
  hop_run n l l' -> ∀ ls ex q cerr,
  map length ls = link_shape -> calm q ls -> ls !! q = Some l -> ports_empty ls ->
  ∃ cerr', simulate_rounds n (net_of ls ex) cerr = Ret (net_of (<[q := l']> ls) ex, cerr').
Proof.
  induction 1 as [l l' He|n l l1 l' He Hm Hr IH]; intros ls ex q cerr Hs Hc Hl Hp; cbn [simulate_rounds];
    destruct (round_at ls ex q l _ cerr Hs Hc Hl He Hp) as [c1 ->]; unfold mbind, outcome_bind; [by eexists|].
  destruct (IH (<[q := l1]> ls) ex q c1) as [c2 Hc2].
  - eapply insert_shape; [done|done|by apply exchanges_length].
  - by apply calm_insert.
  - apply list_lookup_insert_eq. by eapply lookup_lt_Some.
  - by eapply ports_empty_insert.
  - exists c2. by rewrite Hc2, list_insert_insert_eq.
Qed.

Lemma rounds_idle n ls ex cerr :
  map length ls = link_shape -> Forall (Forall (λ x, frames_out x = [])) ls -> ports_empty ls ->
  ∃ cerr', simulate_rounds n (net_of ls ex) cerr = Ret (net_of ls ex, cerr').
Proof.
  intros Hs Hf Hp. revert cerr. rewrite Forall_lookup in Hf. induction n as [|n IH]; intros cerr; cbn [simulate_rounds]; [by eexists|].
  assert (∃ l, ls !! 0%nat = Some l) as [l Hl] by (destruct ls; [done|by eexists]).
  destruct (round_at ls ex 0 l l cerr Hs) as [c1 ->]; [by intros k m Hk _; apply (Hf k)|done
    |apply exchange_quiet; [by eapply shape_lookup|by apply (Hf 0%nat)]|done|].
  unfold mbind, outcome_bind. rewrite list_insert_id by done. apply IH.
Qed.

Lemma rounds_add n m nw cerr :
  simulate_rounds (n + m) nw cerr = simulate_rounds n nw cerr ≫= λ '(nw, cerr), simulate_rounds m nw cerr.
Proof.
  revert nw cerr. induction n as [|n IH]; intros nw cerr; cbn [simulate_rounds Nat.add]; [done|].
  unfold mbind, outcome_bind. destruct (simulate_round nw cerr) as [[nw' c']| | |]; [|done..]. apply IH.
Qed.

(** ** A hop on one link of the network *)

Context (mss : list (list member)).

Record resting ls : Prop := {
  rs_links : Forall2 link mss ls;
  rs_shape : map length ls = link_shape
}.

Definition received_at ls (k m : nat) : list IPv4Datagram := ai_datagrams_out (on_link ls k m).

Lemma resting_calm ls q : resting ls -> calm q ls.
Proof.
  intros [Hl _] k l Hk _. destruct (Forall2_lookup_r _ _ _ _ _ Hl Hk) as (ms & _ & Hlink).
  apply Forall_lookup. intros m x Hx. by apply (link_lookup ms l m).
Qed.

Lemma resting_insert ls q ms l' :
  resting ls -> mss !! q = Some ms -> link ms l' -> (∀ l, ls !! q = Some l -> length l' = length l) -> resting (<[q := l']> ls).
Proof.
  intros [Hl Hs] Hms Hlink Hlen. destruct (Forall2_lookup_l _ _ _ _ _ Hl Hms) as (l & Hq & _). split.
  - rewrite <- (list_insert_id mss q ms) by done. by apply Forall2_insert.
  - eapply insert_shape; [done|done|by apply Hlen].
Qed.

Lemma default_fmap_dgs (o : option AsyncNetworkInterface) :
  ai_datagrams_out (default no_interface o) = default [] (ai_datagrams_out <$> o).
Proof. by destruct o. Qed.

Lemma net_hop ls ex cerr q ms l i j a b d :
  resting ls -> ports_empty ls -> mss !! q = Some ms -> ls !! q = Some l -> l !! i = Some a -> l !! j = Some b -> i ≠ j ->
  apart ms i j -> datagram_ok d ->
  ∃ n ls' d' cerr', (n <= 3)%nat ∧
    simulate_rounds n (net_of (<[q := <[i := update (λ n, sent n d (own_ip (ai_base b))) a]> l]> ls) ex) cerr = Ret (net_of ls' ex, cerr') ∧
    resting ls' ∧ arrives d d' ∧
    ∀ k m, received_at ls' k m = received_at ls k m ++ (if (k =? q)%nat && (m =? j)%nat then [d'] else []).
Proof.
  intros Hr Hp Hms Hq Hi Hj Hij Hap Hd. pose proof (Forall2_lookup_lr _ _ _ _ _ _ (rs_links ls Hr) Hms Hq) as Hlink.
  destruct (hop ms l i j a b d Hlink Hi Hj Hij Hap Hd) as (n & l' & d' & Hn & Hrun & Hlink' & Harr & Hdg).
  set (l0 := <[i := _]> l) in *.
  assert (map ai_datagrams_out l0 = map ai_datagrams_out l) as Hdg0.
  { unfold l0. rewrite list_fmap_insert. apply list_insert_id. by rewrite list_lookup_fmap, Hi. }
  assert (length l' = length l) as Hlen.
  { transitivity (length (map ai_datagrams_out l')); [by rewrite length_map|]. rewrite Hdg, length_alter. by rewrite length_map. }
  assert (length l0 = length l) as Hlen0 by apply length_insert.
  destruct (rounds_hop n l0 l' Hrun (<[q := l0]> ls) ex q cerr) as [cerr' Hrounds].
  - eapply insert_shape; [by destruct Hr|done|done].
  - apply calm_insert. by apply resting_calm.
  - apply list_lookup_insert_eq. by eapply lookup_lt_Some.
  - by eapply ports_empty_insert.
  - exists n, (<[q := l']> ls), d', cerr'. rewrite Hrounds, list_insert_insert_eq.
    split_and!; [done|done|eapply resting_insert; [done..|]; intros l1 Hl1; rewrite Hq in Hl1; by injection Hl1 as <-|done|].
    intros k m. unfold received_at. rewrite (on_link_insert ls q l) by done. destruct (Nat.eqb_spec k q) as [->|]; cbn [andb]; [|by rewrite app_nil_r].
    unfold on_link. rewrite Hq. cbn [mbind option_bind]. rewrite !default_fmap_dgs, <- !list_lookup_fmap.
    change (ai_datagrams_out <$> l') with (map ai_datagrams_out l'). rewrite Hdg. destruct (Nat.eqb_spec m j) as [->|].
    + rewrite list_lookup_alter_eq, !list_lookup_fmap, Hj. done.
    + rewrite list_lookup_alter_ne by done. by rewrite app_nil_r.
Qed.

(** ** The router *)

Definition with_port ls (q : nat) (f : AsyncNetworkInterface -> AsyncNetworkInterface) : list (list AsyncNetworkInterface) :=
  alter (alter f 0%nat) q ls.

Lemma ports_with_port ls q f :
  map length ls = link_shape -> (q < 5)%nat -> ports (with_port ls q f) = alter f (port_of q) (ports ls).
Proof.
  intros Hs Hq. destruct ls as [|l0 [|l1 [|l2 [|l3 [|l4 [|]]]]]]; try discriminate. injection Hs as H0 H1 H2 H3 H4.
  destruct l0; [done|]. destruct l1; [done|]. destruct l2; [done|]. destruct l3; [done|]. destruct l4; [done|].
  destruct q as [|[|[|[|[|]]]]]; [done..|lia].
Qed.

Lemma on_link_alter ls q i f k m :
  on_link (alter (alter f i) q ls) k m =
    if (k =? q)%nat && (m =? i)%nat then default no_interface (f <$> (ls !! q ≫= λ l, l !! i)) else on_link ls k m.
Proof.
  unfold on_link. destruct (Nat.eqb_spec k q) as [->|]; cbn [andb]; [|by rewrite list_lookup_alter_ne].
  rewrite list_lookup_alter_eq. destruct (ls !! q) as [l|]; cbn; [|by destruct (m =? i)%nat].
  destruct (Nat.eqb_spec m i) as [->|]; [by rewrite list_lookup_alter_eq|by rewrite list_lookup_alter_ne].
Qed.
Lemma with_port_on_link ls q f k m :
  on_link (with_port ls q f) k m =
    if (k =? q)%nat && (m =? 0)%nat then default no_interface (f <$> (ls !! q ≫= λ l, l !! 0%nat)) else on_link ls k m.
Proof. apply on_link_alter. Qed.

Lemma router_ext r r' : same_network r r' -> queues r = queues r' -> r = r'.
Proof.
  destruct r as [ifs t], r' as [js t']. intros [Hb Ht] Hq. cbn in *. subst t'. f_equal. unfold queues in Hq. cbn in Hq.
  revert js Hb Hq. induction ifs as [|[n q] ifs IH]; intros [|[n' q'] js]; cbn; try done. intros [= -> Hb] [= -> Hq]. f_equal. by apply IH.
Qed.

(** A router with one datagram to forward. *)
Lemma route_one r k d :
  router_ok r -> (k < length (r_interfaces r))%nat ->
  queues r = <[k := [d]]> (replicate (length (r_interfaces r)) []) -> route r = Ret (forward (pop_datagram r k) d).
Proof.
  intros Hr Hk Hq. set (n := length (r_interfaces r)) in *.
  assert (concat (queues r) = [d]) as Hc.
  { rewrite Hq, insert_replicate_lt by done. rewrite concat_app, concat_cons, !concat_replicate_nil. done. }
  unfold route, waiting. fold (queues r). destruct (route_from_spec (length (concat (queues r))) 0 (queues r) r Hr) as (r' & Hroute & _ & Hs & Hq');
    [done|done|]. unfold queues at 2 in Hroute. rewrite length_map in Hroute. rewrite Hroute. f_equal.
  apply router_ext.
  - rewrite Hs, Hc. cbn [foldl]. by rewrite pop_same_network.
  - assert (length (queues r) = n) as Hlen by apply length_map. rewrite Hq', queues_forward, queues_pop, Hlen, Hq. cbn [Nat.add]. symmetry. apply list_eq. intros m.
    destruct (decide (m = k)) as [->|]; [|by rewrite list_lookup_alter_ne, list_lookup_insert_ne].
    by rewrite list_lookup_alter_eq, list_lookup_insert_eq, lookup_replicate_2 by (done || by rewrite length_replicate).
Qed.

Context (Hok2 : interface_ok (ai_base p2)) (Hok6 : interface_ok (ai_base p6)).

Lemma table_ok : Forall (route_ok 7) table.
Proof.
  apply (Forall_add_routes (route_ok 7) new_Router); [constructor|].
  repeat (apply Forall_cons; split); [..|constructor];
    (split; [unfold prefix_length_ok, plen; cbn; lia|cbn; lia|intros x Hx; cbn in Hx; try done; injection Hx as <-]);
    apply Address_of_ip_ok; unfold is_u32, is_u16, quad; lia.
Qed.

Lemma resting_interface ls q :
  resting ls -> (q < 5)%nat -> interface_ok (ai_base (on_link ls q 0)).
Proof.
  intros [Hl Hs] Hq. unfold on_link.
  assert (length ls = 5%nat) as Hlen by (transitivity (length (map length ls)); [by rewrite length_map|by rewrite Hs]).
  destruct (lookup_lt_is_Some_2 ls q) as [l Hls]; [by rewrite Hlen|]. rewrite Hls. cbn [mbind option_bind].
  pose proof (shape_lookup ls q l Hs Hls) as Hsz. destruct l as [|x l]; [by destruct Hsz|].
  destruct (Forall2_lookup_r _ _ _ _ _ Hl Hls) as (ms & _ & Hlink). by destruct (link_lookup ms (x :: l) 0 x Hlink) as (_ & [] & _).
Qed.

Lemma net_router_ok ls :
  resting ls -> (∀ k, Forall datagram_ok (received_at ls k 0)) -> router_ok (mkRouter (ports ls) table).
Proof.
  intros Hr Hd. split; [|exact table_ok]. cbn [r_interfaces]. unfold ports.
  assert (∀ q, (q < 5)%nat -> async_ok (on_link ls q 0)) as Hq by (intros q Hq; split; [by apply resting_interface|apply Hd]).
  assert (async_ok p2 ∧ async_ok p6) as [? ?] by (split; (split; [done|]); [rewrite Hp2|rewrite Hp6]; constructor).
  rewrite !Forall_cons, Forall_nil. split_and!; try done; apply Hq; lia.
Qed.

Definition popped ls (q : nat) : list (list AsyncNetworkInterface) :=
  with_port ls q (λ x, mkAsync (ai_base x) (tail (ai_datagrams_out x))).

(** What the router makes of a datagram that arrived on link [q1] and whose
    route leads to link [q2]. *)
Definition forwarded ls (q1 q2 : nat) (d : IPv4Datagram) (e : Route) : list (list AsyncNetworkInterface) :=
  let ttl := ip_ttl (dg_header d) in
  if ttl <=? 1 then popped ls q1
  else with_port (popped ls q1) q2 (update (λ n, sent n (set_ttl (ttl - 1) d) (ad_ip (hop_address e d)))).

Lemma with_port_shape ls q f : map length ls = link_shape -> map length (with_port ls q f) = link_shape.
Proof.
  intros <-. unfold with_port. revert q. induction ls as [|l ls IH]; intros [|q]; cbn; [done..| |].
  - f_equal. apply length_alter.
  - f_equal. apply IH.
Qed.

Lemma received_at_port ls q f k m :
  (∀ x, ai_datagrams_out (f x) = ai_datagrams_out x) -> received_at (with_port ls q f) k m = received_at ls k m.
Proof.
  intros Hf. unfold received_at. rewrite with_port_on_link. destruct (Nat.eqb_spec k q) as [->|]; cbn [andb]; [|done].
  destruct (Nat.eqb_spec m 0) as [->|]; [|done]. unfold on_link. destruct (ls !! q ≫= _); cbn; [by rewrite Hf|done].
Qed.

Lemma received_at_popped ls q k m :
  received_at (popped ls q) k m = if (k =? q)%nat && (m =? 0)%nat then tail (received_at ls k m) else received_at ls k m.
Proof.
  unfold received_at, popped. rewrite with_port_on_link. destruct (Nat.eqb_spec k q) as [->|]; cbn [andb]; [|done].
  destruct (Nat.eqb_spec m 0) as [->|]; [|done]. unfold on_link. by destruct (ls !! q ≫= _).
Qed.

Lemma port_queues ls q d :
  (q < 5)%nat -> (∀ k, received_at ls k 0 = if (k =? q)%nat then [d] else []) ->
  queues (mkRouter (ports ls) table) = <[port_of q := [d]]> (replicate 7 []).
Proof.
  intros Hq Hat. unfold queues, received_at in *. cbn [r_interfaces ports map]. rewrite !Hat, Hp2, Hp6.
  destruct q as [|[|[|[|[|]]]]]; [done..|lia].
Qed.

Lemma hosts_same ls ls' ex :
  (∀ k m, m ≠ 0%nat -> on_link ls k m = on_link ls' k m) ->
  map (λ name, (name, host_of ls ex name)) host_names = map (λ name, (name, host_of ls' ex name)) host_names.
Proof.
  intros Heq. apply map_ext_in. intros name _. f_equal. unfold host_of. f_equal. apply Heq. unfold info. by repeat case_match.
Qed.

Lemma route_round ls ex cerr q1 q2 d e :
  resting ls -> (q1 < 5)%nat -> (q2 < 5)%nat -> (∀ k, received_at ls k 0 = if (k =? q1)%nat then [d] else []) -> datagram_ok d ->
  first_route (ip_dst (dg_header d)) (reverse table) = Some e -> Z.to_nat e.2.2 = port_of q2 ->
  ports_empty (forwarded ls q1 q2 d e) ∧
  simulate_round (net_of ls ex) cerr = simulate_round (net_of (forwarded ls q1 q2 d e) ex) cerr.
Proof.
  intros Hr Hq1 Hq2 Hat Hd Hroute Hnum. assert (ports_empty (forwarded ls q1 q2 d e)) as Hpe.
  { intros k. change (received_at (forwarded ls q1 q2 d e) k 0 = []). unfold forwarded.
    destruct (ip_ttl (dg_header d) <=? 1); [|rewrite received_at_port by done];
      rewrite received_at_popped, Hat; destruct (k =? q1)%nat; done. }
  split; [done|]. unfold simulate_round. cbn [nw_router net_of].
  rewrite (route_idle (mkRouter (ports (forwarded _ _ _ _ _)) _)) by by apply ports_idle.
  rewrite (route_one _ (port_of q1) d); [|apply net_router_ok; [done|]|cbn; destruct q1 as [|[|[|[|[|]]]]]; cbn; lia|by apply port_queues].
  2: { intros k. rewrite Hat. destruct (k =? q1)%nat; [by apply Forall_singleton|constructor]. }
  unfold mbind, outcome_bind. f_equal. unfold set_router, net_of. cbn [default_id eth0_id eth1_id eth2_id uun3_id hs4_id mit5_id nw_hosts]. f_equal.
  - unfold forward, forwarded, pop_datagram. cbn [r_rtable r_interfaces]. rewrite Hroute. cbv zeta. unfold popped.
    destruct (Z.leb_spec (ip_ttl (dg_header d)) 1); rewrite !ports_with_port by (done || apply with_port_shape, Hr || apply Hr); [done|].
    by rewrite Hnum.
  - apply hosts_same. intros k m Hm. unfold forwarded, popped. destruct (ip_ttl (dg_header d) <=? 1);
      rewrite !with_port_on_link; destruct (Nat.eqb_spec m 0); try done; by rewrite !andb_false_r.
Qed.

Lemma link_bases ms l l' : link ms l -> map ai_base l' = map ai_base l -> link ms l'.
Proof.
  intros Hl Hb. assert (length l' = length l) as Hlen by (by rewrite <- (length_map ai_base l'), Hb, length_map).
  apply (link_change ms l); [done|done|]. intros k x Hk.
  assert (map ai_base l !! k = Some (ai_base x)) as Hx by (rewrite <- Hb, list_lookup_fmap, Hk; done).
  rewrite list_lookup_fmap in Hx. destruct (l !! k) as [y|] eqn:Hy; [|done]. injection Hx as Hx.
  unfold frames_out. rewrite <- Hx. by apply (link_lookup ms l k y).
Qed.

Lemma resting_popped ls q : resting ls -> resting (popped ls q).
Proof.
  intros [Hl Hs]. split; [|by apply with_port_shape]. unfold popped, with_port. apply Forall2_same_length_lookup.
  split; [rewrite length_alter; by eapply Forall2_length|]. intros k ms l Hms Hk.
  destruct (decide (k = q)) as [->|]; [|rewrite list_lookup_alter_ne in Hk by done; by eapply Forall2_lookup_lr].
  rewrite list_lookup_alter_eq in Hk. destruct (ls !! q) as [l1|] eqn:Hq; [|done]. injection Hk as <-.
  apply (link_bases ms l1); [by eapply Forall2_lookup_lr|]. by destruct l1.
Qed.

Lemma rounds_same n ls ls' ex cerr :
  (∀ cerr, simulate_round (net_of ls ex) cerr = simulate_round (net_of ls' ex) cerr) -> (0 < n)%nat ->
  simulate_rounds n (net_of ls ex) cerr = simulate_rounds n (net_of ls' ex) cerr.
Proof. intros Hs Hn. destruct n as [|n]; [lia|]. cbn [simulate_rounds]. by rewrite Hs. Qed.

Lemma arrives_ok d d' : datagram_ok d -> arrives d d' -> datagram_ok d'.
Proof.
  intros [Hh Hl] [Hh' Hp]. split; rewrite Hh'; [|by rewrite Hp]. apply ip_header_ok_cksum; [done|apply ip_checksum_u16].
Qed.

Lemma resting_idle n ls ex cerr :
  resting ls -> ports_empty ls -> ∃ cerr', simulate_rounds n (net_of ls ex) cerr = Ret (net_of ls ex, cerr').
Proof.
  intros Hr Hp. apply rounds_idle; [by destruct Hr| |done]. apply Forall_lookup. intros k l Hk. by apply (resting_calm ls (S k) Hr k l Hk).
Qed.

(** The state after a host has sent a datagram to the router. *)
Definition sent_state ls (q i : nat) (d : IPv4Datagram) (ip : Z) : list (list AsyncNetworkInterface) :=
  alter (alter (update (λ n, sent n d ip)) i) q ls.

Lemma sent_state_insert ls q i d ip l a :
  ls !! q = Some l -> l !! i = Some a -> sent_state ls q i d ip = <[q := <[i := update (λ n, sent n d ip) a]> l]> ls.
Proof.
  intros Hq Hi. unfold sent_state. rewrite list_insert_alter. apply list_alter_ext; [|done]. intros l1 Hl1. simplify_eq.
  rewrite list_insert_alter. apply list_alter_ext; [|done]. intros x Hx. by simplify_eq.
Qed.

(** A position on a link: its members, and the interface there. *)
Lemma position ls q ms i m :
  resting ls -> mss !! q = Some ms -> ms !! i = Some m ->
  ∃ l x, ls !! q = Some l ∧ l !! i = Some x ∧ ident (ai_base x) = m.
Proof.
  intros [Hl _] Hms Hm. destruct (Forall2_lookup_l _ _ _ _ _ Hl Hms) as (l & Hq & Hlink).
  destruct (Forall2_lookup_l _ _ _ _ _ (lk_rest _ _ Hlink) Hm) as (x & Hx & Hid & _). by exists l, x.
Qed.

Lemma hop_between ls ex cerr q ms i j mi mj d :
  resting ls -> ports_empty ls -> mss !! q = Some ms -> ms !! i = Some mi -> ms !! j = Some mj -> i ≠ j ->
  apart ms i j -> datagram_ok d ->
  ∃ n ls' d' cerr', (n <= 3)%nat ∧
    simulate_rounds n (net_of (sent_state ls q i d mj.2) ex) cerr = Ret (net_of ls' ex, cerr') ∧ resting ls' ∧ arrives d d' ∧
    ∀ k m, received_at ls' k m = received_at ls k m ++ (if (k =? q)%nat && (m =? j)%nat then [d'] else []).
Proof.
  intros Hr Hp Hms Hmi Hmj Hij Hap Hd. destruct (position ls q ms i mi Hr Hms Hmi) as (l & a & Hq & Hi & _).
  destruct (position ls q ms j mj Hr Hms Hmj) as (l' & b & Hq' & Hj & <-). rewrite Hq in Hq'. injection Hq' as <-.
  change (ident (ai_base b)).2 with (own_ip (ai_base b)). rewrite (sent_state_insert ls q i d _ l a Hq Hi). by apply (net_hop ls ex cerr q ms l i j a b d).
Qed.

(** ** From host to host *)

Section transit.
Context (ls : list (list AsyncNetworkInterface)) (q1 i1 q2 : nat) (ms1 : list member) (m1 r1 : member) (d : IPv4Datagram) (e : Route).
Context (Hrest : resting ls) (Hempty : ∀ k m, received_at ls k m = []).
Context (Hq1 : (q1 < 5)%nat) (Hms1 : mss !! q1 = Some ms1) (Hm1 : ms1 !! i1 = Some m1) (Hr1 : ms1 !! 0%nat = Some r1) (Hi1 : i1 ≠ 0%nat).
Context (Hap1 : apart ms1 i1 0) (Hd : datagram_ok d).
Context (Hroute : first_route (ip_dst (dg_header d)) (reverse table) = Some e) (Hnum : Z.to_nat e.2.2 = port_of q2) (Hq2 : (q2 < 5)%nat).

(** To the router, and through it. *)
Lemma transit_router ex cerr :
  ∃ n ls1 d1 cerr1, (n <= 3)%nat ∧
    (∀ n', (0 < n')%nat -> simulate_rounds (n + n') (net_of (sent_state ls q1 i1 d r1.2) ex) cerr =
      simulate_rounds n' (net_of (forwarded ls1 q1 q2 d1 e) ex) cerr1) ∧
    resting ls1 ∧ arrives d d1 ∧ ports_empty (forwarded ls1 q1 q2 d1 e) ∧ ∀ k m, received_at (popped ls1 q1) k m = [].
Proof.
  assert (ports_empty ls) as Hp by (intros q; apply Hempty).
  destruct (hop_between ls ex cerr q1 ms1 i1 0 m1 r1 d) as (n & ls1 & d1 & cerr1 & Hn & Hrun & Hrest1 & Harr & Hat); [done..|].
  assert (∀ k m, received_at ls1 k m = if (k =? q1)%nat && (m =? 0)%nat then [d1] else []) as Hat1.
  { intros k m. by rewrite Hat, Hempty. }
  assert (first_route (ip_dst (dg_header d1)) (reverse table) = Some e) as Hroute1 by (destruct Harr as [-> _]; done).
  assert (∀ c, ports_empty (forwarded ls1 q1 q2 d1 e) ∧
    simulate_round (net_of ls1 ex) c = simulate_round (net_of (forwarded ls1 q1 q2 d1 e) ex) c) as Hround.
  { intros c. apply route_round; [done..| |by eapply arrives_ok|done|done].
    intros k. rewrite Hat1, andb_true_r. done. }
  exists n, ls1, d1, cerr1. split_and!; [done| |done|done|apply (Hround cerr)|].
  - intros n' Hn'. rewrite rounds_add, Hrun. unfold mbind, outcome_bind. apply rounds_same; [|done]. intros c. apply Hround.
  - intros k m. rewrite received_at_popped, Hat1. by destruct (_ && _).
Qed.

(** A datagram whose time to live is at an end is dropped there. *)
Lemma transit_dropped ex cerr :
  ip_ttl (dg_header d) <= 1 ->
  ∃ ls' cerr', simulate_rounds 256 (net_of (sent_state ls q1 i1 d r1.2) ex) cerr = Ret (net_of ls' ex, cerr') ∧
    resting ls' ∧ ∀ k m, received_at ls' k m = [].
Proof.
  intros Httl. destruct (transit_router ex cerr) as (n & ls1 & d1 & c1 & Hn & Hrun & Hrest1 & Harr & Hp & Hat).
  replace 256%nat with (n + (256 - n))%nat by lia. rewrite Hrun by lia.
  assert (forwarded ls1 q1 q2 d1 e = popped ls1 q1) as Hf.
  { unfold forwarded. destruct Harr as [-> _]. cbn. by destruct (Z.leb_spec (ip_ttl (dg_header d)) 1); [|lia]. }
  rewrite Hf in *. destruct (resting_idle (256 - n) (popped ls1 q1) ex c1) as [c2 ->]; [by apply resting_popped|done|].
  exists (popped ls1 q1), c2. split_and!; [done|by apply resting_popped|done].
Qed.

(** Any other one reaches the next hop. *)
Lemma transit ex cerr j2 ms2 r2 m2 :
  1 < ip_ttl (dg_header d) -> mss !! q2 = Some ms2 -> ms2 !! 0%nat = Some r2 -> ms2 !! j2 = Some m2 -> j2 ≠ 0%nat -> apart ms2 0 j2 ->
  ad_ip (hop_address e d) = m2.2 ->
  ∃ ls' d1 d2 cerr', simulate_rounds 256 (net_of (sent_state ls q1 i1 d r1.2) ex) cerr = Ret (net_of ls' ex, cerr') ∧
    resting ls' ∧ arrives d d1 ∧ arrives (set_ttl (ip_ttl (dg_header d) - 1) d1) d2 ∧
    ∀ k m, received_at ls' k m = if (k =? q2)%nat && (m =? j2)%nat then [d2] else [].
Proof.
  intros Httl Hms2 Hr2 Hm2 Hj2 Hap2 Hhop. destruct (transit_router ex cerr) as (n & ls1 & d1 & c1 & Hn & Hrun & Hrest1 & Harr & Hp & Hat).
  pose proof (arrives_ok d d1 Hd Harr) as Hd1. pose proof Harr as [Hh1 _].
  assert (forwarded ls1 q1 q2 d1 e = sent_state (popped ls1 q1) q2 0 (set_ttl (ip_ttl (dg_header d) - 1) d1) m2.2) as Hf.
  { unfold forwarded, hop_address. rewrite Hh1. cbn [ip_ttl ip_dst set_ip_cksum]. fold (hop_address e d). rewrite Hhop.
    by destruct (Z.leb_spec (ip_ttl (dg_header d)) 1); [lia|]. }
  rewrite Hf in *. destruct (hop_between (popped ls1 q1) ex c1 q2 ms2 0 j2 r2 m2 (set_ttl (ip_ttl (dg_header d) - 1) d1))
    as (n2 & ls2 & d2 & c2 & Hn2 & Hrun2 & Hrest2 & Harr2 & Hat2);
    [by apply resting_popped|intros q; apply Hat|done..|by apply not_eq_sym|done| |].
  { pose proof (ipk_ttl _ (proj1 Hd)) as Hu. unfold is_u8 in Hu. apply set_ttl_ok; [done|unfold is_u8; lia]. }
  assert (∀ k m, received_at ls2 k m = if (k =? q2)%nat && (m =? j2)%nat then [d2] else []) as Hat2' by (intros; by rewrite Hat2, Hat).
  destruct (resting_idle (256 - n - n2) ls2 ex c2) as [c3 H3]; [done| |].
  { intros q. change (received_at ls2 q 0 = []). rewrite Hat2'. destruct (Nat.eqb_spec 0 j2); [lia|]. by rewrite andb_false_r. }
  exists ls2, d1, d2, c3. split_and!; [|done..]. replace 256%nat with (n + (n2 + (256 - n - n2)))%nat by lia.
  rewrite Hrun, rounds_add, Hrun2 by lia. exact H3.
Qed.
End transit.

(** ** Hosts *)

Definition hosts_of (hf : string -> Host) : list (string * Host) := map (λ name, (name, hf name)) host_names.

Lemma host_names_distinct : NoDup host_names.
Proof. apply (bool_decide_unpack _). by vm_compute. Qed.

Lemma find_hosts hf name : name ∈ host_names -> find_host name (hosts_of hf) = Some (hf name).
Proof.
  unfold hosts_of. induction host_names as [|n names IH]; [by intros ?%not_elem_of_nil|]. cbn.
  destruct (String.eqb_spec n name) as [->|]; [done|]. intros [->|]%elem_of_cons; [done|by apply IH].
Qed.

Lemma put_hosts hf name h :
  put_host name h (hosts_of hf) = hosts_of (λ n, if String.eqb n name then h else hf n).
Proof.
  unfold hosts_of. pose proof host_names_distinct as Hd. induction Hd as [|n names Hn Hd IH]; [done|]. cbn.
  destruct (String.eqb_spec n name) as [->|]; [|by rewrite IH]. f_equal. apply map_ext_in. intros m Hm.
  destruct (String.eqb_spec m name) as [->|]; [|done]. by apply list_elem_of_In in Hm.
Qed.

Lemma hosts_ext hf hf' : (∀ n, n ∈ host_names -> hf n = hf' n) -> hosts_of hf = hosts_of hf'.
Proof. intros He. apply map_ext_in. intros n Hn%list_elem_of_In. by rewrite He. Qed.

(** The position of a host. *)
Definition at_host ls (name : string) (f : AsyncNetworkInterface -> AsyncNetworkInterface) : list (list AsyncNetworkInterface) :=
  alter (alter f (hi_pos (info name))) (hi_link (info name)) ls.

Lemma info_inj n n' :
  n ∈ host_names -> n' ∈ host_names ->
  (hi_link (info n) =? hi_link (info n'))%nat && (hi_pos (info n) =? hi_pos (info n'))%nat = String.eqb n n'.
Proof. intros Hn Hn'. each_host Hn; each_host Hn'; reflexivity. Qed.

Lemma ports_at_host ls name f : ports (at_host ls name f) = ports ls.
Proof.
  unfold ports, at_host. rewrite !on_link_alter. destruct (info_ranges name) as [Hp _].
  destruct (Nat.eqb_spec 0 (hi_pos (info name))); [lia|]. by rewrite !andb_false_r.
Qed.

Definition host_interface ls (name : string) : option AsyncNetworkInterface :=
  ls !! hi_link (info name) ≫= λ l, l !! hi_pos (info name).

(** Assigning to the interface of a host. *)
Lemma net_at_host ls ex name f x :
  name ∈ host_names -> host_interface ls name = Some x ->
  set_hosts (put_host name (set_interface (f x) (host_of ls ex name)) (nw_hosts (net_of ls ex))) (net_of ls ex) =
    net_of (at_host ls name f) ex.
Proof.
  intros Hin Hx. unfold net_of, set_hosts. cbn [nw_hosts nw_router default_id eth0_id eth1_id eth2_id uun3_id hs4_id mit5_id].
  rewrite ports_at_host. f_equal. fold (hosts_of (host_of ls ex)). rewrite put_hosts. apply hosts_ext. intros n Hn.
  unfold host_of at 3, at_host. rewrite on_link_alter, info_inj by done. fold (host_interface ls name). rewrite Hx.
  destruct (String.eqb_spec n name) as [->|]; done.
Qed.

Lemma net_expect ls ex name (l : list IPv4Datagram) :
  name ∈ host_names ->
  set_hosts (put_host name (set_expectations l (host_of ls ex name)) (nw_hosts (net_of ls ex))) (net_of ls ex) =
    net_of ls (λ n, if String.eqb n name then l else ex n).
Proof.
  intros Hin. unfold net_of, set_hosts. cbn [nw_hosts nw_router default_id eth0_id eth1_id eth2_id uun3_id hs4_id mit5_id].
  f_equal. fold (hosts_of (host_of ls ex)). rewrite put_hosts. apply hosts_ext. intros n Hn.
  unfold host_of. by destruct (String.eqb_spec n name) as [->|].
Qed.

Lemma net_host ls ex name : name ∈ host_names -> host (net_of ls ex) name = Ret (host_of ls ex name).
Proof.
  intros Hin. unfold host. cbn [nw_hosts net_of]. fold (hosts_of (host_of ls ex)). rewrite find_hosts by done.
  cbn [h_name host_of]. by rewrite String.eqb_refl.
Qed.

(** ** Checks *)

Lemma check_hosts_all order hf hf' :
  order ≡ₚ host_names -> (∀ n, n ∈ host_names -> check (hf n) = Ret (hf' n)) ->
  check_hosts order (hosts_of hf) = Ret (hosts_of hf').
Proof.
  intros Ho Hc.
  assert (∀ names hf0, NoDup names -> names ⊆ host_names -> (∀ n, n ∈ names -> hf0 n = hf n) ->
    check_hosts names (hosts_of hf0) = Ret (hosts_of (λ n, if bool_decide (n ∈ names) then hf' n else hf0 n))) as Hgen.
  { induction names as [|n names IH]; intros hf0 Hnd Hsub Heq; cbn [check_hosts]; [done|].
    apply NoDup_cons in Hnd as [Hn Hnd]. rewrite find_hosts, Heq, Hc by set_solver.
    unfold mbind, outcome_bind. rewrite put_hosts, IH; [|done|set_solver|].
    - f_equal. apply hosts_ext. intros m Hm. repeat case_bool_decide; destruct (String.eqb_spec m n) as [->|]; try done; set_solver.
    - intros m Hm. destruct (String.eqb_spec m n) as [->|]; [done|]. apply Heq. set_solver. }
  rewrite Hgen; [|by rewrite Ho; apply host_names_distinct|by rewrite Ho|done]. f_equal. apply hosts_ext. intros n Hn.
  rewrite bool_decide_true; [done|by rewrite Ho].
Qed.

Lemma dg_wire_arrives d d' h p :
  arrives d d' -> dg_header d = h -> concatenate (dg_payload d) = p ->
  concatenate (dg_wire d') = ip_header_bytes (set_ip_cksum (ip_checksum h) h) ++ p.
Proof. intros [Hh Hp] <- <-. unfold dg_wire. rewrite Hh. cbn [concatenate]. by rewrite str_of_string, Hp. Qed.

(** The datagram that was expected and the one that came. *)
Lemma same_wire_transit d d1 d2 ttl :
  datagram_ok d -> is_u8 ttl -> arrives d d1 -> arrives (set_ttl ttl d1) d2 -> same_wire (set_ttl ttl d) d2 = Ret true.
Proof.
  intros Hd Ht H1 H2. pose proof (arrives_ok d d1 Hd H1) as Hd1. pose proof (set_ttl_ok ttl d Hd Ht) as Hx.
  pose proof (arrives_ok _ _ (set_ttl_ok ttl d1 Hd1 Ht) H2) as Hd2. unfold same_wire.
  rewrite !datagram_serialize_spec by done. unfold mbind, outcome_bind. f_equal. apply bool_decide_true. destruct H1 as [Hh1 Hp1].
  rewrite (dg_wire_arrives (set_ttl ttl d1) d2 _ _ H2 eq_refl eq_refl).
  unfold dg_wire. cbn [concatenate]. rewrite str_of_string. unfold set_ttl. cbn [dg_header dg_payload]. rewrite Hp1. f_equal.
  by rewrite Hh1.
Qed.

Definition received_nothing (h : Host) : Prop := ai_datagrams_out (h_interface h) = [] ∧ h_expecting_to_receive h = [].

Lemma check_nothing h : received_nothing h -> check h = Ret h.
Proof. intros [Hq He]. unfold check. rewrite Hq. cbn. rewrite He. f_equal. destruct h as [? ? [? ?] ? ?]. cbn in *. by subst. Qed.

Lemma check_one h d x :
  ai_datagrams_out (h_interface h) = [d] -> h_expecting_to_receive h = [x] -> same_wire x d = Ret true ->
  check h = Ret (set_expectations [] (set_interface (mkAsync (ai_base (h_interface h)) []) h)).
Proof.
  intros Hq He Hs. unfold check. rewrite Hq. cbn [check_received]. unfold expecting, remove_expectation. rewrite He.
  cbn [expecting_in remove_from]. rewrite Hs. done.
Qed.

Lemma digits_go_length fuel base n acc : (length (digits_go fuel base n acc) <= fuel + length acc)%nat.
Proof.
  revert n acc. induction fuel as [|fuel IH]; intros n acc; cbn [digits_go]; [lia|].
  destruct (n <? base); cbn [length]; [lia|]. etrans; [apply IH|]. cbn. lia.
Qed.

(** What [send_to] sends. *)
Definition datagram_to (src dst ttl : Z) (x : Z) : IPv4Datagram :=
  let payload := [Buffer_of_string (chars "random payload: {" ++ dec (u32 x) ++ chars "}")] in
  mkIPv4Datagram (set_ip_ttl ttl (set_ip_len (u16 (20 + list_size payload)) (set_ip_addresses src dst default_ip_header))) payload.

Lemma datagram_to_ok src dst ttl x : is_u32 src -> is_u32 dst -> is_u8 ttl -> datagram_ok (datagram_to src dst ttl x).
Proof.
  intros Hs Hd Ht. unfold datagram_to. set (payload := [_]).
  assert (0 <= list_size payload < 1000) as Hp.
  { rewrite list_size_concatenate. unfold payload. cbn [concatenate]. rewrite str_of_string, app_nil_r, !zlen_app.
    pose proof (digits_go_length 64 10 (u32 x) []) as Hl. cbn [length] in Hl. unfold zlen in *. unfold dec, print_uint.
    change (length (chars "random payload: {")) with 17%nat. change (length (chars "}")) with 1%nat. lia. }
  rewrite u16_id by (unfold is_u16; lia). split; [split; cbn -[list_size]; unfold is_u8, is_u16, is_u32 in *; first [done|lia|by vm_compute]|].
  cbn [dg_header dg_payload ip_len ip_hlen set_ip_ttl set_ip_len set_ip_addresses default_ip_header].
  rewrite list_size_concatenate. done.
Qed.

Section traffic.
Context {R : Type} `{RandomGenerator R} (order : list string) (Horder : order ≡ₚ host_names).
Context (ls : list (list AsyncNetworkInterface)) (Hrest : resting ls) (Hempty : ∀ k m, received_at ls k m = []).
Context (from : string) (Hfrom : from ∈ host_names) (ms1 : list member) (m1 r1 : member).
Context (Hms1 : mss !! hi_link (info from) = Some ms1) (Hm1 : ms1 !! hi_pos (info from) = Some m1) (Hr1 : ms1 !! 0%nat = Some r1).
Context (Hhop1 : r1.2 = hi_hop (info from)) (Hap1 : apart ms1 (hi_pos (info from)) 0).
Context (dst ttl : Z) (Hdst : is_u32 dst) (Httl : is_u8 ttl).
Context (e : Route) (q2 : nat) (Hroute : first_route dst (reverse table) = Some e) (Hnum : Z.to_nat e.2.2 = port_of q2) (Hq2 : (q2 < 5)%nat).

Lemma send_from_net g cerr :
  ∃ g' cerr', let d := datagram_to (hi_ip (info from)) dst ttl (rand_next g).1 in
    send_from (net_of ls (λ _, []), g, cerr) from (a_of dst) ttl =
      Ret (d, (net_of (sent_state ls (hi_link (info from)) (hi_pos (info from)) d r1.2) (λ _, []), g', cerr')).
Proof.
  destruct (info_u32 from) as [Hip Hhop]. pose proof (datagram_to_ok (hi_ip (info from)) dst ttl (rand_next g).1 Hip Hdst Httl) as Hd.
  destruct (position ls _ ms1 _ m1 Hrest Hms1 Hm1) as (l & x & Hq & Hx & _).
  assert (host_interface ls from = Some x) as Hh by (unfold host_interface; by rewrite Hq).
  assert (on_link ls (hi_link (info from)) (hi_pos (info from)) = x) as Hox by (unfold on_link; by rewrite Hq; cbn; rewrite Hx).
  assert (interface_ok (ai_base x)) as Hok.
  { destruct (Forall2_lookup_r _ _ _ _ _ (rs_links ls Hrest) Hq) as (ms & _ & Hlink). by destruct (link_lookup _ _ _ _ Hlink Hx) as (_ & [] & _). }
  unfold send_from, mbind, outcome_bind. rewrite net_host by done. unfold send_to, mbind, outcome_bind.
  cbn [h_my_address h_next_hop h_interface h_name host_of]. rewrite Hox. rewrite !ipv4_numeric_ok by (apply Address_of_ip_ok; done || unfold is_u16; lia).
  destruct (rand_next g) as [y g']. cbn [fst] in *. cbv zeta. cbn [ad_ip a_of Address_of_ip].
  change (mkIPv4Datagram _ _) with (datagram_to (hi_ip (info from)) dst ttl y).
  rewrite send_datagram_sent by (done || apply Address_of_ip_ok; done || unfold is_u16; lia).
  eexists g', _. rewrite Hhop1.
  rewrite <- (net_at_host ls (λ _, []) from (update (λ n, sent n (datagram_to (hi_ip (info from)) dst ttl y) (hi_hop (info from)))) x Hfrom Hh
    : _ = net_of (sent_state _ _ _ _ _) _).
  unfold host_of at 1 2. rewrite Hox. reflexivity.
Qed.

(** After a block of traffic the network is at rest again. *)
Definition rested (w : world (R := R)) : Prop :=
  ∃ ls' g' cerr', w = (net_of ls' (λ _, []), g', cerr') ∧ resting ls' ∧ ∀ k m, received_at ls' k m = [].

Lemma traffic_dropped g cerr :
  ttl <= 1 -> returns (traffic order (net_of ls (λ _, []), g, cerr) from (a_of dst) ttl None) rested.
Proof.
  intros Hle. destruct (info_u32 from) as [Hip _]. destruct (info_ranges from) as [Hpos Hlt].
  destruct (send_from_net g cerr) as (g' & c1 & Hsend). cbv zeta in Hsend.
  set (d := datagram_to _ _ _ _) in Hsend. assert (datagram_ok d) as Hd by by apply datagram_to_ok.
  unfold traffic, mbind, outcome_bind. rewrite Hsend. unfold simulate, mbind, outcome_bind.
  destruct (transit_dropped ls _ _ q2 ms1 m1 r1 d e Hrest Hempty Hlt Hms1 Hm1 Hr1 Hpos Hap1 Hd Hroute Hnum Hq2 (λ _, []) c1 Hle)
    as (ls' & c2 & Hrun & Hrest' & Hempty'). rewrite Hrun. cbn [nw_hosts net_of]. fold (hosts_of (host_of ls' (λ _, []))).
  rewrite (check_hosts_all order _ (host_of ls' (λ _, []))); [|done|intros n _; apply check_nothing; split; [apply Hempty'|done]].
  apply returns_ret. by exists ls', g', c2.
Qed.

Lemma resting_drained ls' n : resting ls' -> resting (at_host ls' n (λ x, mkAsync (ai_base x) [])).
Proof.
  intros [Hl Hs]. unfold at_host. split.
  - apply Forall2_same_length_lookup. split; [rewrite length_alter; by eapply Forall2_length|]. intros k ms l Hms Hk.
    destruct (decide (k = hi_link (info n))) as [->|]; [|rewrite list_lookup_alter_ne in Hk by done; by eapply Forall2_lookup_lr].
    rewrite list_lookup_alter_eq in Hk. destruct (ls' !! _) as [l1|] eqn:Hq; [|done]. injection Hk as <-.
    apply (link_bases ms l1); [by eapply Forall2_lookup_lr|]. rewrite (map_alter _ (λ n, n)) by done. by apply list_alter_id.
  - rewrite <- Hs. apply list_eq. intros k. rewrite !list_lookup_fmap.
    destruct (decide (k = hi_link (info n))) as [->|]; [|by rewrite list_lookup_alter_ne].
    rewrite list_lookup_alter_eq. destruct (ls' !! _); cbn; [|done]. by rewrite length_alter.
Qed.

Lemma traffic_delivered g cerr name ms2 r2 m2 :
  1 < ttl -> name ∈ host_names -> q2 = hi_link (info name) ->
  mss !! q2 = Some ms2 -> ms2 !! 0%nat = Some r2 -> ms2 !! hi_pos (info name) = Some m2 -> apart ms2 0 (hi_pos (info name)) ->
  ad_ip (default (from_ipv4_numeric dst) e.2.1) = m2.2 ->
  returns (traffic order (net_of ls (λ _, []), g, cerr) from (a_of dst) ttl (Some name)) rested.
Proof.
  intros Hlt1 Hname Hlink Hms2 Hr2 Hm2 Hap2 Hhop. destruct (info_u32 from) as [Hip _].
  destruct (info_ranges from) as [Hpos Hlt]. destruct (info_ranges name) as [Hpos2 _].
  destruct (send_from_net g cerr) as (g' & c1 & Hsend). cbv zeta in Hsend.
  set (d := datagram_to _ _ _ _) in Hsend. assert (datagram_ok d) as Hd by by apply datagram_to_ok.
  unfold traffic, mbind, outcome_bind. rewrite Hsend, net_host by done. unfold expect. cbn [h_expecting_to_receive host_of app].
  fold (host_of (sent_state ls (hi_link (info from)) (hi_pos (info from)) d r1.2) (λ _, []) name). rewrite net_expect by done.
  assert (u8 (ip_ttl (dg_header d) - 1) = ttl - 1) as -> by (change (ip_ttl (dg_header d)) with ttl; apply u8_id; unfold is_u8 in *; lia).
  set (ex := λ n, if String.eqb n name then [set_ttl (ttl - 1) d] else []). unfold simulate, mbind, outcome_bind.
  destruct (transit ls _ _ q2 ms1 m1 r1 d e Hrest Hempty Hlt Hms1 Hm1 Hr1 Hpos Hap1 Hd Hroute Hnum Hq2 ex c1
    (hi_pos (info name)) ms2 r2 m2) as (ls' & d1 & d2 & c2 & Hrun & Hrest' & Ha1 & Ha2 & Hat); [done..|].
  rewrite Hrun. cbn [nw_hosts net_of]. fold (hosts_of (host_of ls' ex)). rewrite Hlink in Hat, Hms2.
  destruct (position ls' _ ms2 _ m2 Hrest' Hms2 Hm2) as (l2 & x2 & Hq2' & Hx2 & _).
  set (ls2 := at_host ls' name (λ x, mkAsync (ai_base x) [])).
  rewrite (check_hosts_all order _ (host_of ls2 (λ _, []))); [|done|].
  - apply returns_ret. exists ls2, g', c2. split_and!; [|by apply resting_drained|].
    + unfold net_of, set_hosts. cbn [nw_router default_id eth0_id eth1_id eth2_id uun3_id hs4_id mit5_id]. unfold ls2. by rewrite ports_at_host.
    + intros k m. unfold received_at, ls2, at_host. rewrite on_link_alter. specialize (Hat k m). unfold received_at in Hat.
      destruct (_ && _); [|done]. by destruct (_ ≫= _).
  - intros n Hn. specialize (Hat (hi_link (info n)) (hi_pos (info n))). rewrite info_inj in Hat by done. unfold received_at in Hat.
    unfold host_of, ls2, at_host. rewrite on_link_alter, info_inj by done. unfold ex. destruct (String.eqb_spec n name) as [Heq|Hne]; [rewrite Heq in *; clear Heq|].
    + rewrite (check_one _ d2 (set_ttl (ttl - 1) d)); [|done|done|].
      * unfold on_link. rewrite Hq2'. cbn [mbind option_bind]. rewrite Hx2. done.
      * apply (same_wire_transit d d1 d2); [done|unfold is_u8 in *; lia|done|done].
    + apply check_nothing. by split.
Qed.
End traffic.
End network.

(** ** The simulation succeeds *)

Definition fresh (eth : EthernetAddress) (ip : Z) : AsyncNetworkInterface :=
  AsyncNetworkInterface_of (new_NetworkInterface eth (a_of ip)).

Lemma fresh_ok eth ip : address_ok eth -> is_u32 ip -> interface_ok (ai_base (fresh eth ip)).
Proof. intros He Hip. apply (run_inv_new eth (a_of ip)); [done|]. apply Address_of_ip_ok; [done|unfold is_u16; lia]. Qed.

Lemma fresh_at_rest ms eth ip : address_ok eth -> is_u32 ip -> at_rest ms (eth, ip) (fresh eth ip).
Proof. intros He Hip. split_and!; [done| |done]. split; [by apply fresh_ok|done|done|done]. Qed.

Definition usable (eth : EthernetAddress) : Prop := address_ok eth ∧ eth ≠ ETHERNET_BROADCAST.

Lemma fresh_link ms :
  link_size (length ms) -> NoDup ms.*2 -> Forall (λ m, usable m.1 ∧ is_u32 m.2) ms -> link ms (map (λ m, fresh m.1 m.2) ms).
Proof.
  intros Hn Hd Hu. split; [|by rewrite length_map|done|eapply Forall_impl; [exact Hu|]; by intros m [[] _]].
  apply Forall2_fmap_r, Forall_Forall2_diag. eapply Forall_impl; [exact Hu|]. intros [e ip] [[He _] Hip]. by apply fresh_at_rest.
Qed.

Section addresses.
Context {R : Type} `{RandomGenerator R}.

Lemma router_address g : ∃ e g', random_router_ethernet_address g = (e, g') ∧ usable e.
Proof.
  unfold random_router_ethernet_address. destruct (random_bytes_spec 6 g) as (l & g' & -> & Hl & Hu).
  destruct l as [|b0 [|b1 [|b2 [|b3 [|b4 [|b5 [|]]]]]]]; try discriminate. rewrite !Forall_cons in Hu. destruct Hu as (_ & _ & _ & ? & ? & ? & _).
  eexists _, g'. split; [done|]. split; [|done]. split; [done|]. rewrite !Forall_cons. unfold is_u8 in *. split_and!; try lia. constructor.
Qed.

Lemma host_address g : ∃ e g', random_host_ethernet_address g = (e, g') ∧ usable e.
Proof.
  destruct (private_address_spec g) as (e & g' & Hg & He). exists e, g'. split; [done|].
  split; [apply He|by apply private_not_broadcast].
Qed.

Lemma add_random_ret r ip g e g' n :
  random_router_ethernet_address g = (e, g') -> Address_numeric (chars ip) 0 = Ret (a_of n) ->
  add_random_interface r ip g = Ret (mkRouter (r_interfaces r ++ [fresh e n]) (r_rtable r), zlen (r_interfaces r ++ [fresh e n]) - 1, g').
Proof. intros He Ha. unfold add_random_interface. by rewrite He, Ha. Qed.

Lemma add_host_ret hosts name ip hop g e g' n m :
  random_host_ethernet_address g = (e, g') -> Address_numeric (chars ip) 0 = Ret (a_of n) -> Address_numeric (chars hop) 0 = Ret (a_of m) ->
  find_host name hosts = None ->
  add_host hosts name ip hop g = Ret (hosts ++ [(name, mkHost name (a_of n) (fresh e n) (a_of m) [])], g').
Proof. intros He Ha Hm Hf. unfold add_host, new_Host. by rewrite Ha, Hm, Hf, He. Qed.
End addresses.

(** The Ethernet addresses on the link with three members. *)
Definition uun3_addresses (nw : Network) : list EthernetAddress :=
  match r_interfaces (nw_router nw) !! Z.to_nat (uun3_id nw), find_host "dm42" (nw_hosts nw), find_host "dm43" (nw_hosts nw) with
  | Some i, Some h, Some h' => map (λ i, ni_ethernet_address (ai_base i)) [i; h_interface h; h_interface h']
  | _, _, _ => []
  end.

Lemma apart_two m m' i j : i ≠ j -> apart [m; m'] i j.
Proof.
  intros Hij k x mi mj Hk Hi Hj Hki Hkj. apply lookup_lt_Some in Hk, Hi, Hj. cbn in *. lia.
Qed.
Lemma apart_distinct ms i j : NoDup ms.*1 -> apart ms i j.
Proof.
  intros Hd k x mi mj Hk Hi Hj Hki Hkj.
  split; intros He; [apply Hki|apply Hkj]; (eapply (NoDup_lookup ms.*1); [done|..]; rewrite list_lookup_fmap);
    [by rewrite Hk|by rewrite Hi, He|by rewrite Hk|by rewrite Hj, He].
Qed.

Section run.
Context {R : Type} `{RandomGenerator R} (order : list string) (Horder : order ≡ₚ host_names).

(** The members of the links, from the addresses that were drawn. *)
Definition members (e0 e1 e3 e4 e5 hA hD hC hH h42 h43 : EthernetAddress) : list (list member) :=
  [[(e0, port_ip 0); (hD, hi_ip (info "default_router"))];
   [(e1, port_ip 1); (hA, hi_ip (info "applesauce"))];
   [(e3, port_ip 2); (hC, hi_ip (info "cherrypie"))];
   [(e5, port_ip 3); (hH, hi_ip (info "hs_router"))];
   [(e4, port_ip 4); (h42, hi_ip (info "dm42")); (h43, hi_ip (info "dm43"))]].

Lemma new_Network_spec g :
  ∃ p2 p6 mss g', new_Network g = Ret (net_of p2 p6 (map (map (λ m, fresh m.1 m.2)) mss) (λ _, []), g') ∧
    (∃ e0 e1 e3 e4 e5 hA hD hC hH h42 h43, mss = members e0 e1 e3 e4 e5 hA hD hC hH h42 h43) ∧
    Forall (Forall (λ m, usable m.1 ∧ is_u32 m.2)) mss ∧
    (interface_ok (ai_base p2) ∧ ai_datagrams_out p2 = []) ∧ (interface_ok (ai_base p6) ∧ ai_datagrams_out p6 = []).
Proof.
  destruct (router_address g) as (e0 & g0 & E0 & U0). destruct (router_address g0) as (e1 & g1 & E1 & U1).
  destruct (router_address g1) as (e2 & g2 & E2 & U2). destruct (router_address g2) as (e3 & g3 & E3 & U3).
  destruct (router_address g3) as (e4 & g4 & E4 & U4). destruct (router_address g4) as (e5 & g5 & E5 & U5).
  destruct (router_address g5) as (e6 & g6 & E6 & U6). destruct (host_address g6) as (hA & g7 & HA & UA).
  destruct (host_address g7) as (hD & g8 & HD & UD). destruct (host_address g8) as (hC & g9 & HC & UC).
  destruct (host_address g9) as (hH & g10 & HH & UH). destruct (host_address g10) as (h42 & g11 & H42 & U42).
  destruct (host_address g11) as (h43 & g12 & H43 & U43).
  exists (fresh e2 (quad 172 16 0 1)), (fresh e6 (quad 128 30 76 255)), (members e0 e1 e3 e4 e5 hA hD hC hH h42 h43), g12.
  split_and!; [|by repeat eexists| |apply fresh_ok; [apply U2|]|done|apply fresh_ok; [apply U6|]|done].
  - unfold new_Network, mbind, outcome_bind.
    rewrite (add_random_ret new_Router "171.67.76.46" g e0 g0 (quad 171 67 76 46) E0 eq_refl).
    rewrite (add_random_ret _ "10.0.0.1" g0 e1 g1 (quad 10 0 0 1) E1 eq_refl).
    rewrite (add_random_ret _ "172.16.0.1" g1 e2 g2 (quad 172 16 0 1) E2 eq_refl).
    rewrite (add_random_ret _ "192.168.0.1" g2 e3 g3 (quad 192 168 0 1) E3 eq_refl).
    rewrite (add_random_ret _ "198.178.229.1" g3 e4 g4 (quad 198 178 229 1) E4 eq_refl).
    rewrite (add_random_ret _ "143.195.0.2" g4 e5 g5 (quad 143 195 0 2) E5 eq_refl).
    rewrite (add_random_ret _ "128.30.76.255" g5 e6 g6 (quad 128 30 76 255) E6 eq_refl).
    rewrite (add_host_ret _ "applesauce" "10.0.0.2" "10.0.0.1" g6 hA g7 (quad 10 0 0 2) (quad 10 0 0 1) HA eq_refl eq_refl) by reflexivity.
    rewrite (add_host_ret _ "default_router" "171.67.76.1" "0" g7 hD g8 (quad 171 67 76 1) 0 HD eq_refl eq_refl) by reflexivity.
    rewrite (add_host_ret _ "cherrypie" "192.168.0.2" "192.168.0.1" g8 hC g9 (quad 192 168 0 2) (quad 192 168 0 1) HC eq_refl eq_refl) by reflexivity.
    rewrite (add_host_ret _ "hs_router" "143.195.0.1" "0" g9 hH g10 (quad 143 195 0 1) 0 HH eq_refl eq_refl) by reflexivity.
    rewrite (add_host_ret _ "dm42" "198.178.229.42" "198.178.229.1" g10 h42 g11 (quad 198 178 229 42) (quad 198 178 229 1) H42 eq_refl eq_refl) by reflexivity.
    rewrite (add_host_ret _ "dm43" "198.178.229.43" "198.178.229.1" g11 h43 g12 (quad 198 178 229 43) (quad 198 178 229 1) H43 eq_refl eq_refl) by reflexivity.
    reflexivity.
  - unfold members. rewrite !Forall_cons. unfold is_u32, port_ip, info, quad. cbn. split_and!; try done; lia.
  - unfold is_u32, quad. lia.
  - unfold is_u32, quad. lia.
Qed.

Section blocks.
Context (p2 p6 : AsyncNetworkInterface) (mss : list (list member)).
Context (Hok2 : interface_ok (ai_base p2)) (Hp2 : ai_datagrams_out p2 = []).
Context (Hok6 : interface_ok (ai_base p6)) (Hp6 : ai_datagrams_out p6 = []).
Context (e0 e1 e3 e4 e5 hA hD hC hH h42 h43 : EthernetAddress) (Hmss : mss = members e0 e1 e3 e4 e5 hA hD hC hH h42 h43).
Context (Hdistinct : NoDup [e4; h42; h43]).

Lemma members_of n :
  n ∈ host_names ->
  ∃ ms e e', mss !! hi_link (info n) = Some ms ∧ ms !! 0%nat = Some (e, port_ip (hi_link (info n))) ∧
    ms !! hi_pos (info n) = Some (e', hi_ip (info n)) ∧ ∀ i j, i ≠ j -> apart ms i j.
Proof.
  intros Hn. rewrite Hmss. each_host Hn; (eexists _, _, _; split_and!; [reflexivity|reflexivity|reflexivity|]);
    intros i j Hij; first [by apply apart_two|by apply apart_distinct].
Qed.

Lemma delivered_block w from name dst e :
  rested p2 p6 mss (R := R) w -> from ∈ host_names -> name ∈ host_names -> hi_hop (info from) = port_ip (hi_link (info from)) -> is_u32 dst ->
  first_route dst (reverse table) = Some e -> Z.to_nat e.2.2 = port_of (hi_link (info name)) ->
  ad_ip (default (from_ipv4_numeric dst) e.2.1) = hi_ip (info name) ->
  returns (traffic order w from (a_of dst) 64 (Some name)) (rested p2 p6 mss).
Proof.
  intros (ls & g & cerr & -> & Hr & He) Hf Hn Hhop Hd Hroute Hnum Hip.
  destruct (members_of from Hf) as (ms1 & r1 & m1 & Hms1 & Hr1 & Hm1 & Hap1).
  destruct (members_of name Hn) as (ms2 & r2 & m2 & Hms2 & Hr2 & Hm2 & Hap2).
  destruct (info_ranges from) as [Hp1 _]. destruct (info_ranges name) as [Hpn Hlt].
  eapply (traffic_delivered p2 p6 Hp2 Hp6 mss Hok2 Hok6 order Horder ls Hr He from Hf ms1 _ _ Hms1 Hm1 Hr1);
    [done|by apply Hap1|done|unfold is_u8; lia|exact Hroute|exact Hnum|done|lia|done|done|exact Hms2|exact Hr2|exact Hm2
    |by apply Hap2, not_eq_sym|done].
Qed.

Lemma dropped_block w from name dst e ttl :
  rested p2 p6 mss (R := R) w -> from ∈ host_names -> hi_hop (info from) = port_ip (hi_link (info from)) -> is_u32 dst ->
  first_route dst (reverse table) = Some e -> Z.to_nat e.2.2 = port_of (hi_link (info name)) -> 0 <= ttl <= 1 ->
  returns (traffic order w from (a_of dst) ttl None) (rested p2 p6 mss).
Proof.
  intros (ls & g & cerr & -> & Hr & He) Hf Hhop Hd Hroute Hnum Httl.
  destruct (members_of from Hf) as (ms1 & r1 & m1 & Hms1 & Hr1 & Hm1 & Hap1).
  destruct (info_ranges from) as [Hp1 _]. destruct (info_ranges name) as [_ Hlt].
  eapply (traffic_dropped p2 p6 Hp2 Hp6 mss Hok2 Hok6 order Horder ls Hr He from Hf ms1 _ _ Hms1 Hm1 Hr1);
    [done|by apply Hap1|done|unfold is_u8; lia|exact Hroute|exact Hnum|done|lia].
Qed.

(** A block of the program whose conditions are closed computations. *)
Lemma between_block w from name dst e :
  rested p2 p6 mss (R := R) w -> from ∈ host_names -> name ∈ host_names -> hi_hop (info from) = port_ip (hi_link (info from)) ->
  dst = hi_ip (info name) -> first_route dst (reverse table) = Some e -> Z.to_nat e.2.2 = port_of (hi_link (info name)) ->
  ad_ip (default (from_ipv4_numeric dst) e.2.1) = hi_ip (info name) ->
  returns (traffic_between order w from name) (rested p2 p6 mss).
Proof.
  intros Hw Hf Hn Hhop -> Hroute Hnum Hip. pose proof Hw as (ls & g & cerr & -> & _). unfold traffic_between.
  cbn [fst]. rewrite net_host by done. eapply delivered_block; [done..|apply (proj1 (info_u32 name))|done|done|done].
Qed.

Lemma to_block w from name text dst e :
  rested p2 p6 mss (R := R) w -> from ∈ host_names -> name ∈ host_names -> hi_hop (info from) = port_ip (hi_link (info from)) ->
  Address_numeric (chars text) 0 = Ret (a_of dst) -> is_u32 dst ->
  first_route dst (reverse table) = Some e -> Z.to_nat e.2.2 = port_of (hi_link (info name)) ->
  ad_ip (default (from_ipv4_numeric dst) e.2.1) = hi_ip (info name) ->
  returns (traffic_to order w from text 64 (Some name)) (rested p2 p6 mss).
Proof. intros Hw Hf Hn Hhop Ha Hd Hroute Hnum Hip. unfold traffic_to. rewrite Ha. by eapply delivered_block. Qed.
End blocks.

(** Facts about the addresses and the table of the program. *)
Ltac closed_fact :=
  first [reflexivity | apply (bool_decide_unpack _); vm_compute; reflexivity | unfold is_u32; lia].

(** C31: the simulation of [network_simulator] succeeds: for every generator,
    and in whatever order the hash table lists the hosts, provided the three
    Ethernet addresses drawn for the network of dm42 and dm43 differ, every
    datagram sent arrives at the host where it is expected, with its time to live
    decremented, and nowhere else, those whose time to live ends are dropped, no
    exception is thrown, and the program exits with status 0. *)
Theorem network_simulator_succeeds g nw g' :
  new_Network g = Ret (nw, g') -> NoDup (uun3_addresses nw) ->
  returns (network_simulator order g) (λ '(nw, _, _), Forall (λ p, received_nothing p.2) (nw_hosts nw)) ∧ main order g = Ret 0.
Proof.
  intros Hnew Hd.
  enough (returns (network_simulator order g) (λ '(nw, _, _), Forall (λ p, received_nothing p.2) (nw_hosts nw))) as Hr.
  { split; [done|]. unfold main. by destruct Hr as (w & -> & _). }
  destruct (new_Network_spec g) as (p2 & p6 & mss & g1 & Hspec & Hmss & Husable & [Hok2 Hp2] & [Hok6 Hp6]).
  destruct Hmss as (e0 & e1 & e3 & e4 & e5 & hA & hD & hC & hH & h42 & h43 & Hmss). rewrite Hspec in Hnew. injection Hnew as <- <-.
  assert (NoDup [e4; h42; h43]) as Hdistinct by (rewrite Hmss in Hd; exact Hd).
  unfold network_simulator. rewrite Hspec. unfold mbind at 1, outcome_bind at 1.
  assert (rested p2 p6 mss (R := R) (net_of p2 p6 (map (map (λ m, fresh m.1 m.2)) mss) (λ _, []), g1, [])) as H0.
  { eexists _, g1, []. split_and!; [done| |].
    - split; [|by rewrite Hmss]. apply Forall2_fmap_r, Forall_Forall2_diag. rewrite Forall_forall in Husable |- *.
      intros ms Hin. apply fresh_link; [|..|by apply Husable]; rewrite Hmss in Hin; clear - Hin; unfold members in Hin;
        repeat (apply elem_of_cons in Hin as [->|Hin]); try (by apply not_elem_of_nil in Hin).
      all: first [by left|by right|apply (bool_decide_unpack _); by vm_compute].
    - intros k m. rewrite Hmss. by destruct k as [|[|[|[|[|]]]]], m as [|[|[|]]]. }
  pose proof (between_block p2 p6 mss Hok2 Hp2 Hok6 Hp6 _ _ _ _ _ _ _ _ _ _ _ Hmss Hdistinct) as Hbetween.
  pose proof (to_block p2 p6 mss Hok2 Hp2 Hok6 Hp6 _ _ _ _ _ _ _ _ _ _ _ Hmss Hdistinct) as Hto.
  pose proof (dropped_block p2 p6 mss Hok2 Hp2 Hok6 Hp6 _ _ _ _ _ _ _ _ _ _ _ Hmss Hdistinct) as Hdrop.
  eapply returns_bind; [eapply Hbetween; [exact H0|closed_fact..]|intros w1 H1].
  eapply returns_bind; [eapply Hbetween; [exact H1|closed_fact..]|intros w2 H2].
  eapply returns_bind; [eapply Hto; [exact H2|closed_fact..]|intros w3 H3].
  eapply returns_bind; [eapply Hto; [exact H3|closed_fact..]|intros w4 H4].
  eapply returns_bind; [eapply Hto; [exact H4|closed_fact..]|intros w5 H5].
  eapply returns_bind; [eapply Hto; [exact H5|closed_fact..]|intros w6 H6].
  eapply returns_bind; [eapply Hto; [exact H6|closed_fact..]|intros w7 H7].
  eapply returns_bind; [eapply Hbetween; [exact H7|closed_fact..]|intros w8 H8].
  eapply returns_bind; [eapply (Hdrop _ _ "default_router"); [exact H8|closed_fact..]|intros w9 H9].
  eapply returns_mono; [eapply (Hdrop _ _ "default_router"); [exact H9|closed_fact..]|].
  intros w (ls & g2 & cerr & -> & _ & He). cbn [nw_hosts net_of]. apply Forall_fmap, Forall_forall. intros n _. by split; [apply He|].
Qed.
End run.

Definition sample_network : Network :=
  match new_Network 12345 with Ret (nw, _) => nw | _ => mkNetwork new_Router 0 0 0 0 0 0 0 [] end.
Definition sample_generator : Z := match new_Network 12345 with Ret (_, g) => g | _ => 0 end.

Lemma network_simulator_succeeds_witness :
  new_Network 12345 = Ret (sample_network, sample_generator) ∧ NoDup (uun3_addresses sample_network) ∧
  returns (network_simulator host_names 12345) (λ '(nw, _, _), Forall (λ p, received_nothing p.2) (nw_hosts nw)) ∧
  main host_names 12345 = Ret 0.
Proof.
  assert (new_Network 12345 = Ret (sample_network, sample_generator)) as Hnew by (vm_compute; reflexivity).
  assert (NoDup (uun3_addresses sample_network)) as Hd by (apply (bool_decide_unpack _); vm_compute; reflexivity).
  split; [exact Hnew|split; [exact Hd|]].
  exact (network_simulator_succeeds host_names (Permutation_refl _) 12345 sample_network sample_generator Hnew Hd).
Defined.

(** The condition on the addresses is needed: with a generator that gives
    two hosts of one network the same address, both receive the datagram, and the
    simulation ends in an exception. *)
Theorem equal_addresses_fail :
  ∃ what, network_simulator (H := (λ u : unit, (0, u)) : RandomGenerator unit) host_names tt = Throw (runtime_error what).
Proof. eexists. vm_compute. reflexivity. Qed.
