(* ===== verification/FileDescriptor.v ===== *)
(** [util/util.cc] ([SystemCall]), [util/file_descriptor.hh],
    [util/file_descriptor.cc] and [util/socket.cc]: descriptors that keep track
    of end of file, closure and the numbers of reads and writes.

    The kernel is outside: what a system call returns is an argument. *)
From S2P Require Import Prelude Buffer Format Address.

(** ** SystemCall

    The result of a system call, with [errno]. *)
Record sysret := mkSys {
  sys_ret : Z;
  sys_errno : Z
}.

Definition sys_ok (n : Z) : sysret := mkSys n 0.

(** [return_value] is an [int]. *)
Definition SystemCall (attempt : string) (r : sysret) (errno_mask : Z) : outcome Z :=
  if (0 <=? i32 (sys_ret r)) || (sys_errno r =? errno_mask) then Ret (i32 (sys_ret r))
  else Throw (unix_error attempt (sys_errno r)).

(** ** FileDescriptor

    The shared [FDWrapper]. *)
Record FDWrapper := mkFD {
  fd_num : Z;
  fd_eof : bool;
  fd_closed : bool;
  fd_read_count : Z;
  fd_write_count : Z
}.

Definition new_FDWrapper (fd : Z) : outcome FDWrapper :=
  if fd <? 0 then Throw (runtime_error (message (chars "invalid fd number:-" ++ dec (- fd)))) else Ret (mkFD fd false false 0 0).

Definition register_read (f : FDWrapper) : FDWrapper :=
  mkFD (fd_num f) (fd_eof f) (fd_closed f) (u32 (fd_read_count f + 1)) (fd_write_count f).
Definition register_write (f : FDWrapper) : FDWrapper :=
  mkFD (fd_num f) (fd_eof f) (fd_closed f) (fd_read_count f) (u32 (fd_write_count f + 1)).
Definition set_eof (f : FDWrapper) : FDWrapper :=
  mkFD (fd_num f) true (fd_closed f) (fd_read_count f) (fd_write_count f).

Definition fd_close (f : FDWrapper) (r : sysret) : outcome FDWrapper :=
  _ ← SystemCall "close" r 0;
  Ret (mkFD (fd_num f) true true (fd_read_count f) (fd_write_count f)).

(** The destructor: an error of [close] is only printed. *)
Definition fd_destroy (f : FDWrapper) (r : sysret) : FDWrapper :=
  if fd_closed f then f
  else match fd_close f r with Ret f' => f' | _ => f end.

Definition BUFFER_SIZE : Z := 1024 * 1024.

(** [::read] returned [r] and put [data] at the front of the buffer, of which
    it may use [size_to_read] bytes; the rest of it, up to the size it is cut to,
    are zero bytes. *)
Definition fd_read (f : FDWrapper) (limit : Z) (r : sysret) (data : list byte) : outcome (FDWrapper * list byte) :=
  let size_to_read := Z.min BUFFER_SIZE limit in
  bytes_read ← SystemCall "read" r 0;
  let f := if (0 <? limit) && (bytes_read =? 0) then set_eof f else f in
  if size_to_read <? bytes_read then Throw (runtime_error "read() read more than requested")
  else if bytes_read <? 0 then Throw (length_error "basic_string::_M_replace_aux")
  else Ret (register_read f, resize (ztake size_to_read data) bytes_read).

(** The [do] loop of [write]; [rs] are the results of the calls of
    [::writev], and the bytes handed to the kernel are returned with the total.
    With no result left the call blocks. *)
Fixpoint write_loop (rs : list sysret) (f : FDWrapper) (buffer : BufferViewList) (write_all : bool) (total : Z) (out : list byte)
    : outcome (FDWrapper * Z * list byte) :=
  match rs with
  | [] => Diverge
  | r :: rs =>
      bytes_written ← SystemCall "writev" r 0;
      if (bytes_written =? 0) && negb (view_size buffer =? 0) then
        Throw (runtime_error "write returned 0 given non-empty input buffer")
      else if view_size buffer <? bytes_written then
        Throw (runtime_error "write wrote more than length of input buffer")
      else
        let f := register_write f in
        buffer' ← view_remove_prefix buffer (u64 bytes_written);
        let total := u64 (total + bytes_written) in
        let out := out ++ ztake bytes_written (gathered (as_iovecs buffer)) in
        if write_all && negb (view_size buffer' =? 0) then write_loop rs f buffer' write_all total out
        else Ret (f, total, out)
  end.

Definition fd_write (f : FDWrapper) (buffer : BufferViewList) (write_all : bool) (rs : list sysret)
    : outcome (FDWrapper * Z * list byte) :=
  write_loop rs f buffer write_all 0 [].

Definition O_NONBLOCK : Z := 0x800.

(** The flags [set_blocking] gives to [F_SETFL], from those of [F_GETFL]. *)
Definition blocking_flags (flags : Z) (blocking_state : bool) : Z :=
  if blocking_state then Z.lxor flags (Z.land flags O_NONBLOCK) else Z.lor flags O_NONBLOCK.

Definition set_blocking (blocking_state : bool) (get set : sysret) : outcome Z :=
  flags ← SystemCall "fcntl" get 0;
  _ ← SystemCall "fcntl" set 0;
  Ret (blocking_flags flags blocking_state).

(** ** Sockets *)

Definition AF_UNIX : Z := 1.
Definition AF_INET : Z := 2.
Definition SOCK_STREAM : Z := 1.
Definition SOCK_DGRAM : Z := 2.

(** A socket of a domain and type: [socket(2)] gives its number. *)
Definition new_Socket (r : sysret) : outcome FDWrapper :=
  fd ← SystemCall "socket" r 0;
  new_FDWrapper fd.

(** What [getsockopt] stores: the value and its length. *)
Record sockopt := mkSockopt {
  opt_ret : sysret;
  opt_value : Z;
  opt_len : Z
}.

Definition check_option (o : sockopt) (expected : Z) (what : string) : outcome unit :=
  _ ← SystemCall "getsockopt" (opt_ret o) 0;
  if negb (opt_len o =? 4) || negb (opt_value o =? expected) then Throw (runtime_error what) else Ret tt.

(** A socket made of a descriptor, which must be of the domain and type. *)
Definition Socket_of_fd (f : FDWrapper) (domain type : Z) (so_domain so_type : sockopt) : outcome FDWrapper :=
  _ ← check_option so_domain domain "socket domain mismatch";
  _ ← check_option so_type type "socket type mismatch";
  Ret f.

(** The constructors of the classes derived from [Socket]. *)
Definition new_UDPSocket (r : sysret) : outcome FDWrapper := new_Socket r.
Definition new_TCPSocket (r : sysret) : outcome FDWrapper := new_Socket r.
Definition TCPSocket_of_fd (f : FDWrapper) : sockopt -> sockopt -> outcome FDWrapper := Socket_of_fd f AF_INET SOCK_STREAM.
Definition LocalStreamSocket_of_fd (f : FDWrapper) : sockopt -> sockopt -> outcome FDWrapper := Socket_of_fd f AF_UNIX SOCK_STREAM.

Definition setsockopt (r : sysret) : outcome unit := _ ← SystemCall "setsockopt" r 0; Ret tt.
Definition set_reuseaddr (r : sysret) : outcome unit := setsockopt r.

Definition get_address (name_of_function : string) (r : sysret) (address : Address) : outcome Address :=
  _ ← SystemCall name_of_function r 0;
  Ret address.

Definition local_address (r : sysret) (address : Address) : outcome Address := get_address "getsockname" r address.
Definition peer_address (r : sysret) (address : Address) : outcome Address := get_address "getpeername" r address.

Definition socket_bind (r : sysret) : outcome unit := _ ← SystemCall "bind" r 0; Ret tt.
Definition socket_connect (r : sysret) : outcome unit := _ ← SystemCall "connect" r 0; Ret tt.
Definition socket_listen (r : sysret) : outcome unit := _ ← SystemCall "listen" r 0; Ret tt.

(** [accept] counts as a read of the listening socket, which is returned with
    the new one. *)
Definition tcp_accept (f : FDWrapper) (r : sysret) (so_domain so_type : sockopt) : outcome (FDWrapper * FDWrapper) :=
  let f := register_read f in
  fd ← SystemCall "accept" r 0;
  conn ← new_FDWrapper fd;
  conn ← TCPSocket_of_fd conn so_domain so_type;
  Ret (f, conn).

Inductive shut := SHUT_RD | SHUT_WR | SHUT_RDWR | shut_other.

Definition socket_shutdown (f : FDWrapper) (how : shut) (r : sysret) : outcome FDWrapper :=
  _ ← SystemCall "shutdown" r 0;
  match how with
  | SHUT_RD => Ret (register_read f)
  | SHUT_WR => Ret (register_write f)
  | SHUT_RDWR => Ret (register_write (register_read f))
  | shut_other => Throw (runtime_error "Socket::shutdown() called with invalid `how`")
  end.

(** [recvfrom] with [MSG_TRUNC] returns the real length of the datagram. *)
Definition udp_recv (f : FDWrapper) (mtu : Z) (r : sysret) (from : Address) (data : list byte)
    : outcome (FDWrapper * (Address * list byte)) :=
  recv_len ← SystemCall "recvfrom" r 0;
  if mtu <? recv_len then Throw (runtime_error "recvfrom (oversized datagram)")
  else if recv_len <? 0 then Throw (length_error "basic_string::_M_replace_aux")
  else Ret (register_read f, (from, resize (ztake mtu data) recv_len)).

Definition sendmsg_helper (payload : BufferViewList) (r : sysret) : outcome unit :=
  bytes_sent ← SystemCall "sendmsg" r 0;
  if negb (u64 bytes_sent =? view_size payload) then Throw (runtime_error "datagram payload too big for sendmsg()")
  else Ret tt.

Definition udp_sendto (f : FDWrapper) (payload : BufferViewList) (r : sysret) : outcome FDWrapper :=
  _ ← sendmsg_helper payload r;
  Ret (register_write f).
Definition udp_send (f : FDWrapper) (payload : BufferViewList) (r : sysret) : outcome FDWrapper :=
  _ ← sendmsg_helper payload r;
  Ret (register_write f).

(** ** What the operations do when the kernel keeps its contracts *)

Lemma i32_id z : - 2 ^ 31 <= z < 2 ^ 31 -> i32 z = z.
Proof. intros. unfold i32. rewrite Z.mod_small; lia. Qed.

Lemma SystemCall_ok attempt n : 0 <= n < 2 ^ 31 -> SystemCall attempt (sys_ok n) 0 = Ret n.
Proof. intros. unfold SystemCall, sys_ok. cbn [sys_ret sys_errno]. rewrite i32_id by lia. by destruct (Z.leb_spec 0 n); [|lia]. Qed.

Lemma SystemCall_error attempt e : e ≠ 0 -> SystemCall attempt (mkSys (-1) e) 0 = Throw (unix_error attempt e).
Proof. intros. unfold SystemCall. cbn. by destruct (Z.eqb_spec e 0). Qed.

Lemma resize_prefix s n : zlen s <= n -> resize (ztake n s) (zlen s) = s.
Proof.
  intros Hn. unfold resize. rewrite (ztake_ge n) by lia. rewrite ztake_ge by lia.
  replace (Z.to_nat _) with 0%nat by lia. by rewrite app_nil_r.
Qed.

(** A successful read: end of file is a read of no bytes where some were
    asked for. *)
Lemma fd_read_ok f limit data :
  zlen data <= Z.min BUFFER_SIZE limit ->
  fd_read f limit (sys_ok (zlen data)) data =
    Ret (register_read (if (0 <? limit) && (zlen data =? 0) then set_eof f else f), data).
Proof.
  intros Hl. pose proof (zlen_nonneg data). unfold BUFFER_SIZE in *. unfold fd_read.
  rewrite SystemCall_ok by lia. unfold mbind, outcome_bind, BUFFER_SIZE.
  destruct (Z.ltb_spec (Z.min (1024 * 1024) limit) (zlen data)); [lia|]. destruct (Z.ltb_spec (zlen data) 0); [lia|].
  by rewrite resize_prefix.
Qed.

(** [writev] takes at least one byte, and at most all of them. *)
Fixpoint writes_all (rs : list sysret) (size : Z) : Prop :=
  match rs with
  | [] => False
  | r :: rs => ∃ n, r = sys_ok n ∧ 0 < n <= size ∧ (n = size ∨ writes_all rs (size - n))
  end.

Lemma view_size_concat vl : view_size vl = zlen (concat vl).
Proof. induction vl as [|v vl IH]; cbn; [done|]. by rewrite zlen_app, IH. Qed.

Lemma write_loop_all rs f vl total out :
  view_size vl < 2 ^ 31 -> 0 <= total -> total + view_size vl < 2 ^ 64 -> writes_all rs (view_size vl) ->
  returns (write_loop rs f vl true total out) (λ '(_, n, o), n = total + view_size vl ∧ o = out ++ concat vl).
Proof.
  revert f vl total out. induction rs as [|r rs IH]; intros f vl total out Hs H0 Ht; [done|].
  intros (n & -> & Hn & Hrest). cbn [write_loop]. rewrite SystemCall_ok by lia. unfold mbind, outcome_bind at 1.
  destruct (Z.eqb_spec n 0); [lia|]. cbn [andb]. destruct (Z.ltb_spec (view_size vl) n); [lia|].
  rewrite (u64_id n) by (unfold is_u64; lia).
  eapply returns_bind; [apply view_remove_prefix_spec; lia|]. intros vl' Hvl'. cbv beta.
  assert (view_size vl' = view_size vl - n) as Hsz.
  { rewrite (view_size_concat vl'), Hvl', zlen_zdrop, <- view_size_concat. lia. }
  rewrite (u64_id (total + n)) by (unfold is_u64; lia). cbn [andb]. destruct (Z.eqb_spec (view_size vl') 0) as [He|He]; cbn [negb].
  - apply returns_ret. split; [lia|]. f_equal. rewrite gathered_iovecs. apply ztake_ge. rewrite <- view_size_concat. lia.
  - destruct Hrest as [|Hrest]; [lia|]. rewrite <- Hsz in Hrest.
    eapply returns_mono; [apply IH; [lia|lia|lia|done]|]. intros [[f' m] o] [-> ->]. split; [lia|].
    rewrite <- app_assoc, gathered_iovecs. f_equal. rewrite Hvl'. apply ztake_zdrop.
Qed.

Lemma write_loop_eof rs f vl all total out f' n o : write_loop rs f vl all total out = Ret (f', n, o) -> fd_eof f' = fd_eof f.
Proof.
  revert f vl total out. induction rs as [|r rs IH]; intros f vl total out; [done|]. cbn [write_loop].
  destruct (SystemCall "writev" r 0) as [m| | |]; [|done..]. unfold mbind at 1, outcome_bind at 1.
  case_match; [done|]. case_match; [done|]. destruct (view_remove_prefix vl (u64 m)) as [vl'| | |]; [|done..]. cbn [mbind outcome_bind].
  case_match; [intros Hr; by apply IH in Hr|]. by intros [= <- _ _].
Qed.

(** Without [write_all] there is one call. *)
Lemma fd_write_first f vl n rs :
  view_size vl < 2 ^ 31 -> 0 <= n <= view_size vl -> (n = 0 -> view_size vl = 0) ->
  fd_write f vl false (sys_ok n :: rs) = Ret (register_write f, n, ztake n (concat vl)).
Proof.
  intros Hs Hn H0. unfold fd_write. cbn [write_loop]. rewrite SystemCall_ok by lia. unfold mbind, outcome_bind at 1.
  destruct (Z.eqb_spec n 0) as [He|He]; cbn [andb].
  - rewrite (H0 He). cbn [negb Z.eqb]. destruct (Z.ltb_spec 0 n); [lia|]. rewrite He.
    destruct (view_remove_prefix_spec vl (u64 0)) as (vl' & Hvl & _); [change (u64 0) with 0; lia|]. rewrite Hvl. cbn. by rewrite gathered_iovecs.
  - destruct (Z.ltb_spec (view_size vl) n); [lia|]. rewrite (u64_id n) by (unfold is_u64; lia).
    destruct (view_remove_prefix_spec vl n) as (vl' & Hvl & _); [lia|]. rewrite Hvl. cbn.
    by rewrite gathered_iovecs, u64_id by (unfold is_u64; lia).
Qed.

(** A blocking write writes everything. However the kernel splits the
    bytes over calls of [writev], [write] with [write_all] returns, with the total
    size, after handing over exactly the bytes of the buffers in order; without
    [write_all] it stops after the first call. *)
Theorem fd_write_spec f vl rs :
  view_size vl < 2 ^ 31 -> writes_all rs (view_size vl) ->
  returns (fd_write f vl true rs) (λ '(_, n, out), n = view_size vl ∧ out = concat vl) ∧
  (∀ n rs', 0 <= n <= view_size vl -> (n = 0 -> view_size vl = 0) ->
     fd_write f vl false (sys_ok n :: rs') = Ret (register_write f, n, ztake n (concat vl))).
Proof.
  intros Hs Hw. split.
  - eapply returns_mono; [apply write_loop_all; [done|lia|lia|done]|]. intros [[f' n] o] [-> ->]. by split; [lia|].
  - intros n rs' Hn H0. by apply fd_write_first.
Qed.

Lemma fd_write_spec_witness :
  returns (fd_write (mkFD 3 false false 0 0) [[x61; x62]; [x63]] true [sys_ok 1; sys_ok 2])
    (λ '(_, n, out), n = 3 ∧ out = [x61; x62; x63]) ∧
  (∀ n rs', 0 <= n <= 3 -> (n = 0 -> 3 = 0) ->
     fd_write (mkFD 3 false false 0 0) [[x61; x62]; [x63]] false (sys_ok n :: rs') =
       Ret (register_write (mkFD 3 false false 0 0), n, ztake n [x61; x62; x63])).
Proof.
  apply (fd_write_spec (mkFD 3 false false 0 0) [[x61; x62]; [x63]] [sys_ok 1; sys_ok 2]).
  - vm_compute. reflexivity.
  - exists 1. split; [reflexivity|]. split; [vm_compute; split; congruence|]. right. exists 2.
    split; [reflexivity|]. split; [vm_compute; split; congruence|]. left. reflexivity.
Defined.
