(* ===== verification/Handles.v ===== *)
(** [util/file_descriptor.hh], [util/file_descriptor.cc]: who holds a descriptor.

    A [FileDescriptor] is a [shared_ptr] to an [FDWrapper]: [duplicate] copies the
    pointer, so that reads, writes and [close] through one object show in all; a
    move leaves the source without one; the last to go closes the descriptor. The
    objects are named by numbers, the wrappers by locations in a store that counts
    the pointers to each. Of the kernel, the numbers that are open: [close(2)]
    succeeds on these and fails with [EBADF] on others. *)
From stdpp Require Import fin_maps fin_map_dom.
From S2P Require Import Prelude Buffer FileDescriptor.

Definition EBADF : Z := 9.

(** A wrapper with its number of pointers, as in the control block. *)
Record cell := mkCell {
  cell_fd : FDWrapper;
  cell_count : Z
}.

Record store := mkStore {
  st_cells : gmap positive cell;
  st_objects : gmap nat (option positive);
  st_open : gset Z
}.

(** *** The kernel *)
Definition kernel_close (fd : Z) (open : gset Z) : sysret * gset Z :=
  if decide (fd ∈ open) then (sys_ok 0, open ∖ {[fd]}) else (mkSys (-1) EBADF, open).

(** *** Pointers *)

(** A pointer to [l] goes away: with the last one, the wrapper is destroyed, and
    its destructor closes the descriptor if that has not been done; an error
    would only be printed. *)
Definition release (l : positive) (s : store) : store :=
  match st_cells s !! l with
  | None => s
  | Some c =>
      if cell_count c =? 1 then
        mkStore (delete l (st_cells s)) (st_objects s)
          (if fd_closed (cell_fd c) then st_open s else (kernel_close (fd_num (cell_fd c)) (st_open s)).2)
      else mkStore (<[l := mkCell (cell_fd c) (cell_count c - 1)]> (st_cells s)) (st_objects s) (st_open s)
  end.
Definition release_opt (p : option positive) (s : store) : store := match p with Some l => release l s | None => s end.

(** A copy of a pointer. *)
Definition acquire (p : option positive) (s : store) : store :=
  match p with
  | None => s
  | Some l =>
      match st_cells s !! l with
      | None => s
      | Some c => mkStore (<[l := mkCell (cell_fd c) (cell_count c + 1)]> (st_cells s)) (st_objects s) (st_open s)
      end
  end.

Definition set_object (x : nat) (p : option positive) (s : store) : store :=
  mkStore (st_cells s) (<[x := p]> (st_objects s)) (st_open s).

(** ** The class

    [FileDescriptor(fd)], in the object [x]. *)
Definition construct (x : nat) (fd : Z) (s : store) : outcome store :=
  w ← new_FDWrapper fd;
  let l := fresh (dom (st_cells s)) in
  Ret (mkStore (<[l := mkCell w 1]> (st_cells s)) (<[x := Some l]> (st_objects s)) (st_open s)).

(** [y = x.duplicate()] for a new object. *)
Definition duplicate (x y : nat) (s : store) : outcome store :=
  match st_objects s !! x with
  | None => Undef
  | Some p => Ret (set_object y p (acquire p s))
  end.

(** [FileDescriptor y(std::move(x))] *)
Definition move_construct (x y : nat) (s : store) : outcome store :=
  match st_objects s !! x with
  | None => Undef
  | Some p => Ret (set_object y p (set_object x None s))
  end.

(** [y = std::move(x)], which does nothing when both are the same. *)
Definition move_assign (x y : nat) (s : store) : outcome store :=
  match st_objects s !! x, st_objects s !! y with
  | Some p, Some q => if decide (x = y) then Ret s else Ret (release_opt q (set_object y p (set_object x None s)))
  | _, _ => Undef
  end.

(** The end of the life of [x]. *)
Definition destruct_object (x : nat) (s : store) : outcome store :=
  match st_objects s !! x with
  | None => Undef
  | Some p => Ret (release_opt p (mkStore (st_cells s) (delete x (st_objects s)) (st_open s)))
  end.

(** [*_internal_fd] of [x]; after a move there is none. *)
Definition wrapper_of (x : nat) (s : store) : outcome (positive * cell) :=
  match st_objects s !! x with
  | Some (Some l) => match st_cells s !! l with Some c => Ret (l, c) | None => Undef end
  | _ => Undef
  end.

(** A member function of [x] that works on the wrapper. *)
Definition on_object {X} (x : nat) (f : FDWrapper -> outcome (FDWrapper * X)) (s : store) : outcome (store * X) :=
  '(l, c) ← wrapper_of x s;
  '(w, v) ← f (cell_fd c);
  Ret (mkStore (<[l := mkCell w (cell_count c)]> (st_cells s)) (st_objects s) (st_open s), v).

(** [close], with the kernel's side. *)
Definition close_object (x : nat) (s : store) : outcome store :=
  '(l, c) ← wrapper_of x s;
  let '(r, open) := kernel_close (fd_num (cell_fd c)) (st_open s) in
  w ← fd_close (cell_fd c) r;
  Ret (mkStore (<[l := mkCell w (cell_count c)]> (st_cells s)) (st_objects s) open).

Definition object_eof (x : nat) (s : store) : outcome bool := '(_, c) ← wrapper_of x s; Ret (fd_eof (cell_fd c)).
Definition object_closed (x : nat) (s : store) : outcome bool := '(_, c) ← wrapper_of x s; Ret (fd_closed (cell_fd c)).
Definition object_fd_num (x : nat) (s : store) : outcome Z := '(_, c) ← wrapper_of x s; Ret (fd_num (cell_fd c)).
Definition object_read_count (x : nat) (s : store) : outcome Z := '(_, c) ← wrapper_of x s; Ret (fd_read_count (cell_fd c)).
Definition object_write_count (x : nat) (s : store) : outcome Z := '(_, c) ← wrapper_of x s; Ret (fd_write_count (cell_fd c)).

Definition object_read (x : nat) (limit : Z) (r : sysret) (data : list byte) : store -> outcome (store * list byte) :=
  on_object x (λ w, fd_read w limit r data).
Definition object_write (x : nat) (buffer : BufferViewList) (write_all : bool) (rs : list sysret) : store -> outcome (store * (Z * list byte)) :=
  on_object x (λ w, '(w, n, out) ← fd_write w buffer write_all rs; Ret (w, (n, out))).

(** ** Invariant

    [n l] is the number of pointers to [l], and [init] are the numbers that were
    open from the start. *)
Definition owns (s : store) (l : positive) (fd : Z) : Prop :=
  ∃ c, st_cells s !! l = Some c ∧ fd_closed (cell_fd c) = false ∧ fd_num (cell_fd c) = fd.

Record store_inv (init : gset Z) (s : store) (n : positive -> Z) : Prop := {
  sv_count l c : st_cells s !! l = Some c -> cell_count c = n l;
  sv_alive l : 0 < n l <-> is_Some (st_cells s !! l);
  sv_new l fd : owns s l fd -> fd ∉ init;
  sv_distinct l l' fd : owns s l fd -> owns s l' fd -> l = l';
  sv_open fd : fd ∈ st_open s <-> fd ∈ init ∨ ∃ l, owns s l fd
}.

Definition here (p : option positive) (l : positive) : Z := if decide (p = Some l) then 1 else 0.

Lemma store_inv_ext init s n n' : (∀ l, n l = n' l) -> store_inv init s n -> store_inv init s n'.
Proof. intros He [H1 H2 H3 H4 H5]. split; try done; intros l; rewrite <- He; auto. Qed.

Lemma owns_insert s l c objs open k fd :
  owns (mkStore (<[l := c]> (st_cells s)) objs open) k fd <->
  (k = l ∧ fd_closed (cell_fd c) = false ∧ fd_num (cell_fd c) = fd) ∨ (k ≠ l ∧ owns s k fd).
Proof.
  unfold owns. cbn. destruct (decide (k = l)) as [->|Hk].
  - rewrite lookup_insert_eq. firstorder congruence.
  - rewrite lookup_insert_ne by done. firstorder congruence.
Qed.

Lemma owns_delete s l objs open k fd : owns (mkStore (delete l (st_cells s)) objs open) k fd <-> k ≠ l ∧ owns s k fd.
Proof.
  unfold owns. cbn. destruct (decide (k = l)) as [->|Hk].
  - rewrite lookup_delete_eq. firstorder congruence.
  - rewrite lookup_delete_ne by done. firstorder congruence.
Qed.

(** The wrapper at [l] changes, but not what it owns. *)
Lemma update_inv init s n l c c' objs k :
  store_inv init s n -> st_cells s !! l = Some c -> cell_count c' = n l + k -> 0 < n l + k ->
  fd_num (cell_fd c') = fd_num (cell_fd c) -> fd_closed (cell_fd c') = fd_closed (cell_fd c) ->
  store_inv init (mkStore (<[l := c']> (st_cells s)) objs (st_open s)) (λ m, n m + (if decide (m = l) then k else 0)).
Proof.
  intros [H1 H2 H3 H4 H5] Hl Hc Hk Hn Hcl.
  assert (∀ m fd, owns (mkStore (<[l := c']> (st_cells s)) objs (st_open s)) m fd <-> owns s m fd) as Ho.
  { intros m fd. rewrite owns_insert. unfold owns. destruct (decide (m = l)) as [->|]; [rewrite Hl, Hcl, Hn; firstorder congruence|firstorder congruence]. }
  split.
  - intros m d. cbn. destruct (decide (m = l)) as [->|]; [rewrite lookup_insert_eq; by intros [= <-]|].
    rewrite lookup_insert_ne by done. rewrite Z.add_0_r. auto.
  - intros m. cbn. destruct (decide (m = l)) as [->|]; [rewrite lookup_insert_eq; split; [by eexists|done]|].
    rewrite lookup_insert_ne by done. rewrite Z.add_0_r. auto.
  - intros m fd. rewrite Ho. apply H3.
  - intros m m' fd. rewrite !Ho. apply H4.
  - intros fd. cbn. rewrite H5. by setoid_rewrite Ho.
Qed.

Lemma here_None l : here None l = 0.
Proof. unfold here. by rewrite decide_False. Qed.

Lemma acquire_inv init s n p :
  store_inv init s n -> (∀ l, p = Some l -> 0 < n l) -> store_inv init (acquire p s) (λ m, n m + here p m).
Proof.
  intros Hs Hp. destruct p as [l|]; [|eapply store_inv_ext; [|exact Hs]; intros m; rewrite here_None; lia].
  specialize (Hp l eq_refl) as Hl. destruct (proj1 (sv_alive _ _ _ Hs l) Hl) as [c Hc]. unfold acquire. rewrite Hc. pose proof (sv_count _ _ _ Hs l c Hc).
  eapply store_inv_ext; [|apply (update_inv init s n l c _ _ 1); cbn; try done; lia].
  intros m. cbn. unfold here. by repeat case_decide; simplify_eq.
Qed.

Lemma close_inv init s n l c :
  store_inv init s n -> st_cells s !! l = Some c -> fd_closed (cell_fd c) = false ->
  fd_num (cell_fd c) ∈ st_open s ∧
  (∀ fd, fd ∈ st_open s ∖ {[fd_num (cell_fd c)]} <-> fd ∈ init ∨ ∃ k, k ≠ l ∧ owns s k fd).
Proof.
  intros [H1 H2 H3 H4 H5] Hl Hc. assert (owns s l (fd_num (cell_fd c))) as Ho by (by exists c). split; [apply H5; eauto|].
  intros fd. rewrite elem_of_difference, elem_of_singleton, H5. split.
  - intros [[?|[k Hk]] Hne]; [by left|right]. exists k. split; [|done]. intros ->. destruct Hk as (c' & Hl' & _ & <-). congruence.
  - intros [Hi|(k & Hk & Hok)]; (split; [eauto|intros ->]); [by eapply H3|]. by eapply Hk, H4.
Qed.

Lemma release_inv init s n l :
  store_inv init s n -> 0 < n l -> store_inv init (release l s) (λ m, n m - here (Some l) m).
Proof.
  intros Hs Hl. destruct (proj1 (sv_alive _ _ _ Hs l) Hl) as [c Hc]. unfold release. rewrite Hc. pose proof (sv_count _ _ _ Hs l c Hc) as Hn.
  destruct (Z.eqb_spec (cell_count c) 1) as [He|He].
  - pose proof Hs as [H1 H2 H3 H4 H5]. split.
    + intros m d. cbn. unfold here. rewrite lookup_delete_Some. intros [Hm Hd]. rewrite decide_False by congruence. rewrite Z.sub_0_r. auto.
    + intros m. cbn. unfold here. destruct (decide (Some l = Some m)) as [[= <-]|Hm].
      * rewrite lookup_delete_eq. split; [lia|by intros [? [=]]].
      * rewrite lookup_delete_ne by congruence. rewrite Z.sub_0_r. auto.
    + intros m fd. rewrite owns_delete. intros [_ ?]. by eapply H3.
    + intros m m' fd. rewrite !owns_delete. intros [_ ?] [_ ?]. by eapply H4.
    + intros fd. cbn [st_open]. setoid_rewrite owns_delete. destruct (fd_closed (cell_fd c)) eqn:Hcl.
      * rewrite H5. split; (intros [|[k Hk]]; [by left|right; exists k]); [|by destruct Hk].
        split; [|done]. intros ->. destruct Hk as (c' & Hl' & ? & _). congruence.
      * destruct (close_inv init s n l c Hs Hc Hcl) as [Hin Hiff]. unfold kernel_close. rewrite decide_True by done. cbn. apply Hiff.
  - eapply store_inv_ext; [|apply (update_inv init s n l c _ _ (-1)); cbn; try done; lia].
    intros m. cbn. unfold here. repeat case_decide; simplify_eq; lia.
Qed.

(** *** The objects *)
Definition pointers (objs : gmap nat (option positive)) (l : positive) : Z :=
  Z.of_nat (base.size (filter (λ kv : nat * option positive, kv.2 = Some l) objs)).

Lemma pointers_insert objs x p l : objs !! x = None -> pointers (<[x := p]> objs) l = pointers objs l + here p l.
Proof.
  intros Hx. unfold pointers, here. destruct (decide (p = Some l)) as [Hp|Hp].
  - rewrite map_filter_insert_True by done. rewrite map_size_insert_None; [lia|]. apply map_lookup_filter_None. by left.
  - rewrite map_filter_insert_not'; [lia|done|congruence].
Qed.

Lemma pointers_delete objs x p l : objs !! x = Some p -> pointers (delete x objs) l = pointers objs l - here p l.
Proof.
  intros Hx. rewrite <- (insert_delete_id objs x p Hx) at 2. rewrite pointers_insert by apply lookup_delete_eq. lia.
Qed.

Lemma pointers_update objs x p q l : objs !! x = Some p -> pointers (<[x := q]> objs) l = pointers objs l - here p l + here q l.
Proof.
  intros Hx. rewrite <- insert_delete_eq, pointers_insert by apply lookup_delete_eq. by rewrite (pointers_delete _ _ _ _ Hx).
Qed.

Lemma pointers_pos objs x l : objs !! x = Some (Some l) -> 0 < pointers objs l.
Proof.
  intros Hx. pose proof (pointers_delete objs x _ l Hx) as Hd. unfold here in Hd. rewrite decide_True in Hd by done.
  assert (0 <= pointers (delete x objs) l) by (unfold pointers; lia). lia.
Qed.

Lemma pointers_empty l : pointers ∅ l = 0.
Proof. unfold pointers. by rewrite map_filter_empty, map_size_empty. Qed.

Definition store_ok (init : gset Z) (s : store) : Prop := store_inv init s (pointers (st_objects s)).

(** Only the wrappers and the kernel matter to the invariant. *)
Lemma store_inv_objects init s n objs : store_inv init s n -> store_inv init (mkStore (st_cells s) objs (st_open s)) n.
Proof. intros [H1 H2 H3 H4 H5]. by split. Qed.

Lemma release_opt_inv init s n p :
  store_inv init s n -> (∀ l, p = Some l -> 0 < n l) -> store_inv init (release_opt p s) (λ m, n m - here p m).
Proof.
  intros Hs Hp. destruct p as [l|]; [by apply release_inv; [|apply Hp]|]. eapply store_inv_ext; [|exact Hs]. intros m. rewrite here_None. lia.
Qed.

Lemma release_opt_objects p s : st_objects (release_opt p s) = st_objects s.
Proof. destruct p as [l|]; [|done]. cbn. unfold release. by repeat case_match. Qed.

Lemma acquire_objects p s : st_objects (acquire p s) = st_objects s.
Proof. destruct p as [l|]; [|done]. cbn. by repeat case_match. Qed.

(** ** Steps of a program

    The kernel gives out numbers that are not open, and a descriptor is not closed
    again once it has been. *)
Definition keeps {X} (f : FDWrapper -> outcome (FDWrapper * X)) : Prop :=
  ∀ w w' v, f w = Ret (w', v) -> fd_num w' = fd_num w ∧ fd_closed w' = fd_closed w.

Inductive step (s : store) : store -> Prop :=
| step_construct x fd s' :
    st_objects s !! x = None -> fd ∉ st_open s ->
    construct x fd (mkStore (st_cells s) (st_objects s) ({[fd]} ∪ st_open s)) = Ret s' -> step s s'
| step_duplicate x y s' : st_objects s !! y = None -> duplicate x y s = Ret s' -> step s s'
| step_move_construct x y s' : st_objects s !! y = None -> move_construct x y s = Ret s' -> step s s'
| step_move_assign x y s' : move_assign x y s = Ret s' -> step s s'
| step_destruct x s' : destruct_object x s = Ret s' -> step s s'
| step_close x s' : object_closed x s = Ret false -> close_object x s = Ret s' -> step s s'
| step_use {X} x (f : FDWrapper -> outcome (FDWrapper * X)) s' v : keeps f -> on_object x f s = Ret (s', v) -> step s s'.

Section step_ok.
Context (init : gset Z).

Lemma construct_ok x fd s s' :
  store_ok init s -> st_objects s !! x = None -> fd ∉ st_open s ->
  construct x fd (mkStore (st_cells s) (st_objects s) ({[fd]} ∪ st_open s)) = Ret s' -> store_ok init s'.
Proof.
  intros Hs Hx Hfd. unfold construct. cbn [st_cells st_objects st_open]. intros (w & Hw & [= <-])%bind_ret_inv.
  unfold new_FDWrapper in Hw. destruct (fd <? 0); [done|]. injection Hw as <-. set (l := fresh _).
  assert (st_cells s !! l = None) as Hl by (apply not_elem_of_dom; unfold l; apply is_fresh). clearbody l.
  pose proof Hs as [H1 H2 H3 H4 H5]. assert (pointers (st_objects s) l = 0) as H0.
  { pose proof (H2 l) as Hlt. rewrite Hl in Hlt. assert (0 <= pointers (st_objects s) l) by (unfold pointers; lia).
    destruct (decide (0 < pointers (st_objects s) l)) as [Hp|]; [|lia]. by destruct (proj1 Hlt Hp). }
  assert (∀ m k, owns s m k -> k ≠ fd) as Hne by (intros m k Hm ->; apply Hfd, H5; eauto).
  unfold store_ok. cbn [st_objects]. eapply store_inv_ext; [intros m; symmetry; by apply pointers_insert|]. split.
  - intros m c. cbn. unfold here. destruct (decide (m = l)) as [->|Hm].
    + rewrite lookup_insert_eq. intros [= <-]. rewrite decide_True by done. cbn. lia.
    + rewrite lookup_insert_ne by done. rewrite decide_False by congruence. rewrite Z.add_0_r. auto.
  - intros m. cbn. unfold here. destruct (decide (m = l)) as [->|Hm].
    + rewrite lookup_insert_eq, decide_True by done. split; [by eexists|lia].
    + rewrite lookup_insert_ne by done. rewrite decide_False by congruence. rewrite Z.add_0_r. auto.
  - intros m k. rewrite owns_insert. cbn. intros [(_ & _ & <-)|[_ Ho]]; [|by eapply H3]. intros Hi. apply Hfd, H5. by left.
  - intros m m' k. rewrite !owns_insert. cbn. intros [(-> & _ & <-)|[_ Ho]] [(-> & _ & Hk)|[_ Ho']]; try done.
    + by destruct (Hne _ _ Ho').
    + by destruct (Hne _ _ Ho).
    + by eapply H4.
  - intros k. cbn [st_open]. setoid_rewrite owns_insert. cbn. rewrite elem_of_union, elem_of_singleton, H5. split.
    + intros [->|[?|[m Hm]]]; [right; exists l; by left|by left|]. right. exists m. right. split; [|done].
      intros ->. destruct Hm as (c & Hc & _). congruence.
    + intros [?|(m & [(_ & _ & <-)|[_ Hm]])]; [by right; left|by left|]. right; right; eauto.
Qed.

Lemma object_pointers s x p : st_objects s !! x = Some p -> ∀ l, p = Some l -> 0 < pointers (st_objects s) l.
Proof. intros Hx l ->. by eapply pointers_pos. Qed.

Lemma duplicate_ok x y s s' : store_ok init s -> st_objects s !! y = None -> duplicate x y s = Ret s' -> store_ok init s'.
Proof.
  intros Hs Hy. unfold duplicate. destruct (st_objects s !! x) as [p|] eqn:Hx; [|done]. intros [= <-].
  unfold store_ok, set_object. cbn [st_objects]. rewrite acquire_objects. apply store_inv_objects.
  eapply store_inv_ext; [|apply acquire_inv; [exact Hs|by eapply object_pointers]]. intros l. cbn. by rewrite pointers_insert.
Qed.

Lemma move_construct_ok x y s s' : store_ok init s -> st_objects s !! y = None -> move_construct x y s = Ret s' -> store_ok init s'.
Proof.
  intros Hs Hy. unfold move_construct. destruct (st_objects s !! x) as [p|] eqn:Hx; [|done]. intros [= <-].
  unfold store_ok, set_object. cbn [st_objects st_cells st_open]. apply store_inv_objects. eapply store_inv_ext; [|exact Hs].
  intros l. assert (x ≠ y) by congruence. rewrite pointers_insert by (by rewrite lookup_insert_ne).
  rewrite (pointers_update _ _ _ _ _ Hx), here_None. lia.
Qed.

Lemma move_assign_ok x y s s' : store_ok init s -> move_assign x y s = Ret s' -> store_ok init s'.
Proof.
  intros Hs. unfold move_assign. destruct (st_objects s !! x) as [p|] eqn:Hx; [|done]. destruct (st_objects s !! y) as [q|] eqn:Hy; [|done].
  destruct (decide (x = y)); [by intros [= <-]|]. intros [= <-]. unfold store_ok. rewrite release_opt_objects.
  eapply store_inv_ext; [|apply release_opt_inv; [by apply (store_inv_objects _ _ _ _ Hs)|by eapply object_pointers]].
  intros l. cbn. rewrite (pointers_update _ y q) by (by rewrite lookup_insert_ne). rewrite (pointers_update _ _ _ _ _ Hx), here_None. lia.
Qed.

Lemma destruct_ok x s s' : store_ok init s -> destruct_object x s = Ret s' -> store_ok init s'.
Proof.
  intros Hs. unfold destruct_object. destruct (st_objects s !! x) as [p|] eqn:Hx; [|done]. intros [= <-].
  unfold store_ok. rewrite release_opt_objects.
  eapply store_inv_ext; [|apply release_opt_inv; [by apply (store_inv_objects _ _ _ _ Hs)|by eapply object_pointers]].
  intros l. cbn. by rewrite (pointers_delete _ _ _ _ Hx).
Qed.

Lemma wrapper_of_inv x s l c : wrapper_of x s = Ret (l, c) -> st_objects s !! x = Some (Some l) ∧ st_cells s !! l = Some c.
Proof.
  unfold wrapper_of. destruct (st_objects s !! x) as [[k|]|]; [|done..]. destruct (st_cells s !! k) as [d|] eqn:Hk; [|done].
  by intros [= <- <-].
Qed.

Lemma use_ok {X} x (f : FDWrapper -> outcome (FDWrapper * X)) s s' v :
  store_ok init s -> keeps f -> on_object x f s = Ret (s', v) -> store_ok init s'.
Proof.
  intros Hs Hf. unfold on_object. intros ([l c] & [Hx Hc]%wrapper_of_inv & H)%bind_ret_inv.
  apply bind_ret_inv in H as ([w u] & Hr & [= <- _]). destruct (Hf _ _ _ Hr) as [Hn Hcl].
  pose proof (pointers_pos _ _ _ Hx). pose proof (sv_count _ _ _ Hs l c Hc).
  unfold store_ok. cbn [st_objects]. eapply store_inv_ext; [|apply (update_inv init s _ l c _ _ 0 Hs Hc); cbn; try done; lia].
  intros m. cbn. by destruct (decide (m = l)); rewrite Z.add_0_r.
Qed.

(** A descriptor that has not been closed can be, and is then nobody's. *)
Lemma close_ok x s :
  store_ok init s -> object_closed x s = Ret false ->
  returns (close_object x s) (λ s', store_ok init s' ∧ object_closed x s' = Ret true).
Proof.
  intros Hs. unfold object_closed. intros ([l c] & Hw & [= Hcl])%bind_ret_inv. unfold close_object. rewrite Hw. cbn [mbind outcome_bind].
  apply wrapper_of_inv in Hw as [Hx Hc]. destruct (close_inv init s _ l c Hs Hc Hcl) as [Hin Hiff].
  unfold kernel_close. rewrite decide_True by done. unfold fd_close. rewrite SystemCall_ok by lia. cbn [mbind outcome_bind].
  apply returns_ret. split; [|unfold wrapper_of; cbn; rewrite Hx, lookup_insert_eq; done].
  pose proof Hs as [H1 H2 H3 H4 H5]. unfold store_ok. cbn [st_objects]. split.
  - intros m d. cbn. destruct (decide (m = l)) as [->|]; [rewrite lookup_insert_eq; intros [= <-]; cbn; auto|rewrite lookup_insert_ne by done; auto].
  - intros m. cbn. rewrite H2. destruct (decide (m = l)) as [->|]; [rewrite lookup_insert_eq, Hc; by split; eexists|by rewrite lookup_insert_ne].
  - intros m fd. rewrite owns_insert. cbn. intros [(_ & ? & _)|[_ ?]]; [done|]. by eapply H3.
  - intros m m' fd. rewrite !owns_insert. cbn. intros [(_ & ? & _)|[_ ?]] [(_ & ? & _)|[_ ?]]; try done. by eapply H4.
  - intros fd. cbn [st_open]. rewrite Hiff. setoid_rewrite owns_insert. cbn. split; (intros [|[k Hk]]; [by left|right; exists k]); [by right|].
    by destruct Hk as [(_ & ? & _)|].
Qed.

Lemma step_ok s s' : store_ok init s -> step s s' -> store_ok init s'.
Proof.
  intros Hs [x fd s1 Hx Hfd Hr|x y s1 Hy Hr|x y s1 Hy Hr|x y s1 Hr|x s1 Hr|x s1 Hcl Hr|X x f s1 v Hf Hr].
  - by eapply construct_ok.
  - by eapply duplicate_ok.
  - by eapply move_construct_ok.
  - by eapply move_assign_ok.
  - by eapply destruct_ok.
  - destruct (close_ok x s Hs Hcl) as (s2 & Hr2 & ? & _). congruence.
  - by eapply use_ok.
Qed.

Lemma steps_ok s : rtc step (mkStore ∅ ∅ init) s -> store_ok init s.
Proof.
  assert (store_ok init (mkStore ∅ ∅ init)) as H0.
  { assert (∀ l fd, ¬ owns (mkStore ∅ ∅ init) l fd) as Hn by (intros l fd (c & Hc & _); cbn in Hc; by rewrite lookup_empty in Hc).
    split; cbn [st_cells st_open st_objects].
    - intros l c. by rewrite lookup_empty.
    - intros l. rewrite pointers_empty, lookup_empty. split; [lia|by intros [? [=]]].
    - intros l fd Ho. by destruct (Hn l fd).
    - intros l l' fd Ho. by destruct (Hn l fd).
    - intros fd. split; [by left|]. intros [|[l Ho]]; [done|]. by destruct (Hn l fd). }
  revert H0. generalize (mkStore ∅ ∅ init). intros s0 H0 Hr. induction Hr as [|s0 s1 s2 Hs _ IH]; [done|]. by eapply IH, step_ok.
Qed.
End step_ok.

(** Reading and writing leave the number and the flag alone. *)
Lemma read_keeps limit r data : keeps (λ w, fd_read w limit r data).
Proof.
  intros w w' v. unfold fd_read. intros (n & _ & H)%bind_ret_inv. cbv zeta in H. destruct (_ <? n); [done|]. destruct (n <? 0); [done|].
  injection H as <- _. by destruct (_ && _).
Qed.

Lemma write_loop_keeps rs w vl all total out w' n o :
  write_loop rs w vl all total out = Ret (w', n, o) -> fd_num w' = fd_num w ∧ fd_closed w' = fd_closed w.
Proof.
  revert w vl total out. induction rs as [|r rs IH]; intros w vl total out; [done|]. cbn [write_loop].
  intros (m & _ & H)%bind_ret_inv. destruct (_ && _); [done|]. destruct (_ <? m); [done|]. cbv zeta in H.
  apply bind_ret_inv in H as (vl' & _ & H). destruct (_ && _); [by apply IH in H|]. by injection H as <- _ _.
Qed.

Lemma write_keeps vl all rs : keeps (λ w, '(w, n, out) ← fd_write w vl all rs; Ret (w, (n, out))).
Proof. intros w w' v. intros ([[w1 n] o] & H & [= <- _])%bind_ret_inv. by eapply write_loop_keeps. Qed.

Lemma pointers_held objs l : 0 < pointers objs l -> ∃ x, objs !! x = Some (Some l).
Proof.
  intros Hp. destruct (map_choose (filter (λ kv : nat * option positive, kv.2 = Some l) objs)) as (x & p & Hx).
  { intros He. unfold pointers in Hp. rewrite He, map_size_empty in Hp. lia. }
  exists x. apply map_lookup_filter_Some in Hx as [Hx Hq]. cbn in Hq. congruence.
Qed.

(** What is done through an object shows in its duplicates: an [EventLoop] that
    keeps a duplicate sees what the callbacks do. *)
Lemma duplicates_share {X} x y s s1 (f : FDWrapper -> outcome (FDWrapper * X)) s2 v :
  duplicate x y s = Ret s1 -> on_object x f s1 = Ret (s2, v) -> wrapper_of y s2 = wrapper_of x s2.
Proof.
  unfold duplicate. destruct (st_objects s !! x) as [p|] eqn:Hx; [|done]. intros [= <-].
  intros ([l c] & _ & H)%bind_ret_inv. apply bind_ret_inv in H as ([w u] & _ & [= <- _]).
  unfold wrapper_of. cbn. rewrite lookup_insert_eq, acquire_objects. destruct (decide (x = y)) as [->|]; [by rewrite lookup_insert_eq|].
  by rewrite lookup_insert_ne, Hx.
Qed.

(** C26: descriptors are neither leaked nor closed too early. Whatever a program
    does with its objects (construct, duplicate, move, read, write, close and
    destroy them in any order, closing none twice), an object that was not moved
    from can be used; a wrapper lives as long as some object points to it and no
    longer; the open descriptors are those that were open from the start and
    those of the wrappers that are not closed, each of one wrapper; closing such
    a one succeeds; and when all objects are gone, just the descriptors of the
    start are open. *)
Theorem descriptors_managed init s :
  rtc step (mkStore ∅ ∅ init) s ->
  (∀ x l, st_objects s !! x = Some (Some l) -> ∃ c, wrapper_of x s = Ret (l, c) ∧ cell_count c = pointers (st_objects s) l) ∧
  (∀ l, is_Some (st_cells s !! l) -> ∃ x, st_objects s !! x = Some (Some l)) ∧
  (∀ fd, fd ∈ st_open s <-> fd ∈ init ∨ ∃ l, owns s l fd) ∧
  (∀ l l' fd, owns s l fd -> owns s l' fd -> l = l' ∧ fd ∉ init) ∧
  (∀ x, object_closed x s = Ret false -> returns (close_object x s) (λ s', object_closed x s' = Ret true)) ∧
  (st_objects s = ∅ -> st_cells s = ∅ ∧ st_open s = init).
Proof.
  intros Hs%steps_ok. pose proof Hs as [H1 H2 H3 H4 H5].
  assert (∀ l, is_Some (st_cells s !! l) -> ∃ x, st_objects s !! x = Some (Some l)) as Hheld by (intros l; rewrite <- H2; apply pointers_held).
  split_and!; [| |done| | |].
  - intros x l Hx. pose proof (pointers_pos _ _ _ Hx) as Hp. apply H2 in Hp as [c Hc]. exists c. split; [|by apply H1].
    unfold wrapper_of. by rewrite Hx, Hc.
  - done.
  - intros l l' fd Ho Ho'. split; [by eapply H4|by eapply H3].
  - intros x Hx. eapply returns_mono; [by eapply close_ok|]. by intros s' [_ ?].
  - intros He. assert (st_cells s = ∅) as Hcells.
    { apply map_empty. intros l. destruct (st_cells s !! l) eqn:Hl; [|done]. destruct (Hheld l) as [x Hx]; [by rewrite Hl|].
      by rewrite He, lookup_empty in Hx. }
    split; [done|]. apply set_eq. intros fd. rewrite H5. split; [|by left]. intros [|(l & c & Hc & _)]; [done|].
    by rewrite Hcells, lookup_empty in Hc.
Qed.

(** ** Concrete runs *)

Definition or_empty (o : outcome store) : store := match o with Ret s => s | _ => mkStore ∅ ∅ ∅ end.
Definition opened (x : nat) (fd : Z) (s : store) : outcome store :=
  construct x fd (mkStore (st_cells s) (st_objects s) ({[fd]} ∪ st_open s)).

(** Descriptor 3, held by two objects, of which the first has read from it. *)
Definition run_shared : store := or_empty (duplicate 0 1 (or_empty (opened 0 3 (mkStore ∅ ∅ {[1]})))).
Definition run_read : store := match object_read 0 10 (sys_ok 0) [] run_shared with Ret (s, _) => s | _ => run_shared end.
Definition run_gone : store := or_empty (destruct_object 1 (or_empty (destruct_object 0 run_read))).

Lemma descriptors_managed_witness :
  object_eof 1 run_read = Ret true ∧ 3 ∈ st_open run_read ∧ st_cells run_gone = ∅ ∧ st_open run_gone = {[1]}.
Proof.
  split; [vm_compute; reflexivity|]. split; [apply (bool_decide_unpack _); vm_compute; exact I|].
  apply (descriptors_managed {[1]} run_gone); [|vm_compute; reflexivity].
  apply (rtc_r _ (or_empty (destruct_object 0 run_read))); [|by eapply (step_destruct _ 1); vm_compute].
  apply (rtc_r _ run_read); [|by eapply (step_destruct _ 0); vm_compute].
  apply (rtc_r _ run_shared); [|eapply (step_use _ 0 _ _ []); [apply (read_keeps 10 (sys_ok 0) [])|vm_compute; reflexivity]].
  apply (rtc_r _ (or_empty (opened 0 3 (mkStore ∅ ∅ {[1]})))); [|eapply (step_duplicate _ 0 1); vm_compute; reflexivity].
  apply rtc_once. eapply (step_construct _ 0 3); [reflexivity|apply (bool_decide_unpack _); vm_compute; exact I|vm_compute; reflexivity].
Defined.

(** Closing twice. [close] does not look at [_closed]: a duplicate of a closed
    descriptor that is closed as well throws, or, once the kernel has given the
    number to another object, closes the descriptor of that one. *)
Definition run_closed : store := or_empty (close_object 0 run_shared).
Definition run_reused : store := or_empty (opened 2 3 run_closed).

Theorem closed_twice :
  object_closed 1 run_closed = Ret true ∧ close_object 1 run_closed = Throw (unix_error "close" EBADF) ∧
  (3 ∈ st_open run_reused) ∧
  returns (close_object 1 run_reused) (λ s, object_fd_num 2 s = Ret 3 ∧ object_closed 2 s = Ret false ∧ 3 ∉ st_open s).
Proof.
  split; [vm_compute; reflexivity|]. split; [vm_compute; reflexivity|]. split; [apply (bool_decide_unpack _); vm_compute; exact I|].
  exists (or_empty (close_object 1 run_reused)). split; [vm_compute; reflexivity|]. split_and!; [vm_compute; reflexivity..|].
  apply (bool_decide_unpack _). vm_compute. exact I.
Qed.
