(* ===== verification/EventLoop.v ===== *)
(** [util/eventloop.hh], [util/eventloop.cc]: rules that tie descriptors to
    callbacks, and one round of polling them.

    The callbacks of a rule share a state [W], of which the event loop sees the
    descriptors; [poll] is a function from the events asked for. Callbacks do not
    add rules, as in all of the source. *)
From S2P Require Import Prelude FileDescriptor.

Inductive Direction := In | Out.

#[export] Instance Direction_eq_dec : EqDecision Direction.
Proof. solve_decision. Defined.

Definition POLLIN : Z := 1.
Definition POLLOUT : Z := 4.
Definition POLLERR : Z := 8.
Definition POLLHUP : Z := 16.
Definition POLLNVAL : Z := 32.
Definition EINTR : Z := 4.

Definition events_of (d : Direction) : Z := match d with In => POLLIN | Out => POLLOUT end.

Inductive Result := Success | Timeout | Exit.

#[export] Instance Result_eq_dec : EqDecision Result.
Proof. solve_decision. Defined.

(** What [poll(2)] does: no descriptor is ready in time, an error, or the
    [revents] by position. *)
Inductive poll_result :=
| PollTimeout
| PollError (errno : Z)
| PollReady (revents : nat -> Z).

Section eventloop.
Context {W FD : Type} (get_fd : FD -> W -> FDWrapper).

Record Rule := mkRule {
  rule_fd : FD;
  rule_direction : Direction;
  rule_callback : W -> outcome W;
  rule_interest : W -> bool;
  rule_cancel : W -> outcome W
}.

Definition service_count (r : Rule) (w : W) : Z :=
  match rule_direction r with
  | In => fd_read_count (get_fd (rule_fd r) w)
  | Out => fd_write_count (get_fd (rule_fd r) w)
  end.

Definition add_rule (rules : list Rule) (fd : FD) (direction : Direction) (callback : W -> outcome W) (interest : W -> bool)
    (cancel : W -> outcome W) : list Rule :=
  rules ++ [mkRule fd direction callback interest cancel].

(** The first loop: the rules that stay, each with the events polled for. *)
Fixpoint setup (rules : list Rule) (w : W) : outcome (list (Rule * Z) * W) :=
  match rules with
  | [] => Ret ([], w)
  | this_rule :: rules =>
      let fd := get_fd (rule_fd this_rule) w in
      if bool_decide (rule_direction this_rule = In) && fd_eof fd then
        w ← rule_cancel this_rule w; setup rules w
      else if fd_closed fd then
        w ← rule_cancel this_rule w; setup rules w
      else
        let events := if rule_interest this_rule w then events_of (rule_direction this_rule) else 0 in
        '(l, w) ← setup rules w;
        Ret ((this_rule, events) :: l, w)
  end.

(** The callback of a ready rule, and the check against busy waiting. *)
Definition run_callback (this_rule : Rule) (w : W) : outcome W :=
  let count_before := service_count this_rule w in
  w ← rule_callback this_rule w;
  if (count_before =? service_count this_rule w) && rule_interest this_rule w then
    Throw (runtime_error "EventLoop: busy wait detected: callback did not read/write fd and is still interested")
  else Ret w.

(** The second loop: the rules that stay. *)
Fixpoint process (l : list (Rule * Z)) (revents : nat -> Z) (idx : nat) (w : W) : outcome (list Rule * W) :=
  match l with
  | [] => Ret ([], w)
  | (this_rule, events) :: l =>
      let rev := revents idx in
      let poll_error := flag rev (Z.lor POLLERR POLLNVAL) in
      let poll_ready := flag rev events in
      let poll_hup := flag rev POLLHUP in
      if poll_error then Throw (runtime_error "EventLoop: error on polled file descriptor")
      else if poll_hup && negb (events =? 0) && negb poll_ready then
        w ← rule_cancel this_rule w; process l revents (S idx) w
      else
        w ← (if poll_ready then run_callback this_rule w else Ret w);
        '(rules, w) ← process l revents (S idx) w;
        Ret (this_rule :: rules, w)
  end.

(** An error of [poll] other than [EINTR] is caught and nothing is done about
    it: the [revents] are still zero. *)
Definition wait_next_event (rules : list Rule) (poll : list Z -> poll_result) (w : W) : outcome (Result * list Rule * W) :=
  '(l, w) ← setup rules w;
  if forallb (λ p, p.2 =? 0) l then Ret (Exit, map fst l, w)
  else
    match poll (map snd l) with
    | PollTimeout => Ret (Timeout, map fst l, w)
    | PollError errno =>
        if errno =? EINTR then Ret (Exit, map fst l, w)
        else '(rules, w) ← process l (λ _, 0) 0 w; Ret (Success, rules, w)
    | PollReady revents => '(rules, w) ← process l revents 0 w; Ret (Success, rules, w)
    end.

Lemma process_nothing l idx w : process l (λ _, 0) idx w = Ret (map fst l, w).
Proof.
  revert idx. induction l as [|[r ev] l IH]; intros idx; cbn [process]; [done|]. cbv zeta.
  unfold flag. rewrite !Z.land_0_l. cbn. by rewrite IH.
Qed.

(** An error of [poll] other than an interrupted call passes for success. *)
Lemma poll_error_ignored rules poll w l w' errno :
  setup rules w = Ret (l, w') -> forallb (λ p, p.2 =? 0) l = false -> poll (map snd l) = PollError errno -> errno ≠ EINTR ->
  wait_next_event rules poll w = Ret (Success, map fst l, w').
Proof.
  intros Hs Hl Hp He. unfold wait_next_event. rewrite Hs. cbn. rewrite Hl, Hp. apply Z.eqb_neq in He. rewrite He.
  by rewrite process_nothing.
Qed.

(** What is polled for: nothing, or the direction of the rule. *)
Lemma setup_events rules w l w' :
  setup rules w = Ret (l, w') -> Forall (λ p, p.2 = 0 ∨ p.2 = events_of (rule_direction p.1)) l.
Proof.
  revert w l w'. induction rules as [|r rules IH]; intros w l w'; cbn [setup]; [by intros [= <- _]|]. cbv zeta.
  destruct (_ && _); [by intros (w1 & _ & Hs%IH)%bind_ret_inv|]. destruct (fd_closed _); [by intros (w1 & _ & Hs%IH)%bind_ret_inv|].
  intros ([l1 w1] & Hs%IH & [= <- <-])%bind_ret_inv. constructor; [cbn; destruct (rule_interest r w); auto|done].
Qed.

(** *** What a round leaves alone *)
Section leaves.
Context {X : Type} (f : W -> X).

Definition leaves (r : Rule) : Prop :=
  (∀ w w', rule_callback r w = Ret w' -> f w' = f w) ∧ (∀ w w', rule_cancel r w = Ret w' -> f w' = f w).

Lemma setup_leaves rules w l w' :
  Forall leaves rules -> setup rules w = Ret (l, w') -> f w' = f w ∧ Forall (λ p, leaves p.1) l.
Proof.
  revert w l. induction rules as [|r rules IH]; intros w l Hr; cbn [setup]; [by intros [= <- <-]|].
  apply Forall_cons in Hr as [Hr Hrs]. cbv zeta.
  assert (∀ w1, rule_cancel r w = Ret w1 -> setup rules w1 = Ret (l, w') -> f w' = f w ∧ Forall (λ p, leaves p.1) l) as Hcancel.
  { intros w1 Hc Hs. destruct (IH _ _ Hrs Hs) as [-> Hl]. split; [by apply Hr|done]. }
  destruct (_ && _); [intros (w1 & Hc & Hs)%bind_ret_inv; exact (Hcancel w1 Hc Hs)|].
  destruct (fd_closed _); [intros (w1 & Hc & Hs)%bind_ret_inv; exact (Hcancel w1 Hc Hs)|].
  intros ([l1 w1] & Hs & [= <- <-])%bind_ret_inv. destruct (IH _ _ Hrs Hs) as [-> Hl]. split; [done|by constructor].
Qed.

Lemma process_leaves l revents idx w rules w' :
  Forall (λ p, leaves p.1) l -> process l revents idx w = Ret (rules, w') -> f w' = f w ∧ Forall leaves rules.
Proof.
  revert idx w rules. induction l as [|[r ev] l IH]; intros idx w rules Hl; cbn [process]; [by intros [= <- <-]|].
  apply Forall_cons in Hl as [Hr Hl]. cbv zeta. destruct (flag _ (Z.lor _ _)); [done|]. destruct (_ && _ && _).
  - intros (w1 & Hc & Hp)%bind_ret_inv. destruct (IH _ _ _ Hl Hp) as [-> Hrs]. split; [by apply Hr|done].
  - intros (w1 & Hc & Hp)%bind_ret_inv. apply bind_ret_inv in Hp as ([rs w2] & Hp & [= <- <-]).
    destruct (IH _ _ _ Hl Hp) as [-> Hrs]. split; [|by constructor]. destruct (flag _ ev); [|by injection Hc as <-].
    unfold run_callback in Hc. apply bind_ret_inv in Hc as (w3 & Hc & H3). destruct (_ && _); [done|]. injection H3 as <-. exact (proj1 Hr _ _ Hc).
Qed.

Lemma wait_leaves rules poll w res rules' w' :
  Forall leaves rules -> wait_next_event rules poll w = Ret (res, rules', w') -> f w' = f w ∧ Forall leaves rules'.
Proof.
  intros Hr. unfold wait_next_event. intros ([l w1] & Hs & H)%bind_ret_inv. destruct (setup_leaves _ _ _ _ Hr Hs) as [Hf Hl].
  assert (Forall leaves (map fst l)) as Hm by (by apply Forall_map).
  destruct (forallb _ l); [by injection H as <- <- <-|]. destruct (poll (map snd l)) as [|errno|revents].
  - by injection H as <- <- <-.
  - destruct (errno =? EINTR); [by injection H as <- <- <-|]. apply bind_ret_inv in H as ([rs w2] & Hp & [= <- <- <-]).
    destruct (process_leaves _ _ _ _ _ _ Hl Hp) as [Hf' Hrs]. split; [congruence|done].
  - apply bind_ret_inv in H as ([rs w2] & Hp & [= <- <- <-]). destruct (process_leaves _ _ _ _ _ _ Hl Hp) as [Hf' Hrs]. split; [congruence|done].
Qed.
End leaves.

(** ** Rounds that return

    [Inv] is what the callbacks keep up. Of the descriptors: [Ready k] says
    that a read ([In]) or a write ([Out]) will not block, [Hup k] that nothing
    will ever be read or written again. A callback uses up what its own
    descriptor and direction had ready, and leaves the rest. [Wanted k] is what
    an interested rule relies on until its callback runs, and [Gone k] what a rule
    leaves behind when it is cancelled. *)
Context (Inv : W -> Prop) (Ready Hup Wanted Gone : FD * Direction -> W -> Prop).

Definition rule_key (r : Rule) : FD * Direction := (rule_fd r, rule_direction r).

Record kept (k : FD * Direction) (w w' : W) : Prop := {
  kept_ready k' : k' ≠ k -> Ready k' w -> Ready k' w';
  kept_hup k' : k' ≠ k -> Hup k' w -> Hup k' w';
  kept_wanted k' : k' ≠ k -> Wanted k' w -> Wanted k' w';
  kept_gone k' : Gone k' w -> Gone k' w'
}.

Lemma kept_refl k w : kept k w w.
Proof. by split. Qed.

Lemma kept_trans k w w1 w' : kept k w w1 -> kept k w1 w' -> kept k w w'.
Proof. intros [] []. split; auto. Qed.

(** Why a rule is cancelled. *)
Definition cancel_reason (r : Rule) (w : W) : Prop :=
  (rule_direction r = In ∧ fd_eof (get_fd (rule_fd r) w) = true) ∨ fd_closed (get_fd (rule_fd r) w) = true ∨ Hup (rule_key r) w.

Record rule_ok (r : Rule) : Prop := {
  rl_interest w : Inv w -> rule_interest r w = true -> Wanted (rule_key r) w;
  rl_callback w : Inv w -> Ready (rule_key r) w -> Wanted (rule_key r) w ->
    returns (rule_callback r w) (λ w', Inv w' ∧
      (service_count r w' ≠ service_count r w ∨ rule_interest r w' = false) ∧ kept (rule_key r) w w');
  rl_cancel w : Inv w -> cancel_reason r w ->
    returns (rule_cancel r w) (λ w', Inv w' ∧ Gone (rule_key r) w' ∧ kept (rule_key r) w w')
}.

(** What a pass over [rules] that keeps [rules'] leaves behind. *)
Record pass (rules rules' : list Rule) (w w' : W) : Prop := {
  ps_inv : Inv w';
  ps_rules : rules' `sublist_of` rules;
  ps_gone k : Gone k w -> Gone k w';
  ps_cancelled k : k ∈ map rule_key rules -> k ∈ map rule_key rules' ∨ Gone k w'
}.

Lemma pass_nil w : Inv w -> pass [] [] w w.
Proof. split; [done|constructor|done|]. by intros k ?%not_elem_of_nil. Qed.

Lemma pass_keep r rules rules' w w1 w' :
  (∀ k, Gone k w -> Gone k w1) -> pass rules rules' w1 w' -> pass (r :: rules) (r :: rules') w w'.
Proof.
  intros Hg [H1 H2 H3 H4]. split; [done|by constructor|auto|]. cbn. intros k [->|Hk]%elem_of_cons; [left; constructor|].
  destruct (H4 k Hk); [left; by constructor|by right].
Qed.

Lemma pass_drop r rules rules' w w1 w' :
  Gone (rule_key r) w1 -> kept (rule_key r) w w1 -> pass rules rules' w1 w' -> pass (r :: rules) rules' w w'.
Proof.
  intros Hg Hk [H1 H2 H3 H4]. split; [done|by constructor|intros k ?; by apply H3, (kept_gone _ _ _ Hk)|].
  cbn. intros k [->|?]%elem_of_cons; [right; by apply H3|auto].
Qed.

Lemma pass_trans rules rules1 rules' w w1 w' :
  pass rules rules1 w w1 -> pass rules1 rules' w1 w' -> pass rules rules' w w'.
Proof.
  intros [H1 H2 H3 H4] [H1' H2' H3' H4']. split; [done|by etrans|auto|].
  intros k Hk. destruct (H4 k Hk) as [Hk'|]; [by apply H4'|right; auto].
Qed.

(** The rules polled for something still rely on it. *)
Definition wanted (l : list (Rule * Z)) (w : W) : Prop := Forall (λ p, p.2 ≠ 0 -> Wanted (rule_key p.1) w) l.

Lemma setup_ok rules w :
  Forall rule_ok rules -> NoDup (map rule_key rules) -> Inv w ->
  returns (setup rules w) (λ '(l, w'), pass rules (map fst l) w w' ∧ wanted l w' ∧
    ∀ k, k ∉ map rule_key rules -> Wanted k w -> Wanted k w').
Proof.
  intros Hr. revert w. induction Hr as [|r rules Hok _ IH]; intros w Hnd Hw; cbn [setup].
  { apply returns_ret. split_and!; [by apply pass_nil|constructor|done]. }
  cbn in Hnd. apply NoDup_cons in Hnd as [Hnot Hnd].
  assert (cancel_reason r w -> returns (w ← rule_cancel r w; setup rules w) (λ '(l, w'), pass (r :: rules) (map fst l) w w' ∧ wanted l w' ∧
    ∀ k, k ∉ map rule_key (r :: rules) -> Wanted k w -> Wanted k w')) as Hcancel.
  { intros Hc. eapply returns_bind; [by apply (rl_cancel r Hok)|]. intros w1 (Hw1 & Hg & Hk).
    eapply returns_mono; [by apply IH|]. intros [l w'] (Hp & Hl & Hkw). split_and!; [by eapply pass_drop|done|].
    intros k [Hne Hn]%not_elem_of_cons Hkk. apply Hkw; [done|]. by apply (kept_wanted _ _ _ Hk). }
  cbv zeta. destruct (_ && _) eqn:Heof.
  { apply andb_true_iff in Heof as [Hd%bool_decide_eq_true He]. apply Hcancel. by left. }
  destruct (fd_closed _) eqn:Hcl; [apply Hcancel; by right; left|].
  eapply returns_bind; [by apply IH|]. intros [l w'] (Hp & Hl & Hkw). apply returns_ret. split_and!.
  - by eapply pass_keep; [|exact Hp].
  - constructor; [|done]. cbn. destruct (rule_interest r w) eqn:Hi; [|done]. intros _. apply Hkw; [done|].
    by apply (rl_interest r Hok).
  - intros k [_ Hn]%not_elem_of_cons. by apply Hkw.
Qed.

(** The contract of [poll] in a round that goes through: no descriptor is in error
    (on one the round throws, see [wait_next_event_error]); where an event asked
    for is reported, the descriptor is ready for it; where only a hangup is, there
    is nothing more to come. *)
Definition poll_ok (l : list (Rule * Z)) (revents : nat -> Z) (idx : nat) (w : W) : Prop :=
  ∀ k r events, l !! k = Some (r, events) ->
    flag (revents (idx + k)%nat) (Z.lor POLLERR POLLNVAL) = false ∧
    (flag (revents (idx + k)%nat) events = true -> Ready (rule_key r) w) ∧
    (flag (revents (idx + k)%nat) POLLHUP = true -> events ≠ 0 -> flag (revents (idx + k)%nat) events = false -> Hup (rule_key r) w).

(** Later rules have other keys. *)
Lemma key_fresh (r : Rule) (ev : Z) (l : list (Rule * Z)) (p : Rule * Z) :
  NoDup (map rule_key (map fst ((r, ev) :: l))) -> p ∈ l -> rule_key p.1 ≠ rule_key r.
Proof.
  cbn. intros [Hnot _]%NoDup_cons Hp Heq. apply Hnot. rewrite <- Heq. by do 2 apply list_elem_of_fmap_2.
Qed.

Lemma poll_ok_tail r ev l revents idx w w' :
  poll_ok ((r, ev) :: l) revents idx w -> NoDup (map rule_key (map fst ((r, ev) :: l))) ->
  kept (rule_key r) w w' -> poll_ok l revents (S idx) w'.
Proof.
  intros Hp Hnd Hkeep k r' ev' Hk. destruct (Hp (S k) r' ev' Hk) as (H1 & H2 & H3). rewrite Nat.add_succ_r in H1, H2, H3.
  assert (rule_key r' ≠ rule_key r) as Hne by (apply (key_fresh r ev l (r', ev') Hnd); by eapply list_elem_of_lookup_2).
  split_and!; [done| |]; intros; [apply (kept_ready _ _ _ Hkeep)|apply (kept_hup _ _ _ Hkeep)]; auto.
Qed.

Lemma wanted_tail r ev l w w' :
  wanted ((r, ev) :: l) w -> NoDup (map rule_key (map fst ((r, ev) :: l))) -> kept (rule_key r) w w' -> wanted l w'.
Proof.
  intros [_ Hl]%Forall_cons Hnd Hkeep. unfold wanted in *. rewrite Forall_forall in *. intros p Hp Hev.
  apply (kept_wanted _ _ _ Hkeep); [by apply (key_fresh r ev l)|by apply Hl].
Qed.

Lemma run_callback_ok r w :
  rule_ok r -> Inv w -> Ready (rule_key r) w -> Wanted (rule_key r) w ->
  returns (run_callback r w) (λ w', Inv w' ∧ kept (rule_key r) w w').
Proof.
  intros Hok Hw Hr Hwt. unfold run_callback. eapply returns_bind; [by apply (rl_callback r Hok)|].
  intros w1 (Hw1 & Hsrv & Hkeep). destruct (_ && _) eqn:Hbusy; [|by apply returns_ret].
  apply andb_true_iff in Hbusy as [Hc%Z.eqb_eq Hi]. destruct Hsrv as [|]; congruence.
Qed.

Lemma process_ok l revents idx w :
  Forall (λ p, rule_ok p.1) l -> NoDup (map rule_key (map fst l)) -> Inv w -> poll_ok l revents idx w -> wanted l w ->
  returns (process l revents idx w) (λ '(rules, w'), pass (map fst l) rules w w').
Proof.
  revert idx w. induction l as [|[r ev] l IH]; intros idx w Hr Hnd Hw Hp Hwt; cbn [process].
  { by apply returns_ret, pass_nil. }
  apply Forall_cons in Hr as [Hok Hr]. cbn in Hok. cbv zeta.
  destruct (Hp 0%nat r ev eq_refl) as (He & Hready & Hhup). rewrite Nat.add_0_r in He, Hready, Hhup. rewrite He.
  pose proof Hnd as Hnd'. cbn in Hnd'. apply NoDup_cons in Hnd' as [_ Hnd'].
  destruct (_ && _ && _) eqn:Hc.
  - apply andb_true_iff in Hc as [[Hc1 Hc2%negb_true_iff%Z.eqb_neq]%andb_true_iff Hc3%negb_true_iff].
    eapply returns_bind; [apply (rl_cancel r Hok); [done|by right; right; apply Hhup]|]. intros w1 (Hw1 & Hg & Hkeep).
    eapply returns_mono; [apply IH; [done|done|done|by eapply poll_ok_tail|by eapply wanted_tail]|].
    intros [rules w'] Hps. by eapply pass_drop.
  - eapply (returns_bind _ _ (λ w1, Inv w1 ∧ kept (rule_key r) w w1)).
    { destruct (flag (revents idx) ev) eqn:Hf; [|by apply returns_ret; split; [|apply kept_refl]].
      apply run_callback_ok; auto. apply Forall_cons in Hwt as [Hwt _]. apply Hwt. cbn. intros ->.
      unfold flag in Hf. by rewrite Z.land_0_r in Hf. }
    intros w1 [Hw1 Hkeep]. eapply returns_bind; [apply IH; [done|done|done|by eapply poll_ok_tail|by eapply wanted_tail]|].
    intros [rules w'] Hps. apply returns_ret. by eapply pass_keep; [apply Hkeep|].
Qed.

(** What a round does, when its rules serve their descriptors. *)
Lemma wait_next_event_pass rules poll w :
  Forall rule_ok rules -> NoDup (map rule_key rules) -> Inv w ->
  (∀ l w' revents, setup rules w = Ret (l, w') -> poll (map snd l) = PollReady revents -> poll_ok l revents 0 w') ->
  returns (wait_next_event rules poll w) (λ '(_, rules', w'), pass rules rules' w w').
Proof.
  intros Hr Hnd Hw Hpoll. unfold wait_next_event.
  destruct (setup_ok rules w Hr Hnd Hw) as ([l w1] & Hset & Hp1 & Hwt & _). rewrite Hset. unfold mbind, outcome_bind at 1.
  specialize (Hpoll l w1). destruct (forallb _ l); [by apply returns_ret|].
  assert (∀ revents, poll_ok l revents 0 w1 ->
    returns ('(rules, w) ← process l revents 0 w1; Ret (Success, rules, w)) (λ '(_, rules', w'), pass rules rules' w w')) as Hproc.
  { intros revents Hp. eapply returns_bind; [apply process_ok; [|..|done|done]|].
    - apply (Forall_map fst). by eapply Forall_sublist; [apply (ps_rules _ _ _ _ Hp1)|].
    - by eapply sublist_NoDup; [exact Hnd|apply fmap_sublist, (ps_rules _ _ _ _ Hp1)].
    - apply (ps_inv _ _ _ _ Hp1).
    - intros [rs w2] ?. apply returns_ret. by eapply pass_trans. }
  destruct (poll (map snd l)) as [|errno|revents] eqn:Hq; [by apply returns_ret| |by apply Hproc, Hpoll].
  destruct (errno =? EINTR); [by apply returns_ret|]. apply Hproc. by intros k r ev Hk.
Qed.

(** *** A descriptor in error *)

(** The contract of [poll] where errors may be reported. *)
Definition poll_candid (l : list (Rule * Z)) (revents : nat -> Z) (idx : nat) (w : W) : Prop :=
  ∀ k r events, l !! k = Some (r, events) ->
    (flag (revents (idx + k)%nat) events = true -> Ready (rule_key r) w) ∧
    (flag (revents (idx + k)%nat) POLLHUP = true -> events ≠ 0 -> flag (revents (idx + k)%nat) events = false -> Hup (rule_key r) w).

(** [poll] is called and reports [POLLERR] or [POLLNVAL] for a rule's descriptor. *)
Definition reports_error (rules : list Rule) (poll : list Z -> poll_result) (w : W) : Prop :=
  ∃ l w' revents k, setup rules w = Ret (l, w') ∧ forallb (λ p, p.2 =? 0) l = false ∧ poll (map snd l) = PollReady revents ∧
    (k < length l)%nat ∧ flag (revents k) (Z.lor POLLERR POLLNVAL) = true.

Lemma process_app l1 l2 revents idx w :
  process (l1 ++ l2) revents idx w =
    ('(rs1, w1) ← process l1 revents idx w; '(rs2, w2) ← process l2 revents (idx + length l1)%nat w1; Ret (rs1 ++ rs2, w2)).
Proof.
  revert idx w. induction l1 as [|[r ev] l1 IH]; intros idx w; cbn [process app length].
  { rewrite Nat.add_0_r. cbn. by destruct (process l2 revents idx w) as [[]| | |]. }
  cbv zeta. rewrite Nat.add_succ_r, <- Nat.add_succ_l. destruct (flag _ (Z.lor _ _)); [done|].
  destruct (_ && _ && _); [destruct (rule_cancel r w); cbn; [apply IH|done..]|].
  destruct (if flag (revents idx) ev then _ else _) as [w1| | |]; cbn; [|done..]. rewrite IH.
  destruct (process l1 revents (S idx) w1) as [[rs1 w2]| | |]; cbn; [|done..]. by destruct (process l2 _ _ w2) as [[rs2 w3]| | |].
Qed.

(** The first of the errors among the rules. *)
Lemma first_error (l : list (Rule * Z)) revents k :
  (k < length l)%nat -> flag (revents k) (Z.lor POLLERR POLLNVAL) = true ->
  ∃ l1 p l2, l = l1 ++ p :: l2 ∧ flag (revents (length l1)) (Z.lor POLLERR POLLNVAL) = true ∧
    ∀ j, (j < length l1)%nat -> flag (revents j) (Z.lor POLLERR POLLNVAL) = false.
Proof.
  revert k. induction k as [k IH] using lt_wf_ind. intros Hk He.
  destruct (decide (Exists (λ j, flag (revents j) (Z.lor POLLERR POLLNVAL) = true) (seq 0 k))) as [Hex|Hno].
  - apply Exists_exists in Hex as (j & Hj%elem_of_seq & Hf). apply (IH j); [lia|lia|done].
  - destruct (nth_error l k) as [p|] eqn:Hp; [|by apply nth_error_None in Hp; lia].
    apply nth_error_split in Hp as (l1 & l2 & -> & <-). exists l1, p, l2. split_and!; [done..|].
    intros j Hj. destruct (flag (revents j) _) eqn:Hf; [|done]. exfalso. apply Hno, Exists_exists. exists j. split; [apply elem_of_seq; lia|exact Hf].
Qed.

(** A round in which a descriptor is in error throws, whatever the other rules
    did before. *)
Lemma wait_next_event_error rules poll w :
  Forall rule_ok rules -> NoDup (map rule_key rules) -> Inv w ->
  (∀ l w' revents, setup rules w = Ret (l, w') -> poll (map snd l) = PollReady revents -> poll_candid l revents 0 w') ->
  reports_error rules poll w ->
  wait_next_event rules poll w = Throw (runtime_error "EventLoop: error on polled file descriptor").
Proof.
  intros Hr Hnd Hw Hpoll (l & w' & revents & k & Hset & Hint & Hp & Hk & He). unfold wait_next_event. rewrite Hset. cbn. rewrite Hint, Hp.
  specialize (Hpoll _ _ _ Hset Hp). destruct (setup_ok rules w Hr Hnd Hw) as ([l0 w0] & Hset' & Hpass & Hwt & _).
  rewrite Hset in Hset'. injection Hset' as <- <-. destruct (first_error l revents k Hk He) as (l1 & p & l2 & -> & Hf & Hbefore).
  destruct (process_ok l1 revents 0 w') as ([rs1 w1] & Hrun & _).
  - apply (Forall_map fst). eapply Forall_sublist; [|exact Hr]. etrans; [|apply (ps_rules _ _ _ _ Hpass)]. apply fmap_sublist. by apply sublist_inserts_r.
  - eapply sublist_NoDup; [exact Hnd|]. apply fmap_sublist. etrans; [|apply (ps_rules _ _ _ _ Hpass)]. apply fmap_sublist. by apply sublist_inserts_r.
  - apply (ps_inv _ _ _ _ Hpass).
  - intros j r ev Hj. pose proof (lookup_lt_Some _ _ _ Hj). split; [by apply Hbefore|]. apply Hpoll. by apply lookup_app_l_Some.
  - unfold wanted in *. by apply Forall_app in Hwt as [? _].
  - rewrite process_app, Hrun. destruct p as [r ev]. cbn [mbind outcome_bind process Nat.add]. cbv zeta. by rewrite Hf.
Qed.

(** ** When the loop ends *)

(** No rule becomes interested because a later one is cancelled. *)
Definition quiet (r r' : Rule) : Prop :=
  ∀ w w', rule_interest r w = false -> rule_cancel r' w = Ret w' -> rule_interest r w' = false.

Lemma setup_quiet r rules w l w' :
  Forall (quiet r) rules -> rule_interest r w = false -> setup rules w = Ret (l, w') -> rule_interest r w' = false.
Proof.
  intros Hq. revert w l. induction Hq as [|r' rules Hr _ IH]; intros w l Hi; cbn [setup]; [by intros [= <- <-]|]. cbv zeta.
  assert (∀ l, (w ← rule_cancel r' w; setup rules w) = Ret (l, w') -> rule_interest r w' = false) as Hc.
  { intros l1. destruct (rule_cancel r' w) eqn:He; cbn; try done. intros. eapply IH; [|done]. by eapply Hr. }
  destruct (_ && _); [apply Hc|]. destruct (fd_closed _); [apply Hc|].
  destruct (setup rules w) as [[l1 w1]| | |] eqn:He; cbn; try done. intros [= _ <-]. by eapply IH.
Qed.

Lemma setup_idle rules w l w' :
  ForallOrdPairs quiet rules -> setup rules w = Ret (l, w') -> forallb (λ p, p.2 =? 0) l = true ->
  Forall (λ r, rule_interest r w' = false) (map fst l).
Proof.
  intros Hq. revert w l. induction Hq as [|r rules Hr _ IH]; intros w l; cbn [setup]; [by intros [= <- <-]|]. cbv zeta.
  assert (∀ l, (w ← rule_cancel r w; setup rules w) = Ret (l, w') -> forallb (λ p, p.2 =? 0) l = true ->
    Forall (λ r, rule_interest r w' = false) (map fst l)) as Hc.
  { intros l1. destruct (rule_cancel r w) eqn:He; cbn; try done. apply IH. }
  destruct (_ && _); [apply Hc|]. destruct (fd_closed _); [apply Hc|].
  destruct (setup rules w) as [[l1 w1]| | |] eqn:He; cbn; try done. intros [= <- <-]. cbn.
  intros [H1 H2]%andb_true_iff. constructor; [|by eapply IH].
  destruct (rule_interest r w) eqn:Hi; [by destruct (rule_direction r)|]. by eapply setup_quiet.
Qed.

(** The loop ends, unless a signal ends it, when no rule left is interested. *)
Lemma wait_next_event_exit rules poll w rules' w' :
  ForallOrdPairs quiet rules -> (∀ evs, poll evs ≠ PollError EINTR) ->
  wait_next_event rules poll w = Ret (Exit, rules', w') -> Forall (λ r, rule_interest r w' = false) rules'.
Proof.
  intros Hq Hsig. unfold wait_next_event. destruct (setup rules w) as [[l w1]| | |] eqn:He; cbn; try done.
  destruct (forallb _ l) eqn:Hall; [intros [= <- <-]; by eapply setup_idle|].
  destruct (poll (map snd l)) as [|errno|revents] eqn:Hp; [done| |by destruct (process _ _ _ _) as [[]| | |]].
  destruct (Z.eqb_spec errno EINTR) as [->|]; [by apply Hsig in Hp|]. by destruct (process _ _ _ _) as [[]| | |].
Qed.

(** ** A [poll] that keeps the contract: it reports what [readyb] says. *)
Definition poll_of (readyb : FD * Direction -> W -> bool) (rules : list Rule) (w : W) (_ : list Z) : poll_result :=
  match setup rules w with
  | Ret (l, w') => PollReady (λ i, match l !! i with
                                   | Some (r, _) => if readyb (rule_key r) w' then events_of (rule_direction r) else 0
                                   | None => 0
                                   end)
  | _ => PollTimeout
  end.

Lemma poll_of_ok readyb rules w l w' revents :
  (∀ k w, readyb k w = true -> Ready k w) ->
  setup rules w = Ret (l, w') -> poll_of readyb rules w (map snd l) = PollReady revents -> poll_ok l revents 0 w'.
Proof.
  intros Hready Hset. assert (∀ f g, PollReady f = PollReady g -> g = f) as Hinj by congruence.
  unfold poll_of. rewrite Hset. intros ->%Hinj k r ev Hk. change (0 + k)%nat with k. rewrite Hk.
  destruct (readyb (rule_key r) w') eqn:Hr; [|by unfold flag; rewrite !Z.land_0_l].
  split_and!; [by destruct (rule_direction r); unfold flag; cbn|by intros _; apply Hready|].
  by destruct (rule_direction r); unfold flag; cbn.
Qed.

(** C24: A round of the event loop whose rules serve their descriptors, none of
    which is in error, returns: there is no false alarm of busy waiting. The invariant of the callbacks
    holds after it; the rules left are some of those there were, in their
    order, and each of the others was cancelled. *)
Theorem wait_next_event_safe rules poll w :
  Forall rule_ok rules -> NoDup (map rule_key rules) -> Inv w ->
  (∀ l w' revents, setup rules w = Ret (l, w') -> poll (map snd l) = PollReady revents -> poll_ok l revents 0 w') ->
  returns (wait_next_event rules poll w) (λ '(_, rules', w'), Inv w' ∧ rules' `sublist_of` rules ∧
    ∀ k, k ∈ map rule_key rules -> k ∈ map rule_key rules' ∨ Gone k w').
Proof.
  intros Hr Hnd Hw Hpoll. eapply returns_mono; [by apply wait_next_event_pass|].
  intros [[res rules'] w'] [H1 H2 H3 H4]. by split_and!.
Qed.

End eventloop.
