(* ===== verification/Kernel.v ===== *)
(** The kernel's side of descriptors that do not block.

    Of a descriptor that is read, what has arrived on it so far, how far it has
    been read and whether it has ended; of one that is written, what was written
    to it, whether it takes more now and whether it was shut down. How many bytes
    a call moves is up to the kernel and an argument. *)
From S2P Require Import Prelude Buffer ByteStream FileDescriptor.

Record Source := mkSource {
  src_arrived : list byte;
  src_pos : Z;
  src_ended : bool
}.

Record Sink := mkSink {
  snk_written : list byte;
  snk_full : bool;
  snk_shut : bool
}.

Definition EAGAIN : Z := 11.

Definition src_avail (s : Source) : list byte := zdrop (src_pos s) (src_arrived s).

(** [::read] of a descriptor that does not block. *)
Definition kernel_read (chunk : Z) (s : Source) (size : Z) : sysret * list byte * Source :=
  match src_avail s with
  | [] => (if src_ended s then sys_ok 0 else mkSys (-1) EAGAIN, [], s)
  | avail =>
      let n := Z.min size (Z.min (zlen avail) (Z.max 1 chunk)) in
      (sys_ok n, ztake n avail, mkSource (src_arrived s) (src_pos s + n) (src_ended s))
  end.

(** [::writev] of a descriptor that does not block and whose reader is there (no
    [EPIPE] or [ECONNRESET]); after it the descriptor is taken to be full, until it
    is polled again. *)
Definition kernel_write (room : Z) (s : Sink) (size : Z) : sysret :=
  if snk_full s then mkSys (-1) EAGAIN else sys_ok (Z.min size (Z.max 1 room)).

Definition sink_take (s : Sink) (out : list byte) : Sink := mkSink (snk_written s ++ out) true (snk_shut s).
Definition sink_shut (s : Sink) : Sink := mkSink (snk_written s) (snk_full s) true.

Definition arrive (data : list byte) (ended : bool) (s : Source) : Source :=
  if src_ended s then s else mkSource (src_arrived s ++ data) (src_pos s) ended.
Definition drain (s : Sink) : Sink := mkSink (snk_written s) false (snk_shut s).

(** What both clients do with a stream and a descriptor: write its front, once,
    and drop as much as was written. *)
Definition write_front (limit room : Z) (fd : FDWrapper) (stream : ByteStream) (s : Sink) : outcome (FDWrapper * ByteStream * Sink) :=
  let bytes_to_write := Z.min limit (buffer_size stream) in
  let view := peek_output stream bytes_to_write in
  '(fd, bytes_written, out) ← fd_write fd [view] false [kernel_write room s (zlen view)];
  stream ← pop_output stream bytes_written;
  Ret (fd, stream, sink_take s out).

(** ** What the calls do *)

Definition src_ready (s : Source) : Prop := src_avail s ≠ [] ∨ src_ended s = true.
Definition src_done (s : Source) : Prop := src_ended s = true ∧ src_pos s = zlen (src_arrived s).

Lemma src_avail_nil s : 0 <= src_pos s <= zlen (src_arrived s) -> src_avail s = [] -> src_pos s = zlen (src_arrived s).
Proof. unfold src_avail. intros ? H%(f_equal zlen). rewrite zlen_zdrop in H. change (zlen []) with 0 in H. lia. Qed.

(** What [kernel_read] hands out: the next bytes, and none only at the end of
    the source or when none are asked for. *)
Lemma kernel_read_ok c s size :
  0 <= src_pos s <= zlen (src_arrived s) -> src_ready s -> 0 <= size ->
  ∃ data s', kernel_read c s size = (sys_ok (zlen data), data, s') ∧ zlen data <= size ∧
    src_arrived s' = src_arrived s ∧ src_ended s' = src_ended s ∧ src_pos s' = src_pos s + zlen data ∧
    src_pos s' <= zlen (src_arrived s) ∧ data = ztake (zlen data) (src_avail s) ∧ (zlen data = 0 -> 0 < size -> src_done s').
Proof.
  intros Hpos Hr Hs. unfold kernel_read. destruct (src_avail s) as [|b av] eqn:Hav.
  - destruct Hr as [|He]; [done|]. rewrite He. exists [], s. pose proof (src_avail_nil _ Hpos Hav).
    change (zlen []) with 0. split_and!; try done; lia.
  - set (avail := b :: av) in *. pose proof (f_equal zlen Hav) as Hl. unfold src_avail in Hl. rewrite zlen_zdrop in Hl.
    assert (1 <= zlen avail) by (unfold avail; rewrite zlen_cons; pose proof (zlen_nonneg av); lia).
    set (n := Z.min _ _). assert (0 <= n <= zlen avail ∧ n <= size ∧ (n = 0 -> size = 0)) as (Hn0 & Hns & Hnz) by (unfold n; lia).
    assert (zlen (ztake n avail) = n) as Hn by (clearbody n; rewrite zlen_ztake; lia).
    exists (ztake n avail), (mkSource (src_arrived s) (src_pos s + n) (src_ended s)). rewrite Hn. clearbody n.
    cbn [src_arrived src_pos src_ended]. split_and!; try done; lia.
Qed.

Lemma u32_succ_ne z : u32 (z + 1) ≠ z.
Proof. unfold u32. intros H. assert (is_u32 z) as Hz by (rewrite <- H; apply u32_range). unfold is_u32 in Hz.
  destruct (Z.eq_dec z (2 ^ 32 - 1)) as [->|]; [done|]. rewrite Z.mod_small in H; lia. Qed.

Lemma u32_succ2_ne z : u32 (u32 (z + 1) + 1) ≠ z.
Proof.
  unfold u32. rewrite Zplus_mod_idemp_l. intros H. assert (is_u32 z) as Hz by (rewrite <- H; apply u32_range).
  unfold is_u32 in Hz. Z.to_euclidean_division_equations. lia.
Qed.

(** The sink takes the front of the stream. *)
Lemma write_front_ok limit room fd stream snk :
  bs_ok stream -> snk_full snk = false -> 0 <= limit < 2 ^ 31 ->
  returns (write_front limit room fd stream snk) (λ '(fd', stream', snk'),
    fd' = register_write fd ∧ bs_ok stream' ∧ bs_cap stream' = bs_cap stream ∧
    bs_error stream' = bs_error stream ∧ bs_input_ended stream' = bs_input_ended stream ∧
    bs_total_written stream' = bs_total_written stream ∧
    ∃ n, 0 <= n ∧ snk' = sink_take snk (ztake n (contents stream)) ∧ contents stream' = zdrop n (contents stream) ∧
      bs_total_read stream' = u64 (bs_total_read stream + Z.min n (zlen (contents stream)))).
Proof.
  intros Hok Hfull Hlim. unfold write_front, kernel_write. rewrite Hfull.
  rewrite buffer_size_contents, peek_output_spec. set (view := ztake _ _).
  assert (zlen view <= limit ∧ ztake (zlen view) (contents stream) = view) as [Hvl Hview].
  { unfold view. pose proof (zlen_nonneg (contents stream)). rewrite zlen_ztake. split; [lia|]. f_equal. lia. }
  clearbody view. pose proof (zlen_nonneg view). set (n := Z.min _ _).
  assert (0 <= n <= zlen view ∧ (n = 0 -> zlen view = 0)) as [Hn Hn0] by (unfold n; lia). clearbody n.
  assert (view_size [view] = zlen view) as Hvs by (cbn [view_size]; lia).
  rewrite fd_write_first by (rewrite ?Hvs; done || lia).
  rewrite concat_cons, app_nil_r. unfold mbind, outcome_bind at 1.
  eapply returns_bind; [apply pop_output_spec; [done|lia]|]. intros stream' (Hc & Hrd & Hcap' & Hw & Hie & Her & Hok').
  apply returns_ret. split_and!; try done. exists n. split_and!; try done; [lia|].
  by rewrite <- Hview, ztake_ztake, Z.min_l by lia.
Qed.
