(* ===== verification/StreamCopy.v ===== *)
(** [apps/bidirectional_stream_copy.cc]: standard input to a socket and the
    socket to standard output, by four rules of an event loop.

    The kernel's side of the three descriptors is part of the state. How many
    bytes a call of [read] or [write] moves is up to the kernel: [chunk] and
    [room] give it, as functions of the state. [fcntl], [shutdown] and [close]
    succeed. *)
From S2P Require Import Prelude Buffer ByteStream FileDescriptor EventLoop Kernel.

(** ** The program *)

Definition max_copy_length : Z := 65536.
Definition copy_buffer_size : Z := 1048576.

Record world := mkWorld {
  w_input : FDWrapper;
  w_output : FDWrapper;
  w_socket : FDWrapper;
  w_outbound : ByteStream;
  w_inbound : ByteStream;
  w_outbound_shutdown : bool;
  w_inbound_shutdown : bool;
  w_stdin : Source;
  w_peer : Source;
  w_net : Sink;
  w_stdout : Sink
}.

Inductive copy_fd := Input | Output | Socket.

#[export] Instance copy_fd_eq_dec : EqDecision copy_fd.
Proof. solve_decision. Defined.

Definition copy_get_fd (fd : copy_fd) (w : world) : FDWrapper :=
  match fd with Input => w_input w | Output => w_output w | Socket => w_socket w end.

(** The body that rules 1 and 3 share: a stream is filled from a descriptor. *)
Definition copy_in (chunk : Z) (fd : FDWrapper) (stream : ByteStream) (s : Source) : outcome (FDWrapper * ByteStream * Source) :=
  let limit := remaining_capacity stream in
  let '(r, data, s) := kernel_read chunk s (Z.min BUFFER_SIZE limit) in
  '(fd, data) ← fd_read fd limit r data;
  let stream := (write stream data).1 in
  Ret (fd, if fd_eof fd then end_input stream else stream, s).

(** The body that rules 2 and 4 share: a stream is emptied into a descriptor. *)
Definition copy_out (room : Z) (fd : FDWrapper) (stream : ByteStream) (s : Sink) : outcome (FDWrapper * ByteStream * Sink) :=
  write_front max_copy_length room fd stream s.

Section copy.
Context (chunk room : world -> Z).

(** Rule 1: standard input into the outbound stream. *)
Definition read_stdin (w : world) : outcome world :=
  '(fd, stream, s) ← copy_in (chunk w) (w_input w) (w_outbound w) (w_stdin w);
  Ret (mkWorld fd (w_output w) (w_socket w) stream (w_inbound w) (w_outbound_shutdown w) (w_inbound_shutdown w)
         s (w_peer w) (w_net w) (w_stdout w)).

Definition wants_stdin (w : world) : bool :=
  negb (error (w_outbound w)) && (0 <? remaining_capacity (w_outbound w)) && negb (error (w_inbound w)).

Definition set_outbound (stream : ByteStream) (w : world) : world :=
  mkWorld (w_input w) (w_output w) (w_socket w) stream (w_inbound w) (w_outbound_shutdown w) (w_inbound_shutdown w)
    (w_stdin w) (w_peer w) (w_net w) (w_stdout w).
Definition set_inbound (stream : ByteStream) (w : world) : world :=
  mkWorld (w_input w) (w_output w) (w_socket w) (w_outbound w) stream (w_outbound_shutdown w) (w_inbound_shutdown w)
    (w_stdin w) (w_peer w) (w_net w) (w_stdout w).

(** Rule 2: the outbound stream into the socket. *)
Definition write_socket (w : world) : outcome world :=
  '(fd, stream, s) ← copy_out (room w) (w_socket w) (w_outbound w) (w_net w);
  '(fd, shutdown, s) ← (if eof stream then fd ← socket_shutdown fd SHUT_WR (sys_ok 0); Ret (fd, true, sink_shut s)
                        else Ret (fd, w_outbound_shutdown w, s));
  Ret (mkWorld (w_input w) (w_output w) fd stream (w_inbound w) shutdown (w_inbound_shutdown w)
         (w_stdin w) (w_peer w) s (w_stdout w)).

Definition wants_write_socket (w : world) : bool :=
  negb (buffer_empty (w_outbound w)) || (eof (w_outbound w) && negb (w_outbound_shutdown w)).

(** Rule 3: the socket into the inbound stream. *)
Definition read_socket (w : world) : outcome world :=
  '(fd, stream, s) ← copy_in (chunk w) (w_socket w) (w_inbound w) (w_peer w);
  Ret (mkWorld (w_input w) (w_output w) fd (w_outbound w) stream (w_outbound_shutdown w) (w_inbound_shutdown w)
         (w_stdin w) s (w_net w) (w_stdout w)).

Definition wants_read_socket (w : world) : bool :=
  negb (error (w_inbound w)) && (0 <? remaining_capacity (w_inbound w)) && negb (error (w_outbound w)).

(** Rule 4: the inbound stream into standard output. *)
Definition write_stdout (w : world) : outcome world :=
  '(fd, stream, s) ← copy_out (room w) (w_output w) (w_inbound w) (w_stdout w);
  '(fd, shutdown, s) ← (if eof stream then fd ← fd_close fd (sys_ok 0); Ret (fd, true, sink_shut s)
                        else Ret (fd, w_inbound_shutdown w, s));
  Ret (mkWorld (w_input w) fd (w_socket w) (w_outbound w) stream (w_outbound_shutdown w) shutdown
         (w_stdin w) (w_peer w) (w_net w) s).

Definition wants_stdout (w : world) : bool :=
  negb (buffer_empty (w_inbound w)) || (eof (w_inbound w) && negb (w_inbound_shutdown w)).

Definition copy_rules : list (@Rule world copy_fd) :=
  let rules := add_rule [] Input In read_stdin wants_stdin (λ w, Ret (set_outbound (end_input (w_outbound w)) w)) in
  let rules := add_rule rules Socket Out write_socket wants_write_socket (λ w, Ret (set_outbound (set_error (w_outbound w)) w)) in
  let rules := add_rule rules Socket In read_socket wants_read_socket (λ w, Ret (set_inbound (end_input (w_inbound w)) w)) in
  add_rule rules Output Out write_stdout wants_stdout (λ w, Ret (set_inbound (set_error (w_inbound w)) w)).

(** The state at the start of the loop, for a connected socket. *)
Definition copy_init (socket : FDWrapper) : world :=
  mkWorld (mkFD 0 false false 0 0) (mkFD 1 false false 0 0) socket (new_ByteStream copy_buffer_size) (new_ByteStream copy_buffer_size)
    false false (mkSource [] 0 false) (mkSource [] 0 false) (mkSink [] false false) (mkSink [] false false).

Definition copy_round (rules : list (@Rule world copy_fd)) (poll : list Z -> poll_result) (w : world) :=
  wait_next_event copy_get_fd rules poll w.

(** ** One direction

    What has been read is what was written followed by what is buffered; the
    stream ends only when its source has been read to the end, and is shut down
    only when all of it was written. *)
Record copied (fd : FDWrapper) (s : Source) (stream : ByteStream) (shutdown : bool) (snk : Sink) : Prop := {
  cp_stream : bs_ok stream;
  cp_cap : bs_cap stream = copy_buffer_size;
  cp_pos : 0 <= src_pos s <= zlen (src_arrived s);
  cp_bytes : ztake (src_pos s) (src_arrived s) = snk_written snk ++ contents stream;
  cp_ended : bs_input_ended stream = true -> src_ended s = true ∧ src_pos s = zlen (src_arrived s);
  cp_eof : fd_eof fd = true -> bs_input_ended stream = true;
  cp_shutdown : shutdown = true -> bs_input_ended stream = true ∧ contents stream = [];
  cp_shut : snk_shut snk = shutdown
}.

(** The source moves on; a read is counted, and end of file is recorded only
    at the end of the source. *)
Lemma copy_in_ok c fd s stream shutdown snk :
  copied fd s stream shutdown snk -> src_ready s ->
  returns (copy_in c fd stream s) (λ '(fd', stream', s'),
    copied fd' s' stream' shutdown snk ∧ bs_error stream' = bs_error stream ∧
    (bs_input_ended stream = true -> bs_input_ended stream' = true) ∧
    src_arrived s' = src_arrived s ∧ src_ended s' = src_ended s ∧
    (fd' = register_read fd ∨ fd' = register_read (set_eof fd))).
Proof.
  intros [Hok Hcap Hpos Hb Hend Heof Hsd Hshut] Hr. unfold copy_in.
  pose proof (remaining_capacity_spec _ Hok) as Hrc. pose proof (ok_fits _ Hok). rewrite Hcap in *.
  destruct (kernel_read_ok c s (Z.min BUFFER_SIZE (remaining_capacity stream))) as
    (data & s' & -> & Hl & Har & Hse & Hp & Hple & Hdata & Hdone); [done|done|unfold BUFFER_SIZE; lia|].
  rewrite fd_read_ok by done. unfold mbind, outcome_bind.
  destruct (write stream data) as [stream1 n] eqn:Hw. pose proof (write_ok _ data Hok) as Hok1. rewrite Hw in Hok1. cbn [fst] in *.
  destruct (write_spec _ _ _ _ Hok Hw) as (Hn & Hc1 & _ & Hcap1 & _ & Hie & Her).
  pose proof (zlen_nonneg data). assert (n = zlen data) as -> by lia. rewrite ztake_ge in Hc1 by lia.
  assert (ztake (src_pos s') (src_arrived s') = snk_written snk ++ contents stream1) as Hbytes.
  { rewrite Har, Hp, Hc1, app_assoc, <- Hb. rewrite Hdata at 2. apply ztake_add; lia. }
  assert (bs_input_ended stream = true -> src_ended s' = true ∧ src_pos s' = zlen (src_arrived s')) as Hend'.
  { intros [He1 He2]%Hend. rewrite Hse, Har. split; [done|lia]. }
  assert (shutdown = true -> contents stream1 = []) as Hsd'.
  { intros [? Hc]%Hsd. rewrite Hc in Hc1. destruct (Hend' ltac:(done)). rewrite Har in *.
    assert (data = []) as -> by (apply zlen_0_nil; destruct (Hend ltac:(done)); lia). by rewrite Hc1. }
  set (fd1 := if _ && _ then set_eof fd else fd).
  assert (fd_eof fd1 = true -> src_ended s' = true ∧ src_pos s' = zlen (src_arrived s')) as Heof1.
  { unfold fd1. destruct (_ && _) eqn:Hz; [|by intros ?%Heof%Hend'].
    apply andb_true_iff in Hz as [?%Z.ltb_lt ?%Z.eqb_eq]. intros _. apply Hdone; unfold BUFFER_SIZE; lia. }
  apply returns_ret. cbn [fd_eof register_read].
  split_and!; try done; [|by destruct (fd_eof fd1)|by destruct (fd_eof fd1); rewrite ?Hie|by unfold fd1; destruct (_ && _); auto].
  destruct (fd_eof fd1) eqn:He; split; cbn; rewrite ?Hcap1, ?Har, ?Hie, ?He in *; auto; try done; try lia.
  intros Hs. split; [by apply Hsd|by apply Hsd'].
Qed.

(** The sink takes the front of the stream. *)
Lemma copy_out_ok c fd0 fd s stream shutdown snk :
  copied fd0 s stream shutdown snk -> snk_full snk = false ->
  returns (copy_out c fd stream snk) (λ '(fd', stream', snk'),
    copied fd0 s stream' shutdown snk' ∧ fd' = register_write fd ∧
    bs_error stream' = bs_error stream ∧ bs_input_ended stream' = bs_input_ended stream).
Proof.
  intros [Hok Hcap Hpos Hb Hend Heof Hsd Hshut] Hfull. unfold copy_out.
  eapply returns_mono; [apply write_front_ok; [done|done|unfold max_copy_length; lia]|].
  intros [[fd' stream'] snk'] (-> & Hok' & Hcap' & Her & Hie & _ & n & Hn & -> & Hc & _).
  split_and!; try done. split; rewrite ?Hie, ?Hcap'; auto.
  - cbn. rewrite Hb, <- app_assoc, Hc. by rewrite ztake_zdrop.
  - intros [? Hcn]%Hsd. split; [done|]. by rewrite Hc, Hcn, zdrop_nil.
Qed.
(** ** Both directions *)

Record copy_inv (w : world) : Prop := {
  ci_out : copied (w_input w) (w_stdin w) (w_outbound w) (w_outbound_shutdown w) (w_net w);
  ci_in : copied (w_socket w) (w_peer w) (w_inbound w) (w_inbound_shutdown w) (w_stdout w);
  ci_input : fd_closed (w_input w) = false;
  ci_socket : fd_closed (w_socket w) = false;
  ci_output : fd_closed (w_output w) = w_inbound_shutdown w
}.

Definition copy_ready (k : copy_fd * Direction) (w : world) : Prop :=
  match k with
  | (Input, In) => src_ready (w_stdin w)
  | (Socket, In) => src_ready (w_peer w)
  | (Socket, Out) => snk_full (w_net w) = false
  | (Output, Out) => snk_full (w_stdout w) = false ∧ fd_closed (w_output w) = false
  | _ => False
  end.

(** A hangup: a source that has ended and was read to the end; nothing is
    known of a sink. *)
Definition copy_hup (k : copy_fd * Direction) (w : world) : Prop :=
  match k with
  | (Input, In) => src_done (w_stdin w)
  | (Socket, In) => src_done (w_peer w)
  | _ => True
  end.

Definition copy_gone (k : copy_fd * Direction) (w : world) : Prop :=
  match k with
  | (Input, In) => bs_input_ended (w_outbound w) = true
  | (Socket, In) => bs_input_ended (w_inbound w) = true
  | (Socket, Out) => bs_error (w_outbound w) = true
  | (Output, Out) => bs_error (w_inbound w) = true
  | _ => True
  end.

(** The invariant of a direction does not look at what writing does to the
    descriptor, and survives the end of input and an error. *)
Lemma copied_fd fd fd' s stream shutdown snk :
  fd_eof fd' = fd_eof fd -> copied fd s stream shutdown snk -> copied fd' s stream shutdown snk.
Proof. intros He []. split; auto. by rewrite He. Qed.

Lemma copied_end fd s stream shutdown snk :
  src_done s -> copied fd s stream shutdown snk -> copied fd s (end_input stream) shutdown snk.
Proof. intros Hd []. split; cbn; auto. intros ?. split; [done|by apply cp_shutdown0]. Qed.

Lemma copied_error fd s stream shutdown snk :
  copied fd s stream shutdown snk -> copied fd s (set_error stream) shutdown snk.
Proof. intros []. split; cbn; auto. Qed.

Lemma copied_shut fd s stream shutdown snk :
  eof stream = true -> copied fd s stream shutdown snk -> copied fd s stream true (sink_shut snk).
Proof. intros [??]%eof_spec []. split; cbn; auto. Qed.

Abbreviation copy_rule_ok := (rule_ok copy_get_fd copy_inv copy_ready copy_hup (λ _ _, True) copy_gone).
Abbreviation copy_kept := (kept copy_ready copy_hup (λ _ _, True) copy_gone).

(** A step that changes only one descriptor and direction keeps the rest. *)
Ltac solve_kept := split; intros [[] []]; cbn; try done; try congruence; auto.
Ltac start_rule := split; [done|..]; unfold rule_key; cbn [rule_fd rule_direction rule_callback rule_interest rule_cancel].

Lemma copy_rule1_ok : copy_rule_ok (mkRule Input In read_stdin wants_stdin (λ w, Ret (set_outbound (end_input (w_outbound w)) w))).
Proof.
  start_rule.
  - intros w [Ho Hi H1 H2 H3] Hr _. unfold read_stdin.
    eapply returns_bind; [by apply (copy_in_ok _ _ _ _ _ _ Ho)|]. intros [[fd stream] s] (Hc & He & Hie & Har & Hen & Hfd).
    apply returns_ret. split_and!.
    + split; cbn; try done. by destruct Hfd as [-> | ->].
    + left. unfold service_count. cbn. destruct Hfd as [-> | ->]; cbn; apply u32_succ_ne.
    + solve_kept.
  - intros w Hw Hwhy. apply returns_ret. assert (src_done (w_stdin w)) as Hd.
    { destruct Hwhy as [[_ He]|[He|He]]; [|cbn in He; by rewrite (ci_input _ Hw) in He|done].
      by apply (cp_ended _ _ _ _ _ (ci_out _ Hw)), (cp_eof _ _ _ _ _ (ci_out _ Hw)). }
    destruct Hw. split_and!; [split; cbn; auto using copied_end|done|solve_kept].
Qed.

Lemma copy_rule2_ok : copy_rule_ok (mkRule Socket Out write_socket wants_write_socket (λ w, Ret (set_outbound (set_error (w_outbound w)) w))).
Proof.
  start_rule.
  - intros w [Ho Hi H1 H2 H3] Hr _. unfold write_socket.
    eapply returns_bind; [by apply (copy_out_ok _ _ (w_socket w) _ _ _ _ Ho)|]. intros [[fd stream] s] (Hc & -> & He & Hie).
    destruct (eof stream) eqn:Heof; cbn; apply returns_ret; split_and!.
    + split; cbn; try done; [by eapply copied_shut|by eapply copied_fd; [|exact Hi]].
    + right. unfold wants_write_socket. cbn. rewrite Heof. by unfold eof in Heof; apply andb_true_iff in Heof as [_ ->].
    + solve_kept.
    + split; cbn; try done. by eapply copied_fd; [|exact Hi].
    + left. unfold service_count. cbn. apply u32_succ_ne.
    + solve_kept.
  - intros w Hw _. apply returns_ret. destruct Hw. split_and!; [split; cbn; auto using copied_error|done|solve_kept].
Qed.

Lemma copy_rule3_ok : copy_rule_ok (mkRule Socket In read_socket wants_read_socket (λ w, Ret (set_inbound (end_input (w_inbound w)) w))).
Proof.
  start_rule.
  - intros w [Ho Hi H1 H2 H3] Hr _. unfold read_socket.
    eapply returns_bind; [by apply (copy_in_ok _ _ _ _ _ _ Hi)|]. intros [[fd stream] s] (Hc & He & Hie & Har & Hen & Hfd).
    apply returns_ret. split_and!.
    + split; cbn; try done. by destruct Hfd as [-> | ->].
    + left. unfold service_count. cbn. destruct Hfd as [-> | ->]; cbn; apply u32_succ_ne.
    + solve_kept.
  - intros w Hw Hwhy. apply returns_ret. assert (src_done (w_peer w)) as Hd.
    { destruct Hwhy as [[_ He]|[He|He]]; [|cbn in He; by rewrite (ci_socket _ Hw) in He|done].
      by apply (cp_ended _ _ _ _ _ (ci_in _ Hw)), (cp_eof _ _ _ _ _ (ci_in _ Hw)). }
    destruct Hw. split_and!; [split; cbn; auto using copied_end|done|solve_kept].
Qed.

Lemma copy_rule4_ok : copy_rule_ok (mkRule Output Out write_stdout wants_stdout (λ w, Ret (set_inbound (set_error (w_inbound w)) w))).
Proof.
  start_rule.
  - intros w [Ho Hi H1 H2 H3] [Hr Hcl] _. unfold write_stdout.
    eapply returns_bind; [by apply (copy_out_ok _ _ (w_output w) _ _ _ _ Hi)|]. intros [[fd stream] s] (Hc & -> & He & Hie).
    destruct (eof stream) eqn:Heof; cbn; apply returns_ret; split_and!.
    + split; cbn; try done. by eapply copied_shut.
    + left. unfold service_count. cbn. apply u32_succ_ne.
    + solve_kept.
    + split; cbn; done.
    + left. unfold service_count. cbn. apply u32_succ_ne.
    + solve_kept.
  - intros w Hw _. apply returns_ret. destruct Hw. split_and!; [split; cbn; auto using copied_error|done|solve_kept].
Qed.

Lemma copy_rules_ok : Forall copy_rule_ok copy_rules.
Proof.
  constructor; [apply copy_rule1_ok|]. constructor; [apply copy_rule2_ok|]. constructor; [apply copy_rule3_ok|].
  constructor; [apply copy_rule4_ok|constructor].
Qed.

Lemma copy_rules_keys : map rule_key copy_rules = [(Input, In); (Socket, Out); (Socket, In); (Output, Out)].
Proof. done. Qed.

Lemma copy_rules_quiet : ForallOrdPairs quiet copy_rules.
Proof.
  repeat constructor; intros w w' Hi [= <-]; revert Hi; cbn; unfold wants_stdin, wants_write_socket, wants_read_socket, error; cbn;
    rewrite ?andb_false_r; done.
Qed.

(** ** Runs

    Between the rounds of the loop data arrives, streams end and descriptors
    take more; the polls keep their contract. *)
Definition honest (rules : list (@Rule world copy_fd)) (poll : list Z -> poll_result) (w : world) : Prop :=
  ∀ l w' revents, setup copy_get_fd rules w = Ret (l, w') -> poll (map snd l) = PollReady revents ->
    poll_ok copy_ready copy_hup l revents 0 w'.

Definition kernel_step (data_in data_peer : list byte) (end_in end_peer : bool) (w : world) : world :=
  mkWorld (w_input w) (w_output w) (w_socket w) (w_outbound w) (w_inbound w) (w_outbound_shutdown w) (w_inbound_shutdown w)
    (arrive data_in end_in (w_stdin w)) (arrive data_peer end_peer (w_peer w)) (drain (w_net w)) (drain (w_stdout w)).

Inductive copy_reach (socket : FDWrapper) : list (@Rule world copy_fd) -> world -> Prop :=
| reach_init : copy_reach socket copy_rules (copy_init socket)
| reach_kernel rules w data_in data_peer end_in end_peer :
    copy_reach socket rules w -> copy_reach socket rules (kernel_step data_in data_peer end_in end_peer w)
| reach_round rules w poll res rules' w' :
    copy_reach socket rules w -> honest rules poll w -> copy_round rules poll w = Ret (res, rules', w') -> copy_reach socket rules' w'.

(** What holds between rounds: the rules left are some of the four, and each
    of the others left its mark. *)
Record loop_inv (rules : list (@Rule world copy_fd)) (w : world) : Prop := {
  li_inv : copy_inv w;
  li_rules : rules `sublist_of` copy_rules;
  li_gone k : k ∈ map rule_key copy_rules -> k ∈ map rule_key rules ∨ copy_gone k w
}.

Lemma copy_rules_NoDup : NoDup (map rule_key copy_rules).
Proof. rewrite copy_rules_keys. by apply (bool_decide_unpack _). Qed.

Lemma round_ok rules poll w :
  loop_inv rules w -> honest rules poll w ->
  returns (copy_round rules poll w) (λ '(_, rules', w'), loop_inv rules' w').
Proof.
  intros [Hw Hr Hg] Hp. unfold copy_round. eapply returns_mono; [apply (wait_next_event_pass copy_get_fd copy_inv copy_ready copy_hup (λ _ _, True) copy_gone)|].
  - eapply Forall_sublist; [exact Hr|apply copy_rules_ok].
  - eapply (sublist_NoDup _ (map rule_key copy_rules)); [apply copy_rules_NoDup|by apply fmap_sublist].
  - done.
  - done.
  - intros [[res rules'] w'] [H1 H2 H3 H4]. split; [done|by etrans|]. intros k Hk. destruct (Hg k Hk) as [Hk'|]; auto.
Qed.

(** The same for a [poll] that may report a descriptor in error. *)
Definition candid (rules : list (@Rule world copy_fd)) (poll : list Z -> poll_result) (w : world) : Prop :=
  ∀ l w' revents, setup copy_get_fd rules w = Ret (l, w') -> poll (map snd l) = PollReady revents ->
    poll_candid copy_ready copy_hup l revents 0 w'.

Lemma round_error rules poll w :
  loop_inv rules w -> candid rules poll w -> reports_error copy_get_fd rules poll w ->
  copy_round rules poll w = Throw (runtime_error "EventLoop: error on polled file descriptor").
Proof.
  intros [Hw Hr Hg] Hp He. apply (wait_next_event_error copy_get_fd copy_inv copy_ready copy_hup (λ _ _, True) copy_gone); try done.
  - eapply Forall_sublist; [exact Hr|apply copy_rules_ok].
  - eapply (sublist_NoDup _ (map rule_key copy_rules)); [apply copy_rules_NoDup|by apply fmap_sublist].
Qed.

Lemma copied_kernel fd s stream shutdown snk data e :
  copied fd s stream shutdown snk -> copied fd (arrive data e s) stream shutdown (drain snk).
Proof.
  intros []. unfold arrive. destruct (src_ended s) eqn:He; split; cbn; auto.
  - intros [_ ?]%cp_ended0. done.
  - rewrite zlen_app. pose proof (zlen_nonneg data). lia.
  - rewrite ztake_app_le by lia. done.
  - intros [? _]%cp_ended0. done.
Qed.

Lemma init_inv socket : fd_eof socket = false -> fd_closed socket = false -> copy_inv (copy_init socket).
Proof. intros He Hc. split; cbn; try done; (split; cbn; rewrite ?He; try done; by apply new_ok). Qed.

Lemma reach_inv socket rules w :
  fd_eof socket = false -> fd_closed socket = false -> copy_reach socket rules w -> loop_inv rules w.
Proof.
  intros He Hc. induction 1 as [|rules w ???? _ IH|rules w poll res rules' w' _ IH Hp Hrun].
  - split; [by apply init_inv|done|by left].
  - destruct IH as [[] ? Hg]. split; [split; cbn; auto using copied_kernel|done|]. intros k Hk. destruct (Hg k Hk) as [|Hk']; [by left|right].
    by destruct k as [[] []].
  - destruct (round_ok _ _ _ IH Hp) as ([[]] & Hret & ?). by rewrite Hrun in Hret; injection Hret as <- <- <-.
Qed.

(** ** What the loop achieves *)

(** Everything the source carried, up to its end, has been written, and the
    sink was then shut. *)
Definition complete (s : Source) (snk : Sink) : Prop :=
  src_ended s = true ∧ snk_written snk = src_arrived s ∧ snk_shut snk = true.

Lemma copied_prefix fd s stream shutdown snk :
  copied fd s stream shutdown snk -> ∃ rest, src_arrived s = snk_written snk ++ rest.
Proof.
  intros H. exists (contents stream ++ src_avail s). rewrite app_assoc, <- (cp_bytes _ _ _ _ _ H).
  unfold src_avail. by rewrite ztake_zdrop.
Qed.

Lemma copied_complete fd s stream snk : copied fd s stream true snk -> complete s snk.
Proof.
  intros []. destruct (cp_shutdown0 eq_refl) as [H1 H2]. destruct (cp_ended0 H1) as [H3 H4]. split_and!; [done| |done].
  by rewrite H2, app_nil_r, H4, ztake_ge in cp_bytes0 by lia.
Qed.

(** C22: copying between standard input and output and a socket loses, repeats
    and reorders nothing. However the kernel splits reads and writes (which do not
    fail, except for the lack of data or room) and data arrives, at every moment
    what was written on either side is a prefix of what arrived on the other, and a
    side is shut down only after everything, up to the end of the other side's
    stream, was written. A round of the loop in which [poll] reports no descriptor
    in error does not throw; a round in which it reports one, such as standard
    output when its reader is gone, throws, and with that the copy ends. *)
Theorem stream_copy_safe socket rules w :
  fd_eof socket = false -> fd_closed socket = false -> copy_reach socket rules w ->
  (∃ rest, src_arrived (w_stdin w) = snk_written (w_net w) ++ rest) ∧
  (∃ rest, src_arrived (w_peer w) = snk_written (w_stdout w) ++ rest) ∧
  (snk_shut (w_net w) = true -> complete (w_stdin w) (w_net w)) ∧
  (snk_shut (w_stdout w) = true -> complete (w_peer w) (w_stdout w)) ∧
  (∀ poll, honest rules poll w -> returns (copy_round rules poll w) (λ _, True)) ∧
  (∀ poll, candid rules poll w -> reports_error copy_get_fd rules poll w ->
     copy_round rules poll w = Throw (runtime_error "EventLoop: error on polled file descriptor")).
Proof.
  intros He Hc Hreach. pose proof (reach_inv _ _ _ He Hc Hreach) as Hinv. destruct (li_inv _ _ Hinv) as [Ho Hi _ _ _].
  split_and!; [by eapply copied_prefix|by eapply copied_prefix|..].
  - rewrite (cp_shut _ _ _ _ _ Ho). intros Hs. rewrite Hs in Ho. by eapply copied_complete.
  - rewrite (cp_shut _ _ _ _ _ Hi). intros Hs. rewrite Hs in Hi. by eapply copied_complete.
  - intros poll Hp. by eapply returns_mono; [by apply round_ok|].
  - intros poll Hp He'. by apply round_error.
Qed.

(** A rule that is left is idle; one that is not left its mark. *)
Lemma exit_idle rules w poll rules' w' :
  loop_inv rules w -> honest rules poll w -> (∀ evs, poll evs ≠ PollError EINTR) ->
  copy_round rules poll w = Ret (Exit, rules', w') ->
  copy_inv w' ∧ Forall (λ r, rule_interest r w' = false ∨ copy_gone (rule_key r) w') copy_rules.
Proof.
  intros Hinv Hp Hsig Hrun. destruct (round_ok _ _ _ Hinv Hp) as ([[res rs] w1] & Hret & [Hw Hr Hg]).
  rewrite Hrun in Hret. injection Hret as <- <- <-. split; [done|].
  assert (Forall (λ r, rule_interest r w' = false) rules') as Hidle.
  { eapply (wait_next_event_exit copy_get_fd); [|exact Hsig|exact Hrun].
    eapply ForallOrdPairs_sublist; [apply (li_rules _ _ Hinv)|apply copy_rules_quiet]. }
  apply Forall_forall. intros r Hin. destruct (Hg (rule_key r)) as [Hk|]; [by apply list_elem_of_fmap_2|left|by right].
  apply list_elem_of_fmap in Hk as (r' & Heq & Hr'). rewrite Forall_forall in Hidle. rewrite <- (Hidle r' Hr').
  assert (r' ∈ copy_rules) as Hin'.
  { assert (Forall (.∈ copy_rules) rules') as Hall by (eapply Forall_sublist; [exact Hr|by apply Forall_forall]).
    rewrite Forall_forall in Hall. auto. }
  f_equal. clear -Heq Hin Hin'.
  unfold copy_rules, add_rule in *. cbn in *. rewrite !elem_of_cons, elem_of_nil in *.
  destruct_or? Hin; destruct_or? Hin'; subst; done.
Qed.

(** The interest of rules 2 and 4. *)
Lemma drained stream shutdown :
  negb (buffer_empty stream) || (eof stream && negb shutdown) = false ->
  contents stream = [] ∧ (bs_input_ended stream = true -> shutdown = true).
Proof.
  intros [He%negb_false_iff Hs]%orb_false_iff. apply buffer_empty_contents in He as Hc. split; [done|].
  intros Hie. unfold eof, input_ended in Hs. rewrite He, Hie in Hs. by destruct shutdown.
Qed.

(** The interest of rules 1 and 3, while the buffer is empty. *)
Lemma room_left fd s stream shutdown snk e e' :
  copied fd s stream shutdown snk -> contents stream = [] ->
  negb e && (0 <? remaining_capacity stream) && negb e' = false -> e = true ∨ e' = true.
Proof.
  intros Hcp Hc. rewrite (remaining_capacity_spec _ (cp_stream _ _ _ _ _ Hcp)), (cp_cap _ _ _ _ _ Hcp), Hc.
  destruct e, e'; cbn; auto.
Qed.

(** C23: the loop ends only when it is done. When it stops, not because of a
    signal, and neither the socket nor standard output hung up, all that arrived
    from the peer was written to standard output, which was closed; and all that
    arrived on standard input was written to the socket, which was shut down, or
    at least all that was read. *)
Theorem stream_copy_exit socket rules w poll rules' w' :
  fd_eof socket = false -> fd_closed socket = false -> copy_reach socket rules w -> honest rules poll w ->
  (∀ evs, poll evs ≠ PollError EINTR) -> copy_round rules poll w = Ret (Exit, rules', w') ->
  error (w_outbound w') = false -> (error (w_inbound w') = true -> snk_shut (w_stdout w') = true) ->
  complete (w_peer w') (w_stdout w') ∧
  (complete (w_stdin w') (w_net w') ∨ snk_written (w_net w') = ztake (src_pos (w_stdin w')) (src_arrived (w_stdin w'))).
Proof.
  intros He Hc Hreach Hp Hsig Hrun Ho Hi.
  destruct (exit_idle _ _ _ _ _ (reach_inv _ _ _ He Hc Hreach) Hp Hsig Hrun) as [[Hout Hin _ _ _] Hidle].
  cbn in Hidle. rewrite !Forall_cons in Hidle. cbn in Hidle. destruct Hidle as (H1 & H2 & H3 & H4 & _).
  assert (w_inbound_shutdown w' = true) as Hdone.
  { rewrite <- (cp_shut _ _ _ _ _ Hin). destruct (error (w_inbound w')) eqn:Hie; [by apply Hi|].
    destruct H4 as [H4|H4]; [|unfold error in *; congruence]. apply drained in H4 as [H4 H5]. rewrite (cp_shut _ _ _ _ _ Hin). apply H5.
    destruct H3 as [H3|]; [|done]. eapply room_left in H3; [|exact Hin|done]. destruct H3; congruence. }
  split; [rewrite Hdone in Hin; by eapply copied_complete|].
  destruct H2 as [H2|H2]; [|unfold error in *; congruence]. apply drained in H2 as [H2 H5].
  destruct H1 as [_|H1]; [right; by rewrite (cp_bytes _ _ _ _ _ Hout), H2, app_nil_r|left].
  rewrite (H5 H1) in Hout. by eapply copied_complete.
Qed.
(** ** A kernel that keeps the contract, and runs under it *)

Definition readyb (k : copy_fd * Direction) (w : world) : bool :=
  match k with
  | (Input, In) => negb (zlen (src_avail (w_stdin w)) =? 0) || src_ended (w_stdin w)
  | (Socket, In) => negb (zlen (src_avail (w_peer w)) =? 0) || src_ended (w_peer w)
  | (Socket, Out) => negb (snk_full (w_net w))
  | (Output, Out) => negb (snk_full (w_stdout w)) && negb (fd_closed (w_output w))
  | _ => false
  end.

Definition kernel_poll (rules : list (@Rule world copy_fd)) (w : world) : list Z -> poll_result := poll_of copy_get_fd readyb rules w.

Lemma readyb_ready k w : readyb k w = true -> copy_ready k w.
Proof.
  assert (∀ s, negb (zlen (src_avail s) =? 0) || src_ended s = true -> src_ready s) as Hs.
  { intros s [H%negb_true_iff%Z.eqb_neq|H]%orb_true_iff; [left; by intros ?%(f_equal zlen)|by right]. }
  destruct k as [[] []]; cbn; try done; [apply Hs|intros [?%negb_true_iff ?%negb_true_iff]%andb_true_iff; done|apply Hs|apply negb_true_iff].
Qed.

Lemma kernel_poll_honest rules w : honest rules (kernel_poll rules w) w.
Proof.
  intros l w' revents. apply (poll_of_ok copy_get_fd copy_ready copy_hup readyb), readyb_ready.
Qed.

(** A run: before each round the kernel makes the step given for it. *)
Fixpoint copy_run (script : list (list byte * list byte * bool * bool)) (rules : list (@Rule world copy_fd)) (w : world)
    : outcome (Result * list (@Rule world copy_fd) * world) :=
  match script with
  | [] => Ret (Success, rules, w)
  | (d, p, e, f) :: script =>
      let w := kernel_step d p e f w in
      '(res, rules, w) ← copy_round rules (kernel_poll rules w) w;
      match res with Exit => Ret (Exit, rules, w) | _ => copy_run script rules w end
  end.

Lemma copy_run_reach socket script rules w res rules' w' :
  copy_reach socket rules w -> copy_run script rules w = Ret (res, rules', w') -> copy_reach socket rules' w'.
Proof.
  revert rules w. induction script as [|[[[d p] e] f] script IH]; intros rules w Hw; cbn [copy_run]; [by intros [= <- <- <-]|].
  destruct (copy_round _ _ _) as [[[r rs] w1]| | |] eqn:Hr; try done. unfold mbind, outcome_bind.
  assert (copy_reach socket rs w1) as Hw1.
  { eapply reach_round; [apply reach_kernel; exact Hw|apply kernel_poll_honest|exact Hr]. }
  destruct r; [by apply IH|by apply IH|by intros [= <- <- <-]].
Qed.

End copy.

(** ** Concrete runs *)

Definition demo_socket : FDWrapper := mkFD 3 false false 0 0.
Definition demo_rules : list (@Rule world copy_fd) := copy_rules (λ _, 2) (λ _, 2).

(** The rules and the state after a run. *)
Definition after (script : list (list byte * list byte * bool * bool)) : list (@Rule world copy_fd) * world :=
  match copy_run script demo_rules (copy_init demo_socket) with Ret (_, rules, w) => (rules, w) | _ => ([], copy_init demo_socket) end.

Definition run_ok (script : list (list byte * list byte * bool * bool)) : bool :=
  match copy_run script demo_rules (copy_init demo_socket) with Ret _ => true | _ => false end.

Lemma after_reach script : run_ok script = true -> copy_reach (λ _, 2) (λ _, 2) demo_socket (after script).1 (after script).2.
Proof.
  unfold run_ok, after. destruct (copy_run script _ _) as [[[res rules] w]| | |] eqn:Hrun; try done. intros _.
  eapply copy_run_reach; [apply reach_init|exact Hrun].
Qed.

Lemma wait_next_event_safe_witness :
  returns (wait_next_event copy_get_fd demo_rules (kernel_poll demo_rules (copy_init demo_socket)) (copy_init demo_socket))
    (λ '(_, rules', w'), copy_inv w' ∧ rules' `sublist_of` demo_rules ∧
       ∀ k, k ∈ map rule_key demo_rules -> k ∈ map rule_key rules' ∨ copy_gone k w').
Proof.
  apply (wait_next_event_safe copy_get_fd copy_inv copy_ready copy_hup (λ _ _, True) copy_gone).
  - apply copy_rules_ok.
  - apply copy_rules_NoDup.
  - apply init_inv; reflexivity.
  - apply kernel_poll_honest.
Defined.

(** The peer ends its stream after standard input. *)
Definition demo_script : list (list byte * list byte * bool * bool) :=
  [([x61; x62; x63], [x64; x65], false, false); ([x66], [], true, false); ([], [], false, false); ([], [], false, true); ([], [], false, false)].

(** A [poll] that finds nothing ready but an error on the first rule's descriptor. *)
Definition failing_poll (_ : list Z) : poll_result := PollReady (λ i, if (i =? 0)%nat then POLLERR else 0).

Lemma failing_poll_candid rules w : candid rules failing_poll w.
Proof.
  intros l w' revents Hs%setup_events [= <-] k r events Hk. rewrite Forall_forall in Hs. apply list_elem_of_lookup_2, Hs in Hk. cbn in *.
  destruct (k =? 0)%nat; [|by unfold flag; rewrite !Z.land_0_l]. by destruct Hk as [->| ->], (rule_direction r).
Qed.

Lemma stream_copy_safe_witness :
  let w := (after demo_script).2 in
  snk_written (w_net w) = [x61; x62; x63; x66] ∧ snk_shut (w_net w) = true ∧
  (∃ rest, src_arrived (w_stdin w) = snk_written (w_net w) ++ rest) ∧
  (∃ rest, src_arrived (w_peer w) = snk_written (w_stdout w) ++ rest) ∧
  (snk_shut (w_net w) = true -> complete (w_stdin w) (w_net w)) ∧
  (snk_shut (w_stdout w) = true -> complete (w_peer w) (w_stdout w)) ∧
  (∀ poll, honest (after demo_script).1 poll w -> returns (copy_round (after demo_script).1 poll w) (λ _, True)) ∧
  copy_round (after []).1 failing_poll (after []).2 = Throw (runtime_error "EventLoop: error on polled file descriptor").
Proof.
  cbv zeta. split; [vm_compute; reflexivity|]. split; [vm_compute; reflexivity|].
  destruct (stream_copy_safe (λ _, 2) (λ _, 2) demo_socket (after demo_script).1 (after demo_script).2 eq_refl eq_refl) as (H1 & H2 & H3 & H4 & H5 & _).
  { apply after_reach. vm_compute. reflexivity. }
  do 5 (split; [assumption|]).
  destruct (stream_copy_safe (λ _, 2) (λ _, 2) demo_socket (after []).1 (after []).2 eq_refl eq_refl) as (_ & _ & _ & _ & _ & Herr).
  { apply after_reach. vm_compute. reflexivity. }
  apply Herr; [apply failing_poll_candid|]. do 3 eexists. exists O. split; [reflexivity|]. split; [reflexivity|]. split; [reflexivity|].
  split; [cbn; lia|reflexivity].
Defined.

(** The last round of a run. *)
Definition last_round (script : list (list byte * list byte * bool * bool)) :=
  copy_round (after script).1 (kernel_poll (after script).1 (after script).2) (after script).2.
Definition last_state (script : list (list byte * list byte * bool * bool)) : list (@Rule world copy_fd) * world :=
  match last_round script with Ret (_, rules, w) => (rules, w) | _ => ([], copy_init demo_socket) end.

Lemma last_round_exit script :
  match last_round script with Ret (Exit, _, _) => true | _ => false end = true ->
  copy_round (after script).1 (kernel_poll (after script).1 (after script).2) (after script).2 =
    Ret (Exit, (last_state script).1, (last_state script).2).
Proof. unfold last_state. fold (last_round script). by destruct (last_round script) as [[[[] rules] w]| | |]. Qed.

Lemma stream_copy_exit_witness :
  let w := (last_state demo_script).2 in
  complete (w_peer w) (w_stdout w) ∧
  (complete (w_stdin w) (w_net w) ∨ snk_written (w_net w) = ztake (src_pos (w_stdin w)) (src_arrived (w_stdin w))).
Proof.
  apply (stream_copy_exit (λ _, 2) (λ _, 2) demo_socket (after demo_script).1 (after demo_script).2
    (kernel_poll (after demo_script).1 (after demo_script).2) (last_state demo_script).1 (last_state demo_script).2 eq_refl eq_refl).
  - apply after_reach. vm_compute. reflexivity.
  - apply kernel_poll_honest.
  - intros evs. unfold kernel_poll, poll_of. by destruct (setup _ _ _) as [[]| | |].
  - apply last_round_exit. vm_compute. reflexivity.
  - vm_compute. reflexivity.
  - intros _. vm_compute. reflexivity.
Defined.

(** When the peer's stream ends first, the other direction is cut off.
    Standard output is closed, which cancels rule 4, whose cancellation puts the
    inbound stream in error, and rule 1 does not read while it is: here the peer
    ends its stream at once, and of what then arrives on standard input only what
    one more round reads is sent; the rest is never read, the socket is not shut
    down, and the loop ends. *)
Theorem stream_copy_cut_off :
  let script := [([], [], false, true); ([], [], false, false); ([x61; x62], [], false, false); ([x63; x64], [], true, false)] in
  let w := (last_state script).2 in
  copy_reach (λ _, 2) (λ _, 2) demo_socket (after script).1 (after script).2 ∧
  copy_round (after script).1 (kernel_poll (after script).1 (after script).2) (after script).2 = Ret (Exit, (last_state script).1, w) ∧
  src_arrived (w_stdin w) = [x61; x62; x63; x64] ∧ src_ended (w_stdin w) = true ∧ src_pos (w_stdin w) = 2 ∧
  snk_written (w_net w) = [x61; x62] ∧ snk_shut (w_net w) = false.
Proof.
  cbv zeta. split; [apply after_reach; vm_compute; reflexivity|]. split; [apply last_round_exit; vm_compute; reflexivity|].
  vm_compute. by split_and!.
Qed.
