(* ===== verification/SpongeSocket.v ===== *)
(** [tcp_helpers/tcp_sponge_socket.hh], [tcp_helpers/tcp_sponge_socket.cc]: the
    event loop around a connection, its rules and callbacks.

    The thread that runs the loop talks to the owner of the socket through one
    end of a pair of stream sockets ([_thread_data]) and to the network through an
    adapter. The kernel's side of both is part of the state: the owner's bytes
    and what was handed to the owner, the datagrams waiting at the device and
    those written to it. [chunk] and [room] say how many bytes a call of [read] or
    [write] moves. The clock, the abort flag, which the owner's thread sets, and
    the outcome of each [poll] are arguments of an iteration. *)
From S2P Require Import Prelude Buffer Parser ByteStream StreamReassembler WrappingIntegers TCPSegment TCPReceiver TCPSender TCPState TCPConnection Address Adapters FileDescriptor EventLoop Kernel.

Inductive sock_fd := AdapterFD | ThreadData.

#[export] Instance sock_fd_eq_dec : EqDecision sock_fd.
Proof. solve_decision. Defined.

Section sponge.
Context {A : Type} `{FdAdapter A}.

Record socket_state := mkSocketState {
  ss_thread_data : FDWrapper;
  ss_device : FDWrapper;
  ss_datagram_adapter : A;
  ss_tcp : TCPConnection;
  ss_inbound_shutdown : bool;
  ss_outbound_shutdown : bool;
  ss_fully_acked : bool;
  ss_owner_in : Source;
  ss_owner_out : Sink;
  ss_wire_in : list wire_in;
  ss_wire_out : list wire_out
}.

Definition sock_get_fd (fd : sock_fd) (w : socket_state) : FDWrapper :=
  match fd with AdapterFD => ss_device w | ThreadData => ss_thread_data w end.

(** Each datagram written to the device counts as a write. *)
Definition count_writes (out : list wire_out) (fd : FDWrapper) : FDWrapper := fold_left (λ f _, register_write f) out fd.

Context (chunk room : socket_state -> Z).

(** Rule 1: a datagram from the device. With none there, the read blocks. *)
Definition on_datagram (w : socket_state) : outcome socket_state :=
  match ss_wire_in w with
  | [] => Diverge
  | datagram :: waiting =>
      '(a, seg, out) ← adapter_read (ss_datagram_adapter w) datagram;
      tcp ← match seg with Some seg => segment_received (ss_tcp w) seg | None => Ret (ss_tcp w) end;
      let fully_acked := fd_eof (ss_thread_data w) && (bytes_in_flight tcp =? 0) && negb (ss_fully_acked w) in
      Ret (mkSocketState (ss_thread_data w) (count_writes out (register_read (ss_device w))) a tcp
             (ss_inbound_shutdown w) (ss_outbound_shutdown w) (if fully_acked then true else ss_fully_acked w)
             (ss_owner_in w) (ss_owner_out w) waiting (ss_wire_out w ++ out))
  end.

Definition wants_datagram (w : socket_state) : bool := active (ss_tcp w).

(** Rule 2: bytes of the owner into the connection. *)
Definition on_owner_data (w : socket_state) : outcome socket_state :=
  let limit := remaining_outbound_capacity (ss_tcp w) in
  let '(r, data, s) := kernel_read (chunk w) (ss_owner_in w) (Z.min BUFFER_SIZE limit) in
  '(fd, data) ← fd_read (ss_thread_data w) limit r data;
  '(tcp, amount_written) ← write (ss_tcp w) data;
  if negb (amount_written =? zlen data) then
    Throw (runtime_error "TCPConnection::write() accepted less than advertised length")
  else
    '(tcp, outbound_shutdown) ← (if fd_eof fd then tcp ← end_input_stream tcp; Ret (tcp, true)
                                 else Ret (tcp, ss_outbound_shutdown w));
    Ret (mkSocketState fd (ss_device w) (ss_datagram_adapter w) tcp (ss_inbound_shutdown w) outbound_shutdown
           (ss_fully_acked w) s (ss_owner_out w) (ss_wire_in w) (ss_wire_out w)).

Definition wants_owner_data (w : socket_state) : bool :=
  active (ss_tcp w) && negb (ss_outbound_shutdown w) && (0 <? remaining_outbound_capacity (ss_tcp w)).

Definition cancel_owner_data (w : socket_state) : outcome socket_state :=
  tcp ← end_input_stream (ss_tcp w);
  Ret (mkSocketState (ss_thread_data w) (ss_device w) (ss_datagram_adapter w) tcp (ss_inbound_shutdown w) true
         (ss_fully_acked w) (ss_owner_in w) (ss_owner_out w) (ss_wire_in w) (ss_wire_out w)).

Definition with_inbound (stream : ByteStream) (tcp : TCPConnection) : TCPConnection :=
  set_receiver (with_stream_out (cn_receiver tcp) stream) tcp.

(** Rule 3: bytes that arrived, to the owner. *)
Definition to_owner (w : socket_state) : outcome socket_state :=
  '(fd, inbound, s) ← write_front 65536 (room w) (ss_thread_data w) (inbound_stream (ss_tcp w)) (ss_owner_out w);
  '(fd, inbound_shutdown, s) ←
    (if eof inbound || error inbound then fd ← socket_shutdown fd SHUT_WR (sys_ok 0); Ret (fd, true, sink_shut s)
     else Ret (fd, ss_inbound_shutdown w, s));
  Ret (mkSocketState fd (ss_device w) (ss_datagram_adapter w) (with_inbound inbound (ss_tcp w)) inbound_shutdown
         (ss_outbound_shutdown w) (ss_fully_acked w) (ss_owner_in w) s (ss_wire_in w) (ss_wire_out w)).

Definition wants_to_owner (w : socket_state) : bool :=
  let inbound := inbound_stream (ss_tcp w) in
  negb (buffer_empty inbound) || ((eof inbound || error inbound) && negb (ss_inbound_shutdown w)).

(** Rule 4: segments of the connection, to the device. *)
Fixpoint send_segments (q : list TCPSegment) (w : socket_state) : outcome socket_state :=
  match q with
  | [] => Ret w
  | seg :: q =>
      '(a, _, out) ← adapter_write (ss_datagram_adapter w) seg;
      send_segments q
        (mkSocketState (ss_thread_data w) (count_writes out (ss_device w)) a (set_out q (ss_tcp w)) (ss_inbound_shutdown w)
           (ss_outbound_shutdown w) (ss_fully_acked w) (ss_owner_in w) (ss_owner_out w) (ss_wire_in w) (ss_wire_out w ++ out))
  end.
Definition to_device (w : socket_state) : outcome socket_state := send_segments (cn_segments_out (ss_tcp w)) w.

Definition wants_to_device (w : socket_state) : bool := negb (bool_decide (cn_segments_out (ss_tcp w) = [])).

(** [_initialize_TCP]: the rules. *)
Definition sponge_rules : list (@Rule socket_state sock_fd) :=
  let rules := add_rule [] AdapterFD In on_datagram wants_datagram Ret in
  let rules := add_rule rules ThreadData In on_owner_data wants_owner_data cancel_owner_data in
  let rules := add_rule rules ThreadData Out to_owner wants_to_owner Ret in
  add_rule rules AdapterFD Out to_device wants_to_device Ret.

(** An iteration of [_tcp_loop], for a time [next_time] read after the round.
    The flag returned says whether the loop goes on. *)
Definition tcp_loop_iter (condition : socket_state -> bool) (poll : list Z -> poll_result) (abort : bool) (base_time next_time : Z)
    (rules : list (@Rule socket_state sock_fd)) (w : socket_state) : outcome (bool * Z * list (@Rule socket_state sock_fd) * socket_state) :=
  if negb (condition w) then Ret (false, base_time, rules, w)
  else
    '(ret, rules, w) ← wait_next_event sock_get_fd rules poll w;
    if bool_decide (ret = Exit) || abort then Ret (false, base_time, rules, w)
    else if active (ss_tcp w) then
      let ms := u64 (next_time - base_time) in
      let tcp := tick (ss_tcp w) ms in
      let '(a, out) := adapter_tick (ss_datagram_adapter w) ms in
      Ret (true, next_time, rules,
           mkSocketState (ss_thread_data w) (count_writes out (ss_device w)) a tcp (ss_inbound_shutdown w) (ss_outbound_shutdown w)
             (ss_fully_acked w) (ss_owner_in w) (ss_owner_out w) (ss_wire_in w) (ss_wire_out w ++ out))
    else Ret (true, base_time, rules, w).

(** The loop, for a list of what each iteration is given. *)
Fixpoint tcp_loop (condition : socket_state -> bool) (inputs : list ((list Z -> poll_result) * bool * Z)) (base_time : Z)
    (rules : list (@Rule socket_state sock_fd)) (w : socket_state) : outcome (bool * list (@Rule socket_state sock_fd) * socket_state) :=
  match inputs with
  | [] => Ret (true, rules, w)
  | (poll, abort, next_time) :: inputs =>
      '(goes_on, base_time, rules, w) ← tcp_loop_iter condition poll abort base_time next_time rules w;
      if goes_on : bool then tcp_loop condition inputs base_time rules w else Ret (false, rules, w)
  end.

(** A socket before it is connected: its two descriptors and its adapter. *)
Definition new_socket_state (thread_data device : FDWrapper) (a : A) (tcp : TCPConnection) : socket_state :=
  mkSocketState thread_data device a tcp false false false (mkSource [] 0 false) (mkSink [] false false) [] [].

(** [connect], up to its loop. *)
Definition sponge_connect (old : option TCPConnection) (c_tcp : TCPConfig) (c_ad : FdAdapterConfig) (random : Z)
    (thread_data device : FDWrapper) (a : A) : outcome socket_state :=
  match old with
  | Some _ => Throw (runtime_error "connect() with TCPConnection already initialized")
  | None =>
      let tcp := new_TCPConnection c_tcp random in
      let a := adapter_set_config c_ad a in
      tcp ← connect tcp;
      if state_neqb (state tcp) (of_state SYN_SENT) then
        Throw (runtime_error (String.append "After TCPConnection::connect(), state was " (String.append (state_name (state tcp))
          (String.append " but expected " (state_name (of_state SYN_SENT))))))
      else Ret (new_socket_state thread_data device a tcp)
  end.

(** Its condition: the loop goes on until the connection is established. *)
Definition connecting (w : socket_state) : bool := state_eqb (state (ss_tcp w)) (of_state SYN_SENT).

(** [listen_and_accept], up to its loop, and its condition. *)
Definition sponge_listen (old : option TCPConnection) (c_tcp : TCPConfig) (c_ad : FdAdapterConfig) (random : Z)
    (thread_data device : FDWrapper) (a : A) : outcome socket_state :=
  match old with
  | Some _ => Throw (runtime_error "listen_and_accept() with TCPConnection already initialized")
  | None =>
      let a := adapter_set_listening true (adapter_set_config c_ad a) in
      Ret (new_socket_state thread_data device a (new_TCPConnection c_tcp random))
  end.

Definition accepting (w : socket_state) : bool :=
  let s := state (ss_tcp w) in
  state_eqb s (of_state LISTEN) || state_eqb s (of_state SYN_RCVD) || state_eqb s (of_state SYN_SENT).

(** The end of [_tcp_main]: the owner's end is shut down and the connection
    destroyed. The result is the owner's descriptor, the connection left (none),
    the segments that its destructor left queued, and what has been written to the
    device. *)
Definition tcp_main_end (owner : FDWrapper) (r : sysret) (w : socket_state)
    : outcome (FDWrapper * option TCPConnection * list TCPSegment * list wire_out) :=
  owner ← socket_shutdown owner SHUT_RDWR r;
  let tcp := destroy (ss_tcp w) in
  Ret (owner, None, cn_segments_out tcp, ss_wire_out w).

(** The RST of the destructor is queued, and nobody is left to send it. *)
Lemma reset_not_sent owner w :
  active (ss_tcp w) = true ->
  returns (tcp_main_end owner (sys_ok 0) w) (λ '(_, _, lost, sent), sent = ss_wire_out w ∧
    ∃ q seg, lost = q ++ [seg] ∧ rst (header seg) = true).
Proof.
  intros Ha. unfold tcp_main_end, destroy. rewrite Ha. cbn. apply returns_ret. split; [done|].
  destruct (unclean_shutdown_out (ss_tcp w)) as (seg & Hout & Hrst). by exists (cn_segments_out (ss_tcp w)), seg.
Qed.

(** ** Invariant of the loop

    The owner writes [S], the peer sends [T] from [isnT] and does not reset the
    connection. *)
Context `{!LawfulAdapter A}.
Context (S T : list byte) (isnT : WrappingInt32).
Hypothesis HS : zlen S < 2 ^ 62.
Hypothesis HT : zlen T + 2 < 2 ^ 31.
Hypothesis HisnT : wint_ok isnT.

(** A datagram the peer may send: any adapter that is fine reads it, as one of
    the peer's segments or as none. *)
Definition good_wire (d : wire_in) : Prop :=
  Adapters.wire_ok d ∧
  ∀ a a' seg out, adapter_ok a -> adapter_read a d = Ret (a', Some seg, out) ->
    TCPConnection.wire_ok T isnT seg ∧ rst (header seg) = false.

(** What is known besides of the adapter and of all that it has written to the
    device: [Q], which reading, writing one of the connection's segments and time
    keep. [isnS] is the number the connection starts at. *)
Section invariant.
Context (isnS : WrappingInt32) (Q : A -> list wire_out -> Prop).
Hypothesis Q_read : ∀ a d sent a' seg out,
  adapter_ok a -> Adapters.wire_ok d -> Q a sent -> adapter_read a d = Ret (a', seg, out) -> Q a' (sent ++ out).
Hypothesis Q_write : ∀ a seg sent a' seg' out,
  adapter_ok a -> TCPConnection.wire_ok S isnS seg -> Q a sent -> adapter_write a seg = Ret (a', seg', out) -> Q a' (sent ++ out).
Hypothesis Q_tick : ∀ a ms sent,
  adapter_ok a -> Q a sent -> Q (adapter_tick a ms).1 (sent ++ (adapter_tick a ms).2).

Record sock_inv (w : socket_state) : Prop := {
  si_conn : conn_ok S T isnT (ss_tcp w);
  si_isn : sd_isn (cn_sender (ss_tcp w)) = isnS;
  si_known : Q (ss_datagram_adapter w) (ss_wire_out w);
  si_errors : errors_paired (ss_tcp w);
  si_adapter : adapter_ok (ss_datagram_adapter w);
  si_wire : Forall good_wire (ss_wire_in w);
  si_pos : 0 <= src_pos (ss_owner_in w) <= zlen (src_arrived (ss_owner_in w));
  si_owner : ∃ rest, S = src_arrived (ss_owner_in w) ++ rest;
  si_all : src_ended (ss_owner_in w) = true -> src_arrived (ss_owner_in w) = S;
  si_written : bs_total_written (stream_in (ss_tcp w)) = src_pos (ss_owner_in w);
  si_ended : bs_input_ended (stream_in (ss_tcp w)) = true -> ss_outbound_shutdown w = true;
  si_eof : fd_eof (ss_thread_data w) = true -> src_done (ss_owner_in w);
  si_out : snk_written (ss_owner_out w) ++ contents (inbound_stream (ss_tcp w)) =
    slice T 0 (sr_expected_index (rc_reassembler (cn_receiver (ss_tcp w))));
  si_open : fd_closed (ss_thread_data w) = false
}.

Definition sock_ready (k : sock_fd * Direction) (w : socket_state) : Prop :=
  match k with
  | (AdapterFD, In) => ss_wire_in w ≠ []
  | (ThreadData, In) => src_ready (ss_owner_in w)
  | (ThreadData, Out) => snk_full (ss_owner_out w) = false
  | (AdapterFD, Out) => True
  end.

Definition sock_hup (k : sock_fd * Direction) (w : socket_state) : Prop :=
  match k with (ThreadData, In) => src_done (ss_owner_in w) | _ => True end.

(** Rule 2 relies on the connection taking what is read. *)
Definition sock_wanted (k : sock_fd * Direction) (w : socket_state) : Prop :=
  match k with
  | (ThreadData, In) => active (ss_tcp w) = true ∧ ss_outbound_shutdown w = false
  | _ => True
  end.

Definition sock_gone (k : sock_fd * Direction) (w : socket_state) : Prop :=
  match k with (ThreadData, In) => ss_outbound_shutdown w = true | _ => True end.

Abbreviation sock_rule_ok := (rule_ok sock_get_fd sock_inv sock_ready sock_hup sock_wanted sock_gone).
Abbreviation sock_kept := (kept sock_ready sock_hup sock_wanted sock_gone).

Ltac start_rule := split; unfold rule_key; cbn [rule_fd rule_direction rule_callback rule_interest rule_cancel].
Ltac solve_kept := split; intros [[] []]; cbn; try done; try congruence; auto.

(** The parts of the invariant that the connection's receiver and the owner's
    end share. *)
Lemma advances_delivered r r' out :
  rcv_ok T isnT r -> advances T r r' ->
  out ++ contents (stream_out r) = slice T 0 (sr_expected_index (rc_reassembler r)) ->
  out ++ contents (stream_out r') = slice T 0 (sr_expected_index (rc_reassembler r')).
Proof.
  intros Hr [Hle Hc] Hout. rewrite Hc, app_assoc, Hout. symmetry. apply slice_app; [|done].
  pose proof (inv_pos _ _ _ (ro_sr _ _ _ Hr)). lia.
Qed.

Lemma count_writes_read (out : list wire_out) fd :
  fd_read_count (count_writes out fd) = fd_read_count fd ∧ fd_eof (count_writes out fd) = fd_eof fd ∧
  fd_closed (count_writes out fd) = fd_closed fd.
Proof. unfold count_writes. revert fd. induction out as [|o out IH]; intros fd; cbn; [done|]. by rewrite !(proj1 (IH _)), !(proj1 (proj2 (IH _))), !(proj2 (proj2 (IH _))). Qed.

Lemma active_no_error c : errors_paired c -> active c = true -> error (stream_in c) = false.
Proof.
  intros Hp Ha. destruct (error (stream_in c)) eqn:Hs; [|done]. pose proof (Hp Hs) as Hi. unfold active in Ha.
  by rewrite Hs, Hi in Ha.
Qed.

Lemma wanted_open w : sock_inv w -> sock_wanted (ThreadData, In) w -> error (stream_in (ss_tcp w)) = false ∧ bs_input_ended (stream_in (ss_tcp w)) = false.
Proof.
  intros Hw [Ha Ho]. split; [by apply active_no_error; [apply Hw|]|].
  destruct (bs_input_ended _) eqn:Hen; [|done]. pose proof (si_ended _ Hw Hen). congruence.
Qed.

(** A segment of the peer, or none, into the connection. *)
Lemma receive_ok w a a' d seg out :
  sock_inv w -> adapter_ok a -> good_wire d -> adapter_read a d = Ret (a', seg, out) ->
  returns (match seg with Some seg => segment_received (ss_tcp w) seg | None => Ret (ss_tcp w) end) (λ tcp,
    conn_ok S T isnT tcp ∧ errors_paired tcp ∧ same_app (cn_sender (ss_tcp w)) (cn_sender tcp) ∧
    advances T (cn_receiver (ss_tcp w)) (cn_receiver tcp) ∧
    (active (ss_tcp w) = true -> bs_input_ended (stream_in (ss_tcp w)) = false -> active tcp = true)).
Proof.
  intros Hw Ha [_ Hgood] Hread. pose proof (si_conn _ Hw) as Hc. destruct seg as [seg|].
  - destruct (Hgood _ _ _ _ Ha Hread) as [Hseg Hrst].
    destruct (segment_received_ok S T isnT HS HT HisnT _ seg Hc Hseg) as (tcp & Hrun & Hc' & Hsame & Hadv).
    exists tcp. split; [done|]. split_and!; [done|by eapply segment_received_paired; [| |apply Hw]|done|done|].
    intros Hact Hie. pose proof (segment_received_error _ _ _ Hrst Hrun) as He.
    pose proof (active_no_error _ (si_errors _ Hw) Hact) as He0. apply active_open; [congruence|]. unfold input_ended, stream_in in *. by rewrite (proj2 (proj2 Hsame)).
  - apply returns_ret. split_and!; try done; [apply Hw|apply advances_refl].
Qed.

Lemma sponge_rule1_ok : sock_rule_ok (mkRule AdapterFD In on_datagram wants_datagram Ret).
Proof.
  start_rule; [done|..].
  - intros w Hw Hr _. unfold on_datagram. cbn in Hr. destruct (ss_wire_in w) as [|d waiting] eqn:Hwire; [done|].
    pose proof (si_wire _ Hw) as Hgood. rewrite Hwire in Hgood. apply Forall_cons in Hgood as [Hd Hgood].
    destruct (read_ok (ss_datagram_adapter w) d (si_adapter _ Hw) (proj1 Hd)) as ([[a seg] out] & Hread & Ha). rewrite Hread.
    unfold mbind, outcome_bind at 1.
    eapply returns_bind; [by eapply receive_ok; [|apply Hw| |]|]. intros tcp (Hc & Hp & (Hi & Htw & Hie) & Hadv & Hact).
    apply returns_ret. unfold stream_in in *. split_and!.
    + pose proof Hw as []. split; cbn; try done; unfold stream_in in *; rewrite ?Htw, ?Hie; try done.
      * congruence.
      * eapply Q_read; [done|apply Hd|done|exact Hread].
      * eapply advances_delivered; [apply si_conn0|done|done].
    + left. unfold service_count. cbn. rewrite (proj1 (count_writes_read _ _)). cbn. apply u32_succ_ne.
    + solve_kept. intros _ Hwt. split; [|apply Hwt]. apply Hact; [apply Hwt|by apply wanted_open].
  - intros w Hw _. apply returns_ret. split_and!; [done|done|apply kept_refl].
Qed.

(** The owner's bytes come next in [S]. *)
Lemma owner_slice w data :
  sock_inv w -> data = ztake (zlen data) (src_avail (ss_owner_in w)) -> slice_of S (src_pos (ss_owner_in w)) data.
Proof.
  intros Hw Hd. pose proof (si_pos _ Hw) as Hpos. destruct (si_owner _ Hw) as [rest Hrest]. unfold src_avail in Hd.
  pose proof (zlen_nonneg data). pose proof (f_equal zlen Hd) as Hl. rewrite zlen_ztake, zlen_zdrop in Hl.
  assert (zlen data <= zlen (src_arrived (ss_owner_in w)) - src_pos (ss_owner_in w)) as Hle by lia.
  unfold slice_of. rewrite Hrest, zlen_app. pose proof (zlen_nonneg rest). split_and!; [lia|lia|].
  unfold slice. rewrite zdrop_app_le, ztake_app_le by (rewrite ?zlen_zdrop; lia). rewrite Hd at 1. f_equal. lia.
Qed.

(** The invariant after rule 2 or its cancellation. *)
Lemma owner_update w fd tcp shutdown s :
  sock_inv w -> conn_ok S T isnT tcp -> sd_isn (cn_sender tcp) = isnS -> errors_paired tcp -> cn_receiver tcp = cn_receiver (ss_tcp w) ->
  src_arrived s = src_arrived (ss_owner_in w) -> src_ended s = src_ended (ss_owner_in w) ->
  0 <= src_pos s <= zlen (src_arrived s) -> bs_total_written (stream_in tcp) = src_pos s ->
  (bs_input_ended (stream_in tcp) = true -> shutdown = true) -> (fd_eof fd = true -> src_done s) -> fd_closed fd = false ->
  sock_inv (mkSocketState fd (ss_device w) (ss_datagram_adapter w) tcp (ss_inbound_shutdown w) shutdown
    (ss_fully_acked w) s (ss_owner_out w) (ss_wire_in w) (ss_wire_out w)).
Proof.
  intros Hw Hc Hi Hp Hr Har Hse Hpos Htw Hie Heof Hcl. pose proof Hw as [].
  split; cbn; try done; rewrite ?Har, ?Hse; try done. unfold inbound_stream in *. by rewrite Hr.
Qed.

Lemma end_owner_ok w tcp :
  sock_inv w -> conn_ok S T isnT tcp -> errors_paired tcp -> bs_total_written (stream_in tcp) = zlen S ->
  returns (end_input_stream tcp) (λ tcp', conn_ok S T isnT tcp' ∧ errors_paired tcp' ∧ cn_receiver tcp' = cn_receiver tcp ∧
    bs_total_written (stream_in tcp') = zlen S ∧ sd_isn (cn_sender tcp') = sd_isn (cn_sender tcp)).
Proof.
  intros Hw Hc Hp Htw. destruct (conn_end_ok S T isnT HS tcp Hc Htw) as (tcp' & Hrun & Hc' & Hr & Hi & Ht).
  exists tcp'. split; [done|]. split_and!; [done|by eapply end_paired|done|congruence|done].
Qed.

Lemma done_all w s :
  sock_inv w -> src_arrived s = src_arrived (ss_owner_in w) -> src_ended s = src_ended (ss_owner_in w) -> src_done s ->
  src_pos s = zlen S.
Proof. intros Hw Har Hse [He Hp]. rewrite Hp, Har. rewrite (si_all _ Hw); [done|congruence]. Qed.

(** What rule 2 reads and hands to the connection. *)
Lemma take_owner_data w data s :
  sock_inv w -> active (ss_tcp w) = true -> ss_outbound_shutdown w = false ->
  zlen data <= remaining_outbound_capacity (ss_tcp w) -> data = ztake (zlen data) (src_avail (ss_owner_in w)) ->
  src_pos s = src_pos (ss_owner_in w) + zlen data ->
  returns (write (ss_tcp w) data) (λ '(tcp, n), n = zlen data ∧ conn_ok S T isnT tcp ∧ errors_paired tcp ∧
    cn_receiver tcp = cn_receiver (ss_tcp w) ∧ bs_total_written (stream_in tcp) = src_pos s ∧ bs_input_ended (stream_in tcp) = false ∧
    sd_isn (cn_sender tcp) = isnS).
Proof.
  intros Hw Hact Hopen Hlen Hdata Hpos. pose proof (si_conn _ Hw) as Hc. pose proof (owner_slice w data Hw Hdata) as Hsl.
  assert (bs_input_ended (stream_in (ss_tcp w)) = false) as Hie by (by apply wanted_open).
  destruct (ByteStream.write (stream_in (ss_tcp w)) data) as [bs n] eqn:Hwr.
  destruct (write_spec _ _ _ _ (st_ok _ _ (sk_stream _ _ (co_snd _ _ _ _ Hc))) Hwr) as (Hn & _ & Ht & _).
  unfold remaining_outbound_capacity in Hlen. assert (n = zlen data) as -> by (unfold stream_in in *; lia).
  destruct (conn_write_ok S T isnT HS (ss_tcp w) data Hc Hie) as ([tcp m] & Hrun & Hc' & Hr & Hi & Hie' & Hm).
  { rewrite Hwr. cbn [snd]. rewrite ztake_ge by lia. by rewrite (si_written _ Hw). }
  destruct (Hm Hact) as [Hm1 Hm2]. rewrite Hwr in Hm1, Hm2. cbn [fst snd] in *. exists (tcp, m). split; [done|].
  split_and!; [done|done|by eapply write_paired; [|apply Hw]|done| |done|rewrite Hi; apply Hw].
  pose proof (si_written _ Hw) as Hsw. unfold stream_in in *. rewrite Hm2, Ht, Hsw, Hpos. destruct Hsl as (? & ? & _). pose proof (zlen_nonneg data).
  apply u64_id. unfold is_u64. lia.
Qed.

Lemma sponge_rule2_ok : sock_rule_ok (mkRule ThreadData In on_owner_data wants_owner_data cancel_owner_data).
Proof.
  start_rule.
  - intros w _ Hi. cbn. unfold wants_owner_data in Hi. apply andb_true_iff in Hi as [[Ha Ho]%andb_true_iff _].
    by apply negb_true_iff in Ho.
  - intros w Hw Hr [Hact Hopen]. unfold on_owner_data. cbn in Hr.
    pose proof (remaining_capacity_spec _ (st_ok _ _ (sk_stream _ _ (co_snd _ _ _ _ (si_conn _ Hw))))) as Hrc.
    pose proof (ok_fits _ (st_ok _ _ (sk_stream _ _ (co_snd _ _ _ _ (si_conn _ Hw))))) as Hfit.
    assert (0 <= remaining_outbound_capacity (ss_tcp w)) as Hcap.
    { unfold remaining_outbound_capacity, stream_in in *. lia. }
    destruct (kernel_read_ok (chunk w) (ss_owner_in w) (Z.min BUFFER_SIZE (remaining_outbound_capacity (ss_tcp w)))) as
      (data & s & -> & Hl & Har & Hse & Hp & Hple & Hdata & Hdone); [apply Hw|done|unfold BUFFER_SIZE; lia|].
    rewrite fd_read_ok by done. unfold mbind, outcome_bind at 1. set (fd := register_read _).
    assert (fd_eof fd = true -> src_done s) as Heof.
    { unfold fd. cbn. destruct (_ && _) eqn:Hz.
      - apply andb_true_iff in Hz as [?%Z.ltb_lt ?%Z.eqb_eq]. intros _. apply Hdone; unfold BUFFER_SIZE; lia.
      - intros [He1 He2]%(si_eof _ Hw). pose proof (zlen_nonneg data). split; [congruence|]. rewrite Har. lia. }
    assert (fd_closed fd = false ∧ fd_read_count fd ≠ fd_read_count (ss_thread_data w)) as [Hcl Hcnt].
    { unfold fd. destruct (_ && _); cbn; (split; [apply Hw|apply u32_succ_ne]). }
    clearbody fd. eapply returns_bind; [apply (take_owner_data w data s); try done; lia|].
    intros [tcp n] (-> & Hc & Hpr & Hrv & Htw & Hie & Hi). rewrite Z.eqb_refl. cbn [negb].
    pose proof (zlen_nonneg data). pose proof (si_pos _ Hw).
    assert (0 <= src_pos s <= zlen (src_arrived s)) as Hpos by (rewrite Har; lia).
    destruct (fd_eof fd) eqn:He.
    + specialize (Heof eq_refl). pose proof (done_all w s Hw Har Hse Heof) as Hall.
      destruct (end_owner_ok w tcp Hw Hc Hpr) as (tcp' & Hrun & Hc' & Hpr' & Hr' & Ht' & Hi'); [congruence|].
      rewrite Hrun. cbn. apply returns_ret.
      split_and!; [apply owner_update; try done; congruence|by left|].
      solve_kept.
    + cbn. apply returns_ret. split_and!; [apply owner_update; try done; congruence|by left|].
      solve_kept.
  - intros w Hw Hwhy. unfold cancel_owner_data.
    assert (src_done (ss_owner_in w)) as Hd.
    { destruct Hwhy as [[_ He]|[He|He]]; [by apply (si_eof _ Hw)|cbn in He; by rewrite (si_open _ Hw) in He|done]. }
    pose proof (done_all w _ Hw eq_refl eq_refl Hd) as Hall.
    destruct (end_owner_ok w (ss_tcp w) Hw (si_conn _ Hw) (si_errors _ Hw)) as (tcp' & Hrun & Hc' & Hpr' & Hr' & Ht' & Hi');
      [rewrite (si_written _ Hw); done|].
    pose proof (si_isn _ Hw). rewrite Hrun. cbn. apply returns_ret. split_and!; [apply owner_update; try done; try apply Hw; congruence|done|].
    solve_kept.
Qed.

Lemma with_inbound_ok tcp n bs :
  conn_ok S T isnT tcp -> 0 <= n -> bs_ok bs -> bs_cap bs = bs_cap (inbound_stream tcp) ->
  bs_total_written bs = bs_total_written (inbound_stream tcp) -> contents bs = zdrop n (contents (inbound_stream tcp)) ->
  conn_ok S T isnT (with_inbound bs tcp).
Proof.
  intros [] Hn Hbs Hcap Hw Hc. pose proof (zlen_nonneg T). split; try done.
  apply (rcv_drop_ok T isnT (cn_receiver tcp) n bs); try done. lia.
Qed.

Lemma sponge_rule3_ok : sock_rule_ok (mkRule ThreadData Out to_owner wants_to_owner Ret).
Proof.
  start_rule; [done|..].
  - intros w Hw Hr _. unfold to_owner. cbn in Hr. pose proof (si_conn _ Hw) as Hc.
    eapply returns_bind; [apply write_front_ok; [apply (inv_out _ _ _ (ro_sr _ _ _ (co_rcv _ _ _ _ Hc)))|done|lia]|].
    intros [[fd inbound] snk] (-> & Hok & Hcap & Her & Hie & Htw & n & Hn & -> & Hcn & _).
    assert (conn_ok S T isnT (with_inbound inbound (ss_tcp w))) as Hc' by (by eapply with_inbound_ok).
    assert (∀ fd' snk' b, fd_eof fd' = fd_eof (ss_thread_data w) -> fd_closed fd' = fd_closed (ss_thread_data w) ->
      snk_written snk' = snk_written (ss_owner_out w) ++ ztake n (contents (inbound_stream (ss_tcp w))) ->
      sock_inv (mkSocketState fd' (ss_device w) (ss_datagram_adapter w) (with_inbound inbound (ss_tcp w)) b
         (ss_outbound_shutdown w) (ss_fully_acked w) (ss_owner_in w) snk' (ss_wire_in w) (ss_wire_out w))) as Hinv.
    { intros fd' snk' b Hfe Hfc Hsk. pose proof Hw as []. split; cbn; try done; rewrite ?Hfe, ?Hfc; try done.
      - unfold errors_paired, error, with_inbound, inbound_stream in *. cbn in *. unfold stream_out in Her. cbn in Her. by rewrite Her.
      - rewrite Hsk, <- si_out0. unfold inbound_stream, with_inbound, stream_out in *. cbn. by rewrite <- app_assoc, Hcn, ztake_zdrop. }
    assert (sock_wanted (ThreadData, In) w -> active (with_inbound inbound (ss_tcp w)) = true) as Hact.
    { intros [? ?]%(wanted_open _ Hw). by apply active_open. }
    destruct (eof inbound || error inbound); cbn; apply returns_ret; (split_and!; [by apply Hinv|left; unfold service_count; cbn; apply u32_succ_ne || apply u32_succ2_ne|]).
    + solve_kept. intros _ Hwt. split; [by apply Hact|apply Hwt].
    + solve_kept. intros _ Hwt. split; [by apply Hact|apply Hwt].
  - intros w Hw _. apply returns_ret. split_and!; [done|done|apply kept_refl].
Qed.

(** What the connection sends fits a datagram. *)
Lemma wire_segment_ok isn seg : TCPConnection.wire_ok S isn seg -> segment_ok seg.
Proof.
  intros (_ & Hh & Hsz). split; [done|]. pose proof (hok_doff _ Hh). unfold size, MAX_PAYLOAD_SIZE in Hsz. lia.
Qed.

Lemma send_segments_ok q w :
  sock_inv w -> cn_segments_out (ss_tcp w) = q ->
  returns (send_segments q w) (λ w', sock_inv w' ∧ cn_segments_out (ss_tcp w') = [] ∧ sock_kept (AdapterFD, Out) w w').
Proof.
  revert w. induction q as [|seg q IH]; intros w Hw Hq; cbn [send_segments].
  { apply returns_ret. split_and!; [done|done|apply kept_refl]. }
  pose proof (co_out _ _ _ _ (si_conn _ Hw)) as Hout. rewrite Hq in Hout. apply Forall_cons in Hout as [Hseg Hout].
  destruct (Adapters.write_ok (ss_datagram_adapter w) seg (si_adapter _ Hw) (wire_segment_ok _ _ Hseg)) as ([[a seg'] out] & Hwr & Ha).
  rewrite Hwr. unfold mbind, outcome_bind at 1. set (w1 := mkSocketState _ _ _ _ _ _ _ _ _ _ _).
  assert (sock_inv w1) as Hw1.
  { pose proof Hw as []. split; cbn; try done; [destruct si_conn0; by split|]. rewrite si_isn0 in Hseg. by eapply Q_write. }
  eapply returns_mono; [by apply IH|]. intros w' (Hw' & Hq' & Hk). split_and!; [done|done|].
  eapply kept_trans; [|exact Hk]. solve_kept.
Qed.

Lemma sponge_rule4_ok : sock_rule_ok (mkRule AdapterFD Out to_device wants_to_device Ret).
Proof.
  start_rule; [done|..].
  - intros w Hw _ _. unfold to_device. eapply returns_mono; [by apply send_segments_ok|].
    intros w' (Hw' & Hq & Hk). split_and!; [done|right|done]. unfold wants_to_device. by rewrite Hq.
  - intros w Hw _. apply returns_ret. split_and!; [done|done|apply kept_refl].
Qed.

Lemma sponge_rules_ok : Forall sock_rule_ok sponge_rules.
Proof.
  constructor; [apply sponge_rule1_ok|]. constructor; [apply sponge_rule2_ok|]. constructor; [apply sponge_rule3_ok|].
  constructor; [apply sponge_rule4_ok|constructor].
Qed.

Lemma sponge_rules_NoDup : NoDup (map rule_key sponge_rules).
Proof. change (NoDup [(AdapterFD, In); (ThreadData, In); (ThreadData, Out); (AdapterFD, Out)]). by apply (bool_decide_unpack _). Qed.

(** ** Runs

    Between the iterations the owner writes the next bytes of [S] and reads, and
    datagrams arrive. The adapter is still fine after an iteration: a tick could
    only break it by overflowing its clock. *)
Definition owner_step (data : list byte) (ended : bool) (datagrams : list wire_in) (w : socket_state) : socket_state :=
  mkSocketState (ss_thread_data w) (ss_device w) (ss_datagram_adapter w) (ss_tcp w) (ss_inbound_shutdown w)
    (ss_outbound_shutdown w) (ss_fully_acked w) (arrive data ended (ss_owner_in w)) (drain (ss_owner_out w))
    (ss_wire_in w ++ datagrams) (ss_wire_out w).

Definition honest_poll (rules : list (@Rule socket_state sock_fd)) (poll : list Z -> poll_result) (w : socket_state) : Prop :=
  ∀ l w' revents, setup sock_get_fd rules w = Ret (l, w') -> poll (map snd l) = PollReady revents ->
    poll_ok sock_ready sock_hup l revents 0 w'.

Record sock_loop_inv (rules : list (@Rule socket_state sock_fd)) (w : socket_state) : Prop := {
  sl_inv : sock_inv w;
  sl_rules : rules `sublist_of` sponge_rules;
  sl_gone k : k ∈ map rule_key sponge_rules -> k ∈ map rule_key rules ∨ sock_gone k w
}.

Lemma iter_ok condition poll abort base next rules w :
  sock_loop_inv rules w -> honest_poll rules poll w ->
  returns (tcp_loop_iter condition poll abort base next rules w) (λ '(_, _, rules', w'),
    adapter_ok (ss_datagram_adapter w') -> sock_loop_inv rules' w').
Proof.
  intros [Hw Hr Hg] Hp. unfold tcp_loop_iter. destruct (negb (condition w)); [by apply returns_ret|].
  eapply returns_bind.
  { apply (wait_next_event_pass sock_get_fd sock_inv sock_ready sock_hup sock_wanted sock_gone); [| |exact Hw|exact Hp].
    - eapply Forall_sublist; [exact Hr|apply sponge_rules_ok].
    - eapply (sublist_NoDup _ (map rule_key sponge_rules)); [apply sponge_rules_NoDup|by apply fmap_sublist]. }
  intros [[res rules'] w'] [H1 H2 H3 H4].
  assert (sock_loop_inv rules' w') as Hl.
  { split; [done|by etrans|]. intros k Hk. destruct (Hg k Hk) as [Hk'|]; auto. }
  destruct (_ || _); [by apply returns_ret|]. destruct (active (ss_tcp w')); [|by apply returns_ret]. cbv zeta.
  pose proof (Q_tick (ss_datagram_adapter w') (u64 (next - base)) (ss_wire_out w') (si_adapter _ H1) (si_known _ H1)) as HQ.
  destruct (adapter_tick (ss_datagram_adapter w') _) as [a out]. apply returns_ret. intros Ha. cbn in Ha.
  destruct (conn_tick_ok S T isnT (ss_tcp w') (u64 (next - base)) (si_conn _ H1)) as (Hc & (Hi & Htw & Hie) & Hadv).
  destruct Hl as [_ Hl2 Hl3]. split; [|done|].
  - pose proof H1 as []. split; cbn; try done; unfold stream_in in *; rewrite ?Htw, ?Hie; try done.
    + congruence.
    + by apply tick_paired.
    + eapply advances_delivered; [apply si_conn0|done|done].
  - intros k Hk. destruct (Hl3 k Hk) as [|Hgk]; [by left|right]. by destruct k as [[] []].
Qed.

Inductive sock_reach (rules0 : list (@Rule socket_state sock_fd)) (w0 : socket_state) : list (@Rule socket_state sock_fd) -> socket_state -> Prop :=
| sr_init : sock_reach rules0 w0 rules0 w0
| sr_owner rules w data ended datagrams :
    sock_reach rules0 w0 rules w -> Forall good_wire datagrams ->
    (∃ rest, S = src_arrived (arrive data ended (ss_owner_in w)) ++ rest) ->
    (ended = true -> src_arrived (arrive data ended (ss_owner_in w)) = S) ->
    sock_reach rules0 w0 rules (owner_step data ended datagrams w)
| sr_iter rules w condition poll abort base next goes_on base' rules' w' :
    sock_reach rules0 w0 rules w -> honest_poll rules poll w ->
    tcp_loop_iter condition poll abort base next rules w = Ret (goes_on, base', rules', w') ->
    adapter_ok (ss_datagram_adapter w') -> sock_reach rules0 w0 rules' w'.

(** The same for a [poll] that may report a descriptor in error. *)
Definition candid_poll (rules : list (@Rule socket_state sock_fd)) (poll : list Z -> poll_result) (w : socket_state) : Prop :=
  ∀ l w' revents, setup sock_get_fd rules w = Ret (l, w') -> poll (map snd l) = PollReady revents ->
    poll_candid sock_ready sock_hup l revents 0 w'.

Lemma iter_error condition poll abort base next rules w :
  sock_loop_inv rules w -> condition w = true -> candid_poll rules poll w -> reports_error sock_get_fd rules poll w ->
  tcp_loop_iter condition poll abort base next rules w = Throw (runtime_error "EventLoop: error on polled file descriptor").
Proof.
  intros [Hw Hr Hg] Hc Hp He. unfold tcp_loop_iter. rewrite Hc. cbn [negb].
  rewrite (wait_next_event_error sock_get_fd sock_inv sock_ready sock_hup sock_wanted sock_gone); try done.
  - eapply Forall_sublist; [exact Hr|apply sponge_rules_ok].
  - eapply (sublist_NoDup _ (map rule_key sponge_rules)); [apply sponge_rules_NoDup|by apply fmap_sublist].
Qed.

(** The owner and the network go on. *)
Lemma owner_step_inv rules w data ended datagrams :
  sock_loop_inv rules w -> Forall good_wire datagrams ->
  (∃ rest, S = src_arrived (arrive data ended (ss_owner_in w)) ++ rest) ->
  (ended = true -> src_arrived (arrive data ended (ss_owner_in w)) = S) ->
  sock_loop_inv rules (owner_step data ended datagrams w).
Proof.
  intros [Hw Hr Hg] Hgood Hrest Hall. split; [|done|].
  - pose proof Hw as []. split; cbn; try done.
    + by apply Forall_app.
    + unfold arrive. destruct (src_ended (ss_owner_in w)); [done|]. cbn. rewrite zlen_app. pose proof (zlen_nonneg data). lia.
    + unfold arrive in *. destruct (src_ended (ss_owner_in w)) eqn:He; [intros _; by apply si_all0|done].
    + unfold arrive. by destruct (src_ended (ss_owner_in w)).
    + intros [He Hp]%si_eof0. unfold src_done, arrive. by rewrite He.
  - intros k Hk. destruct (Hg k Hk) as [|Hgk]; [by left|right]. by destruct k as [[] []].
Qed.

Lemma sock_reach_inv rules0 w0 rules w :
  sock_loop_inv rules0 w0 -> sock_reach rules0 w0 rules w -> sock_loop_inv rules w.
Proof.
  intros H0. induction 1 as [|rules w data ended dgs _ IH Hgood Hrest Hall|rules w cond poll ab base next go base' rules' w' _ IH Hp Hrun Ha]; [done|..].
  - by apply owner_step_inv.
  - destruct (iter_ok cond poll ab base next rules w IH Hp) as ([[[go1 b1] rs] w1] & Hret & Hl).
    rewrite Hrun in Hret. injection Hret as <- <- <- <-. by apply Hl.
Qed.

(** ** Where the loop starts *)
Section start.
Context (c_tcp : TCPConfig) (c_ad : FdAdapterConfig) (random : Z) (thread_data device : FDWrapper) (a : A).
Hypothesis Hsend : is_u64 (send_capacity c_tcp).
Hypothesis Hrecv : 0 <= recv_capacity c_tcp < 2 ^ 62.
Hypothesis Hsrc : ipv4_ok (source c_ad).
Hypothesis Hdst : ipv4_ok (destination c_ad).
Hypothesis Ha : adapter_ok a.
Hypothesis Heof : fd_eof thread_data = false.
Hypothesis Hclosed : fd_closed thread_data = false.
Hypothesis Hisn : sd_isn (cn_sender (new_TCPConnection c_tcp random)) = isnS.

Lemma start_inv a' tcp :
  adapter_ok a' -> Q a' [] -> conn_ok S T isnT tcp -> errors_paired tcp -> same_app (cn_sender (new_TCPConnection c_tcp random)) (cn_sender tcp) ->
  cn_receiver tcp = new_TCPReceiver (recv_capacity c_tcp) -> sock_loop_inv sponge_rules (new_socket_state thread_data device a' tcp).
Proof.
  intros Ha' HQ Hc Hp (Hi & Htw & Hie) Hr. split; [|done|by left]. split; cbn; try done; unfold stream_in; rewrite ?Htw, ?Hie, ?Heof; try done.
  - congruence.
  - by exists S.
  - unfold inbound_stream. by rewrite Hr.
Qed.

(** [connect] reaches its loop, in state [SYN_SENT] with a SYN to send. *)
Lemma sponge_connect_ok :
  Q (adapter_set_config c_ad a) [] ->
  returns (sponge_connect None c_tcp c_ad random thread_data device a) (λ w, sock_loop_inv sponge_rules w ∧ connecting w = true ∧
    ∃ seg, cn_segments_out (ss_tcp w) = [seg] ∧ syn (header seg) = true).
Proof.
  intros HQ. unfold sponge_connect. pose proof (new_conn_ok S T isnT c_tcp random Hsend Hrecv) as H0.
  destruct (connect_ok S T isnT HS _ H0) as (tcp & Hrun & Hc & Hr & Hsame). rewrite Hrun. unfold mbind, outcome_bind.
  assert (errors_paired tcp) as Hp by (eapply connect_paired; [exact Hrun|done]).
  assert (state tcp = of_state SYN_SENT ∧ ∃ seg, cn_segments_out tcp = [seg] ∧ syn (header seg) = true) as [Hst Hseg].
  { injection Hrun as <-. split; [reflexivity|]. by eexists. }
  unfold state_neqb. rewrite Hst. cbn [negb state_eqb]. apply returns_ret. split_and!; [|cbn; unfold connecting; cbn; by rewrite Hst|done].
  apply start_inv; try done. by apply config_ok.
Qed.

(** [listen_and_accept] reaches its loop, in state [LISTEN]. *)
Lemma sponge_listen_ok :
  Q (adapter_set_listening true (adapter_set_config c_ad a)) [] ->
  returns (sponge_listen None c_tcp c_ad random thread_data device a) (λ w, sock_loop_inv sponge_rules w ∧ accepting w = true).
Proof.
  intros HQ. unfold sponge_listen. apply returns_ret. split; [|reflexivity].
  apply start_inv; try done; [by apply listening_ok, config_ok|by apply new_conn_ok].
Qed.
End start.
End invariant.

(** What the connection [c] has been given of the stream [S]: its first [pos] bytes.
    Those that wait in the stream, the segments in flight and the segments still to
    be written to the device carry the bytes of [S] under their numbers. *)
Record stream_given (c : TCPConnection) (pos : Z) : Prop := {
  cy_given : bs_total_written (stream_in c) = pos;
  cy_waiting : contents (stream_in c) = slice S (bs_total_read (stream_in c)) pos;
  cy_sent : sd_next_seqno (cn_sender c) =
    if sd_syn (cn_sender c) then 1 + bs_total_read (stream_in c) + (if sd_fin_sent (cn_sender c) then 1 else 0) else 0;
  cy_flight : chain S (sd_isn (cn_sender c)) (sd_next_seqno (cn_sender c) - bytes_in_flight c)
    (sd_outstanding_segments (cn_sender c)) (sd_next_seqno (cn_sender c));
  cy_queued : Forall (TCPConnection.wire_ok S (sd_isn (cn_sender c))) (cn_segments_out c);
  cy_ended : input_ended (stream_in c) = true -> pos = zlen S
}.

Lemma conn_stream_given c pos : conn_ok S T isnT c -> bs_total_written (stream_in c) = pos -> stream_given c pos.
Proof.
  intros [Hs _ _ Ho] <-. split; try done; [apply (st_contents _ _ (sk_stream _ _ Hs))|apply (sk_next _ _ Hs)|apply (sk_chain _ _ Hs)|].
  apply (st_ended _ _ (sk_stream _ _ Hs)).
Qed.

(** C12: the loop around a connection is safe and loses nothing. After [connect]
    or [listen_and_accept], with any lawful adapter, however the kernel splits
    reads and writes (which do not fail, except for the lack of data or room) and
    the owner and the peer go on, without a reset: what was handed to the owner,
    followed by what waits for it, is a prefix of the peer's stream; the connection
    has been given exactly the bytes of the owner that were read, those waiting in
    its stream and in its segments are these bytes, in their places, and the stream
    is closed only after the last of them. An iteration of the loop in which [poll]
    reports no descriptor in error throws nothing: there is no false alarm of busy
    waiting and the connection accepts all that rule 2 reads. An iteration in which
    it reports one throws. *)
Theorem sponge_socket_safe c_tcp c_ad random thread_data device a w0 rules w :
  is_u64 (send_capacity c_tcp) -> 0 <= recv_capacity c_tcp < 2 ^ 62 -> ipv4_ok (source c_ad) -> ipv4_ok (destination c_ad) ->
  adapter_ok a -> fd_eof thread_data = false -> fd_closed thread_data = false ->
  sponge_connect None c_tcp c_ad random thread_data device a = Ret w0 ∨
    sponge_listen None c_tcp c_ad random thread_data device a = Ret w0 ->
  sock_reach sponge_rules w0 rules w ->
  snk_written (ss_owner_out w) ++ contents (inbound_stream (ss_tcp w)) `prefix_of` T ∧
  src_arrived (ss_owner_in w) `prefix_of` S ∧ stream_given (ss_tcp w) (src_pos (ss_owner_in w)) ∧
  (∀ condition poll abort base next, honest_poll rules poll w ->
     returns (tcp_loop_iter condition poll abort base next rules w) (λ _, True)) ∧
  (∀ condition poll abort base next, condition w = true -> candid_poll rules poll w -> reports_error sock_get_fd rules poll w ->
     tcp_loop_iter condition poll abort base next rules w = Throw (runtime_error "EventLoop: error on polled file descriptor")).
Proof.
  intros Hsend Hrecv Hsrc Hdst Ha Heof Hcl Hstart Hreach.
  set (isnS := sd_isn (cn_sender (new_TCPConnection c_tcp random))). set (Q := λ (_ : A) (_ : list wire_out), True).
  assert (sock_loop_inv isnS Q sponge_rules w0) as H0.
  { destruct Hstart as [Hrun|Hrun].
    - destruct (sponge_connect_ok isnS Q c_tcp c_ad random thread_data device a) as (w1 & Hret & ? & _); try done. congruence.
    - destruct (sponge_listen_ok isnS Q c_tcp c_ad random thread_data device a) as (w1 & Hret & ? & _); try done. congruence. }
  assert (sock_loop_inv isnS Q rules w) as Hl by (by eapply (sock_reach_inv isnS Q); [..|exact Hreach]). pose proof (sl_inv _ _ _ _ Hl) as Hw. split_and!.
  - rewrite (si_out _ _ _ Hw). apply slice_0_prefix.
  - destruct (si_owner _ _ _ Hw) as [rest Hrest]. by exists rest.
  - apply conn_stream_given; apply Hw.
  - intros. by eapply returns_mono; [by apply (iter_ok isnS Q)|].
  - intros. by apply (iter_error isnS Q).
Qed.

End sponge.

(** ** Concrete runs, over UDP *)

Definition sock_readyb {A} `{FdAdapter A} (k : sock_fd * Direction) (w : @socket_state A _) : bool :=
  match k with
  | (AdapterFD, In) => match ss_wire_in w with [] => false | _ => true end
  | (ThreadData, In) => negb (zlen (src_avail (ss_owner_in w)) =? 0) || src_ended (ss_owner_in w)
  | (ThreadData, Out) => negb (snk_full (ss_owner_out w))
  | (AdapterFD, Out) => true
  end.

Definition demo_local : Address := Address_of_ip 2130706433 4000.
Definition demo_remote : Address := Address_of_ip 2130706433 5000.
Definition demo_config : FdAdapterConfig := mkFdAdapterConfig demo_local demo_remote 0 0.
Definition demo_udp : UDPAdapter := mkUDP new_FdAdapterBase.
Definition demo_fd (n : Z) : FDWrapper := mkFD n false false 0 0.
Definition peer_base : FdAdapterBase := mkBase (mkFdAdapterConfig demo_remote demo_local 0 0) false.

(** The datagram that carries a segment of the peer. *)
Definition datagram_of (seg : TCPSegment) : Address * list byte :=
  match udp_write peer_base seg with Ret (_, bl, _) => (demo_remote, concatenate bl) | _ => (demo_remote, []) end.

(** The peer's SYN and acknowledgment, from initial sequence number 5. *)
Definition demo_syn_ack : TCPSegment :=
  on_header (λ h, set_win 1000 (set_ack true (set_ackno (mkWrap 8) (set_seqno (mkWrap 5) (set_syn true h))))) default_segment.
Definition demo_rst : TCPSegment := on_header (λ h, set_seqno (mkWrap 6) (set_rst true h)) default_segment.

Definition demo_rules : list (@Rule (@socket_state UDPAdapter _) sock_fd) := sponge_rules (λ _, 100) (λ _, 100).
Definition demo_start : @socket_state UDPAdapter _ :=
  match sponge_connect None sample_config demo_config 0 (demo_fd 3) (demo_fd 4) demo_udp with
  | Ret w => w
  | _ => new_socket_state (demo_fd 3) (demo_fd 4) demo_udp (new_TCPConnection sample_config 0)
  end.

Lemma demo_start_eq :
  (match sponge_connect None sample_config demo_config 0 (demo_fd 3) (demo_fd 4) demo_udp with Ret _ => true | _ => false end) = true ->
  sponge_connect None sample_config demo_config 0 (demo_fd 3) (demo_fd 4) demo_udp = Ret demo_start.
Proof. unfold demo_start. by destruct (sponge_connect None _ _ _ _ _ _). Qed.

Definition demo_iter (p : list (@Rule (@socket_state UDPAdapter _) sock_fd) * @socket_state UDPAdapter _) :=
  tcp_loop_iter (λ _, true) (poll_of sock_get_fd sock_readyb p.1 p.2) false 0 10 p.1 p.2.
Definition demo_next (p : list (@Rule (@socket_state UDPAdapter _) sock_fd) * @socket_state UDPAdapter _) :=
  match demo_iter p with Ret (_, _, rules, w) => (rules, w) | _ => p end.
Definition demo_kernel (data : list byte) (datagrams : list (Address * list byte))
    (p : list (@Rule (@socket_state UDPAdapter _) sock_fd) * @socket_state UDPAdapter _) :=
  (p.1, owner_step (A:=UDPAdapter) data false datagrams p.2).
Definition iterates (p : list (@Rule (@socket_state UDPAdapter _) sock_fd) * @socket_state UDPAdapter _) : bool :=
  match demo_iter p with Ret _ => true | _ => false end.

Lemma demo_throws p what :
  (match demo_iter p with Throw (runtime_error s) => bool_decide (s = what) | _ => false end) = true -> demo_iter p = Throw (runtime_error what).
Proof. destruct (demo_iter p) as [|[]| |]; try done. by intros ->%bool_decide_eq_true. Qed.

(** The SYN is sent and the answer comes in: the connection is established. *)
Definition demo_established := demo_next (demo_kernel [] [datagram_of demo_syn_ack] (demo_next (demo_rules, demo_start))).

(** Then the peer's data comes in and goes to the owner. *)
Definition demo_data : TCPSegment :=
  mkTCPSegment (set_win 1000 (set_ack true (set_ackno (mkWrap 8) (set_seqno (mkWrap 6) default_header)))) (Buffer_of_string [x68; x69]).
Definition demo_delivered := demo_next (demo_next (demo_kernel [] [datagram_of demo_data] demo_established)).

Lemma sock_readyb_ready k (w : @socket_state UDPAdapter _) : sock_readyb k w = true -> sock_ready k w.
Proof.
  destruct k as [[] []]; cbn; try done.
  - by destruct (ss_wire_in w).
  - intros [H%negb_true_iff%Z.eqb_neq|H]%orb_true_iff; [left; by intros ?%(f_equal zlen)|by right].
  - apply negb_true_iff.
Qed.

Section demo.
Context (S T : list byte) (isnT : WrappingInt32).

Lemma udp_good_wire addr bytes seg :
  segment_parse default_segment (Buffer_of_string bytes) 0 = Ret (seg, NoError) ->
  TCPConnection.wire_ok T isnT seg -> rst (header seg) = false -> ipv4_ok addr -> zlen bytes < 2 ^ 63 ->
  good_wire (A:=UDPAdapter) T isnT (addr, bytes).
Proof.
  intros Hparse Hok Hrst Haddr Hlen. split; [done|]. intros a a' seg' out _. cbn. unfold udp_read. cbn [fst snd].
  destruct (negb _ && negb _); [done|]. rewrite Hparse. unfold mbind, outcome_bind. rewrite bool_decide_eq_true_2 by done. cbn [negb].
  destruct (listening _); [destruct (_ && _)|]; [|done|]; by intros [= _ <- _].
Qed.

(** What the peer's datagram is parsed to. *)
Definition parsed (seg : TCPSegment) : TCPSegment :=
  match segment_parse default_segment (Buffer_of_string (datagram_of seg).2) 0 with Ret (s, _) => s | _ => default_segment end.
Definition parses (seg : TCPSegment) : bool :=
  match segment_parse default_segment (Buffer_of_string (datagram_of seg).2) 0 with Ret (_, NoError) => true | _ => false end.

Lemma datagram_good_wire seg :
  parses seg = true -> TCPConnection.wire_ok T isnT (parsed seg) -> rst (header (parsed seg)) = false ->
  (zlen (datagram_of seg).2 <? 2 ^ 63) = true -> good_wire (A:=UDPAdapter) T isnT (datagram_of seg).
Proof.
  unfold parses, parsed. intros Hp Hok Hrst Hl%Z.ltb_lt.
  assert (datagram_of seg = (demo_remote, (datagram_of seg).2)) as Heq.
  { unfold datagram_of. by destruct (udp_write peer_base seg) as [[[]]| | |]. }
  rewrite Heq. destruct (segment_parse _ _ _) as [[s []]| | |] eqn:Hs; try done.
  eapply udp_good_wire; [exact Hs|done|done|by apply Address_of_ip_ok|done].
Qed.

Abbreviation demo_reach := (sock_reach (A:=UDPAdapter) S T isnT demo_rules demo_start).

Lemma demo_next_reach p :
  iterates p = true -> udp_base (ss_datagram_adapter (demo_next p).2) = mkBase demo_config false -> demo_reach p.1 p.2 ->
  demo_reach (demo_next p).1 (demo_next p).2.
Proof.
  unfold iterates, demo_next. destruct (demo_iter p) as [[[[go base] rules] w]| | |] eqn:Hit; try done. intros _ Ha Hr.
  eapply sr_iter; [exact Hr| |exact Hit|cbn in *; rewrite Ha; by split; apply Address_of_ip_ok].
  intros l w' revents. apply (poll_of_ok sock_get_fd sock_ready sock_hup sock_readyb), sock_readyb_ready.
Qed.

Lemma demo_kernel_reach data datagrams p :
  Forall (good_wire (A:=UDPAdapter) T isnT) datagrams -> src_arrived (ss_owner_in p.2) = [] -> data `prefix_of` S ->
  demo_reach p.1 p.2 -> demo_reach (demo_kernel data datagrams p).1 (demo_kernel data datagrams p).2.
Proof.
  intros Hg Harr [rest Hd] Hr. apply sr_owner; try done. unfold arrive. destruct (src_ended _); cbn; rewrite ?Harr; [by exists S|by exists rest].
Qed.
End demo.

Lemma demo_syn_ack_ok : TCPConnection.wire_ok [x68; x69] (mkWrap 5) (parsed demo_syn_ack).
Proof.
  split; [exists 0; split; vm_compute; try done; by split|]. split; [|vm_compute; discriminate].
  split; unfold is_u16, is_u32; vm_compute; by split.
Qed.

Lemma demo_data_ok : TCPConnection.wire_ok [x68; x69] (mkWrap 5) (parsed demo_data).
Proof.
  split; [exists 1; split; vm_compute; try done; by split|]. split; [|vm_compute; discriminate].
  split; unfold is_u16, is_u32; vm_compute; by split.
Qed.

(** Then the owner writes two bytes. *)
Definition demo_written := demo_next (demo_kernel [x61; x62] [] demo_delivered).

Lemma sponge_socket_safe_witness :
  snk_written (ss_owner_out demo_written.2) = [x68; x69] ∧ src_pos (ss_owner_in demo_written.2) = 2 ∧
  snk_written (ss_owner_out demo_written.2) ++ contents (inbound_stream (ss_tcp demo_written.2)) `prefix_of` [x68; x69] ∧
  src_arrived (ss_owner_in demo_written.2) `prefix_of` [x61; x62] ∧ stream_given [x61; x62] (ss_tcp demo_written.2) 2 ∧
  (∀ condition poll abort base next, honest_poll demo_written.1 poll demo_written.2 ->
     returns (tcp_loop_iter condition poll abort base next demo_written.1 demo_written.2) (λ _, True)) ∧
  (∀ condition poll abort base next, condition demo_written.2 = true -> candid_poll demo_written.1 poll demo_written.2 ->
     reports_error sock_get_fd demo_written.1 poll demo_written.2 ->
     tcp_loop_iter condition poll abort base next demo_written.1 demo_written.2 =
       Throw (runtime_error "EventLoop: error on polled file descriptor")).
Proof.
  split; [vm_compute; reflexivity|]. split; [vm_compute; reflexivity|]. assert (src_pos (ss_owner_in demo_written.2) = 2) as <- by (vm_compute; reflexivity).
  apply (sponge_socket_safe (λ _, 100) (λ _, 100) [x61; x62] [x68; x69] (mkWrap 5) eq_refl eq_refl ltac:(unfold wint_ok, is_u32; cbn; lia)
    sample_config demo_config 0 (demo_fd 3) (demo_fd 4) demo_udp demo_start demo_written.1 demo_written.2).
  - unfold is_u64. vm_compute. split; congruence.
  - vm_compute. split; congruence.
  - by apply Address_of_ip_ok.
  - by apply Address_of_ip_ok.
  - by split; apply Address_of_ip_ok.
  - reflexivity.
  - reflexivity.
  - left. apply demo_start_eq. vm_compute. reflexivity.
  - apply demo_next_reach; [vm_compute; reflexivity..|].
    apply demo_kernel_reach; [constructor|vm_compute; reflexivity|done|].
    do 2 (apply demo_next_reach; [vm_compute; reflexivity..|]).
    apply demo_kernel_reach; [|vm_compute; reflexivity|apply prefix_nil|].
    { apply Forall_singleton, datagram_good_wire; [vm_compute; reflexivity|apply demo_data_ok|vm_compute; reflexivity..]. }
    apply demo_next_reach; [vm_compute; reflexivity..|].
    apply demo_kernel_reach; [|vm_compute; reflexivity|apply prefix_nil|].
    { apply Forall_singleton, datagram_good_wire; [vm_compute; reflexivity|apply demo_syn_ack_ok|vm_compute; reflexivity..]. }
    apply demo_next_reach; [vm_compute; reflexivity..|]. apply sr_init.
Defined.

(** A reset that arrives together with data of the owner brings the thread
    down. On an established connection the iteration after a RST, and the one
    after the owner has written, return; when both wait in the same round, rule 1
    makes the connection inactive, [write] accepts nothing of what rule 2 then
    reads, and the exception ends the loop. *)
Theorem reset_while_writing :
  state (ss_tcp demo_established.2) = of_state ESTABLISHED ∧
  iterates (demo_kernel [] [datagram_of demo_rst] demo_established) = true ∧
  iterates (demo_kernel [x61] [] demo_established) = true ∧
  demo_iter (demo_kernel [x61] [datagram_of demo_rst] demo_established) =
    Throw (runtime_error "TCPConnection::write() accepted less than advertised length").
Proof.
  split; [vm_compute; reflexivity|]. split; [vm_compute; reflexivity|]. split; [vm_compute; reflexivity|].
  by apply demo_throws; vm_compute.
Qed.
