(* ===== verification/Sockets.v ===== *)
(** Two [TCPSpongeSocket]s at work: the threads' event loops of both, their
    owners and the network between their devices.

    The loops, the connections and the adapters are those of the source; what
    this file adds is who may do what next. An owner writes any bytes or closes
    its end; a device is handed datagrams that the other device has sent, late,
    in any order and any number of times or never, and datagrams that mean nothing
    to an adapter, such as those that were damaged on the way or that others sent;
    a thread goes through an iteration of its loop, with whatever [poll] honestly
    reports and whatever time it is. *)
From S2P Require Import Prelude Buffer ByteStream WrappingIntegers TCPSegment TCPReceiver TCPSender TCPState TCPConnection Address Adapters Carrier FileDescriptor EventLoop Kernel SpongeSocket.

(** ** What an iteration leaves alone *)
Section undisturbed.
Context {A : Type} `{FdAdapter A} (chunk room : @socket_state A _ -> Z).

(** What the owner has written so far, and whether it has closed its end. *)
Definition owner_wrote (w : @socket_state A _) : list byte * bool := (src_arrived (ss_owner_in w), src_ended (ss_owner_in w)).

Lemma kernel_read_wrote c s n r data s' :
  kernel_read c s n = (r, data, s') -> src_arrived s' = src_arrived s ∧ src_ended s' = src_ended s.
Proof. unfold kernel_read. destruct (src_avail s); by intros [= _ _ <-]. Qed.

Lemma send_segments_wrote q (w w' : @socket_state A _) : send_segments q w = Ret w' -> owner_wrote w' = owner_wrote w.
Proof.
  revert w. induction q as [|seg q IH]; intros w; cbn [send_segments]; [by intros [= <-]|].
  intros ([[a s] out] & _ & Hq)%bind_ret_inv. by apply IH in Hq.
Qed.

Lemma on_datagram_wrote (w w' : @socket_state A _) : on_datagram w = Ret w' -> owner_wrote w' = owner_wrote w.
Proof.
  unfold on_datagram. destruct (ss_wire_in w); [done|].
  intros ([[a seg] out] & _ & H1)%bind_ret_inv. by apply bind_ret_inv in H1 as (tcp & _ & [= <-]).
Qed.

Lemma on_owner_data_wrote (w w' : @socket_state A _) : on_owner_data chunk w = Ret w' -> owner_wrote w' = owner_wrote w.
Proof.
  unfold on_owner_data. destruct (kernel_read _ _ _) as [[r data] s] eqn:Hk. apply kernel_read_wrote in Hk as [Har Hen].
  intros ([fd d] & _ & H1)%bind_ret_inv. apply bind_ret_inv in H1 as ([tcp n] & _ & H1). destruct (negb _); [done|].
  apply bind_ret_inv in H1 as ([tcp' b] & _ & [= <-]). unfold owner_wrote. cbn. by rewrite Har, Hen.
Qed.

Lemma to_owner_wrote (w w' : @socket_state A _) : to_owner room w = Ret w' -> owner_wrote w' = owner_wrote w.
Proof.
  unfold to_owner. intros ([[fd bs] s] & _ & H1)%bind_ret_inv. by apply bind_ret_inv in H1 as ([[fd' b] s'] & _ & [= <-]).
Qed.

Lemma sponge_rules_wrote : Forall (leaves owner_wrote) (sponge_rules chunk room).
Proof.
  assert (∀ w w' : @socket_state A _, Ret w = Ret w' -> owner_wrote w' = owner_wrote w) as Hret by (by intros w w' [= <-]).
  repeat apply Forall_cons_2; [split; cbn; auto..|constructor].
  - apply on_datagram_wrote.
  - apply on_owner_data_wrote.
  - intros w w'. unfold cancel_owner_data. by intros (tcp & _ & [= <-])%bind_ret_inv.
  - apply to_owner_wrote.
  - intros w w'. apply send_segments_wrote.
Qed.

Lemma iter_wrote condition poll abort base next rules w go base' rules' w' :
  Forall (leaves owner_wrote) rules -> tcp_loop_iter condition poll abort base next rules w = Ret (go, base', rules', w') ->
  owner_wrote w' = owner_wrote w ∧ Forall (leaves owner_wrote) rules'.
Proof.
  intros Hr. unfold tcp_loop_iter. destruct (negb _); [by intros [= _ _ <- <-]|].
  intros ([[res rs] w1] & Hwait & Hrun)%bind_ret_inv. destruct (wait_leaves _ _ _ _ _ _ _ _ Hr Hwait) as [Hw Hrs].
  destruct (_ || _); [by injection Hrun as _ _ <- <-|]. destruct (active _); [|by injection Hrun as _ _ <- <-].
  cbv zeta in Hrun. destruct (adapter_tick _ _) as [a out]. by injection Hrun as _ _ <- <-.
Qed.
End undisturbed.

(** ** The system *)
Section sockets.
Context {A : Type} `{CarryingAdapter A}.
Abbreviation socket := (@socket_state A _).
Abbreviation rule := (@Rule socket sock_fd).

(** A side: the rules that its loop still has, and its state. *)
Definition endpoint : Type := list rule * socket.

(** A datagram that no adapter reads a segment from. *)
Definition noise (d : wire_in) : Prop :=
  wire_ok d ∧ ∀ a a' seg out, adapter_ok a -> adapter_read a d = Ret (a', seg, out) -> seg = None.

(** No adapter reads a reset from it. *)
Definition no_reset (d : wire_in) : Prop :=
  ∀ a a' seg out, adapter_ok a -> adapter_read a d = Ret (a', Some seg, out) -> rst (header seg) = false.

(** What may arrive from [peer], whose device has the address [from]. *)
Definition available (from : Address) (peer : socket) (d : wire_in) : Prop :=
  noise d ∨ ∃ o, o ∈ ss_wire_out peer ∧ d = transmit from o ∧ no_reset d.

(** A step of one side, to which the datagrams [avail] may come. *)
Inductive end_step (avail : wire_in -> Prop) : endpoint -> endpoint -> Prop :=
| end_owner rules w data ended : end_step avail (rules, w) (rules, owner_step data ended [] w)
| end_deliver rules w datagrams : Forall avail datagrams -> end_step avail (rules, w) (rules, owner_step [] false datagrams w)
| end_iter rules w condition poll abort base next goes_on base' rules' w' :
    honest_poll rules poll w -> tcp_loop_iter condition poll abort base next rules w = Ret (goes_on, base', rules', w') ->
    adapter_ok (ss_datagram_adapter w') -> end_step avail (rules, w) (rules', w').

Inductive pair_step (fromA fromB : Address) : endpoint * endpoint -> endpoint * endpoint -> Prop :=
| pair_left a b a' : end_step (available fromB b.2) a a' -> pair_step fromA fromB (a, b) (a', b)
| pair_right a b b' : end_step (available fromA a.2) b b' -> pair_step fromA fromB (a, b) (a, b').

(** *** What an owner has written only grows *)
Definition wrote (e : endpoint) : list byte := src_arrived (ss_owner_in e.2).
Definition closed (e : endpoint) : bool := src_ended (ss_owner_in e.2).

Record grows (e e' : endpoint) : Prop := {
  gr_wrote : wrote e `prefix_of` wrote e';
  gr_closed : closed e = true -> wrote e' = wrote e ∧ closed e' = true
}.

#[export] Instance grows_preorder : PreOrder grows.
Proof.
  split; [by intros e; split|]. intros e1 e2 e3 [Hp1 Hd1] [Hp2 Hd2]. split; [by etrans|].
  intros Hc. destruct (Hd1 Hc) as [Hw Hc2]. destruct (Hd2 Hc2) as [Hw' Hc3]. split; [congruence|done].
Qed.

Definition undisturbed (e : endpoint) : Prop := Forall (leaves owner_wrote) e.1.

Lemma arrive_grows rules w data ended ds : grows (rules, w) (rules, owner_step data ended ds w).
Proof.
  split; unfold wrote, closed; cbn; unfold arrive; destruct (src_ended (ss_owner_in w)) eqn:He; cbn; try done.
  by apply prefix_app_r.
Qed.

Lemma end_step_grows avail e e' : undisturbed e -> end_step avail e e' -> undisturbed e' ∧ grows e e'.
Proof.
  unfold undisturbed. intros He Hs. destruct Hs as [rules w data ended|rules w ds Hd|rules w cond poll ab base next go base' rules' w' Hp Hrun Ha].
  - split; [done|apply arrive_grows].
  - split; [done|apply arrive_grows].
  - destruct (iter_wrote _ _ _ _ _ _ _ _ _ _ _ He Hrun) as [Hw Hr]. split; [done|]. injection Hw as Hw Hc.
    split; unfold wrote, closed; cbn; rewrite ?Hw, ?Hc; done.
Qed.

Definition pair_grows (p q : endpoint * endpoint) : Prop := grows p.1 q.1 ∧ grows p.2 q.2.
Definition pair_undisturbed (p : endpoint * endpoint) : Prop := undisturbed p.1 ∧ undisturbed p.2.

Lemma pair_step_grows fromA fromB p q :
  pair_undisturbed p -> pair_step fromA fromB p q -> pair_undisturbed q ∧ pair_grows p q.
Proof.
  intros Hu Hs. destruct Hs as [a b a' Hs|a b b' Hs], Hu as [Ha Hb]; cbn in *.
  - destruct (end_step_grows _ _ _ Ha Hs). split; by split.
  - destruct (end_step_grows _ _ _ Hb Hs). split; by split.
Qed.

Lemma pair_run_grows fromA fromB p q : pair_undisturbed p -> rtc (pair_step fromA fromB) p q -> pair_grows p q.
Proof.
  intros Hu Hr. induction Hr as [p|p p1 q Hs Hr IH]; [by split|].
  destruct (pair_step_grows _ _ _ _ Hu Hs) as [Hu' [Hg1 Hg2]]. destruct (IH Hu') as [Hg3 Hg4]. split; by etrans.
Qed.

(** *** What a device has sent *)

(** All that is on its way carries segments of the stream [S] from [isn]. *)
Definition sends (S : list byte) (isn : WrappingInt32) (from : Address) (a : A) (sent : list wire_out) : Prop :=
  holds (TCPConnection.wire_ok S isn) a ∧ Forall (λ o, carries (TCPConnection.wire_ok S isn) (transmit from o)) sent.

Lemma available_good S isn from (peer : socket) d :
  sends S isn from (ss_datagram_adapter peer) (ss_wire_out peer) -> available from peer d -> good_wire S isn d.
Proof.
  intros [_ Hs] [[Hd Hn]|(o & Ho & -> & Hr)].
  - split; [done|]. intros a a' seg out Ha Hread. by specialize (Hn _ _ _ _ Ha Hread).
  - rewrite Forall_forall in Hs. destruct (Hs o Ho) as [Hd Hc]. split; [done|]. intros a a' seg out Ha Hread.
    destruct (Hc _ _ _ _ Ha Hread) as (seg0 & Hw & Hcar). split; [by eapply carried_wire|by eapply Hr].
Qed.

Section sends.
Context (S : list byte) (isn : WrappingInt32) (from : Address).
Hypothesis Hfrom : ipv4_ok from.

Lemma sends_read a d sent a' seg out :
  adapter_ok a -> wire_ok d -> sends S isn from a sent -> adapter_read a d = Ret (a', seg, out) -> sends S isn from a' (sent ++ out).
Proof. intros Ha Hd [Hh Hs] Hr. destruct (holds_read _ from _ _ _ _ _ Hfrom Ha Hd Hh Hr). split; [done|by apply Forall_app]. Qed.

Lemma sends_write a seg sent a' seg' out :
  adapter_ok a -> TCPConnection.wire_ok S isn seg -> sends S isn from a sent -> adapter_write a seg = Ret (a', seg', out) ->
  sends S isn from a' (sent ++ out).
Proof.
  intros Ha Hseg [Hh Hs] Hw. pose proof (wire_segment_ok _ _ _ Hseg).
  destruct (holds_write (TCPConnection.wire_ok S isn) from _ _ _ _ _ Hfrom Ha ltac:(done) Hseg Hh Hw). split; [done|by apply Forall_app].
Qed.

Lemma sends_tick a ms sent : adapter_ok a -> sends S isn from a sent -> sends S isn from (adapter_tick a ms).1 (sent ++ (adapter_tick a ms).2).
Proof. intros Ha [Hh Hs]. destruct (holds_tick _ from a ms Hfrom Ha Hh). split; [done|by apply Forall_app]. Qed.
End sends.

(** *** The invariant of a side: the owner goes on to write [S], the other one [T] *)
Definition side_inv (chunk room : socket -> Z) (S T : list byte) (isnS isnT : WrappingInt32) (from : Address) (e : endpoint) : Prop :=
  sock_loop_inv chunk room S T isnT isnS (sends S isnS from) e.1 e.2.

Section side.
Context (chunk room : socket -> Z) (S T : list byte) (isnS isnT : WrappingInt32) (from : Address).
Hypothesis HS : zlen S + 2 < 2 ^ 31.
Hypothesis HT : zlen T + 2 < 2 ^ 31.
Hypothesis HisnT : wint_ok isnT.
Hypothesis Hfrom : ipv4_ok from.

Lemma side_iter condition poll abort base next e :
  side_inv chunk room S T isnS isnT from e -> honest_poll e.1 poll e.2 ->
  returns (tcp_loop_iter condition poll abort base next e.1 e.2) (λ '(_, _, rules', w'),
    adapter_ok (ss_datagram_adapter w') -> side_inv chunk room S T isnS isnT from (rules', w')).
Proof.
  intros He Hp. apply (iter_ok chunk room S T isnT ltac:(lia) HT HisnT isnS (sends S isnS from)); try done.
  - intros. by eapply sends_read.
  - intros. by eapply sends_write.
  - intros. by apply sends_tick.
Qed.

Lemma side_step avail e e' :
  (∀ d, avail d -> good_wire T isnT d) -> wrote e' `prefix_of` S -> (closed e' = true -> wrote e' = S) ->
  side_inv chunk room S T isnS isnT from e -> end_step avail e e' -> side_inv chunk room S T isnS isnT from e'.
Proof.
  intros Hav Hpre Hcl He Hs. destruct Hs as [rules w data ended|rules w ds Hd|rules w cond poll ab base next go base' rules' w' Hp Hrun Ha].
  - apply owner_step_inv; [done|constructor|destruct Hpre as [k ->]; by exists k|]. intros ->. apply Hcl. unfold closed. cbn. unfold arrive.
    by destruct (src_ended (ss_owner_in w)) eqn:?.
  - apply owner_step_inv; [done|eapply Forall_impl; [exact Hd|exact Hav]|destruct Hpre as [k ->]; by exists k|done].
  - destruct (side_iter cond poll ab base next (rules, w) He Hp) as ([[[go1 b1] rs] w1] & Hret & Hl). cbn in Hret.
    rewrite Hrun in Hret. injection Hret as <- <- <- <-. by apply Hl.
Qed.

(** What the invariant promises. *)
Lemma side_promises rules w :
  side_inv chunk room S T isnS isnT from (rules, w) ->
  snk_written (ss_owner_out w) ++ contents (inbound_stream (ss_tcp w)) `prefix_of` T ∧
  (∀ condition poll abort base next, honest_poll rules poll w ->
     returns (tcp_loop_iter condition poll abort base next rules w) (λ _, True)).
Proof.
  intros He. split.
  - destruct He as [Hw _ _]. cbn in Hw. rewrite (si_out _ _ _ _ _ _ Hw). apply slice_0_prefix.
  - intros condition poll abort base next Hp. eapply returns_mono; [by apply (side_iter condition poll abort base next (rules, w))|done].
Qed.
End side.

(** ** Where it starts *)

(** How a side is set up: its configuration, the random number it draws, its
    descriptors, its adapter and the address of its device. *)
Record Party := mkParty {
  p_tcp : TCPConfig;
  p_ad : FdAdapterConfig;
  p_random : Z;
  p_thread_data : FDWrapper;
  p_device : FDWrapper;
  p_adapter : A;
  p_address : Address;
  p_chunk : socket -> Z;
  p_room : socket -> Z
}.

Definition party_isn (p : Party) : WrappingInt32 := sd_isn (cn_sender (new_TCPConnection (p_tcp p) (p_random p))).

(** It connects or it listens. *)
Definition opens (p : Party) (w : socket) : Prop :=
  sponge_connect None (p_tcp p) (p_ad p) (p_random p) (p_thread_data p) (p_device p) (p_adapter p) = Ret w ∨
  sponge_listen None (p_tcp p) (p_ad p) (p_random p) (p_thread_data p) (p_device p) (p_adapter p) = Ret w.

Record party_ok (p : Party) : Prop := {
  po_send : is_u64 (send_capacity (p_tcp p));
  po_recv : 0 <= recv_capacity (p_tcp p) < 2 ^ 62;
  po_isn : wint_ok (party_isn p);
  po_source : ipv4_ok (source (p_ad p));
  po_destination : ipv4_ok (destination (p_ad p));
  po_address : ipv4_ok (p_address p);
  po_adapter : adapter_ok (p_adapter p);
  po_idle P : holds P (p_adapter p);
  po_eof : fd_eof (p_thread_data p) = false;
  po_closed : fd_closed (p_thread_data p) = false
}.

Definition party_rules (p : Party) : list rule := sponge_rules (p_chunk p) (p_room p).

Lemma opens_inv p w S T isnT :
  party_ok p -> zlen S + 2 < 2 ^ 31 -> opens p w ->
  side_inv (p_chunk p) (p_room p) S T (party_isn p) isnT (p_address p) (party_rules p, w).
Proof.
  intros Hp HS [Hrun|Hrun]; pose proof Hp as [].
  - destruct (sponge_connect_ok (p_chunk p) (p_room p) S T isnT ltac:(lia) (party_isn p) (sends S (party_isn p) (p_address p))
      (p_tcp p) (p_ad p) (p_random p) (p_thread_data p) (p_device p) (p_adapter p)) as (w1 & Hret & Hl & _); try done.
    { split; [by apply holds_config|constructor]. } rewrite Hrun in Hret. by injection Hret as <-.
  - destruct (sponge_listen_ok (p_chunk p) (p_room p) S T isnT (party_isn p) (sends S (party_isn p) (p_address p))
      (p_tcp p) (p_ad p) (p_random p) (p_thread_data p) (p_device p) (p_adapter p)) as (w1 & Hret & Hl & _); try done.
    { split; [by apply holds_listening, holds_config|constructor]. } rewrite Hrun in Hret. by injection Hret as <-.
Qed.

(** ** Both sides *)
Definition pair_inv (pA pB : Party) (SA SB : list byte) (s : endpoint * endpoint) : Prop :=
  side_inv (p_chunk pA) (p_room pA) SA SB (party_isn pA) (party_isn pB) (p_address pA) s.1 ∧
  side_inv (p_chunk pB) (p_room pB) SB SA (party_isn pB) (party_isn pA) (p_address pB) s.2.

Section run.
Context (pA pB : Party) (HA : party_ok pA) (HB : party_ok pB).

Lemma grows_ends e z : grows e z -> wrote e `prefix_of` wrote z ∧ (closed e = true -> wrote e = wrote z).
Proof. intros [Hp Hc]. split; [done|]. intros ?. by symmetry; apply Hc. Qed.

Lemma side_known p S T isnT e :
  side_inv (p_chunk p) (p_room p) S T (party_isn p) isnT (p_address p) e ->
  sends S (party_isn p) (p_address p) (ss_datagram_adapter e.2) (ss_wire_out e.2).
Proof. intros [He _ _]. apply He. Qed.

(** The invariant, for what the owners will have written in the end. *)
Lemma run_inv s z :
  pair_undisturbed s -> zlen (wrote z.1) + 2 < 2 ^ 31 -> zlen (wrote z.2) + 2 < 2 ^ 31 ->
  rtc (pair_step (p_address pA) (p_address pB)) s z -> pair_inv pA pB (wrote z.1) (wrote z.2) s -> pair_inv pA pB (wrote z.1) (wrote z.2) z.
Proof.
  intros Hu HlA HlB Hr. induction Hr as [s|s s1 z Hs Hr IH]; [done|]. intros [Ha Hb].
  destruct (pair_step_grows _ _ _ _ Hu Hs) as [Hu1 _]. apply IH; try done.
  destruct (pair_run_grows _ _ _ _ Hu1 Hr) as [[Hp1 Hc1]%grows_ends [Hp2 Hc2]%grows_ends].
  destruct Hs as [a b a' Hs|a b b' Hs]; cbn in *.
  - split; [|done]. eapply side_step; [done..|apply HB|apply HA| |done|done|exact Ha|exact Hs].
    intros d Hd. eapply available_good; [by eapply side_known|done].
  - split; [done|]. eapply side_step; [done..|apply HA|apply HB| |done|done|exact Hb|exact Hs].
    intros d Hd. eapply available_good; [by eapply side_known|done].
Qed.

End run.
End sockets.

(** ** A concrete run, over UDP *)

Definition demo_listener : FdAdapterConfig := mkFdAdapterConfig demo_remote demo_local 0 0.
Definition demo_A : @Party UDPAdapter _ :=
  mkParty sample_config demo_config 0 (demo_fd 3) (demo_fd 4) demo_udp demo_local (λ _, 100) (λ _, 100).
Definition demo_B : @Party UDPAdapter _ :=
  mkParty sample_config demo_listener 0 (demo_fd 5) (demo_fd 6) demo_udp demo_remote (λ _, 100) (λ _, 100).

Abbreviation demo_end := (@endpoint UDPAdapter _).

Definition demo_listening : @socket_state UDPAdapter _ :=
  new_socket_state (demo_fd 5) (demo_fd 6) (adapter_set_listening true (adapter_set_config demo_listener demo_udp)) (new_TCPConnection sample_config 0).

(** Steps of either side. *)
Definition next_A (s : demo_end * demo_end) : demo_end * demo_end := (demo_next s.1, s.2).
Definition next_B (s : demo_end * demo_end) : demo_end * demo_end := (s.1, demo_next s.2).
Definition write_A (data : list byte) (s : demo_end * demo_end) : demo_end * demo_end := (demo_kernel data [] s.1, s.2).
(** All that the other device has sent, or has sent but for the first datagrams. *)
Definition sent_from (n : nat) (from : Address) (e : demo_end) : list (Address * list byte) :=
  map (transmit (A := UDPAdapter) from) (drop n (ss_wire_out e.2)).
Definition carry_AB (n : nat) (s : demo_end * demo_end) : demo_end * demo_end := (s.1, demo_kernel [] (sent_from n demo_local s.1) s.2).
Definition carry_BA (n : nat) (s : demo_end * demo_end) : demo_end * demo_end := (demo_kernel [] (sent_from n demo_remote s.2) s.1, s.2).

Definition harmless (d : Address * list byte) : bool :=
  match segment_parse default_segment (Buffer_of_string d.2) 0 with Ret (seg, NoError) => negb (rst (header seg)) | _ => true end.

Lemma harmless_no_reset d : harmless d = true -> no_reset (A := UDPAdapter) d.
Proof.
  destruct d as [addr bytes]. unfold harmless. intros Hd [a] [a'] seg out _. cbn -[udp_read].
  intros ([b s] & Hr & [= _ -> _])%bind_ret_inv. apply udp_read_some in Hr. cbn in Hd, Hr. rewrite Hr in Hd. by apply negb_true_iff.
Qed.

Lemma sent_available n from e :
  forallb harmless (sent_from n from e) = true -> Forall (available from e.2) (sent_from n from e).
Proof.
  rewrite forallb_forall. intros Hh. unfold sent_from in *. apply Forall_map, Forall_forall. intros o Ho. right. exists o.
  split_and!; [|done|by apply harmless_no_reset, Hh, in_map, list_elem_of_In]. rewrite <- (take_drop n). apply elem_of_app. by right.
Qed.

Lemma demo_end_step avail p c :
  iterates p = true -> config (udp_base (ss_datagram_adapter (demo_next p).2)) = c -> ipv4_ok (source c) -> ipv4_ok (destination c) ->
  end_step avail p (demo_next p).
Proof.
  unfold iterates, demo_next. destruct (demo_iter p) as [[[[go base] rules] w]| | |] eqn:Hit; try done. intros _ Hc Hs Hd. destruct p as [rs w0].
  eapply end_iter; [|exact Hit|cbn in *; unfold base_ok; by rewrite Hc].
  intros l w' revents. apply (poll_of_ok sock_get_fd sock_ready sock_hup sock_readyb), sock_readyb_ready.
Qed.

Abbreviation demo_run := (rtc (pair_step (A := UDPAdapter) demo_local demo_remote) ((party_rules demo_A, demo_start), (party_rules demo_B, demo_listening))).

Section demo_run.
Context (s : demo_end * demo_end).
Hypothesis Hs : demo_run s.

Lemma run_next_A :
  iterates s.1 = true -> config (udp_base (ss_datagram_adapter (demo_next s.1).2)) = demo_config -> demo_run (next_A s).
Proof.
  intros Hi Hc. eapply rtc_r; [exact Hs|]. destruct s as [a b]. apply pair_left.
  eapply demo_end_step; [done|exact Hc|by apply Address_of_ip_ok..].
Qed.

Lemma run_next_B :
  iterates s.2 = true -> config (udp_base (ss_datagram_adapter (demo_next s.2).2)) = demo_listener -> demo_run (next_B s).
Proof.
  intros Hi Hc. eapply rtc_r; [exact Hs|]. destruct s as [a b]. apply pair_right.
  eapply demo_end_step; [done|exact Hc|by apply Address_of_ip_ok..].
Qed.

Lemma run_write_A data : demo_run (write_A data s).
Proof. eapply rtc_r; [exact Hs|]. destruct s as [[ra a] b]. apply pair_left, (end_owner _ ra a). Qed.

Lemma run_carry_AB n : forallb harmless (sent_from n demo_local s.1) = true -> demo_run (carry_AB n s).
Proof. intros Hh. eapply rtc_r; [exact Hs|]. destruct s as [a [rb b]]. apply pair_right, (end_deliver _ rb b). by apply sent_available. Qed.

Lemma run_carry_BA n : forallb harmless (sent_from n demo_remote s.2) = true -> demo_run (carry_BA n s).
Proof. intros Hh. eapply rtc_r; [exact Hs|]. destruct s as [[ra a] b]. apply pair_left, (end_deliver _ ra a). by apply sent_available. Qed.
End demo_run.

(** The three steps of the handshake, then two bytes from [A] to [B]; the SYN
    reaches [B] a second time in between. *)
Definition demo_connected : demo_end * demo_end :=
  next_A (carry_BA 0 (next_B (next_B (carry_AB 0 (next_A ((party_rules demo_A, demo_start), (party_rules demo_B, demo_listening))))))).
Definition demo_exchanged : demo_end * demo_end :=
  next_B (next_B (next_B (next_B (carry_AB 0 (next_A (next_A (write_A [x68; x69] demo_connected))))))).

Lemma demo_party_A_ok : party_ok demo_A.
Proof. split; try done; unfold is_u64, wint_ok, is_u32, adapter_ok; cbn; try lia; repeat split; try (by apply Address_of_ip_ok). Qed.
Lemma demo_party_B_ok : party_ok demo_B.
Proof. split; try done; unfold is_u64, wint_ok, is_u32, adapter_ok; cbn; try lia; repeat split; try (by apply Address_of_ip_ok). Qed.

Lemma ends_eta (s : demo_end * demo_end) : ((s.1.1, s.1.2), (s.2.1, s.2.2)) = s.
Proof. by destruct s as [[] []]. Qed.


(** ** A whole life, from the handshake to the end of both loops *)

(** An iteration that takes [ms] milliseconds, with the condition of the thread. *)
Definition iter_ms (ms : Z) (e : demo_end) :=
  tcp_loop_iter (λ _, true) (poll_of sock_get_fd sock_readyb e.1 e.2) false 0 ms e.1 e.2.
Definition after_ms (ms : Z) (e : demo_end) : demo_end := match iter_ms ms e with Ret (_, _, rules, w) => (rules, w) | _ => e end.

(** The loop ends here, without an exception. *)
Definition loop_ends (e : demo_end) : bool := match iter_ms 10 e with Ret (goes_on, _, _, _) => negb goes_on | _ => false end.

(** Both loops run twice, and what the devices have sent since the last time
    reaches the other side. *)
Fixpoint life (n : nat) (ms : Z) (carried_A carried_B : nat) (s : demo_end * demo_end) : demo_end * demo_end :=
  match n with
  | O => s
  | S n =>
      let s := (after_ms ms (after_ms ms s.1), after_ms ms (after_ms ms s.2)) in
      life n ms (List.length (ss_wire_out s.1.2)) (List.length (ss_wire_out s.2.2))
        (demo_kernel [] (sent_from carried_B demo_remote s.2) s.1, demo_kernel [] (sent_from carried_A demo_local s.1) s.2)
  end.
Definition live (n : nat) (ms : Z) (s : demo_end * demo_end) : demo_end * demo_end :=
  life n ms (List.length (ss_wire_out s.1.2)) (List.length (ss_wire_out s.2.2)) s.
Definition finish (data : list byte) (e : demo_end) : demo_end := (e.1, owner_step data true [] e.2).

Definition life_opened : demo_end * demo_end := live 6 10 ((party_rules demo_A, demo_start), (party_rules demo_B, demo_listening)).
(** [A] writes and closes, [B] answers and is still open. *)
Definition life_half : demo_end * demo_end :=
  live 8 10 (finish [x68; x69] life_opened.1, demo_kernel [x79; x6f] [] life_opened.2).
Definition life_closed : demo_end * demo_end := live 8 10 (life_half.1, finish [] life_half.2).
Definition life_over : demo_end * demo_end := live 8 4000 life_closed.

(** Everything goes as it should when nothing is lost: the connection is
    established; after [A] has closed its end, both owners have what the other one
    wrote and only [B] has seen the end; when [B] closes as well, its loop ends,
    and that of [A], which closed first, once it has lingered. *)
Theorem sockets_live_and_end :
  state (ss_tcp life_opened.1.2) = of_state ESTABLISHED ∧ state (ss_tcp life_opened.2.2) = of_state ESTABLISHED ∧
  snk_written (ss_owner_out life_half.2.2) = [x68; x69] ∧ snk_written (ss_owner_out life_half.1.2) = [x79; x6f] ∧
  snk_shut (ss_owner_out life_half.2.2) = true ∧ snk_shut (ss_owner_out life_half.1.2) = false ∧
  snk_shut (ss_owner_out life_closed.1.2) = true ∧ loop_ends life_closed.2 = true ∧ loop_ends life_closed.1 = false ∧
  loop_ends life_over.1 = true ∧ loop_ends life_over.2 = true.
Proof. vm_compute. by repeat split. Qed.
