(* ===== verification/Program.v ===== *)
(** Command-line programs: what [main] and the functions it calls do to the
    standard streams, [exit] and exceptions that leave a function after it has
    printed, the arguments of the program, and [strncmp]. *)
From S2P Require Import Prelude Format.

(** What went to [cout] and to [cerr]. *)
Record io := mkIO {
  io_out : list byte;
  io_err : list byte
}.
Definition no_output : io := mkIO [] [].

(** How a call ends: in a value, in [exit] or in an exception. *)
Inductive ended (A : Type) :=
| Val (a : A)
| Exited (status : Z)
| Raised (e : exn).
Arguments Val {A} a.
Arguments Exited {A} status.
Arguments Raised {A} e.

(** A function of a program: it prints, and ends; undefined behaviour and
    endless loops are outcomes of the whole. *)
Definition program (A : Type) : Type := io -> outcome (ended A * io).

#[export] Instance program_ret : MRet program := λ A a w, Ret (Val a, w).
#[export] Instance program_bind : MBind program := λ A B f m w,
  match m w with
  | Ret (Val a, w) => f a w
  | Ret (Exited s, w) => Ret (Exited s, w)
  | Ret (Raised e, w) => Ret (Raised e, w)
  | Throw e => Throw e
  | Undef => Undef
  | Diverge => Diverge
  end.

Definition cout (s : list byte) : program unit := λ w, Ret (Val tt, mkIO (io_out w ++ s) (io_err w)).
Definition cerr (s : list byte) : program unit := λ w, Ret (Val tt, mkIO (io_out w) (io_err w ++ s)).
Definition exit {A} (status : Z) : program A := λ w, Ret (Exited status, w).

Definition undefined {A} : program A := λ _, Undef.
Definition diverges {A} : program A := λ _, Diverge.

(** A call that prints nothing. *)
Definition call {A} (m : outcome A) : program A := λ w,
  match m with
  | Ret a => Ret (Val a, w)
  | Throw e => Ret (Raised e, w)
  | Undef => Undef
  | Diverge => Diverge
  end.

(** [try { ... } catch (const exception &e)] *)
Definition try_catch {A} (m : program A) (handler : exn -> program A) : program A := λ w,
  match m w with
  | Ret (Raised e, w) => handler e w
  | r => r
  end.

Definition when (c : bool) (m : program unit) : program unit := if c then m else mret tt.

Definition EXIT_SUCCESS : Z := 0.
Definition EXIT_FAILURE : Z := 1.

Definition line (s : string) : list byte := chars s ++ [newline].

(** [e.what()]; the texts for error numbers are the system's. *)
Class ErrorText := {
  strerror : Z -> list byte;
  gai_strerror : Z -> list byte
}.
Definition what `{ErrorText} (e : exn) : list byte :=
  match e with
  | out_of_range s | runtime_error s | length_error s => chars s
  | unix_error attempt errno => chars attempt ++ chars ": " ++ strerror errno
  | tagged_error attempt code => chars attempt ++ chars ": " ++ gai_strerror code
  end.

(** ** Arguments *)

(** [strncmp(a, b, n) == 0], for strings without the zero that ends them. *)
Definition strncmp (a b : list byte) (n : nat) : bool := bool_decide (take n (a ++ [x00]) = take n (b ++ [x00])).

(** [argv[i]] of the arguments that follow the one being looked at; the pointer
    behind the last is null, and those behind it are not there. *)
Definition arg (args : list (list byte)) (i : nat) : program (list byte) :=
  match args !! i with
  | Some a => mret a
  | None => undefined
  end.

(** A C string. *)
Definition c_string (s : list byte) : Prop := x00 ∉ s.

(** Long enough a comparison is equality, a shorter one looks at a prefix. *)
Lemma strncmp_whole a b : c_string b -> strncmp a b (S (length a)) = bool_decide (a = b).
Proof.
  intros Hb. unfold strncmp. apply bool_decide_ext. rewrite take_ge by (rewrite length_app; simpl; lia).
  split; [|intros ->; by rewrite take_ge by (rewrite length_app; simpl; lia)].
  intros He. destruct (decide (length b <= length a)%nat) as [Hle|Hgt].
  - rewrite take_ge in He by (rewrite length_app; simpl; lia). by apply app_inj_tail in He as [-> _].
  - rewrite take_app_le in He by lia. exfalso. apply Hb.
    assert (x00 ∈ take (S (length a)) b) as Hin by (rewrite <- He; set_solver).
    by eapply elem_of_take in Hin as (i & Hi & _); apply list_elem_of_lookup_2 in Hi.
Qed.

Lemma strncmp_prefix a b : c_string a -> strncmp a b (length a) = bool_decide (take (length a) b = a).
Proof.
  intros Ha. unfold strncmp. apply bool_decide_ext. rewrite take_app_length. split.
  - intros He. destruct (decide (length a <= length b)%nat) as [Hle|Hgt]; [by rewrite take_app_le in He by lia|].
    exfalso. apply Ha. rewrite He, take_ge by (rewrite length_app; simpl; lia). set_solver.
  - intros He. rewrite take_app_le; [done|]. rewrite <- He at 1. rewrite length_take. lia.
Qed.

(** ** Reasoning *)

(** [gives m w P]: the call ends normally, its value and the output satisfy
    [P]. *)
Definition gives {A} (m : program A) (w : io) (P : A -> io -> Prop) : Prop :=
  ∃ a w', m w = Ret (Val a, w') ∧ P a w'.

Lemma gives_ret {A} (a : A) w (P : A -> io -> Prop) : P a w -> gives (mret a) w P.
Proof. intros HP. by exists a, w. Qed.

Lemma gives_bind {A B} (m : program A) (k : A -> program B) w P Q :
  gives m w P -> (∀ a w', P a w' -> gives (k a) w' Q) -> gives (m ≫= k) w Q.
Proof. intros (a & w' & Hm & HP) HQ. destruct (HQ a w' HP) as (b & w'' & Hk & HQ'). exists b, w''. unfold mbind, program_bind. by rewrite Hm. Qed.

Lemma gives_mono {A} (m : program A) w (P Q : A -> io -> Prop) :
  gives m w P -> (∀ a w', P a w' -> Q a w') -> gives m w Q.
Proof. intros (a & w' & Hm & HP) HPQ. exists a, w'. auto. Qed.

Lemma gives_call {A} (m : outcome A) w (P : A -> io -> Prop) :
  returns m (λ a, P a w) -> gives (call m) w P.
Proof. intros (a & -> & HP). by exists a, w. Qed.

Lemma gives_cout s w (P : unit -> io -> Prop) : P tt (mkIO (io_out w ++ s) (io_err w)) -> gives (cout s) w P.
Proof. intros HP. by eexists _, _. Qed.

Lemma gives_cerr s w (P : unit -> io -> Prop) : P tt (mkIO (io_out w) (io_err w ++ s)) -> gives (cerr s) w P.
Proof. intros HP. by eexists _, _. Qed.

Create HintDb prog.
#[export] Hint Resolve gives_ret gives_call gives_cout gives_cerr returns_ret : prog.

Lemma call_bind {A B} (a : A) (k : A -> program B) w : (call (Ret a) ≫= k) w = k a w.
Proof. done. Qed.
Lemma cout_bind {B} s (k : unit -> program B) w : (cout s ≫= k) w = k tt (mkIO (io_out w ++ s) (io_err w)).
Proof. done. Qed.
Lemma cerr_bind {B} s (k : unit -> program B) w : (cerr s ≫= k) w = k tt (mkIO (io_out w) (io_err w ++ s)).
Proof. done. Qed.
Lemma ret_bind {A B} (a : A) (k : A -> program B) w : (mret a ≫= k) w = k a w.
Proof. done. Qed.
