(* ===== verification/Transfer.v ===== *)
(** Progress of a transfer over a network that loses nothing: what one batch of
    segments does to the endpoint that takes it. The sender's side says that
    acknowledgments which reach the end of what was sent empty the queue of
    outstanding segments, open the window and get the next part of the stream
    under way; the receiver's side says that a batch which holds all outstanding
    segments, in any order and with repetitions, is assembled and acknowledged
    completely. *)
From S2P Require Import Prelude StdMap Buffer ByteStream StreamReassembler WrappingIntegers TCPSegment TCPReceiver TCPSender TCPState TCPConnection.

(** ** What a connection does with a segment once it has the peer's SYN *)

(** Everything such a connection sends carries its acknowledgment. *)
Lemma reply_stamp r seg a :
  ackno r = Some a ->
  (let seg := match ackno r with Some a => on_header (set_ackno a) seg | None => seg end in
   let seg := if negb (ack (header seg)) then on_header (set_ack true) seg else seg in
   on_header (set_win (advertised r)) seg) = stamp r seg.
Proof.
  intros Ha. unfold stamp. rewrite Ha. cbv zeta. unfold on_header. destruct seg as [[] p]. cbn. by destruct ack.
Qed.

Definition empty_of (s : TCPSender) : TCPSegment :=
  on_header (λ h, set_seqno (next_seqno s) (set_ack true h)) default_segment.

(** What is left of [c] when the sender [s] has taken the acknowledgment and the
    receiver [r] the data: segments [e] went out, [q] wait for the next call. *)
Record received_by (c : TCPConnection) (r : TCPReceiver) (s : TCPSender) (len : Z) (c' : TCPConnection) : Prop := {
  rb_receiver : cn_receiver c' = r;
  rb_sender : ∃ e q, cn_sender c' = set_segments_out q s ∧
    cn_segments_out c' = cn_segments_out c ++ map (stamp r) e ∧
    e ++ q = sd_segments_out s ++ (if 0 <? len then [empty_of s] else []) ∧ (0 < len -> e ≠ []);
  rb_cfg : cn_cfg c' = cn_cfg c;
  rb_time : cn_time_since_last_segment_received c' = 0;
  rb_linger : cn_linger_after_streams_finish c' =
    cn_linger_after_streams_finish c && negb (input_ended (stream_out r) && negb (eof (sd_stream s)))
}.

Lemma synced_receive c seg r s :
  active c = true -> rst (header seg) = false -> ack (header seg) = true ->
  TCPReceiver.segment_received (cn_receiver c) seg = Ret r -> rc_syn r = true ->
  ack_received (cn_sender c) (TCPSegment.ackno (header seg)) (win (header seg)) = Ret s ->
  ∃ c', segment_received c seg = Ret c' ∧ received_by c r s (length_in_sequence_space seg) c'.
Proof.
  intros Ha Hrst Hack Hr Hsyn Hs. unfold segment_received. rewrite Ha, Hrst. cbn [negb].
  cbn [cn_receiver set_time]. rewrite Hr. cbn [mbind outcome_bind cn_sender set_receiver set_time]. rewrite Hack, Hs.
  cbn [mbind outcome_bind]. rewrite andb_false_r. cbn [andb].
  assert (ackno r = Some (rc_ack r)) as Hno by (unfold ackno; by rewrite Hsyn).
  destruct (Z.ltb_spec 0 (length_in_sequence_space seg)) as [Hl|Hl]; cbn [mbind outcome_bind].
  - unfold send_reply, pop_segment. cbn [cn_sender set_sender send_empty_segment sd_segments_out set_segments_out].
    fold (empty_of s). destruct (sd_segments_out s ++ [empty_of s]) as [|x q] eqn:Hq; [by destruct (sd_segments_out s)|].
    cbn [cn_receiver set_sender set_receiver]. pose proof (reply_stamp r x (rc_ack r) Hno) as Hst. cbv zeta in Hst |- *. rewrite Hst.
    match goal with |- context [if ?b then Ret (set_linger false ?c1) else Ret ?c1] => set (b0 := b); set (c2 := c1) end.
    assert (received_by c r s (length_in_sequence_space seg) (if b0 then set_linger false c2 else c2)) as Hrb.
    { split; [by destruct b0| |by destruct b0|by destruct b0|].
      - exists [x], q. rewrite (proj2 (Z.ltb_lt _ _) Hl), Hq. by destruct b0.
      - unfold b0, inbound_stream, stream_in. cbn. by destruct (_ && _); rewrite ?andb_false_r, ?andb_true_r. }
    destruct b0; eexists; (split; [reflexivity|done]).
  - rewrite flush_buffer_spec. cbn [cn_sender set_sender cn_receiver set_receiver set_time cn_segments_out].
    match goal with |- context [if ?b then Ret (set_linger false ?c1) else Ret ?c1] => set (b0 := b); set (c2 := c1) end.
    assert (received_by c r s (length_in_sequence_space seg) (if b0 then set_linger false c2 else c2)) as Hrb.
    { split; [by destruct b0| |by destruct b0|by destruct b0|].
      - exists (sd_segments_out s), []. rewrite (proj2 (Z.ltb_ge _ _) Hl). split_and!; [by destruct b0..|done|lia].
      - unfold b0, inbound_stream, stream_in. cbn. by destruct (_ && _); rewrite ?andb_false_r, ?andb_true_r. }
    destruct b0; eexists; (split; [reflexivity|done]).
Qed.

(** ** What [fill_window] sends *)

Definition has_payload (seg : TCPSegment) : Prop := str (payload seg) ≠ [].

Lemma fill_once_payload S s segment s' segment' :
  snd_ok S s -> zlen S < 2 ^ 62 -> 0 < zlen (contents (sd_stream s)) -> 0 < sd_recv_wdn_sz s ->
  fill_once s segment = Ret (s', segment') ->
  ∃ e, sd_segments_out s' = sd_segments_out s ++ e ∧ Forall has_payload e.
Proof.
  intros Hs HS Hc Hr. unfold fill_once. set (len := if _ <? _ then _ else _).
  assert (0 < len) as Hlen by (unfold len, MAX_PAYLOAD_SIZE; destruct (Z.ltb_spec 1452 (sd_recv_wdn_sz s)); lia). clearbody len.
  destruct (stream_read S (sd_stream s) len (sk_stream _ _ Hs)) as ([bs data] & -> & _ & Hl & _); [lia|done|].
  cbn [mbind outcome_bind]. cbv zeta. intros [= <- _].
  assert (data ≠ []) as Hne by (intros ->; rewrite (@zlen_nil byte) in Hl; lia).
  set (seg := if _ && _ then _ else _).
  assert (str (payload seg) = data) as Hp by (unfold seg; destruct (_ && _); cbn; apply str_of_string).
  clearbody seg. destruct (0 <? length_in_sequence_space seg).
  - destruct (_ && _); cbn; (eexists; split; [reflexivity|]); (apply Forall_singleton; unfold has_payload; cbn; congruence).
  - exists []. rewrite app_nil_r. by destruct (_ && _).
Qed.

Lemma fill_loop_payload S fuel s segment s' segment' :
  snd_ok S s -> zlen S < 2 ^ 62 -> sd_syn s = true -> (sd_fin_sent s = false -> header segment = default_header) ->
  fill_loop fuel s segment = Ret (s', segment') ->
  ∃ e, sd_segments_out s' = sd_segments_out s ++ e ∧ Forall has_payload e.
Proof.
  revert s segment. induction fuel as [|fuel IH]; intros s segment Hs HS Hsyn Hh; cbn [fill_loop];
    rewrite buffer_size_contents; destruct (Z.ltb_spec 0 (zlen (contents (sd_stream s)))) as [Hc|Hc];
    destruct (Z.ltb_spec 0 (sd_recv_wdn_sz s)) as [Hr|Hr]; cbn [andb]; try done;
    try (intros [= <- _]; exists []; by rewrite app_nil_r).
  assert (sd_fin_sent s = false) as Hnf.
  { destruct (sd_fin_sent s) eqn:Hf; [|done]. pose proof (sk_fin _ _ Hs Hf) as [_ Hn]%eof_spec.
    rewrite Hn, (@zlen_nil byte) in Hc. lia. }
  destruct (fill_once_spec S s segment Hs HS Hsyn (Hh Hnf) Hc Hr) as ([s1 segment1] & Hf & Hfl & _ & Hopen).
  destruct (fill_once_payload S s segment s1 segment1 Hs HS Hc Hr Hf) as (e1 & Hq1 & He1).
  rewrite Hf. cbn [mbind outcome_bind]. intros Hrun.
  destruct (IH _ _ (fl_ok _ _ _ Hfl) HS (fl_syn _ _ _ Hfl) (λ Hq, proj1 (Hopen Hq)) Hrun) as (e2 & Hq2 & He2).
  exists (e1 ++ e2). rewrite Hq2, Hq1, app_assoc. split; [done|]. by apply Forall_app.
Qed.

(** Only a call that has no byte to send sends a segment without payload, and
    that is the FIN. *)
Lemma fill_window_payload S s s' :
  snd_ok S s -> zlen S < 2 ^ 62 -> sd_syn s = true -> fill_window s = Ret s' ->
  ∃ e, sd_segments_out s' = sd_segments_out s ++ e ∧
    (Forall has_payload e ∨ eof (sd_stream s) = true ∧ sd_fin_sent s = false).
Proof.
  intros Hs HS Hsyn. unfold fill_window. rewrite Hsyn. cbn [negb]. pose proof (zlen_nonneg (contents (sd_stream s))).
  destruct (fill_loop_spec S (Z.to_nat (buffer_size (sd_stream s))) s default_segment) as ([s1 segment1] & Hf & _ & _ & Hnoop);
    try done; [rewrite buffer_size_contents; lia|].
  destruct (fill_loop_payload S _ s default_segment s1 segment1 Hs HS Hsyn ltac:(done) Hf) as (e & Hq & He).
  rewrite Hf. cbn [mbind outcome_bind].
  destruct (negb (sd_fin_sent s1) && eof (sd_stream s1) && (0 <? sd_recv_wdn_sz s1)) eqn:Hcond; intros [= <-].
  - apply andb_true_iff in Hcond as [[Hnf%negb_true_iff Heof]%andb_true_iff Hr%Z.ltb_lt].
    destruct (Hnoop Hnf Heof Hr) as [-> ->]. cbn. eexists. split; [reflexivity|]. by right.
  - exists e. split; [done|by left].
Qed.

(** ** The sender under acknowledgments *)

Lemma chain_in S isn a m b p :
  chain S isn a m b -> p ∈ m ->
  ∃ c, a <= c ∧ p.1 = c + length_in_sequence_space p.2 ∧ 0 < length_in_sequence_space p.2 ∧ p.1 <= b ∧ sent_seg S isn c p.2.
Proof.
  revert a. induction m as [|[k seg] m IH]; intros a; [by intros _ Hin%elem_of_nil|].
  intros (-> & Hl & Hs & Hc) [->|Hin]%elem_of_cons.
  - exists a. pose proof (chain_le _ _ _ _ _ Hc). cbn in *. split_and!; try done; lia.
  - destruct (IH _ Hc Hin) as (c & ? & ? & ? & ? & ?). exists c. split_and!; try done; lia.
Qed.

Lemma find_app k (m1 m2 : list (Z * TCPSegment)) : find k m1 ≠ None -> find k (m1 ++ m2) ≠ None.
Proof.
  induction m1 as [|[k' v] m1 IH]; [done|]. cbn. destruct (k =? k'); [done|]. apply IH.
Qed.

Lemma find_filter k j (m : list (Z * TCPSegment)) : j < k -> find k m ≠ None -> find k (filter (λ p, j < p.1) m) ≠ None.
Proof.
  intros Hj. induction m as [|[k' v] m IH]; [done|]. cbn [find]. destruct (Z.eqb_spec k k') as [->|Hne]; intros Hf.
  - rewrite filter_cons_True by (cbn; lia). cbn [find]. by rewrite Z.eqb_refl.
  - destruct (decide (j < k')); [rewrite filter_cons_True by (cbn; lia)|rewrite filter_cons_False by (cbn; lia)]; cbn [find].
    + destruct (Z.eqb_spec k k'); [done|]. by apply IH.
    + by apply IH.
Qed.

Lemma after_ack_in j p (m : list (Z * TCPSegment)) : p ∈ after_ack j m -> p ∈ m.
Proof. unfold after_ack. destruct (find j m); [|done]. by intros [_ ?]%list_elem_of_filter. Qed.

Lemma after_ack_above j p (m : list (Z * TCPSegment)) : p ∈ m -> j < p.1 -> p ∈ after_ack j m.
Proof. intros. unfold after_ack. destruct (find j m); [|done]. by apply list_elem_of_filter. Qed.

Lemma after_ack_find j k (m : list (Z * TCPSegment)) : j < k -> find k m ≠ None -> find k (after_ack j m) ≠ None.
Proof. intros. unfold after_ack. destruct (find j m); [|done]. by apply find_filter. Qed.

Lemma chain_det S isn a m b b' : chain S isn a m b -> chain S isn a m b' -> b = b'.
Proof.
  revert a. induction m as [|[k seg] m IH]; intros a; cbn; [congruence|].
  intros (_ & _ & _ & H1) (_ & _ & _ & H2). by eapply IH.
Qed.

(** Sending leaves the record of acknowledgments alone. *)
Definition same_acks (s s' : TCPSender) : Prop :=
  sd_max_abs_seqno s' = sd_max_abs_seqno s ∧ sd_consecutive_retransmissions s' = sd_consecutive_retransmissions s.

Lemma fill_once_acks s segment s' segment' : fill_once s segment = Ret (s', segment') -> same_acks s s'.
Proof.
  unfold fill_once. destruct (read _ _) as [[bs data]| | |]; cbn [mbind outcome_bind]; [|done..].
  intros [= <- _]. by repeat case_match.
Qed.

Lemma fill_loop_acks fuel s segment s' segment' : fill_loop fuel s segment = Ret (s', segment') -> same_acks s s'.
Proof.
  revert s segment. induction fuel as [|fuel IH]; intros s segment; cbn [fill_loop];
    destruct (_ && _); [done|by intros [= <- _]| |by intros [= <- _]].
  destruct (fill_once s segment) as [[s1 segment1]| | |] eqn:Hf; cbn [mbind outcome_bind]; [|done..].
  intros [H1 H2]%IH. apply fill_once_acks in Hf as [H3 H4]. split; congruence.
Qed.

Lemma fill_window_acks s s' : fill_window s = Ret s' -> same_acks s s'.
Proof.
  unfold fill_window. destruct (negb (sd_syn s)); [by intros [= <-]|].
  destruct (fill_loop _ _ _) as [[s1 segment1]| | |] eqn:Hf; cbn [mbind outcome_bind]; [|done..].
  apply fill_loop_acks in Hf as [H1 H2]. by destruct (_ && _); intros [= <-].
Qed.

Section sender.
(** The peer has received everything below [N], and its window ends at [R];
    [all_sent] says that this includes the FIN. *)
Context (S : list byte) (isn : WrappingInt32) (N R : Z) (all_sent : bool).
Hypothesis HS : zlen S + 2 < 2 ^ 31.
Hypothesis HNR : 0 <= N <= R.

(** The sender while the acknowledgments of one batch arrive. *)
Record pumping (s : TCPSender) : Prop := {
  pp_ok : snd_ok S s;
  pp_syn : sd_syn s = true;
  pp_isn : sd_isn s = isn;
  pp_next : N <= sd_next_seqno s <= Z.max R (N + 1);
  pp_una : una s <= N;
  pp_over : R < sd_next_seqno s -> N <= una s ∧ sd_consecutive_retransmissions s = 0;
  pp_full : sd_recv_wdn_sz s = 0 ∨ contents (sd_stream s) = [] ∧ (eof (sd_stream s) = true -> sd_fin_sent s = true);
  pp_budget : all_sent = false -> sd_next_seqno s + sd_recv_wdn_sz s <= Z.max R (N + 1);
  pp_used : N < sd_next_seqno s -> sd_next_seqno s + sd_recv_wdn_sz s = Z.max R (N + 1);
  pp_mark : N <= una s ∨ find N (sd_outstanding_segments s) ≠ None;
  pp_retx : sd_consecutive_retransmissions s = 0 ∨ sd_max_abs_seqno s < N;
  pp_more : N <= una s -> N < sd_next_seqno s ∨ contents (sd_stream s) = [] ∧ sd_fin_sent s = true;
  pp_written : bs_input_ended (sd_stream s) = true ∨ Z.max R (N + 1) <= 1 + bs_total_written (sd_stream s);
  pp_all : all_sent = true -> sd_fin_sent s = true ∧ sd_next_seqno s = N
}.

(** What one acknowledgment adds: segments [m], sent above [N]. *)
Record pumped (s s' : TCPSender) (m : list (Z * TCPSegment)) : Prop := {
  pd_una : una s <= una s';
  pd_retx : sd_consecutive_retransmissions s' = 0 ∨ sd_consecutive_retransmissions s' = sd_consecutive_retransmissions s;
  pd_app : same_app s s';
  pd_error : bs_error (sd_stream s') = bs_error (sd_stream s);
  pd_cap : bs_cap (sd_stream s') = bs_cap (sd_stream s);
  pd_queue : sd_segments_out s' = sd_segments_out s ++ map snd m;
  pd_from : ∀ p, p ∈ sd_outstanding_segments s' -> p ∈ sd_outstanding_segments s ∨ p ∈ m;
  pd_kept : ∀ p, p ∈ sd_outstanding_segments s -> N < p.1 -> p ∈ sd_outstanding_segments s';
  pd_new : ∀ p, p ∈ m -> p ∈ sd_outstanding_segments s' ∧ N < p.1 ∧ (has_payload p.2 ∨ N = zlen S + 1)
}.

Lemma unsent_next s : snd_ok S s -> sd_syn s = true -> sd_fin_sent s = false ->
  sd_next_seqno s + zlen (contents (sd_stream s)) = 1 + bs_total_written (sd_stream s).
Proof.
  intros Hs Hsyn Hf. pose proof (sk_next _ _ Hs) as Hn. rewrite Hsyn, Hf in Hn.
  pose proof (st_read _ _ (sk_stream _ _ Hs)). lia.
Qed.

Lemma sent_all_next s : snd_ok S s -> sd_syn s = true -> sd_fin_sent s = true -> sd_next_seqno s = zlen S + 2.
Proof.
  intros Hs Hsyn Hf. pose proof (sk_next _ _ Hs) as Hn. rewrite Hsyn, Hf in Hn.
  pose proof (sk_fin _ _ Hs Hf) as [Hie Hc]%eof_spec. pose proof (st_ended _ _ (sk_stream _ _ Hs) Hie).
  pose proof (st_read _ _ (sk_stream _ _ Hs)) as Hr. rewrite Hc, (@zlen_nil byte) in Hr. lia.
Qed.

(** An acknowledgment of [a] whose window ends at [R]. *)
Definition window_ends (a w : Z) : Prop := a + w = R ∨ all_sent = true ∧ R <= a + w.

Lemma ack_abs_exact s a : pumping s -> 0 <= a <= N -> ack_abs s (wrap a isn) = a.
Proof.
  intros Hp Ha. unfold ack_abs. pose proof (next_bound _ _ (pp_ok _ Hp)). pose proof (sk_ackno _ _ (pp_ok _ Hp)).
  pose proof (pp_next _ Hp). rewrite (pp_isn _ Hp). apply unwrap_wrap; lia.
Qed.

(** An acknowledgment behind a probe only closes the window again. *)
Lemma pump_refused s a w :
  pumping s -> 0 <= a <= N -> window_ends a w -> a + w < sd_next_seqno s ->
  pumping (set_recv_wdn_sz 0 s) ∧ R < sd_next_seqno s ∧ pumped s (set_recv_wdn_sz 0 s) [].
Proof.
  intros Hp Ha Hw Hlt. pose proof Hp as [].
  assert (R < sd_next_seqno s) as Hover by (destruct Hw as [|[Hall ?]]; lia).
  split_and!; [|done|].
  - split; cbn; try done; [by apply set_recv_wdn_ok; [|unfold is_u16; lia]|by left|lia|lia].
  - split; cbn; try done; [by right|by rewrite app_nil_r|by left|by intros p ?%elem_of_nil].
Qed.

Lemma fin_sent_stays s s' : snd_ok S s -> sd_syn s = true -> sd_fin_sent s = true -> filled S s s' ->
  sd_fin_sent s' = true ∧ sd_next_seqno s' = sd_next_seqno s ∧ contents (sd_stream s') = [].
Proof.
  intros Hs Hsyn Hf Hfl. pose proof (sent_all_next s Hs Hsyn Hf) as Hn. pose proof (fl_ok _ _ _ Hfl) as Hs'.
  pose proof (next_bound _ _ Hs'). pose proof (fl_mono _ _ _ Hfl).
  assert (sd_fin_sent s' = true) as Hf'.
  { destruct (sd_fin_sent s') eqn:Hf'; [done|]. pose proof (unsent_next s' Hs' (fl_syn _ _ _ Hfl) Hf').
    pose proof (st_written _ _ (sk_stream _ _ Hs')). zlen_facts. pose proof (zlen_nonneg (contents (sd_stream s'))). lia. }
  split_and!; [done|lia|]. pose proof (sk_fin _ _ Hs' Hf') as [_ ?]%eof_spec. done.
Qed.

(** Sending into the open window. *)
Lemma filled_new s s' m :
  snd_ok S s -> zlen S < 2 ^ 62 -> sd_syn s = true -> fill_window s = Ret s' -> filled S s s' ->
  sd_outstanding_segments s' = sd_outstanding_segments s ++ m -> sd_segments_out s' = sd_segments_out s ++ map snd m ->
  Forall (λ p, sd_next_seqno s < p.1 <= sd_next_seqno s' ∧
    (has_payload p.2 ∨ sd_next_seqno s = zlen S + 1 ∧ eof (sd_stream s) = true ∧ sd_fin_sent s = false)) m.
Proof.
  intros Hs HS' Hsyn Hrun Hfl Ho Hq. pose proof (sk_chain _ _ (fl_ok _ _ _ Hfl)) as Hch.
  rewrite (fl_una _ _ _ Hfl), (fl_isn _ _ _ Hfl), Ho in Hch. apply chain_app in Hch as (c & Hc1 & Hc2).
  rewrite (chain_det _ _ _ _ _ _ Hc1 (sk_chain _ _ Hs)) in Hc2.
  destruct (fill_window_payload S s s' Hs HS' Hsyn Hrun) as (e & He & Hpay).
  rewrite Hq in He. apply app_inv_head in He as <-. rewrite Forall_forall. intros p Hp.
  destruct (chain_in _ _ _ _ _ _ Hc2 Hp) as (d & ? & ? & ? & ? & _). split; [lia|].
  destruct Hpay as [Hpay|[Heof Hnf]].
  - left. rewrite Forall_map, Forall_forall in Hpay. by apply Hpay.
  - right. split_and!; try done. pose proof (unsent_next s Hs Hsyn Hnf) as Hn. apply eof_spec in Heof as [Hie Hc].
    rewrite Hc, (@zlen_nil byte) in Hn. pose proof (st_ended _ _ (sk_stream _ _ Hs) Hie). lia.
Qed.

(** The state between recording the acknowledgment and filling the window. *)
Record recorded (s : TCPSender) (a w : Z) (s1 : TCPSender) : Prop := {
  rd_ok : snd_ok S s1;
  rd_syn : sd_syn s1 = sd_syn s;
  rd_isn : sd_isn s1 = sd_isn s;
  rd_next : sd_next_seqno s1 = sd_next_seqno s;
  rd_una : una s1 = match find a (sd_outstanding_segments s) with Some _ => a | None => una s end;
  rd_out : sd_outstanding_segments s1 = after_ack a (sd_outstanding_segments s);
  rd_queue : sd_segments_out s1 = sd_segments_out s;
  rd_stream : sd_stream s1 = sd_stream s;
  rd_fin : sd_fin_sent s1 = sd_fin_sent s;
  rd_budget : sd_next_seqno s1 + sd_recv_wdn_sz s1 = a + Z.max 1 w;
  rd_retx : sd_consecutive_retransmissions s1 = if sd_max_abs_seqno s <? a then 0 else sd_consecutive_retransmissions s;
  rd_max : sd_max_abs_seqno s1 = if sd_max_abs_seqno s <? a then a else sd_max_abs_seqno s
}.

Lemma acknowledge_recorded s a w :
  snd_ok S s -> 0 <= a <= sd_next_seqno s -> is_u16 w -> sd_next_seqno s <= a + w -> recorded s a w (acknowledge s a w).
Proof.
  intros Hs Ha Hw Hle.
  destruct (acknowledge_spec S s a w Hs ltac:(lia) Ha Hw Hle) as (H1 & H2 & H3 & H4 & H5 & H6 & _ & _ & H7 & H8 & H9 & H10).
  destruct (acknowledge_eq S s a w Hs ltac:(lia) Ha Hw Hle) as (n & He & _).
  split; try done; rewrite He; reflexivity.
Qed.

(** Both numbers only grow, and an acknowledgment of [N] reaches [N]. *)
Lemma recorded_una s a w s1 : pumping s -> 0 <= a <= N -> recorded s a w s1 -> una s <= una s1 ∧ (a = N -> N <= una s1).
Proof.
  intros Hp Ha Hr. rewrite (rd_una _ _ _ _ Hr). destruct (find a _) eqn:Hf.
  - pose proof (find_above _ _ _ _ (chain_sorted _ _ _ _ _ (sk_chain _ _ (pp_ok _ Hp))) Hf). lia.
  - split; [lia|]. intros ->. destruct (pp_mark _ Hp) as [?|Hm]; [done|]. by rewrite Hf in Hm.
Qed.

Lemma recorded_retx s a w s1 : pumping s -> recorded s a w s1 ->
  (a = N -> sd_consecutive_retransmissions s1 = 0) ∧
  (sd_consecutive_retransmissions s1 = 0 ∨ sd_max_abs_seqno s1 < N) ∧
  (sd_consecutive_retransmissions s1 = 0 ∨ sd_consecutive_retransmissions s1 = sd_consecutive_retransmissions s).
Proof.
  intros Hp Hr. rewrite (rd_retx _ _ _ _ Hr), (rd_max _ _ _ _ Hr).
  pose proof (pp_retx _ Hp) as Hx. destruct (Z.ltb_spec (sd_max_abs_seqno s) a); [split_and!; [done|by left|by left]|].
  split_and!; [lia|done|by right].
Qed.

(** The segments that [fill_window] adds to those left. *)
Lemma recorded_pumped s a w s1 s' :
  pumping s -> 0 <= a <= N -> window_ends a w -> sd_next_seqno s <= a + w -> recorded s a w s1 ->
  fill_window s1 = Ret s' -> filled S s1 s' -> ∃ m, pumped s s' m.
Proof.
  intros Hp Ha Hw Hle Hr Hrun Hfl. destruct (fl_sent _ _ _ Hfl) as (m & Ho & Hq). exists m. pose proof Hp as [].
  pose proof (filled_new s1 s' m (rd_ok _ _ _ _ Hr) ltac:(lia) ltac:(by rewrite (rd_syn _ _ _ _ Hr)) Hrun Hfl Ho Hq) as Hm.
  rewrite Forall_forall in Hm. rewrite (rd_out _ _ _ _ Hr) in Ho. rewrite (rd_queue _ _ _ _ Hr) in Hq.
  destruct (fill_window_acks _ _ Hrun) as [_ Hcr]. destruct (recorded_retx s a w s1 Hp Hr) as (_ & _ & Hx).
  split; try done.
  - rewrite (fl_una _ _ _ Hfl). by apply (recorded_una s a w s1).
  - by rewrite Hcr.
  - unfold same_app. rewrite (fl_isn _ _ _ Hfl), (fl_written _ _ _ Hfl), (fl_ended _ _ _ Hfl), (rd_stream _ _ _ _ Hr). split_and!; try done. apply Hr.
  - by rewrite (fl_error _ _ _ Hfl), (rd_stream _ _ _ _ Hr).
  - by rewrite (fl_cap _ _ _ Hfl), (rd_stream _ _ _ _ Hr).
  - rewrite Ho. intros p [?%after_ack_in|?]%elem_of_app; [by left|by right].
  - intros p Hin Hlt. rewrite Ho. apply elem_of_app. left. apply after_ack_above; [done|lia].
  - intros p Hin. destruct (Hm p Hin) as [Hrange Hpay]. rewrite (rd_next _ _ _ _ Hr) in Hrange, Hpay.
    split_and!; [rewrite Ho; apply elem_of_app; by right|lia|]. destruct Hpay as [?|(Hn & Heof & Hnf)]; [by left|right].
    rewrite (rd_stream _ _ _ _ Hr) in Heof. rewrite (rd_fin _ _ _ _ Hr) in Hnf.
    destruct (Z.eq_dec N (sd_next_seqno s)) as [->|Hne]; [done|]. exfalso.
    assert (sd_recv_wdn_sz s = 0) as Hz by (destruct pp_full0 as [?|[_ Hf]]; [done|]; by rewrite Hf in Hnf).
    pose proof (rd_budget _ _ _ _ Hr) as Hb. rewrite (rd_next _ _ _ _ Hr) in Hb.
    pose proof (fl_budget _ _ _ Hfl) as Hb'. rewrite (rd_next _ _ _ _ Hr) in Hb'.
    pose proof (sk_recv_wdn _ _ (fl_ok _ _ _ Hfl)) as Hu. unfold is_u16 in Hu.
    destruct Hw as [Hw|[Hall _]]; [|destruct (pp_all0 Hall); lia]. specialize (pp_used0 ltac:(lia)). lia.
Qed.

Lemma recorded_pumping s a w s1 s' :
  pumping s -> 0 <= a <= N -> window_ends a w -> sd_next_seqno s <= a + w -> recorded s a w s1 ->
  fill_window s1 = Ret s' -> filled S s1 s' ->
  sd_recv_wdn_sz s' = 0 ∨ contents (sd_stream s') = [] ∧ (eof (sd_stream s') = true -> sd_fin_sent s' = true) ->
  pumping s'.
Proof.
  intros Hp Ha Hw Hle Hr Hrun Hfl Hfull. pose proof Hp as [].
  pose proof (rd_budget _ _ _ _ Hr) as Hb. pose proof (fl_budget _ _ _ Hfl) as Hb'. pose proof (fl_mono _ _ _ Hfl) as Hmono.
  rewrite (rd_next _ _ _ _ Hr) in Hb, Hb', Hmono. pose proof (fl_ok _ _ _ Hfl) as Hok.
  pose proof (sk_recv_wdn _ _ Hok) as Hu. unfold is_u16 in Hu.
  assert (sd_fin_sent s = true -> sd_fin_sent s' = true ∧ sd_next_seqno s' = sd_next_seqno s ∧ contents (sd_stream s') = []) as Hstay.
  { intros Hf. rewrite <- (rd_fin _ _ _ _ Hr) in Hf. rewrite <- (rd_next _ _ _ _ Hr).
    apply (fin_sent_stays s1 s'); [apply Hr|by rewrite (rd_syn _ _ _ _ Hr)|done|done]. }
  assert (all_sent = true -> sd_fin_sent s' = true ∧ sd_next_seqno s' = N) as Hall.
  { intros Hall. destruct (pp_all0 Hall) as [Hf <-]. destruct (Hstay Hf) as (? & ? & _). done. }
  destruct (recorded_una s a w s1 Hp Ha Hr) as [Hun HuN]. rewrite <- (fl_una _ _ _ Hfl) in Hun, HuN.
  destruct (fill_window_acks _ _ Hrun) as [Hmx Hcr]. destruct (recorded_retx s a w s1 Hp Hr) as (HrN & Hrx & _). rewrite <- Hcr in HrN, Hrx. rewrite <- Hmx in Hrx.
  assert (all_sent = false -> a + Z.max 1 w = R ∧ 1 <= w ∨ w = 0 ∧ a = N ∧ N = R) as Hcase.
  { intros Hns. destruct Hw as [Hw|[Hat _]]; [|congruence]. lia. }
  assert (bs_input_ended (sd_stream s') = bs_input_ended (sd_stream s) ∧ bs_total_written (sd_stream s') = bs_total_written (sd_stream s)) as [Hie Htw].
  { by rewrite (fl_ended _ _ _ Hfl), (fl_written _ _ _ Hfl), (rd_stream _ _ _ _ Hr). }
  assert (all_sent = false ∨ sd_next_seqno s' = N) as Hdec by (destruct all_sent; [right; by apply Hall|by left]).
  split; try done.
  - apply Hfl.
  - by rewrite (fl_isn _ _ _ Hfl), (rd_isn _ _ _ _ Hr).
  - destruct Hdec as [?%Hcase|]; lia.
  - rewrite (fl_una _ _ _ Hfl), (rd_una _ _ _ _ Hr). destruct (find a _); lia.
  - intros Hover. destruct Hdec as [Hc%Hcase|]; [|lia]. assert (a = N) as HaN by lia. split; [by apply HuN|by apply HrN].
  - intros ?%Hcase. lia.
  - intros Hlt. destruct Hdec as [?%Hcase|]; lia.
  - destruct (Z.eq_dec a N); [left; auto|]. destruct pp_mark0 as [?|Hf]; [left; lia|right].
    destruct (fl_sent _ _ _ Hfl) as (m & -> & _). rewrite (rd_out _ _ _ _ Hr). apply find_app, after_ack_find; [lia|done].
  - intros HN. destruct Hfull as [Hz|[Hc Hf]].
    + destruct (Z.eq_dec a N); [left; lia|]. assert (N <= una s) as HN'.
      { rewrite (fl_una _ _ _ Hfl), (rd_una _ _ _ _ Hr) in HN. destruct (find a _); lia. }
      destruct (pp_more0 HN') as [?|[_ Hfs]]; [left; lia|right]. by destruct (Hstay Hfs) as (? & _ & ?).
    + destruct (sd_fin_sent s') eqn:Hfs; [by right|left]. pose proof (unsent_next s' Hok (fl_syn _ _ _ Hfl) Hfs) as Hn.
      rewrite Hc, (@zlen_nil byte), Htw in Hn. destruct pp_written0 as [He|?]; [|lia].
      discriminate Hf. apply eof_spec. by rewrite Hie.
  - rewrite Hie, Htw. done.
Qed.

(** One acknowledgment of the batch. *)
Lemma ack_step s a w :
  pumping s -> 0 <= a <= N -> is_u16 w -> window_ends a w ->
  returns (ack_received s (wrap a isn) w) (λ s', pumping s' ∧ (∃ m, pumped s s' m) ∧
    (a = N -> N <= una s' ∧ sd_consecutive_retransmissions s' = 0)).
Proof.
  intros Hp Ha Hu Hw. pose proof (pp_next _ Hp) as Hn. pose proof (pp_ok _ Hp) as Hok.
  rewrite (ack_received_cases S) by (done || lia). rewrite ack_abs_exact by done.
  rewrite (proj2 (Z.ltb_ge _ _)) by lia. destruct (Z.ltb_spec (a + w) (sd_next_seqno s)) as [Hlt|Hle].
  - apply returns_ret. destruct (pump_refused s a w Hp Ha Hw Hlt) as (H1 & H2 & H3). split_and!; [done|by eexists|].
    intros _. by apply (pp_over _ Hp).
  - pose proof (acknowledge_recorded s a w Hok ltac:(lia) Hu Hle) as Hr.
    destruct (fill_window_spec S _ (rd_ok _ _ _ _ Hr)) as (s' & Hrun & Hfl & Hfull); [lia|rewrite (rd_syn _ _ _ _ Hr); apply Hp|].
    exists s'. split; [done|]. split_and!; [by eapply recorded_pumping|by eapply recorded_pumped|]. intros ->.
    rewrite (fl_una _ _ _ Hfl). destruct (fill_window_acks _ _ Hrun) as [_ ->].
    split; [by eapply recorded_una|by eapply recorded_retx].
Qed.

(** ** The connection around the sender *)

Lemma set_queue_ok s q : snd_ok S s -> Forall (λ seg, ∃ abs, sent_seg S (sd_isn s) abs seg) q -> snd_ok S (set_segments_out q s).
Proof. intros [] Hq. by split. Qed.

Lemma set_queue_pumping s q :
  pumping s -> Forall (λ seg, ∃ abs, sent_seg S (sd_isn s) abs seg) q -> pumping (set_segments_out q s).
Proof. intros [] Hq. split; try done. by apply set_queue_ok. Qed.

Lemma empty_sent s : snd_ok S s -> ∃ abs, sent_seg S (sd_isn s) abs (empty_of s).
Proof.
  intros Hs. pose proof (sk_queue _ _ (send_empty_ok _ _ Hs)) as Hq. change (sd_segments_out (send_empty_segment s)) with (sd_segments_out s ++ [empty_of s]) in Hq.
  apply Forall_app in Hq as [_ [Hq _]%Forall_cons]. exact Hq.
Qed.

(** Where the segments on their way come from: they are empty, or outstanding
    and above [N]; one without payload is the FIN after everything else has
    arrived. [PR] holds of the receiver that stamps them. *)
Context (PR : TCPReceiver -> Prop).

Definition origin (s : TCPSender) (seg : TCPSegment) : Prop :=
  (∃ abs, sent_seg S isn abs seg) ∧
  (length_in_sequence_space seg = 0 ∨
   ∃ k, (k, seg) ∈ sd_outstanding_segments s ∧ N < k ∧ (has_payload seg ∨ N = zlen S + 1)).
Definition posted (s : TCPSender) (seg : TCPSegment) : Prop :=
  ∃ r seg0, seg = stamp r seg0 ∧ PR r ∧ origin s seg0.

(** [out0] was in the connection's queue before the batch. *)
Record mailing (out0 : list TCPSegment) (c : TCPConnection) : Prop := {
  ml_pump : pumping (cn_sender c);
  ml_queue : Forall (origin (cn_sender c)) (sd_segments_out (cn_sender c));
  ml_out : ∃ new, cn_segments_out c = out0 ++ new ∧ Forall (posted (cn_sender c)) new;
  ml_all : ∀ p, p ∈ sd_outstanding_segments (cn_sender c) -> N < p.1 ->
    p.2 ∈ sd_segments_out (cn_sender c) ∨ ∃ r, PR r ∧ stamp r p.2 ∈ cn_segments_out c;
  ml_pay : ∀ p, p ∈ sd_outstanding_segments (cn_sender c) -> N < p.1 -> has_payload p.2 ∨ N = zlen S + 1
}.

(** One segment, seen from the sender. *)
Record mailed (c c' : TCPConnection) (a : Z) : Prop := {
  md_una : una (cn_sender c) <= una (cn_sender c');
  md_retx : sd_consecutive_retransmissions (cn_sender c') = 0 ∨
    sd_consecutive_retransmissions (cn_sender c') = sd_consecutive_retransmissions (cn_sender c);
  md_acked : a = N -> N <= una (cn_sender c') ∧ sd_consecutive_retransmissions (cn_sender c') = 0;
  md_app : same_app (cn_sender c) (cn_sender c');
  md_error : bs_error (stream_in c') = bs_error (stream_in c);
  md_cap : bs_cap (stream_in c') = bs_cap (stream_in c);
  md_cfg : cn_cfg c' = cn_cfg c;
  md_time : cn_time_since_last_segment_received c' = 0;
  md_linger : cn_linger_after_streams_finish c' =
    cn_linger_after_streams_finish c && negb (input_ended (inbound_stream c') && negb (eof (stream_in c')))
}.

Lemma origin_pumped s s' m q seg : pumped s s' m -> origin s seg -> origin (set_segments_out q s') seg.
Proof.
  intros Hm [Hs [?|(k & Hin & Hk & Hp)]]; split; try done; [by left|right]. exists k. split_and!; try done.
  by apply (pd_kept _ _ _ Hm (k, seg)).
Qed.

Lemma origin_new s s' m q p : pumping s' -> pumped s s' m -> p ∈ m -> origin (set_segments_out q s') p.2.
Proof.
  intros Hp Hm Hin. destruct (pd_new _ _ _ Hm _ Hin) as (Ho & Hk & Hpay). destruct p as [k seg].
  destruct (chain_in _ _ _ _ _ _ (sk_chain _ _ (pp_ok _ Hp)) Ho) as (c & _ & _ & _ & _ & Hs). rewrite (pp_isn _ Hp) in Hs.
  split; [by exists c|right]. by exists k.
Qed.

Lemma mail_step out0 c seg r a :
  mailing out0 c -> active c = true -> rst (header seg) = false -> ack (header seg) = true ->
  TCPSegment.ackno (header seg) = wrap a isn -> 0 <= a <= N -> is_u16 (win (header seg)) -> window_ends a (win (header seg)) ->
  TCPReceiver.segment_received (cn_receiver c) seg = Ret r -> rc_syn r = true -> PR r ->
  ∃ c' e, segment_received c seg = Ret c' ∧ mailing out0 c' ∧ mailed c c' a ∧ cn_receiver c' = r ∧
    cn_segments_out c' = cn_segments_out c ++ map (stamp r) e ∧ (0 < length_in_sequence_space seg -> e ≠ []).
Proof.
  intros Hml Hact Hrst Hack Hno Ha Hu Hw Hr Hsyn HPR.
  destruct (ack_step (cn_sender c) a (win (header seg)) (ml_pump _ _ Hml) Ha Hu Hw) as (s & Hs & Hp & (m & Hm) & HaN).
  rewrite <- Hno in Hs. destruct (synced_receive c seg r s Hact Hrst Hack Hr Hsyn Hs) as (c' & Hrun & Hrb).
  destruct Hrb as [Hrr (e & q & Hsq & Hout & Heq & Hne) Hcfg Htime Hling].
  assert (Forall (origin (set_segments_out q s)) (e ++ q)) as Horig.
  { rewrite Heq, (pd_queue _ _ _ Hm). apply Forall_app; split; [apply Forall_app; split|].
    - eapply Forall_impl; [apply (ml_queue _ _ Hml)|]. intros x. by apply (origin_pumped _ _ m).
    - apply Forall_map, Forall_forall. intros p Hin. by apply (origin_new (cn_sender c) s m).
    - destruct (_ <? _); [|done]. apply Forall_singleton. destruct (empty_sent s (pp_ok _ Hp)) as [abs Hes].
      rewrite (pp_isn _ Hp) in Hes. split; [by exists abs|by left]. }
  apply Forall_app in Horig as [He Hq]. exists c', e. split_and!; try done.
  - split; rewrite ?Hsq.
    + apply set_queue_pumping; [done|]. eapply Forall_impl; [exact Hq|]. intros x [? _]. by rewrite (pp_isn _ Hp).
    + exact Hq.
    + destruct (ml_out _ _ Hml) as (new & Hn & Hnew). exists (new ++ map (stamp r) e). rewrite Hout, Hn, app_assoc. split; [done|].
      apply Forall_app; split.
      * eapply Forall_impl; [exact Hnew|]. intros x (r0 & seg0 & -> & Hr0 & Ho). exists r0, seg0. split_and!; try done. by apply (origin_pumped (cn_sender c) s m).
      * apply Forall_map. eapply Forall_impl; [exact He|]. intros x Hx. by exists r, x.
    + intros p Hin Hlt. cbn [sd_outstanding_segments set_segments_out sd_segments_out] in *.
      assert (p.2 ∈ e ++ q ∨ ∃ r0, PR r0 ∧ stamp r0 p.2 ∈ cn_segments_out c) as [[Hi|Hi]%elem_of_app|(r0 & ? & ?)].
      { rewrite Heq, (pd_queue _ _ _ Hm). destruct (pd_from _ _ _ Hm p Hin) as [Hold|Hnew].
        - destruct (ml_all _ _ Hml p Hold Hlt) as [?|?]; [left; apply elem_of_app; left; apply elem_of_app; by left|by right].
        - left. apply elem_of_app. left. apply elem_of_app. right. by apply list_elem_of_fmap_2. }
      * right. exists r. split; [done|]. rewrite Hout. apply elem_of_app. right. by apply list_elem_of_fmap_2.
      * by left.
      * right. exists r0. split; [done|]. rewrite Hout. apply elem_of_app. by left.
    + intros p Hin Hlt. destruct (pd_from _ _ _ Hm p Hin) as [Hold|Hnew]; [by apply (ml_pay _ _ Hml)|by apply (pd_new _ _ _ Hm)].
  - split; unfold stream_in, inbound_stream; rewrite ?Hsq; try done; try apply Hm. by rewrite Hrr.
Qed.
End sender.

(** ** The receiver under the outstanding segments *)

Lemma chain_two S isn a m b p q :
  chain S isn a m b -> p ∈ m -> q ∈ m ->
  p = q ∨ p.1 <= q.1 - length_in_sequence_space q.2 ∨ q.1 <= p.1 - length_in_sequence_space p.2.
Proof.
  revert a. induction m as [|[k seg] m IH]; intros a; [by intros _ Hin%elem_of_nil|].
  intros (-> & Hl & Hs & Hc) [->|Hp]%elem_of_cons [->|Hq]%elem_of_cons; [by left|..|by eapply IH].
  - right. left. destruct (chain_in _ _ _ _ _ _ Hc Hq) as (c & ? & ? & _). cbn in *. lia.
  - right. right. destruct (chain_in _ _ _ _ _ _ Hc Hp) as (c & ? & ? & _). cbn in *. lia.
Qed.

Lemma chain_cover S isn a m b j :
  chain S isn a m b -> a <= j < b -> ∃ p, p ∈ m ∧ p.1 - length_in_sequence_space p.2 <= j < p.1.
Proof.
  revert a. induction m as [|[k seg] m IH]; intros a; [cbn; lia|]. intros (-> & Hl & _ & Hc) Hj.
  destruct (Z.lt_ge_cases j (a + length_in_sequence_space seg)) as [Hlt|Hge].
  - exists (a + length_in_sequence_space seg, seg). split; [by left|cbn; lia].
  - destruct (IH _ Hc ltac:(lia)) as (p & ? & ?). exists p. split; [by right|done].
Qed.

(** The next index to be assembled has not been received. *)
Lemma expected_missing ok r : sr_ok ok r -> ¬ received r (sr_expected_index r).
Proof. intros Hok [?|Hc]; [lia|]. pose proof (segs_covers_range _ _ _ _ _ (inv_segs _ _ _ Hok) Hc). lia. Qed.

(** Nothing is stored beyond the end of the stream. *)
Lemma complete_empty S r : sr_ok (slice_of S) r -> sr_expected_index r = zlen S -> empty r = true.
Proof.
  intros Hok He. apply (sr_empty_spec _ _ _ Hok). destruct (sr_buf r) as [|p l] eqn:Hb; [done|].
  pose proof (inv_segs _ _ _ Hok) as Hs. rewrite Hb in Hs. cbn in Hs. destruct Hs as (? & ? & (_ & Hend & _) & _). lia.
Qed.

(** The effect of a segment on the marks of the end. *)
Lemma segment_marks S isn r seg abs :
  rcv_ok S isn r -> seg_of S isn abs seg -> wint_ok isn -> ignored r seg = false ->
  2 * zlen S + rc_capacity r < 2 ^ 63 -> -2 ^ 31 < abs - rc_checkpoint r < 2 ^ 31 ->
  returns (TCPReceiver.segment_received r seg) (λ r',
    let end' := fin (header seg) || rc_end r in
    let old := rc_reassembler r in
    let new := rc_reassembler r' in
    rc_end r' = end' ∧
    sr_input_ended new = sr_input_ended old || takes_eof old (str (payload seg)) (stream_index seg abs) end' ∧
    bs_input_ended (stream_out r') = bs_input_ended (stream_out r) ||
      negb (rejected old (str (payload seg)) (stream_index seg abs)) && (sr_input_ended new && empty new)).
Proof.
  intros Hr Hseg Hisn Hig Hbig Hnear. rewrite (segment_placed S isn r seg abs) by done.
  pose proof (rcv_upper _ _ _ Hr) as Hup. pose proof (rcv_cap _ _ _ Hr) as Hc64.
  pose proof (seg_of_range _ _ _ _ Hseg) as [Hi Hl]. destruct Hseg as [_ _ _ Hpl]. unfold is_u64 in Hc64.
  destruct (push_substring_spec (slice_of S) (rc_reassembler r) (str (payload seg)) (stream_index seg abs) (fin (header seg) || rc_end r) (ro_sr _ _ _ Hr))
    as (sr & Hp & _ & _ & _ & Hie & Hoe); [done|done|lia|].
  cbv zeta. rewrite Hp. cbn [mbind outcome_bind]. apply returns_ret. done.
Qed.

Lemma length_0 seg : length_in_sequence_space seg = 0 ->
  str (payload seg) = [] ∧ fin (header seg) = false ∧ syn (header seg) = false.
Proof.
  unfold length_in_sequence_space. pose proof (zlen_nonneg (str (payload seg))).
  destruct (syn (header seg)), (fin (header seg)); try lia. split; [apply zlen_0_nil; lia|done].
Qed.

(** An empty segment changes nothing that is acknowledged. *)
Lemma empty_acked r seg r' :
  TCPReceiver.segment_received r seg = Ret r' -> length_in_sequence_space seg = 0 -> acked r' = acked r.
Proof.
  intros Hrun (Hp & Hf & Hs)%length_0. unfold TCPReceiver.segment_received, copy in Hrun. rewrite Hp, Hf, Hs in Hrun.
  cbn [andb] in Hrun. destruct (rc_syn r); [|by injection Hrun as <-]. cbv zeta in Hrun.
  set (index := u64 _) in Hrun. clearbody index.
  assert (∀ e, push_substring (rc_reassembler r) [] index e = Ret (push_finish (rc_reassembler r) e)) as Hpush.
  { intros e. unfold push_substring, validate. change (zlen []) with 0. by destruct (remaining_capacity _ =? 0). }
  rewrite Hpush in Hrun. cbn [mbind outcome_bind] in Hrun. injection Hrun as <-. unfold acked, push_finish, empty. cbn.
  destruct (rc_end r); cbn; [destruct (sr_unassembled_bytes (rc_reassembler r) =? 0) eqn:Hq; cbn; by rewrite Hq|].
  by destruct (sr_input_ended (rc_reassembler r) && _).
Qed.

Section receiver.
(** The segments [m] are outstanding and carry the absolute numbers from [u] to
    [N]; [U] is the first index beyond the receiver's capacity. *)
Context (S : list byte) (isn : WrappingInt32) (m : list (Z * TCPSegment)) (u N U cap : Z).
Hypothesis HS : zlen S + 2 < 2 ^ 31.
Hypothesis Hisn : wint_ok isn.
Hypothesis Hchain : chain S isn u m N.
Hypothesis Hu : 1 <= u.
Hypothesis HN : N <= zlen S + 2.
Hypothesis HU : Z.min (N - 1) (zlen S) <= U.
Hypothesis Hcap : cap < 2 ^ 62.

(** The receiver while the segments of one batch arrive. *)
Record gathering (r : TCPReceiver) : Prop := {
  gt_ok : rcv_ok S isn r;
  gt_syn : rc_syn r = true;
  gt_cap : rc_capacity r = cap;
  gt_upper : upper (rc_reassembler r) = U;
  gt_low : u - 1 <= sr_expected_index (rc_reassembler r);
  gt_contents : contents (stream_out r) = slice S (u - 1) (sr_expected_index (rc_reassembler r));
  gt_range : ∀ i, received (rc_reassembler r) i -> i < N - 1;
  gt_open : rc_end r = false -> sr_input_ended (rc_reassembler r) = false ∧ bs_input_ended (stream_out r) = false;
  gt_fin : rc_end r = false -> ∀ p, p ∈ m -> fin (header p.2) = true -> has_payload p.2 ->
    ∀ i, received (rc_reassembler r) i -> i < p.1 - length_in_sequence_space p.2 - 1;
  gt_last : rc_end r = true -> N = zlen S + 2 ∧ sr_input_ended (rc_reassembler r) = true ∧
    (sr_expected_index (rc_reassembler r) = zlen S ∨ received (rc_reassembler r) (zlen S - 1));
  gt_ended : rc_end r = true -> bs_input_ended (stream_out r) = true <-> sr_expected_index (rc_reassembler r) = zlen S
}.

(** [seg] with absolute number [a] is empty, or it has the contents of an
    outstanding segment; one without payload is the FIN after all of [S] was
    assembled. *)
Definition letter (seg : TCPSegment) (a : Z) : Prop :=
  syn (header seg) = false ∧ seg_of S isn a seg ∧
  (length_in_sequence_space seg = 0 ∨
   ∃ p, p ∈ m ∧ p.1 = a + length_in_sequence_space seg ∧
     length_in_sequence_space seg = length_in_sequence_space p.2 ∧ payload seg = payload p.2 ∧
     fin (header seg) = fin (header p.2) ∧ (fin (header seg) = true -> p.1 = zlen S + 2) ∧
     (has_payload seg ∨ u = zlen S + 1)).

(** Where the bytes of a letter go. *)
Definition places (seg : TCPSegment) (a : Z) : Prop :=
  seg_of S isn a seg ∧
  (str (payload seg) = [] ∧ fin (header seg) = false ∨
   1 <= a ∧ a + zlen (str (payload seg)) <= N ∧ a - 1 + zlen (str (payload seg)) <= zlen S).

Lemma length_cases seg : syn (header seg) = false ->
  length_in_sequence_space seg = zlen (str (payload seg)) + (if fin (header seg) then 1 else 0).
Proof. intros H. unfold length_in_sequence_space. rewrite H. lia. Qed.

Lemma letter_place seg a : letter seg a -> places seg a.
Proof.
  intros (Hsyn & Ha & [Hl|(p & Hp & Hpa & Hl & Hpay & Hf & _)]); (split; [done|]).
  - left. by apply length_0 in Hl as (? & ? & _).
  - right. destruct (chain_in _ _ _ _ _ _ Hchain Hp) as (c & ? & ? & ? & ? & _).
    pose proof (length_cases seg Hsyn) as Hlen. pose proof (zlen_nonneg (str (payload seg))).
    split_and!; [lia|destruct (fin (header seg)); lia|].
    destruct (str (payload seg)) as [|b l] eqn:Hs; [rewrite (@zlen_nil byte) in *; destruct (fin (header seg)); lia|].
    destruct (so_payload _ _ _ _ Ha) as (_ & Hle & _); [by rewrite Hs|]. unfold stream_index in Hle. rewrite Hsyn, Hs in Hle.
    rewrite u64_id in Hle by (unfold is_u64; lia). lia.
Qed.

(** One segment: what is received, and the marks of the end. *)
Record gathered (r : TCPReceiver) (seg : TCPSegment) (a : Z) (r' : TCPReceiver) : Prop := {
  gd_ok : rcv_ok S isn r';
  gd_cap : rc_capacity r' = rc_capacity r;
  gd_syn : rc_syn r' = true;
  gd_end : rc_end r' = fin (header seg) || rc_end r;
  gd_upper : upper (rc_reassembler r') = upper (rc_reassembler r);
  gd_received : ∀ i, received (rc_reassembler r') i <-> received (rc_reassembler r) i ∨
    stream_index seg a <= i < stream_index seg a + zlen (str (payload seg)) ∧ i < U;
  gd_expected : sr_expected_index (rc_reassembler r) <= sr_expected_index (rc_reassembler r');
  gd_contents : contents (stream_out r') = contents (stream_out r) ++
    slice S (sr_expected_index (rc_reassembler r)) (sr_expected_index (rc_reassembler r'));
  gd_mark : sr_input_ended (rc_reassembler r') = sr_input_ended (rc_reassembler r) ||
    takes_eof (rc_reassembler r) (str (payload seg)) (stream_index seg a) (fin (header seg) || rc_end r);
  gd_ended : bs_input_ended (stream_out r') = bs_input_ended (stream_out r) ||
    negb (rejected (rc_reassembler r) (str (payload seg)) (stream_index seg a)) &&
    (sr_input_ended (rc_reassembler r') && empty (rc_reassembler r'))
}.

Lemma gather_one r seg a :
  gathering r -> syn (header seg) = false -> seg_of S isn a seg ->
  returns (TCPReceiver.segment_received r seg) (gathered r seg a).
Proof.
  intros Hg Hsyn Ha. pose proof (gt_ok _ Hg) as Hr. pose proof (ro_checkpoint _ _ _ Hr). pose proof (so_le _ _ _ _ Ha).
  assert (ignored r seg = false) as Hig by (unfold ignored; by rewrite Hsyn, (gt_syn _ Hg)).
  pose proof (gt_cap _ Hg) as Hc.
  destruct (segment_received_spec S isn r seg a Hr Ha Hisn Hig ltac:(lia) ltac:(lia)) as (r1 & Hrun & H1 & H2 & H3 & H4 & H5 & H6 & H7 & H8 & H11).
  destruct (segment_marks S isn r seg a Hr Ha Hisn Hig ltac:(lia) ltac:(lia)) as (r2 & Hrun2 & _ & H9 & H10).
  rewrite Hrun in Hrun2. injection Hrun2 as <-. exists r1. split; [done|]. split; try done.
  intros i. by rewrite H7, (gt_upper _ Hg).
Qed.

(** What was received is stored in full. *)
Lemma gathered_range r seg a r' :
  gathering r -> gathered r seg a r' -> syn (header seg) = false -> places seg a ->
  (∀ i, received (rc_reassembler r') i -> i < N - 1) ∧
  (∀ i, a - 1 <= i < a - 1 + zlen (str (payload seg)) -> received (rc_reassembler r') i).
Proof.
  intros Hg Hd Hsyn [Ha [[Hn _]|(H1 & H2 & H3)]].
  - rewrite Hn, (@zlen_nil byte). split; [|lia]. intros i Hi%(gd_received _ _ _ _ Hd). rewrite Hn, (@zlen_nil byte) in Hi.
    apply (gt_range _ Hg). destruct Hi as [?|?]; [done|lia].
  - pose proof (zlen_nonneg (str (payload seg))). assert (stream_index seg a = a - 1) as Hi.
    { unfold stream_index. rewrite Hsyn, u64_id; [done|unfold is_u64; lia]. }
    split; intros i Hrec.
    + apply (gd_received _ _ _ _ Hd) in Hrec as [?%(gt_range _ Hg)|Hrec]; [done|]. rewrite Hi in Hrec. lia.
    + apply (gd_received _ _ _ _ Hd). right. rewrite Hi. lia.
Qed.

(** The FIN segment with the last bytes is new when it arrives for the first
    time. *)
Lemma fin_is_new r p seg a :
  gathering r -> rc_end r = false -> p ∈ m -> p.1 = a + length_in_sequence_space seg ->
  syn (header seg) = false -> length_in_sequence_space seg = length_in_sequence_space p.2 -> payload seg = payload p.2 ->
  fin (header seg) = true -> fin (header p.2) = true -> p.1 = zlen S + 2 -> has_payload seg ->
  stream_index seg a = a - 1 ∧ a - 1 + zlen (str (payload seg)) = zlen S ∧
  sr_expected_index (rc_reassembler r) <= a - 1 < zlen S.
Proof.
  intros Hg He Hp Ha Hsyn Hl Hpay Hf Hfp Hend Hne. destruct (chain_in _ _ _ _ _ _ Hchain Hp) as (c & ? & ? & ? & ? & _).
  assert (has_payload p.2) as Hne2 by (unfold has_payload in *; by rewrite <- Hpay).
  assert (0 < zlen (str (payload seg))) as Hpos by by apply zlen_pos_ne.
  pose proof (length_cases seg Hsyn) as Hlen. rewrite Hf in Hlen.
  split_and!; [unfold stream_index; rewrite Hsyn, u64_id; [done|unfold is_u64; lia]|lia| |lia].
  destruct (Z.le_gt_cases (sr_expected_index (rc_reassembler r)) (a - 1)) as [?|Hgt]; [done|].
  assert (received (rc_reassembler r) (a - 1)) as Hrec by (left; lia).
  pose proof (gt_fin _ Hg He p Hp Hfp Hne2 _ Hrec). lia.
Qed.

(** The three cases of a segment: it carries no FIN, the FIN was there before,
    or it is the first with the FIN. *)
Lemma gathered_last r seg a r' :
  gathering r -> letter seg a -> gathered r seg a r' -> rc_end r' = true ->
  N = zlen S + 2 ∧ sr_input_ended (rc_reassembler r') = true ∧
  (sr_expected_index (rc_reassembler r') = zlen S ∨ received (rc_reassembler r') (zlen S - 1)) ∧
  (rc_end r = false -> rejected (rc_reassembler r) (str (payload seg)) (stream_index seg a) = false).
Proof.
  intros Hg Hlet Hd He. pose proof (ro_le _ _ _ (gd_ok _ _ _ _ Hd)) as Hle. pose proof (gd_expected _ _ _ _ Hd) as Hexp.
  pose proof (ro_le _ _ _ (gt_ok _ Hg)) as Hle0. pose proof (gt_low _ Hg) as Hlow.
  rewrite (gd_end _ _ _ _ Hd) in He. destruct (rc_end r) eqn:He0.
  { destruct (gt_last _ Hg He0) as (HN' & Hm & Hlast). split_and!; [done|by rewrite (gd_mark _ _ _ _ Hd), Hm| |done].
    destruct Hlast as [?|?]; [left; lia|right]. apply (gd_received _ _ _ _ Hd). by left. }
  rewrite orb_false_r in He. destruct Hlet as (Hsyn & Ha & Hcase).
  destruct Hcase as [Hl|(p & Hp & Hpa & Hl & Hpay & Hf & Hfin & Hne)]; [by apply length_0 in Hl as (_ & Hl & _); congruence|].
  pose proof (chain_in _ _ _ _ _ _ Hchain Hp) as (c & _ & _ & _ & HpN & _). specialize (Hfin He).
  rewrite (gd_mark _ _ _ _ Hd), He. cbn [orb]. unfold takes_eof, rejected. cbn [andb].
  destruct (str (payload seg)) as [|b l] eqn:Hs.
  - assert (u = zlen S + 1) as Hu' by (destruct Hne as [Hne|?]; [by destruct (Hne Hs)|done]). rewrite (@zlen_nil byte).
    rewrite !orb_true_r, andb_false_r. split_and!; [lia|done|left; lia|done].
  - assert (has_payload seg) as Hne' by (unfold has_payload; by rewrite Hs).
    destruct (fin_is_new r p seg a) as (Hi & Hsum & Hex & Hlt); try done; [congruence|]. rewrite Hs in Hsum.
    pose proof (gt_upper _ Hg) as Hup. rewrite Hi. split_and!; [lia| | |intros _; lia].
    + apply orb_true_iff. right. apply orb_true_iff. right. lia.
    + right. apply (gd_received _ _ _ _ Hd). right. rewrite Hi, Hs. lia.
Qed.

Lemma gathered_complete r seg a r' :
  gathering r -> letter seg a -> gathered r seg a r' -> rc_end r' = true ->
  bs_input_ended (stream_out r') = true <-> sr_expected_index (rc_reassembler r') = zlen S.
Proof.
  intros Hg Hlet Hd He. destruct (gathered_last r seg a r' Hg Hlet Hd He) as (_ & Hm & Hlast & Hrej).
  pose proof (ro_sr _ _ _ (gd_ok _ _ _ _ Hd)) as Hok. pose proof (ro_le _ _ _ (gd_ok _ _ _ _ Hd)) as Hle.
  pose proof (gd_expected _ _ _ _ Hd) as Hexp. pose proof (ro_le _ _ _ (gt_ok _ Hg)) as Hle0.
  rewrite (gd_ended _ _ _ _ Hd), Hm. cbn [andb]. split.
  - intros [Hold|[_ Hemp]%andb_true_iff]%orb_true_iff.
    + destruct (rc_end r) eqn:He0; [apply (gt_ended _ Hg He0) in Hold; lia|].
      destruct (gt_open _ Hg He0) as [_ Hno]. congruence.
    + apply (received_last_done S); try done. by apply (sr_empty_spec _ _ _ Hok).
  - intros Hdone. rewrite (complete_empty S _ Hok Hdone), andb_true_r. apply orb_true_iff.
    destruct (rc_end r) eqn:He0; [|right; by rewrite Hrej].
    destruct (Z.eq_dec (sr_expected_index (rc_reassembler r)) (zlen S)) as [Heq|Hne]; [left; by apply (gt_ended _ Hg He0)|right].
    apply negb_true_iff, not_true_iff_false. unfold rejected. intros Hr.
    assert (received (rc_reassembler r') (sr_expected_index (rc_reassembler r))) as Hrec.
    { left. pose proof (inv_pos _ _ _ (ro_sr _ _ _ (gt_ok _ Hg))). lia. }
    apply (gd_received _ _ _ _ Hd) in Hrec as [Hrec|Hrec].
    + by apply (expected_missing _ _ (ro_sr _ _ _ (gt_ok _ Hg))) in Hrec.
    + pose proof (gt_upper _ Hg). lia.
Qed.

Lemma gather_step r seg a :
  gathering r -> letter seg a ->
  returns (TCPReceiver.segment_received r seg) (λ r', gathering r' ∧ gathered r seg a r').
Proof.
  intros Hg Hlet. pose proof Hlet as (Hsyn & Ha & Hcase). pose proof (letter_place _ _ Hlet) as Hpl.
  destruct (gather_one r seg a Hg Hsyn Ha) as (r' & Hrun & Hd). exists r'. split; [done|]. split; [|done].
  destruct (gathered_range r seg a r' Hg Hd Hsyn Hpl) as [Hrange _].
  split; try apply Hd; try done.
  - rewrite (gd_cap _ _ _ _ Hd). apply Hg.
  - rewrite (gd_upper _ _ _ _ Hd). apply Hg.
  - pose proof (gt_low _ Hg). pose proof (gd_expected _ _ _ _ Hd). lia.
  - rewrite (gd_contents _ _ _ _ Hd), (gt_contents _ Hg). pose proof (gt_low _ Hg). pose proof (gd_expected _ _ _ _ Hd).
    symmetry. apply slice_app; lia.
  - rewrite (gd_end _ _ _ _ Hd), (gd_ended _ _ _ _ Hd), (gd_mark _ _ _ _ Hd). intros [Hf He]%orb_false_iff.
    destruct (gt_open _ Hg He) as [-> ->]. rewrite Hf, He. cbn. by rewrite andb_false_r.
  - rewrite (gd_end _ _ _ _ Hd). intros [Hf He]%orb_false_iff p Hp Hfp Hne i Hi.
    apply (gd_received _ _ _ _ Hd) in Hi as [Hi|Hi]; [by apply (gt_fin _ Hg He p Hp Hfp Hne)|].
    destruct Hcase as [Hl|(q & Hq & Hqa & Hl & _ & Hfq & _)].
    { apply length_0 in Hl as (Hl & _). rewrite Hl, (@zlen_nil byte) in Hi. lia. }
    destruct (chain_in _ _ _ _ _ _ Hchain Hq) as (c & ? & ? & ? & ? & _).
    destruct (chain_in _ _ _ _ _ _ Hchain Hp) as (d & ? & ? & ? & ? & Hsent). pose proof (ss_fin _ _ _ _ Hsent Hfp).
    pose proof (length_cases seg Hsyn) as Hlen. rewrite Hf in Hlen. pose proof (zlen_nonneg (str (payload seg))).
    unfold stream_index in Hi. rewrite Hsyn, u64_id in Hi by (unfold is_u64; lia).
    destruct (chain_two _ _ _ _ _ p q Hchain Hp Hq) as [->|[?|?]]; [congruence|lia|lia].
  - intros He. by destruct (gathered_last r seg a r' Hg Hlet Hd He) as (? & ? & ? & _).
  - intros He. by apply (gathered_complete r seg a).
Qed.


(** Only [S] is received, and only what was sent. *)
Lemma gathering_bound r : gathering r -> sr_expected_index (rc_reassembler r) <= N - 1.
Proof.
  intros Hg. pose proof (chain_le _ _ _ _ _ Hchain). destruct (Z.le_gt_cases (sr_expected_index (rc_reassembler r)) 0); [lia|].
  assert (received (rc_reassembler r) (sr_expected_index (rc_reassembler r) - 1)) as Hrec by (left; lia).
  pose proof (gt_range _ Hg _ Hrec). lia.
Qed.

(** The acknowledgment and the window that go out in between. *)
Lemma gathering_acks r :
  gathering r -> cap <= 65535 ->
  ackno r = Some (wrap (acked r) isn) ∧ 0 <= acked r <= N ∧ is_u16 (advertised r) ∧
  (acked r + advertised r = U + 1 ∨ N = zlen S + 2 ∧ U + 1 <= acked r + advertised r).
Proof.
  intros Hg Hc. pose proof (gt_ok _ Hg) as Hr. pose proof (ro_sr _ _ _ Hr) as Hsr.
  destruct (window_size_spec _ _ Hsr (ro_cap _ _ _ Hr)) as [Hw Hwr]. pose proof (gt_cap _ Hg) as Hcap'.
  pose proof (gt_upper _ Hg) as Hup. unfold upper in Hup. rewrite remaining_capacity_spec in Hup by apply Hsr.
  pose proof (ro_cap _ _ _ Hr) as Hbc. unfold stream_out in Hw, Hbc. pose proof (inv_pos _ _ _ Hsr) as Hpos.
  assert (advertised r = U - sr_expected_index (rc_reassembler r)) as Hadv.
  { unfold advertised. rewrite (proj2 (Z.ltb_ge _ _)) by lia. lia. }
  pose proof (gathering_bound r Hg) as HeN. assert (is_u16 (advertised r)) as H16 by by apply (advertised_u16 S isn).
  split; [rewrite (ackno_spec r isn (ro_ack _ _ _ Hr)); by rewrite (gt_syn _ Hg)|].
  unfold acked. destruct (rc_end r && empty (rc_reassembler r)) eqn:He; [|split_and!; [lia|lia|done|left; lia]].
  apply andb_true_iff in He as [He Hem]. destruct (gt_last _ Hg He) as (HN' & _ & Hlast).
  assert (sr_expected_index (rc_reassembler r) = zlen S) as Hdone.
  { apply (received_last_done S); try done; [apply Hr|]. by apply (sr_empty_spec _ _ _ Hsr). }
  split_and!; [lia|lia|done|right; lia].
Qed.

(** Every number from [u] on belongs to a byte of an outstanding segment, or is
    the FIN. *)
Lemma outstanding_slot j :
  u <= j < N -> ∃ p, p ∈ m ∧
    (j = zlen S + 1 ∧ fin (header p.2) = true ∨
     j <= zlen S ∧ p.1 - length_in_sequence_space p.2 - 1 <= j - 1 < p.1 - length_in_sequence_space p.2 - 1 + zlen (str (payload p.2))).
Proof.
  intros Hj. destruct (chain_cover _ _ _ _ _ j Hchain Hj) as (p & Hp & Hjp). exists p. split; [done|].
  destruct (chain_in _ _ _ _ _ _ Hchain Hp) as (c & Hc & Hpc & Hl & HpN & Hsent).
  assert (syn (header p.2) = false) as Hsyn.
  { destruct (syn (header p.2)) eqn:Hsy; [|done]. apply (ss_syn _ _ _ _ Hsent) in Hsy as [? _]. lia. }
  pose proof (length_cases p.2 Hsyn) as Hlen.
  assert (c - 1 + zlen (str (payload p.2)) <= zlen S) as Hend.
  { destruct (str (payload p.2)) as [|b l] eqn:Hs; [rewrite (@zlen_nil byte) in *; destruct (fin (header p.2)) eqn:Hf; [pose proof (ss_fin _ _ _ _ Hsent Hf)|]; lia|].
    destruct (so_payload _ _ _ _ (ss_of _ _ _ _ Hsent)) as (_ & Hend & _); [by rewrite Hs|].
    unfold stream_index in Hend. rewrite Hsyn, u64_id, Hs in Hend by (unfold is_u64; lia). done. }
  destruct (fin (header p.2)) eqn:Hf; [|right; lia]. pose proof (ss_fin _ _ _ _ Hsent Hf).
  destruct (Z.eq_dec j (zlen S + 1)); [by left|right; lia].
Qed.

(** All outstanding segments have arrived. *)
Lemma gathering_complete r :
  gathering r ->
  (∀ p, p ∈ m -> ∀ i, p.1 - length_in_sequence_space p.2 - 1 <= i < p.1 - length_in_sequence_space p.2 - 1 + zlen (str (payload p.2)) ->
    received (rc_reassembler r) i) ->
  (∀ p, p ∈ m -> fin (header p.2) = true -> rc_end r = true) -> u < N ->
  acked r = N ∧ sr_expected_index (rc_reassembler r) = Z.min (N - 1) (zlen S) ∧
  (if N =? zlen S + 2 then bs_input_ended (stream_out r) = true else rc_end r = false).
Proof.
  intros Hg Hall Hfin HuN. pose proof (gt_ok _ Hg) as Hr. pose proof (ro_sr _ _ _ Hr) as Hsr. pose proof (ro_le _ _ _ Hr) as Hle.
  assert (sr_expected_index (rc_reassembler r) = Z.min (N - 1) (zlen S)) as Hexp.
  { pose proof (gt_low _ Hg). pose proof (gathering_bound r Hg).
    destruct (Z.lt_ge_cases (sr_expected_index (rc_reassembler r)) (Z.min (N - 1) (zlen S))) as [Hlt|Hge]; [|lia].
    exfalso. apply (expected_missing _ _ Hsr).
    destruct (outstanding_slot (sr_expected_index (rc_reassembler r) + 1) ltac:(lia)) as (p & Hp & Hcase).
    apply (Hall p Hp). destruct Hcase as [[? _]|?]; lia. }
  unfold acked. destruct (Z.eqb_spec N (zlen S + 2)) as [HNe|HNe].
  - assert (rc_end r = true) as He.
    { destruct (outstanding_slot (N - 1) ltac:(lia)) as (p & Hp & Hcase). apply (Hfin p Hp). destruct Hcase as [[_ ?]|?]; [done|lia]. }
    assert (sr_expected_index (rc_reassembler r) = zlen S) as Hd by lia.
    rewrite He, (complete_empty S _ Hsr Hd). cbn [andb]. split_and!; [lia|done|by apply (gt_ended _ Hg He)].
  - assert (rc_end r = false) as He by (destruct (rc_end r) eqn:He; [|done]; by destruct (gt_last _ Hg He)).
    rewrite He. cbn [andb]. split_and!; [lia|done|done].
Qed.
End receiver.
