(* ===== verification/Exchange.v ===== *)
(** One batch of segments between two connections, in both directions: [x] has
    a stream to send, [y] has nothing but its SYN and its FIN. Everything is
    stated for a batch in any order. *)
From S2P Require Import Prelude StdMap Buffer ByteStream StreamReassembler WrappingIntegers TCPSegment TCPReceiver TCPSender TCPState TCPConnection Transfer.

(** The segments are taken one after the other. *)
Fixpoint deliver (y : TCPConnection) (segments : list TCPSegment) : outcome TCPConnection :=
  match segments with
  | [] => Ret y
  | seg :: segments => y ← segment_received y seg; deliver y segments
  end.

(** ** What a segment acknowledges *)

Record answers (isn : WrappingInt32) (N R : Z) (all_sent : bool) (a : Z) (seg : TCPSegment) : Prop := {
  an_rst : rst (header seg) = false;
  an_ack : ack (header seg) = true;
  an_win : is_u16 (win (header seg));
  an_ackno : TCPSegment.ackno (header seg) = wrap a isn;
  an_range : 0 <= a <= N;
  an_ends : window_ends R all_sent a (win (header seg))
}.

Lemma answers_inj isn N R all_sent a b seg :
  N < 2 ^ 31 -> answers isn N R all_sent a seg -> answers isn N R all_sent b seg -> a = b.
Proof.
  intros HN Ha Hb. pose proof (an_range _ _ _ _ _ _ Ha). pose proof (an_range _ _ _ _ _ _ Hb).
  rewrite <- (unwrap_wrap a isn 0), <- (unwrap_wrap b isn 0) by lia.
  by rewrite <- (an_ackno _ _ _ _ _ _ Ha), <- (an_ackno _ _ _ _ _ _ Hb).
Qed.

(** ** A receiver that has nothing to receive *)

Section quiet.
Context (isn : WrappingInt32) (cap : Z).
Hypothesis Hisn : wint_ok isn.
Hypothesis Hcap : 0 <= cap <= 65535.

Record quiet (r : TCPReceiver) : Prop := {
  qt_ok : rcv_ok [] isn r;
  qt_syn : rc_syn r = true;
  qt_cap : rc_capacity r = cap;
  qt_contents : contents (stream_out r) = [];
  qt_open : rc_end r = false -> sr_input_ended (rc_reassembler r) = false ∧ bs_input_ended (stream_out r) = false;
  qt_ended : rc_end r = true -> bs_input_ended (stream_out r) = true
}.

Lemma quiet_acks r :
  quiet r -> ackno r = Some (wrap (acked r) isn) ∧ acked r = 1 + (if rc_end r then 1 else 0) ∧ advertised r = cap.
Proof.
  intros Hq. pose proof (qt_ok _ Hq) as Hr. pose proof (ro_le _ _ _ Hr) as Hle. pose proof (inv_pos _ _ _ (ro_sr _ _ _ Hr)).
  change (zlen (@nil byte)) with 0 in Hle. split_and!.
  - rewrite (ackno_spec r isn (ro_ack _ _ _ Hr)). by rewrite (qt_syn _ Hq).
  - unfold acked. rewrite (complete_empty [] (rc_reassembler r)), andb_true_r; [lia|apply Hr|change (zlen (@nil byte)) with 0; lia].
  - destruct (window_size_spec _ _ (ro_sr _ _ _ Hr) (ro_cap _ _ _ Hr)) as [Hw _].
    rewrite (qt_contents _ Hq), (@zlen_nil byte), (qt_cap _ Hq) in Hw. unfold advertised. rewrite Hw.
    rewrite (proj2 (Z.ltb_ge _ _)); lia.
Qed.

Lemma nothing_sent abs seg : seg_of [] isn abs seg -> str (payload seg) = [].
Proof.
  intros Ha. destruct (str (payload seg)) as [|b l] eqn:Hs; [done|].
  destruct (so_payload _ _ _ _ Ha) as (? & Hle & _); [by rewrite Hs|]. rewrite Hs, zlen_cons in Hle.
  change (zlen (@nil byte)) with 0 in Hle. pose proof (zlen_nonneg l). lia.
Qed.

Lemma quiet_step r seg abs :
  quiet r -> seg_of [] isn abs seg ->
  returns (TCPReceiver.segment_received r seg) (λ r', quiet r' ∧
    rc_end r' = rc_end r || fin (header seg) && negb (syn (header seg))).
Proof.
  intros Hq Ha. pose proof (qt_ok _ Hq) as Hr. pose proof (ro_checkpoint _ _ _ Hr). pose proof (so_le _ _ _ _ Ha).
  change (zlen (@nil byte)) with 0 in *. pose proof (qt_cap _ Hq) as Hc.
  destruct (syn (header seg)) eqn:Hs.
  { rewrite segment_ignored by (unfold ignored; by rewrite Hs, (qt_syn _ Hq)). apply returns_ret. by rewrite andb_false_r, orb_false_r. }
  assert (ignored r seg = false) as Hig by (unfold ignored; by rewrite Hs, (qt_syn _ Hq)).
  destruct (segment_received_spec [] isn r seg abs Hr Ha Hisn Hig) as (r' & Hrun & H1 & H2 & H3 & _ & H4 & _ & _ & _ & H5);
    [change (zlen (@nil byte)) with 0; lia|lia|].
  destruct (segment_marks [] isn r seg abs Hr Ha Hisn Hig) as (r2 & Hrun2 & _ & H6 & H7);
    [change (zlen (@nil byte)) with 0; lia|lia|].
  rewrite Hrun in Hrun2. injection Hrun2 as <-. exists r'. split; [done|]. rewrite andb_true_r, orb_comm. split; [|done].
  split; try done; [by rewrite H2|..].
  - rewrite H5, (qt_contents _ Hq). unfold slice, ztake, zdrop. by rewrite drop_nil, take_nil.
  - rewrite H4. intros [Hf He]%orb_false_iff. destruct (qt_open _ Hq He) as [Ho1 Ho2].
    rewrite H7, H6, Ho1, Ho2, Hf, He. cbn. by rewrite andb_false_r.
  - rewrite H4, H7, H6. intros He. unfold takes_eof, rejected. rewrite (nothing_sent _ _ Ha), He. change (zlen (@nil byte)) with 0. cbn [Z.eqb].
    rewrite !orb_true_r, andb_false_r. cbn [andb orb negb].
    rewrite (complete_empty [] (rc_reassembler r')), orb_true_r; [done|apply H1|].
    pose proof (ro_le _ _ _ H1) as Hle. pose proof (inv_pos _ _ _ (ro_sr _ _ _ H1)). change (zlen (@nil byte)) with 0 in *. lia.
Qed.
End quiet.

(** ** The side that sends *)

Lemma chain_same S isn a m : chain S isn a m a -> m = [].
Proof. destruct m as [|[k seg] m]; [done|]. intros (-> & Hl & _ & Hc%chain_le). lia. Qed.

(** Why a connection without errors is not active any more. *)
Lemma inactive_done c :
  active c = false -> bs_error (stream_in c) = false ->
  eof (inbound_stream c) = true ∧ eof (stream_in c) = true ∧ bytes_in_flight c = 0.
Proof.
  unfold active, error. intros Ha He. rewrite He in Ha. cbn [andb] in Ha.
  assert (∀ b1 b2 b3 b4 : bool, (if b1 && b2 && b3 && b4 then false else true) = false -> b1 = true ∧ b2 = true ∧ b3 = true) as H4
    by (intros [] [] [] []; done).
  assert (∀ b1 b2 b3 : bool, (if b1 && b2 && b3 then false else true) = false -> b1 = true ∧ b2 = true ∧ b3 = true) as H3
    by (intros [] [] []; done).
  destruct (negb (cn_linger_after_streams_finish c)); [apply H3 in Ha|apply H4 in Ha]; destruct Ha as (? & ? & ?%Z.eqb_eq); done.
Qed.

Lemma no_flight S s : snd_ok S s -> sd_bytes_in_flight s = 0 -> una s = sd_next_seqno s ∧ sd_outstanding_segments s = [] ∧ sd_consecutive_retransmissions s = 0.
Proof.
  intros Hs Hf. assert (una s = sd_next_seqno s) as Hun by (unfold una; lia).
  pose proof (sk_chain _ _ Hs) as Hc. rewrite Hun in Hc. apply chain_same in Hc as Ho. split_and!; [done|done|by apply (sk_retx _ _ Hs)].
Qed.

Section sending.
Context (S : list byte) (isnX isnY : WrappingInt32) (N R cap : Z) (all_sent : bool).
Hypothesis HS : zlen S + 2 < 2 ^ 31.
Hypothesis HNR : 0 <= N <= R.
Hypothesis HN : N < 2 ^ 31.
Hypothesis HisnY : wint_ok isnY.
Hypothesis Hcap : 0 <= cap <= 65535.

Record sending (c : TCPConnection) : Prop := {
  sg_mail : mailing S isnX N R all_sent (quiet isnY cap) [] c;
  sg_quiet : quiet isnY cap (cn_receiver c);
  sg_error : bs_error (stream_in c) = false
}.

(** A segment from the other side. *)
Definition from_peer (seg : TCPSegment) : Prop :=
  (∃ a, answers isnX N R all_sent a seg) ∧ ∃ abs, seg_of [] isnY abs seg.

(** The other side's FIN is acknowledged in the queue. *)
Definition told (c : TCPConnection) : Prop :=
  ∃ r seg, stamp r seg ∈ cn_segments_out c ∧ quiet isnY cap r ∧ rc_end r = true.

Record sent_on (c c' : TCPConnection) : Prop := {
  so_una : una (cn_sender c) <= una (cn_sender c');
  so_retx : sd_consecutive_retransmissions (cn_sender c') = 0 ∨
    sd_consecutive_retransmissions (cn_sender c') = sd_consecutive_retransmissions (cn_sender c);
  so_app : same_app (cn_sender c) (cn_sender c');
  so_cap : bs_cap (stream_in c') = bs_cap (stream_in c);
  so_cfg : cn_cfg c' = cn_cfg c;
  so_time : cn_time_since_last_segment_received c' = 0 ∨ c' = c;
  so_end : rc_end (cn_receiver c) = true -> rc_end (cn_receiver c') = true;
  so_told : (rc_end (cn_receiver c) = true -> told c) -> rc_end (cn_receiver c') = true -> told c'
}.

Lemma sent_on_refl c : sent_on c c.
Proof. split; try done; [by right..|auto]. Qed.
Lemma sent_on_trans c1 c2 c3 : sent_on c1 c2 -> sent_on c2 c3 -> sent_on c1 c3.
Proof.
  intros [A1 A2 A3 A4 A5 A6 A7 A8] [B1 B2 B3 B4 B5 B6 B7 B8]. split; [lia|lia|by etrans|congruence|congruence| |auto|auto].
  destruct B6 as [?| ->]; [by left|done].
Qed.

Definition reached (c : TCPConnection) : Prop := N <= una (cn_sender c) ∧ sd_consecutive_retransmissions (cn_sender c) = 0.

Lemma reached_on c c' : sent_on c c' -> reached c -> reached c'.
Proof. intros [] []. split; lia. Qed.

Lemma take_one c seg :
  sending c -> from_peer seg ->
  ∃ c', segment_received c seg = Ret c' ∧ sending c' ∧ sent_on c c' ∧
    (answers isnX N R all_sent N seg -> reached c') ∧
    (fin (header seg) = true -> syn (header seg) = false -> rc_end (cn_receiver c') = true) ∧
    (active c = true -> cn_time_since_last_segment_received c' = 0).
Proof.
  intros Hc [[a Ha] [abs Hs]]. destruct (active c) eqn:Hact.
  - destruct (quiet_step isnY cap HisnY Hcap (cn_receiver c) seg abs (sg_quiet _ Hc) Hs) as (r & Hr & Hq & Hend).
    destruct (mail_step S isnX N R all_sent HS HNR (quiet isnY cap) [] c seg r a (sg_mail _ Hc) Hact) as (c' & e & Hrun & Hml & Hmd & Hrr & Hout & Hne);
      try apply Ha; try done; [apply Hq|].
    exists c'. split_and!; try done.
    + split; [done|by rewrite Hrr|]. rewrite (md_error _ _ _ _ Hmd). apply Hc.
    + split; try apply Hmd; [left; apply Hmd|rewrite Hrr, Hend; by intros ->|].
      rewrite Hrr. intros Htold He. destruct (rc_end (cn_receiver c)) eqn:Hold.
      * destruct (Htold eq_refl) as (r0 & seg0 & Hin & H0 & H1). exists r0, seg0. split_and!; try done. rewrite Hout. apply elem_of_app. by left.
      * pose proof He as Her. rewrite Hend in He. cbn [orb] in He. apply andb_true_iff in He as [Hf _]. destruct e as [|x e].
        { exfalso. apply Hne; [|done]. unfold length_in_sequence_space. rewrite Hf. pose proof (zlen_nonneg (str (payload seg))). destruct (syn _); lia. }
        exists r, x. rewrite Hout. split_and!; [apply elem_of_app; right; by left|done|done].
    + intros HaN. pose proof (answers_inj _ _ _ _ _ _ _ HN Ha HaN) as ->. destruct (md_acked _ _ _ _ Hmd eq_refl). unfold reached. lia.
    + intros Hf Hs'. by rewrite Hrr, Hend, Hf, Hs', orb_true_r.
    + intros _. apply Hmd.
  - exists c. unfold segment_received. rewrite Hact. split_and!; [done|done|apply sent_on_refl| | |done].
    + intros _. destruct (inactive_done c Hact (sg_error _ Hc)) as (_ & _ & Hf).
      destruct (no_flight S (cn_sender c) (pp_ok _ _ _ _ _ _ (ml_pump _ _ _ _ _ _ _ _ (sg_mail _ Hc))) Hf) as (Hun & _ & Hz).
      pose proof (pp_next _ _ _ _ _ _ (ml_pump _ _ _ _ _ _ _ _ (sg_mail _ Hc))). unfold reached. lia.
    + intros _ _. destruct (inactive_done c Hact (sg_error _ Hc)) as ([He _]%eof_spec & _ & _).
      destruct (rc_end (cn_receiver c)) eqn:Hend; [done|]. destruct (qt_open _ _ _ (sg_quiet _ Hc) Hend) as [_ Hno].
      unfold inbound_stream in He. congruence.
Qed.

(** A batch with an acknowledgment of [N] empties the queue of outstanding
    segments up to [N]. *)
Lemma take_batch c L :
  sending c -> Forall from_peer L ->
  ∃ c', deliver c L = Ret c' ∧ sending c' ∧ sent_on c c' ∧
    (Exists (answers isnX N R all_sent N) L -> reached c') ∧
    (Exists (λ seg, fin (header seg) = true ∧ syn (header seg) = false) L -> rc_end (cn_receiver c') = true) ∧
    (active c = true -> L ≠ [] -> cn_time_since_last_segment_received c' = 0).
Proof.
  revert c. induction L as [|seg L IH]; intros c Hc HL; cbn [deliver].
  { exists c. split_and!; [done|done|apply sent_on_refl|by intros ?%Exists_nil|by intros ?%Exists_nil|done]. }
  apply Forall_cons in HL as [Hseg HL]. destruct (take_one c seg Hc Hseg) as (c1 & Hrun & Hc1 & Hon & Hreach & Hfin & Ht).
  destruct (IH c1 Hc1 HL) as (c2 & Hrun2 & Hc2 & Hon2 & Hreach2 & Hfin2 & _). exists c2. rewrite Hrun. cbn [mbind outcome_bind].
  split_and!; [done|done|by eapply sent_on_trans|..].
  - intros [Ha|Ha]%Exists_cons; [eapply reached_on; [done|]; by apply Hreach|by apply Hreach2].
  - intros [[? ?]|Ha]%Exists_cons; [apply Hon2; by apply Hfin|by apply Hfin2].
  - intros Ha _. destruct (so_time _ _ Hon2) as [?| ->]; auto.
Qed.
End sending.

(** ** The side that receives *)

(** A connection that heard from its peer a moment ago and lingers is active. *)
Lemma lingering_active c :
  bs_error (stream_in c) = false -> cn_linger_after_streams_finish c = true ->
  cn_time_since_last_segment_received c < 10 * rt_timeout (cn_cfg c) -> active c = true.
Proof.
  intros He Hl Ht. unfold active, error, time_since_last_segment_received. rewrite He, Hl. cbn [andb negb].
  rewrite (proj2 (Z.leb_gt _ _)) by lia. by rewrite andb_false_r.
Qed.

Lemma seg_of_inj S isn a b seg : zlen S + 2 < 2 ^ 31 -> seg_of S isn a seg -> seg_of S isn b seg -> a = b.
Proof.
  intros HS Ha Hb. pose proof (so_le _ _ _ _ Ha). pose proof (so_le _ _ _ _ Hb).
  rewrite <- (unwrap_wrap a isn 0), <- (unwrap_wrap b isn 0) by lia. by rewrite <- (so_seqno _ _ _ _ Ha), <- (so_seqno _ _ _ _ Hb).
Qed.

Section collecting.
Context (S : list byte) (isnX isnY : WrappingInt32) (m : list (Z * TCPSegment)) (u N U cap : Z).
Hypothesis HS : zlen S + 2 < 2 ^ 31.
Hypothesis HisnX : wint_ok isnX.
Hypothesis Hchain : chain S isnX u m N.
Hypothesis Hu : 1 <= u.
Hypothesis HN : N <= zlen S + 2.
Hypothesis HU : Z.min (N - 1) (zlen S) <= U.
Hypothesis Hcap : cap <= 65535.

Let gather := gathering S isnX m u N U cap.
Context (out0 : list TCPSegment).

(** The receiving side has sent its FIN, number 1, and nothing is left to
    send. *)
Record collecting (c : TCPConnection) : Prop := {
  cg_mail : mailing [] isnY 2 2 true gather out0 c;
  cg_gather : gather (cn_receiver c);
  cg_error : bs_error (stream_in c) = false;
  cg_linger : cn_linger_after_streams_finish c = true;
  cg_rt : 0 < rt_timeout (cn_cfg c);
  cg_time : cn_time_since_last_segment_received c < 10 * rt_timeout (cn_cfg c)
}.

Lemma collecting_active c : collecting c -> active c = true.
Proof. intros []. by apply lingering_active. Qed.

Lemma collecting_finished c : collecting c -> eof (stream_in c) = true.
Proof.
  intros Hc. pose proof (ml_pump _ _ _ _ _ _ _ _ (cg_mail _ Hc)) as Hp. destruct (pp_all _ _ _ _ _ _ Hp eq_refl) as [Hf _].
  by apply (sk_fin _ _ (pp_ok _ _ _ _ _ _ Hp)).
Qed.

(** The last answer has the latest acknowledgment. *)
Definition answered_last (c : TCPConnection) : Prop :=
  ∃ r seg, stamp r seg ∈ cn_segments_out c ∧ gather r ∧ acked r = acked (cn_receiver c).

Record collected (c c' : TCPConnection) : Prop := {
  co_received : ∀ i, received (rc_reassembler (cn_receiver c)) i -> received (rc_reassembler (cn_receiver c')) i;
  co_end : rc_end (cn_receiver c) = true -> rc_end (cn_receiver c') = true;
  co_una : una (cn_sender c) <= una (cn_sender c');
  co_retx : sd_consecutive_retransmissions (cn_sender c') = 0 ∨
    sd_consecutive_retransmissions (cn_sender c') = sd_consecutive_retransmissions (cn_sender c);
  co_cfg : cn_cfg c' = cn_cfg c;
  co_time : cn_time_since_last_segment_received c' = 0 ∨ c' = c;
  co_answered : answered_last c -> answered_last c'
}.

Lemma collected_refl c : collected c c.
Proof. split; try done; by right. Qed.
Lemma collected_trans c1 c2 c3 : collected c1 c2 -> collected c2 c3 -> collected c1 c3.
Proof.
  intros [A1 A2 A3 A4 A5 A6 A7] [B1 B2 B3 B4 B5 B6 B7]. split; auto; [lia|lia|congruence|].
  destruct B6 as [?| ->]; [by left|done].
Qed.

Definition from_sender (seg : TCPSegment) : Prop :=
  (∃ a, letter S isnX m u seg a) ∧ ∃ b, answers isnY 2 2 true b seg.

(** The bytes and the FIN of a segment have arrived. *)
Definition arrived (c : TCPConnection) (seg : TCPSegment) : Prop :=
  (∀ a, letter S isnX m u seg a -> ∀ i, a - 1 <= i < a - 1 + zlen (str (payload seg)) -> received (rc_reassembler (cn_receiver c)) i) ∧
  (fin (header seg) = true -> rc_end (cn_receiver c) = true).

Lemma arrived_on c c' seg : collected c c' -> arrived c seg -> arrived c' seg.
Proof. intros Hc [H1 H2]. split; [intros a Ha i Hi; by eapply Hc, H1|intros Hf; by apply Hc, H2]. Qed.

Lemma collect_one c seg :
  collecting c -> from_sender seg ->
  ∃ c', segment_received c seg = Ret c' ∧ collecting c' ∧ collected c c' ∧ arrived c' seg ∧
    (answers isnY 2 2 true 2 seg -> 2 <= una (cn_sender c') ∧ sd_consecutive_retransmissions (cn_sender c') = 0) ∧
    (0 < length_in_sequence_space seg -> answered_last c') ∧ cn_time_since_last_segment_received c' = 0.
Proof.
  intros Hc [[a Ha] [b Hb]]. pose proof (collecting_active _ Hc) as Hact. pose proof (cg_gather _ Hc) as Hg.
  destruct (gather_step S isnX m u N U cap HS HisnX Hchain Hu HN HU ltac:(lia) (cn_receiver c) seg a Hg Ha) as (r & Hr & Hg' & Hd).
  destruct (mail_step [] isnY 2 2 true) with (PR := gather) (out0 := out0) (c := c) (seg := seg) (r := r) (a := b)
    as (c' & e & Hrun & Hml & Hmd & Hrr & Hout & Hne); try apply Hb; try apply Hc; try done; [apply Hg'|].
  exists c'. split_and!; [done|..].
  - assert (mailing [] isnY 2 2 true gather out0 c' -> bs_error (stream_in c') = false) as Herr by (rewrite (md_error _ _ _ _ Hmd); intros _; apply Hc).
    specialize (Herr Hml). pose proof (ml_pump _ _ _ _ _ _ _ _ Hml) as Hp. destruct (pp_all _ _ _ _ _ _ Hp eq_refl) as [Hf _].
    pose proof (sk_fin _ _ (pp_ok _ _ _ _ _ _ Hp) Hf) as Heof. fold (stream_in c') in Heof.
    assert (cn_linger_after_streams_finish c' = true) as Hl.
    { rewrite (md_linger _ _ _ _ Hmd), Heof, andb_false_r. by rewrite (cg_linger _ Hc). }
    split; try done; [by rewrite Hrr|rewrite (md_cfg _ _ _ _ Hmd); apply Hc|].
    rewrite (md_time _ _ _ _ Hmd), (md_cfg _ _ _ _ Hmd). pose proof (cg_rt _ Hc). lia.
  - split; try apply Hmd; rewrite ?Hrr; try (left; apply Hmd).
    + intros i Hi. apply (gd_received _ _ _ _ _ _ _ Hd). by left.
    + intros He. by rewrite (gd_end _ _ _ _ _ _ _ Hd), He, orb_true_r.
    + intros (r0 & seg0 & Hin & Hr0 & Hak). destruct (Z.eq_dec (length_in_sequence_space seg) 0) as [Hz|Hnz].
      * exists r0, seg0. rewrite Hrr, Hak, Hout. split_and!; [apply elem_of_app; by left|done|]. symmetry. by eapply empty_acked.
      * pose proof (length_nonneg seg). destruct e as [|x e]; [exfalso; apply Hne; [lia|done]|]. exists r, x. rewrite Hrr, Hout.
        split_and!; [apply elem_of_app; right; by left|done|done].
  - rewrite <- Hrr in *. split.
    + intros a' Ha' i Hi. destruct Ha' as (_ & Ha' & _). rewrite (seg_of_inj S isnX a' a seg HS Ha' (proj1 (proj2 Ha))) in Hi.
      eapply (gathered_range S isnX m u N U cap) with (r := cn_receiver c) (a := a); try done; [apply Ha|by eapply letter_place].
    + intros Hf. by rewrite (gd_end _ _ _ _ _ _ _ Hd), Hf.
  - intros H2. pose proof (answers_inj isnY 2 2 true b 2 seg ltac:(lia) Hb H2) as ->. destruct (md_acked _ _ _ _ Hmd eq_refl). lia.
  - intros Hl. destruct e as [|x e]; [exfalso; by apply Hne|]. exists r, x. rewrite Hrr, Hout.
    split_and!; [apply elem_of_app; right; by left|done|done].
  - apply Hmd.
Qed.

Lemma collect_batch c L :
  collecting c -> Forall from_sender L ->
  ∃ c', deliver c L = Ret c' ∧ collecting c' ∧ collected c c' ∧ Forall (arrived c') L ∧
    (Exists (answers isnY 2 2 true 2) L -> 2 <= una (cn_sender c') ∧ sd_consecutive_retransmissions (cn_sender c') = 0) ∧
    (Exists (λ seg, 0 < length_in_sequence_space seg) L -> answered_last c') ∧
    (L ≠ [] -> cn_time_since_last_segment_received c' = 0).
Proof.
  revert c. induction L as [|seg L IH]; intros c Hc HL; cbn [deliver].
  { exists c. split_and!; [done|done|apply collected_refl|constructor|by intros ?%Exists_nil|by intros ?%Exists_nil|done]. }
  apply Forall_cons in HL as [Hseg HL]. destruct (collect_one c seg Hc Hseg) as (c1 & Hrun & Hc1 & Hon & Harr & Hfin & Hans & Ht).
  destruct (IH c1 Hc1 HL) as (c2 & Hrun2 & Hc2 & Hon2 & Harr2 & Hfin2 & Hans2 & _). exists c2. rewrite Hrun. cbn [mbind outcome_bind].
  split_and!; [done|done|by eapply collected_trans|apply Forall_cons; split; [by eapply arrived_on|done]|..].
  - intros [Ha|Ha]%Exists_cons; [|by apply Hfin2]. destruct (Hfin Ha). pose proof (co_una _ _ Hon2). pose proof (co_retx _ _ Hon2). lia.
  - intros [Ha|Ha]%Exists_cons; [by apply (co_answered _ _ Hon2), Hans|by apply Hans2].
  - intros _. by destruct (co_time _ _ Hon2) as [?| ->].
Qed.
End collecting.
