(* ===== verification/Benchmark.v ===== *)
(** [apps/tcp_benchmark.cc]: two connections in one process, a string of
    random bytes sent from one to the other, in order or with each batch of
    segments reversed. The random numbers and the time that passed are arguments. *)
From Stdlib Require Import Floats.SpecFloat.
From S2P Require Import Prelude StdMap Buffer ByteStream StreamReassembler WrappingIntegers TCPSegment TCPReceiver TCPSender TCPState TCPConnection EndToEnd Transfer Exchange Format Program.

(** The variables of [main_loop]. *)
Record bench := mkBench {
  bm_x : TCPConnection;
  bm_y : TCPConnection;
  bm_bytes_to_send : Buffer;
  bm_x_closed : bool;
  bm_string_received : list byte
}.

Definition move_segments (x y : TCPConnection) (segments : list TCPSegment) (reorder : bool)
    : outcome (TCPConnection * TCPConnection * list TCPSegment) :=
  let segments := segments ++ cn_segments_out x in
  let x := set_out [] x in
  y ← deliver y (if reorder then reverse segments else segments);
  Ret (x, y, []).

(** The [while] loop that writes into [x]: a round either throws or takes bytes
    off, so their number is enough fuel. *)
Fixpoint write_input (fuel : nat) (x : TCPConnection) (bytes_to_send : Buffer) : outcome (TCPConnection * Buffer) :=
  if negb (size bytes_to_send =? 0) && negb (remaining_outbound_capacity x =? 0) then
    match fuel with
    | O => Diverge
    | S fuel =>
        let want := Z.min (remaining_outbound_capacity x) (size bytes_to_send) in
        '(x, written) ← write x (ztake want (str bytes_to_send));
        if negb (want =? written)
        then Throw (runtime_error (message (chars "want = " ++ dec want ++ chars ", written = " ++ dec written)))
        else
          bytes_to_send ← remove_prefix bytes_to_send written;
          write_input fuel x bytes_to_send
    end
  else Ret (x, bytes_to_send).

(** The lambda [loop]. *)
Definition loop (reorder : bool) (m : bench) : outcome bench :=
  '(x, bytes_to_send) ← write_input (Z.to_nat (size (bm_bytes_to_send m))) (bm_x m) (bm_bytes_to_send m);
  '(x, x_closed) ← (if (size bytes_to_send =? 0) && negb (bm_x_closed m) then x ← end_input_stream x; Ret (x, true)
                    else Ret (x, bm_x_closed m));
  '(x, y, segments) ← move_segments x (bm_y m) [] reorder;
  '(y, x, segments) ← move_segments y x segments false;
  let available_output := buffer_size (inbound_stream y) in
  '(y, string_received) ← (if 0 <? available_output then
                             '(bs, s) ← read (inbound_stream y) available_output;
                             Ret (set_inbound bs y, bm_string_received m ++ s)
                           else Ret (y, bm_string_received m));
  Ret (mkBench (tick x 1000) (tick y 1000) bytes_to_send x_closed string_received).

(** [while (not y.inbound_stream().eof()) loop();] and
    [while (x.active() or y.active()) loop();] *)
Fixpoint loop_while (cond : bench -> bool) (fuel : nat) (reorder : bool) (m : bench) : outcome bench :=
  if cond m then
    match fuel with
    | O => Diverge
    | S fuel => m ← loop reorder m; loop_while cond fuel reorder m
    end
  else Ret m.

(** ** The measurement *)

Definition double_of (z : Z) : spec_float := binary_normalize 53 1024 z 0 false.

(** [fixed << setprecision(2)]: the exact value rounded to two decimals, ties to
    even. *)
Definition fixed2 (f : spec_float) : list byte :=
  match f with
  | S754_zero neg => (if neg then chars "-" else []) ++ chars "0.00"
  | S754_infinity neg => (if neg then chars "-" else []) ++ chars "inf"
  | S754_nan => chars "nan"
  | S754_finite neg m e =>
      let num := Zpos m * 100 * 2 ^ Z.max 0 e in
      let den := 2 ^ Z.max 0 (- e) in
      let q := num / den in
      let r := 2 * (num mod den) in
      let q := if (den <? r) || (den =? r) && Z.odd q then q + 1 else q in
      (if neg then chars "-" else []) ++ dec (q / 100) ++ chars "." ++ pad 2 x30 (dec (q mod 100))
  end.

Definition gigabits_per_second (len duration : Z) : spec_float :=
  SFdiv 53 1024 (SFmul 53 1024 (double_of len) (double_of 8)) (double_of duration).

Example throughputs :
  map (λ d, String.string_of_list_byte (fixed2 (gigabits_per_second (100 * 1024 * 1024) d))) [250000000; 1000000000; 3000000007; 0] =
  ["3.36"; "0.84"; "0.28"; "inf"]%string.
Proof. reflexivity. Qed.

(** ** The program *)

(** What one call of [main_loop] gets from outside: the string of [rand()]
    values, the numbers for the initial sequence numbers and the nanoseconds
    between the two clock readings. *)
Record inputs := mkInputs {
  in_string : list byte;
  in_isn_x : Z;
  in_isn_y : Z;
  in_duration : Z
}.

Definition start (config : TCPConfig) (i : inputs) : outcome bench :=
  x ← connect (new_TCPConnection config (in_isn_x i));
  y ← end_input_stream (new_TCPConnection config (in_isn_y i));
  Ret (mkBench x y (Buffer_of_string (in_string i)) false []).

(** The conditions of the two loops. *)
Definition not_finished (m : bench) : bool := negb (eof (inbound_stream (bm_y m))).
Definition either_active (m : bench) : bool := active (bm_x m) || active (bm_y m).

Definition throughput_line (reorder : bool) (i : inputs) : list byte :=
  chars "CPU-limited throughput" ++ (if reorder then chars " with reordering: " else chars "                : ") ++
  fixed2 (gigabits_per_second (zlen (in_string i)) (in_duration i)) ++ chars " Gbit/s" ++ [newline].

(** The warnings of destructors of connections that are still active, which run
    when an exception leaves the function, are left out. *)
Definition main_loop (config : TCPConfig) (fuel : nat) (reorder : bool) (i : inputs) : program unit :=
  m ← call (start config i);
  m ← call (loop_while not_finished fuel reorder m);
  if negb (bool_decide (bm_string_received m = in_string i))
  then call (Throw (runtime_error "strings sent vs. received don't match"))
  else
    _ ← cout (throughput_line reorder i);
    _ ← call (loop_while either_active fuel reorder m);
    mret tt.

(** [len] is the length of both strings. *)
Definition benchmark_main `{ErrorText} (fuel : nat) (first second : inputs) : program Z :=
  try_catch
    (_ ← main_loop default_TCPConfig fuel false first;
     _ ← main_loop default_TCPConfig fuel true second;
     mret EXIT_SUCCESS)
    (λ e, _ ← cerr (what e ++ [newline]); mret EXIT_FAILURE).
