(* ===== verification/Progress.v ===== *)
(** [tcp_benchmark] reaches its end: the rounds of its loop, from the handshake
    to the moment both connections are closed. *)
From S2P Require Import Prelude StdMap Buffer ByteStream StreamReassembler WrappingIntegers TCPSegment TCPReceiver TCPSender TCPState TCPConnection EndToEnd Transfer Exchange Format Program Benchmark.

(** ** A tick *)

Lemma sender_tick_shape S s ms :
  snd_ok S s -> 0 <= sd_consecutive_retransmissions s <= 7 ->
  ∃ e rto n el, TCPSender.tick s ms =
    set_segments_out (sd_segments_out s ++ e) (set_timer (sd_max_abs_seqno s) rto n el (sd_timer_on s) s) ∧
    (e = [] ∨ ∃ k seg m, sd_outstanding_segments s = (k, seg) :: m ∧ e = [seg]) ∧
    0 <= n <= sd_consecutive_retransmissions s + 1.
Proof.
  intros Hs Hc. unfold TCPSender.tick. destruct (sd_timer_on s) eqn:Ht.
  - pose proof (proj1 (sk_timer _ _ Hs) Ht) as Hne. rewrite bool_decide_eq_false_2 by done.
    destruct (sd_outstanding_segments s) as [|[k seg] m] eqn:Ho; [done|].
    cbn [sd_rto sd_elapsed_time set_timer sd_outstanding_segments sd_wdn_sz sd_max_abs_seqno sd_segments_out
         sd_consecutive_retransmissions]. rewrite Ho.
    destruct (_ <=? _); [cbn [sd_wdn_sz set_segments_out set_timer]; destruct (0 <? sd_wdn_sz s)|].
    + exists [seg], (u32 (sd_rto s * 2)), (u32 (sd_consecutive_retransmissions s + 1)), 0.
      split; [reflexivity|]. split; [right; by eexists _, _, _|]. rewrite u32_id by (unfold is_u32; lia). lia.
    + exists [seg], (sd_rto s), (sd_consecutive_retransmissions s), 0. split; [reflexivity|]. split; [right; by eexists _, _, _|lia].
    + exists [], (sd_rto s), (sd_consecutive_retransmissions s), (u64 (sd_elapsed_time s + ms)). rewrite app_nil_r.
      split; [by destruct s|]. split; [by left|lia].
  - exists [], (sd_rto s), (sd_consecutive_retransmissions s), (sd_elapsed_time s). rewrite app_nil_r.
    split; [destruct s; cbn in *; by subst|]. split; [by left|lia].
Qed.

(** The connection after a tick: what waited and perhaps the oldest outstanding
    segment go out, the rest stays. *)
Record ticked (c c' : TCPConnection) (ms : Z) : Prop := {
  tk_receiver : cn_receiver c' = cn_receiver c;
  tk_sender : ∃ rto n el, cn_sender c' =
    set_segments_out [] (set_timer (sd_max_abs_seqno (cn_sender c)) rto n el (sd_timer_on (cn_sender c)) (cn_sender c)) ∧
    0 <= n <= sd_consecutive_retransmissions (cn_sender c) + 1;
  tk_ok : cn_sender c' = set_segments_out [] (TCPSender.tick (cn_sender c) ms);
  tk_out : ∃ e, cn_segments_out c' = cn_segments_out c ++ map (stamp (cn_receiver c)) (sd_segments_out (cn_sender c) ++ e) ∧
    (e = [] ∨ ∃ k seg m, sd_outstanding_segments (cn_sender c) = (k, seg) :: m ∧ e = [seg]);
  tk_cfg : cn_cfg c' = cn_cfg c;
  tk_linger : cn_linger_after_streams_finish c' = cn_linger_after_streams_finish c;
  tk_time : cn_time_since_last_segment_received c' = u64 (cn_time_since_last_segment_received c + ms)
}.

Lemma tick_shape S c ms :
  snd_ok S (cn_sender c) -> 0 <= sd_consecutive_retransmissions (cn_sender c) <= 7 -> active c = true ->
  ticked c (tick c ms) ms.
Proof.
  intros Hs Hc Ha. destruct (sender_tick_shape S _ ms Hs Hc) as (e & rto & n & el & He & Hcase & Hn).
  unfold tick. rewrite Ha. cbn [negb cn_sender set_time]. rewrite He. cbv zeta.
  rewrite (proj2 (Z.ltb_ge _ _)) by (cbn; unfold MAX_RETX_ATTEMPTS; lia). rewrite flush_buffer_spec.
  cbn [cn_sender set_sender cn_receiver set_time cn_segments_out sd_segments_out set_segments_out].
  split; try done; [by exists rto, n, el|by rewrite He|by exists e].
Qed.


(** ** The window is closed *)

Definition with_stream (c : TCPConnection) (bs : ByteStream) : TCPConnection := set_sender (set_stream bs (cn_sender c)) c.

Lemma closed_fill s : sd_syn s = true -> sd_recv_wdn_sz s = 0 -> fill_window s = Ret s.
Proof.
  intros Hsyn Hz. unfold fill_window. rewrite Hsyn. cbn [negb].
  assert (∀ fuel, fill_loop fuel s default_segment = Ret (s, default_segment)) as ->.
  { intros []; cbn [fill_loop]; rewrite Hz, andb_false_r; done. }
  cbn [mbind outcome_bind]. by rewrite Hz, andb_false_r.
Qed.

Lemma flush_none c : sd_segments_out (cn_sender c) = [] -> flush_buffer c = c.
Proof.
  intros Hq. rewrite flush_buffer_spec, Hq. cbn [map]. rewrite app_nil_r. destruct c as [cfg r s out l t i]. cbn in *.
  unfold set_out, set_sender. cbn. f_equal. destruct s. cbn in *. by subst.
Qed.

Lemma closed_write c data bs n :
  active c = true -> sd_syn (cn_sender c) = true -> sd_recv_wdn_sz (cn_sender c) = 0 -> sd_segments_out (cn_sender c) = [] ->
  ByteStream.write (stream_in c) data = (bs, n) -> write c data = Ret (with_stream c bs, n).
Proof.
  intros Ha Hsyn Hz Hq Hw. unfold write. rewrite Ha, Hw. cbn [negb]. rewrite closed_fill by done. cbn [mbind outcome_bind].
  by rewrite flush_none.
Qed.

Lemma closed_end c :
  active c = true -> sd_syn (cn_sender c) = true -> sd_recv_wdn_sz (cn_sender c) = 0 -> sd_segments_out (cn_sender c) = [] ->
  end_input_stream c = Ret (with_stream c (end_input (stream_in c))).
Proof.
  intros Ha Hsyn Hz Hq. unfold end_input_stream. rewrite Ha. cbn [negb]. rewrite closed_fill by done. cbn [mbind outcome_bind].
  by rewrite flush_none.
Qed.

(** A connection with something in flight is active. *)
Lemma flight_active c : bs_error (stream_in c) = false -> bytes_in_flight c ≠ 0 -> active c = true.
Proof.
  intros He Hf. unfold active, error. rewrite He. cbn [andb]. rewrite (proj2 (Z.eqb_neq _ _) Hf), !andb_false_r. cbn [andb].
  by destruct (negb _).
Qed.

(** ** Writing into [x] *)

Lemma write_input_stop fuel x b : str b = [] ∨ remaining_outbound_capacity x = 0 -> write_input fuel x b = Ret (x, b).
Proof.
  intros Hend. destruct fuel; cbn [write_input]; (destruct Hend as [He|He]; [unfold size; rewrite He; done|rewrite He, andb_false_r; done]).
Qed.

Lemma with_stream_self c : with_stream c (stream_in c) = c.
Proof. by destruct c as [? ? [] ? ? ? ?]. Qed.

Section feeding.
Context (S : list byte) (cap : Z).
Hypothesis HS : zlen S + 2 < 2 ^ 31.

(** [x] has something in flight, and its window is closed unless all of [S] was
    written. *)
Record feeding (x : TCPConnection) (bytes_to_send : Buffer) (closed : bool) : Prop := {
  fd_ok : snd_ok S (cn_sender x);
  fd_syn : sd_syn (cn_sender x) = true;
  fd_queue : sd_segments_out (cn_sender x) = [];
  fd_error : bs_error (stream_in x) = false;
  fd_flight : bytes_in_flight x ≠ 0;
  fd_cap : bs_cap (stream_in x) = cap;
  fd_buf : buffer_ok bytes_to_send;
  fd_rest : str bytes_to_send = zdrop (bs_total_written (stream_in x)) S;
  fd_closed : bs_input_ended (stream_in x) = closed;
  fd_done : closed = true -> str bytes_to_send = [];
  fd_window : closed = false -> sd_recv_wdn_sz (cn_sender x) = 0
}.

Lemma feeding_active x b closed : feeding x b closed -> active x = true.
Proof. intros []. by apply flight_active. Qed.

(** One write takes as much as fits. *)
Lemma feed_once x b :
  feeding x b false -> size b ≠ 0 -> remaining_outbound_capacity x ≠ 0 ->
  let want := Z.min (remaining_outbound_capacity x) (size b) in
  ∃ bs b', write x (ztake want (str b)) = Ret (with_stream x bs, want) ∧ remove_prefix b want = Ret b' ∧
    feeding (with_stream x bs) b' false ∧ bs_total_read bs = bs_total_read (stream_in x) ∧
    (str b' = [] ∨ zlen (contents bs) = cap).
Proof.
  intros Hf Hb Hr want. pose proof Hf as []. pose proof (sk_stream _ _ fd_ok0) as Hst. fold (stream_in x) in Hst.
  pose proof (st_ok _ _ Hst) as Hbs. pose proof (remaining_nonneg _ Hbs). pose proof (zlen_nonneg (str b)).
  assert (want = Z.min (remaining_capacity (stream_in x)) (zlen (str b))) as Hwant by done. clearbody want.
  unfold remaining_outbound_capacity, size in *. fold (stream_in x) in *.
  pose proof (stream_read_pos _ _ Hst). pose proof (st_written _ _ Hst).
  assert (zlen (str b) = zlen S - bs_total_written (stream_in x)) as Hlen by (rewrite fd_rest0; zlen_lia).
  destruct (ByteStream.write (stream_in x) (ztake want (str b))) as [bs n] eqn:Hw.
  destruct (write_spec _ _ _ _ Hbs Hw) as (Hn & Hc & Ht & Hcap & Hrd & Hie & Her).
  assert (n = want) as -> by (rewrite Hn, zlen_ztake; lia).
  rewrite u64_id in Ht by (unfold is_u64; lia).
  destruct (remove_prefix_spec b want fd_buf0) as (b' & Hrm & Hstr & Hbuf'); [unfold size; lia|].
  exists bs, b'. split_and!; [by apply closed_write; [by apply (feeding_active x b false)|..|done]; auto|done| |done|].
  - assert (snd_ok S (set_stream bs (cn_sender x))) as Hok.
    { eapply stream_write; [done|done|exact Hw|lia|]. fold (stream_in x). rewrite ztake_ge by (rewrite zlen_ztake; lia).
      rewrite fd_rest0. unfold slice_of. rewrite zlen_ztake, zlen_zdrop. split_and!; [lia|lia|].
      unfold slice. f_equal. lia. }
    split; cbn; try done; try congruence.
    rewrite Hstr, Ht, fd_rest0. apply zdrop_zdrop; lia.
  - rewrite Hc, zlen_app, !zlen_ztake. rewrite remaining_capacity_spec in * by done.
    destruct (Z.le_gt_cases (zlen (str b)) (bs_cap (stream_in x) - zlen (contents (stream_in x)))) as [Hle|Hgt].
    + left. rewrite Hstr. apply zlen_0_nil. rewrite zlen_zdrop. lia.
    + right. lia.
Qed.

Lemma feed x b closed :
  feeding x b closed ->
  ∃ bs b', write_input (Z.to_nat (size b)) x b = Ret (with_stream x bs, b') ∧ feeding (with_stream x bs) b' closed ∧
    bs_total_read bs = bs_total_read (stream_in x) ∧ (str b' = [] ∨ closed = false ∧ zlen (contents bs) = cap).
Proof.
  intros Hf. pose proof (remaining_nonneg _ (st_ok _ _ (sk_stream _ _ (fd_ok _ _ _ Hf)))) as Hrc. fold (stream_in x) in Hrc.
  destruct (decide (str b = [])) as [Hz|Hnz].
  { exists (stream_in x), b. rewrite with_stream_self, write_input_stop by by left. split_and!; try done. by left. }
  assert (closed = false) as -> by (destruct closed; [|done]; by destruct (Hnz (fd_done _ _ _ Hf eq_refl))).
  destruct (Z.eq_dec (remaining_outbound_capacity x) 0) as [Hfull|Hroom].
  { exists (stream_in x), b. rewrite with_stream_self, write_input_stop by by right. split_and!; try done. right. split; [done|].
    unfold remaining_outbound_capacity in Hfull. rewrite remaining_capacity_spec in Hfull by apply (sk_stream _ _ (fd_ok _ _ _ Hf)).
    rewrite (fd_cap _ _ _ Hf) in Hfull. lia. }
  assert (0 < size b) as Hpos by by apply zlen_pos_ne.
  destruct (feed_once x b Hf) as (bs & b' & Hw & Hrm & Hf' & Hrd & Hend); [lia|done|].
  exists bs, b'. destruct (Z.to_nat (size b)) as [|fuel] eqn:Hfuel; [lia|]. cbn [write_input].
  rewrite (proj2 (Z.eqb_neq (size b) 0)), (proj2 (Z.eqb_neq _ 0) Hroom) by lia. cbn [negb andb].
  rewrite Hw. cbn [mbind outcome_bind]. rewrite Z.eqb_refl, Hrm. cbn [negb mbind outcome_bind].
  assert (str b' = [] ∨ remaining_outbound_capacity (with_stream x bs) = 0) as Hend'.
  { destruct Hend as [?|Hc]; [by left|right]. unfold remaining_outbound_capacity, stream_in. cbn.
    rewrite remaining_capacity_spec by apply (sk_stream _ _ (fd_ok _ _ _ Hf')). pose proof (fd_cap _ _ _ Hf') as Hcap. cbn in Hcap. lia. }
  rewrite write_input_stop by done. split_and!; try done. destruct Hend; [by left|by right].
Qed.

(** The part of [loop] before segments are exchanged. *)
Definition fill_x (m : bench) : outcome (TCPConnection * Buffer * bool) :=
  '(x, bytes_to_send) ← write_input (Z.to_nat (size (bm_bytes_to_send m))) (bm_x m) (bm_bytes_to_send m);
  '(x, x_closed) ← (if (size bytes_to_send =? 0) && negb (bm_x_closed m) then x ← end_input_stream x; Ret (x, true)
                    else Ret (x, bm_x_closed m));
  Ret (x, bytes_to_send, x_closed).

Lemma fill_x_spec m :
  feeding (bm_x m) (bm_bytes_to_send m) (bm_x_closed m) ->
  ∃ bs b closed, fill_x m = Ret (with_stream (bm_x m) bs, b, closed) ∧ feeding (with_stream (bm_x m) bs) b closed ∧
    bs_total_read bs = bs_total_read (stream_in (bm_x m)) ∧
    (closed = true ∨ zlen (contents bs) = cap) ∧
    (bm_x_closed m = true -> bs = stream_in (bm_x m)).
Proof.
  intros Hf. destruct (feed _ _ _ Hf) as (bs & b & Hrun & Hf1 & Hrd & Hend). unfold fill_x. rewrite Hrun. cbn [mbind outcome_bind].
  destruct (bm_x_closed m) eqn:Hc.
  - rewrite andb_false_r. cbn [mbind outcome_bind]. exists (stream_in (bm_x m)), (bm_bytes_to_send m), true.
    rewrite write_input_stop in Hrun by (left; by apply (fd_done _ _ _ Hf)). injection Hrun as Hx <-. rewrite <- Hx. rewrite with_stream_self. split_and!; try done. by left.
  - rewrite andb_true_r. destruct (Z.eqb_spec (size b) 0) as [Hz|Hz].
    + assert (str b = []) as Hb by (unfold size in Hz; apply zlen_0_nil; lia).
      rewrite closed_end; [|by eapply feeding_active|apply Hf1|by apply (fd_window _ _ _ Hf1)|apply Hf1].
      cbn [mbind outcome_bind]. exists (end_input bs), b, true. pose proof Hf1 as [].
      split_and!; [done| |done|by left|done]. split; try done.
      * apply (stream_end S (set_stream bs (cn_sender (bm_x m)))); [done|]. pose proof (st_written _ _ (sk_stream _ _ fd_ok0)).
        pose proof (stream_read_pos _ _ (sk_stream _ _ fd_ok0)). assert (zlen (str b) = 0) as Hl by (by rewrite Hb). rewrite fd_rest0, zlen_zdrop in Hl. cbn in *. lia.
    + cbn [mbind outcome_bind]. exists bs, b, false. split_and!; try done. right. destruct Hend as [Hb|[_ ?]]; [|done].
      unfold size in Hz. rewrite Hb in Hz. done.
Qed.
End feeding.

(** The rest of the loop. *)
Definition exchange (reorder : bool) (x y : TCPConnection) (received : list byte)
    : outcome (TCPConnection * TCPConnection * list byte) :=
  y ← deliver y (if reorder then reverse (cn_segments_out x) else cn_segments_out x);
  x ← deliver (set_out [] x) (cn_segments_out y);
  let y := set_out [] y in
  if 0 <? buffer_size (inbound_stream y) then
    '(bs, s) ← read (inbound_stream y) (buffer_size (inbound_stream y));
    Ret (x, set_inbound bs y, received ++ s)
  else Ret (x, y, received).

Lemma loop_phases reorder m :
  loop reorder m =
    ('(x, b, closed) ← fill_x m;
     '(x, y, received) ← exchange reorder x (bm_y m) (bm_string_received m);
     Ret (mkBench (tick x 1000) (tick y 1000) b closed received)).
Proof.
  unfold loop, fill_x, exchange, move_segments.
  destruct (write_input _ _ _) as [[x b]| | |]; cbn [mbind outcome_bind]; try done.
  match goal with |- context [if ?c then (x0 ← _; _) else _] => destruct c end;
    [destruct (end_input_stream x) as [x1| | |]; cbn [mbind outcome_bind]; try done|]; cbn [mbind outcome_bind app].
  all: destruct (deliver (bm_y m) _) as [y1| | |]; cbn [mbind outcome_bind app]; try done.
  all: destruct (deliver (set_out [] _) _) as [x2| | |]; cbn [mbind outcome_bind app]; try done.
  all: destruct (0 <? _); [destruct (read _ _) as [[bs s]| | |]|]; done.
Qed.

(** ** Connections that are done *)

(** Everything was sent and acknowledged, everything received and read. *)
Record idle (T : list byte) (c : TCPConnection) : Prop := {
  id_ok : snd_ok T (cn_sender c);
  id_len : zlen T + 2 < 2 ^ 31;
  id_syn : sd_syn (cn_sender c) = true;
  id_fin : sd_fin_sent (cn_sender c) = true;
  id_none : sd_outstanding_segments (cn_sender c) = [];
  id_queue : active c = true -> sd_segments_out (cn_sender c) = [];
  id_error : bs_error (stream_in c) = false;
  id_rsyn : rc_syn (cn_receiver c) = true;
  id_eof : eof (inbound_stream c) = true;
  id_rt : rt_timeout (cn_cfg c) = 1000;
  id_time : 0 <= cn_time_since_last_segment_received c < 11000
}.

(** An acknowledgment without data for such a connection. *)
Definition pure (isn : WrappingInt32) (N : Z) (seg : TCPSegment) : Prop :=
  length_in_sequence_space seg = 0 ∧ ∃ a, answers isn N N true a seg.

Definition incoming (c : TCPConnection) : TCPSegment -> Prop := pure (sd_isn (cn_sender c)) (sd_next_seqno (cn_sender c)).

(** The transfer of [S] is complete. *)
Record finished (S : list byte) (m : bench) : Prop := {
  fn_x : idle S (bm_x m);
  fn_y : idle [] (bm_y m);
  fn_xout : Forall (incoming (bm_y m)) (cn_segments_out (bm_x m));
  fn_yout : Forall (incoming (bm_x m)) (cn_segments_out (bm_y m));
  fn_closed : bm_x_closed m = true;
  fn_bytes : str (bm_bytes_to_send m) = [];
  fn_received : bm_string_received m = S
}.

(** ** A round of the transfer *)

(** A sender that has sent everything, its FIN included. *)
Lemma finished_pumping T s :
  snd_ok T s -> zlen T + 2 < 2 ^ 31 -> sd_syn s = true -> sd_fin_sent s = true ->
  pumping T (sd_isn s) (sd_next_seqno s) (sd_next_seqno s) true s.
Proof.
  intros Hs HT Hsyn Hf. pose proof (sk_fin _ _ Hs Hf) as [Hie Hc]%eof_spec. pose proof (sk_chain _ _ Hs) as Hch.
  pose proof (chain_le _ _ _ _ _ Hch). split; try done; [lia|lia|right; done|lia| | |by right|by left].
  - destruct (decide (sd_outstanding_segments s = [])) as [Ho|Ho]; [left; rewrite Ho in Hch; cbn in Hch; lia|right].
    by eapply chain_last.
  - destruct (decide (sd_outstanding_segments s = [])) as [Ho|Ho]; [left; by apply (sk_retx _ _ Hs)|right; by apply (sk_max_lt _ _ Hs)].
Qed.

(** What the stamp keeps. *)
Lemma stamp_keeps r seg :
  seqno (header (stamp r seg)) = seqno (header seg) ∧ syn (header (stamp r seg)) = syn (header seg) ∧
  fin (header (stamp r seg)) = fin (header seg) ∧ rst (header (stamp r seg)) = rst (header seg) ∧
  payload (stamp r seg) = payload seg ∧ length_in_sequence_space (stamp r seg) = length_in_sequence_space seg.
Proof. unfold stamp. by destruct (ackno r). Qed.

Lemma stamp_acks r seg a : ackno r = Some a ->
  ack (header (stamp r seg)) = true ∧ TCPSegment.ackno (header (stamp r seg)) = a ∧ win (header (stamp r seg)) = advertised r.
Proof. intros Ha. unfold stamp. by rewrite Ha. Qed.

Lemma stamp_of S isn abs r seg : seg_of S isn abs seg -> seg_of S isn abs (stamp r seg).
Proof.
  intros [H1 H2 H3 H4]. destruct (stamp_keeps r seg) as (Hq & Hs & _ & _ & Hp & _).
  split; rewrite ?Hq, ?Hs, ?Hp; try done. unfold stream_index in *. by rewrite Hs.
Qed.

Section rounds.
Context (S : list byte) (isnX isnY : WrappingInt32) (cap : Z).
Hypothesis HS : zlen S + 2 < 2 ^ 31.
Hypothesis HisnX : wint_ok isnX.
Hypothesis HisnY : wint_ok isnY.
Hypothesis Hcap : 1 <= cap <= 65535.

(** What [x] sends, seen from [y]. *)
Lemma posted_answers s u seg : posted S isnX u (quiet isnY cap) s seg -> ∃ b, answers isnY 2 2 true b seg.
Proof.
  intros (r & seg0 & -> & Hq & [[abs Hs] _]). destruct (quiet_acks isnY cap ltac:(lia) r Hq) as (Ha & Hb & Hw).
  destruct (stamp_acks r seg0 _ Ha) as (H1 & H2 & H3). destruct (stamp_keeps r seg0) as (_ & _ & _ & Hr & _).
  exists (acked r). rewrite Hb in *. split; try done; [rewrite Hr; apply Hs|rewrite H3, Hw; unfold is_u16; lia|destruct (rc_end r); lia|].
  right. rewrite H3, Hw. split; [done|]. destruct (rc_end r); lia.
Qed.

Lemma posted_letter s seg :
  snd_ok S s -> sd_isn s = isnX -> 1 <= una s -> posted S isnX (una s) (quiet isnY cap) s seg ->
  ∃ a, letter S isnX (sd_outstanding_segments s) (una s) seg a.
Proof.
  intros Hok Hi Hu (r & seg0 & -> & _ & [[abs Hs] Hcase]). destruct (stamp_keeps r seg0) as (_ & Hsy & Hf & _ & Hp & Hl).
  destruct Hcase as [Hz|(k & Hin & Hk & Hpay)].
  - exists abs. apply length_0 in Hz as (H1 & H2 & H3). split_and!; [congruence|apply stamp_of, Hs|left]. rewrite Hl.
    unfold length_in_sequence_space. by rewrite H1, H2, H3.
  - pose proof (sk_chain _ _ Hok) as Hc. rewrite Hi in Hc.
    destruct (chain_in _ _ _ _ _ _ Hc Hin) as (c & Hcu & Hkc & Hpos & Hkn & Hsent). cbn [fst snd] in *.
    exists c. split_and!; [|apply stamp_of, Hsent|right].
    + rewrite Hsy. destruct (syn (header seg0)) eqn:Hq; [|done]. apply (ss_syn _ _ _ _ Hsent) in Hq as [? _]. lia.
    + exists (k, seg0). cbn [fst snd]. rewrite Hl, Hf, Hp. split_and!; try done.
      * intros Hfin. rewrite Hkc. by apply (ss_fin _ _ _ _ Hsent).
      * unfold has_payload in *. by rewrite Hp.
Qed.

(** What [y] sends, seen from [x]. *)
Lemma gathered_answers m u N U r seg abs :
  chain S isnX u m N -> 1 <= u -> N <= zlen S + 2 -> gathering S isnX m u N U cap r -> sent_seg [] isnY abs seg ->
  answers isnX N (U + 1) (N =? zlen S + 2) (acked r) (stamp r seg) ∧ from_peer isnX isnY N (U + 1) (N =? zlen S + 2) (stamp r seg).
Proof.
  intros Hc Hu HN Hg Hs. destruct (gathering_acks S isnX m u N U cap Hc Hu HN r Hg ltac:(lia)) as (Ha & Hr & Hw & He).
  destruct (stamp_acks r seg _ Ha) as (H1 & H2 & H3). destruct (stamp_keeps r seg) as (_ & _ & _ & Hrst & _).
  assert (answers isnX N (U + 1) (N =? zlen S + 2) (acked r) (stamp r seg)) as Hans.
  { split; try done; [rewrite Hrst; apply Hs|by rewrite H3|]. rewrite H3. destruct He as [?|[-> ?]]; [by left|right]. by rewrite Z.eqb_refl. }
  split; [done|]. split; [by exists (acked r)|]. exists abs. apply stamp_of, Hs.
Qed.

(** [y] after its FIN. *)
Record listening (y : TCPConnection) : Prop := {
  ls_ok : snd_ok [] (cn_sender y);
  ls_syn : sd_syn (cn_sender y) = true;
  ls_isn : sd_isn (cn_sender y) = isnY;
  ls_fin : sd_fin_sent (cn_sender y) = true;
  ls_queue : sd_segments_out (cn_sender y) = [];
  ls_retx : 0 <= sd_consecutive_retransmissions (cn_sender y) <= 1;
  ls_error : bs_error (stream_in y) = false;
  ls_linger : cn_linger_after_streams_finish y = true;
  ls_rt : rt_timeout (cn_cfg y) = 1000;
  ls_time : cn_time_since_last_segment_received y = 1000
}.

Lemma listening_next y : listening y -> sd_next_seqno (cn_sender y) = 2.
Proof. intros []. by apply (sent_all_next []). Qed.

(** [y] stamps its segments with the state of its receiver. *)
Definition stamped (r : TCPReceiver) (seg : TCPSegment) : Prop := ∃ seg0 abs, seg = stamp r seg0 ∧ sent_seg [] isnY abs seg0.

(** Between two rounds: all that [x] has sent and that is not acknowledged is in
    its queue, [y] has taken and delivered everything before. *)
Record transferring (m : bench) : Prop := {
  tf_feed : feeding S cap (bm_x m) (bm_bytes_to_send m) (bm_x_closed m);
  tf_isn : sd_isn (cn_sender (bm_x m)) = isnX;
  tf_full : sd_recv_wdn_sz (cn_sender (bm_x m)) = 0 ∨
    contents (stream_in (bm_x m)) = [] ∧ (eof (stream_in (bm_x m)) = true -> sd_fin_sent (cn_sender (bm_x m)) = true);
  tf_budget : sd_next_seqno (cn_sender (bm_x m)) + sd_recv_wdn_sz (cn_sender (bm_x m)) <= una (cn_sender (bm_x m)) + cap;
  tf_una : 1 <= una (cn_sender (bm_x m));
  tf_retx : 0 <= sd_consecutive_retransmissions (cn_sender (bm_x m)) <= 1;
  tf_quiet : quiet isnY cap (cn_receiver (bm_x m));
  tf_end : rc_end (cn_receiver (bm_x m)) = true;
  tf_mail : Forall (posted S isnX (una (cn_sender (bm_x m))) (quiet isnY cap) (cn_sender (bm_x m))) (cn_segments_out (bm_x m));
  tf_all : ∀ p, p ∈ sd_outstanding_segments (cn_sender (bm_x m)) -> ∃ r, stamp r p.2 ∈ cn_segments_out (bm_x m);
  tf_rt : rt_timeout (cn_cfg (bm_x m)) = 1000;
  tf_listen : listening (bm_y m);
  tf_acked : sd_outstanding_segments (cn_sender (bm_y m)) = [] ∨ Exists (answers isnY 2 2 true 2) (cn_segments_out (bm_x m));
  tf_yout : Forall (stamped (cn_receiver (bm_y m))) (cn_segments_out (bm_y m));
  tf_gather : gathering S isnX (sd_outstanding_segments (cn_sender (bm_x m))) (una (cn_sender (bm_x m)))
    (sd_next_seqno (cn_sender (bm_x m))) (una (cn_sender (bm_x m)) - 1 + cap) cap (cn_receiver (bm_y m));
  tf_open : rc_end (cn_receiver (bm_y m)) = false;
  tf_received : bm_string_received m = slice S 0 (una (cn_sender (bm_x m)) - 1)
}.

(** [y] at the end of the exchange, after the owner has read everything. *)
Record drained (N : Z) (y : TCPConnection) : Prop := {
  dr_pump : pumping [] isnY 2 2 true (cn_sender y);
  dr_retx : sd_consecutive_retransmissions (cn_sender y) = 0;
  dr_error : bs_error (stream_in y) = false;
  dr_linger : cn_linger_after_streams_finish y = true;
  dr_rt : rt_timeout (cn_cfg y) = 1000;
  dr_queue : Forall (λ seg, length_in_sequence_space seg = 0 ∨ sd_outstanding_segments (cn_sender y) ≠ []) (sd_segments_out (cn_sender y));
  dr_time : cn_time_since_last_segment_received y = 0;
  dr_out : cn_segments_out y = [];
  dr_ok : rcv_ok S isnX (cn_receiver y);
  dr_syn : rc_syn (cn_receiver y) = true;
  dr_cap : rc_capacity (cn_receiver y) = cap;
  dr_acked : acked (cn_receiver y) = N;
  dr_expected : sr_expected_index (rc_reassembler (cn_receiver y)) = Z.min (N - 1) (zlen S);
  dr_contents : contents (inbound_stream y) = [];
  dr_range : ∀ i, received (rc_reassembler (cn_receiver y)) i -> i < N - 1;
  dr_end : if N =? zlen S + 2 then bs_input_ended (inbound_stream y) = true
           else rc_end (cn_receiver y) = false ∧ sr_input_ended (rc_reassembler (cn_receiver y)) = false ∧
                bs_input_ended (inbound_stream y) = false
}.

Lemma drain_spec (x y : TCPConnection) (received : list byte) :
  rcv_ok S isnX (cn_receiver y) -> rc_capacity (cn_receiver y) = cap ->
  ∃ bs', (if 0 <? buffer_size (inbound_stream y) then
           '(bs, s) ← read (inbound_stream y) (buffer_size (inbound_stream y)); Ret (x, set_inbound bs y, received ++ s)
         else Ret (x, y, received)) = Ret (x, set_inbound bs' y, received ++ contents (inbound_stream y)) ∧
    contents bs' = [] ∧ bs_input_ended bs' = bs_input_ended (inbound_stream y) ∧
    rcv_ok S isnX (with_stream_out (cn_receiver y) bs').
Proof.
  intros Hr Hc. rewrite buffer_size_contents. pose proof (inv_out _ _ _ (ro_sr _ _ _ Hr)) as Hbs.
  pose proof (zlen_nonneg (contents (inbound_stream y))). destruct (Z.ltb_spec 0 (zlen (contents (inbound_stream y)))) as [Hpos|Hz].
  - destruct (read_spec (inbound_stream y) (zlen (contents (inbound_stream y))) Hbs ltac:(lia)) as ([bs' got] & Hrun & -> & Hc' & _ & _ & _ & Hie & _).
    destruct (rcv_read_ok S isnX (cn_receiver y) (zlen (contents (inbound_stream y))) bs' (ztake (zlen (contents (inbound_stream y))) (contents (inbound_stream y))))
      as [Hr' _]; [done|lia|lia|done|].
    exists bs'. rewrite Hrun. cbn [mbind outcome_bind]. rewrite Hc', (ztake_ge _ (contents _)), zdrop_ge by lia. done.
  - assert (contents (inbound_stream y) = []) as Hn by (apply zlen_0_nil; lia). exists (inbound_stream y). rewrite Hn, app_nil_r.
    destruct y as [cfg [[] ? ? ? ? ? ? ?] sd o l ti i]. split_and!; done.
Qed.

(** *** The state after the ticks *)

Section ticks.
(** [x1] is [x] before the answers of [y] arrive. *)
Context (N U : Z) (x1 x y : TCPConnection) (b : Buffer) (closed : bool).
Let all_sent := N =? zlen S + 2.
Hypothesis HN : 1 <= N <= zlen S + 2.
Hypothesis HU : N <= U + 1 <= N + cap.
Hypothesis Hf1 : feeding S cap x1 b closed.
Hypothesis Hx : sending S isnX isnY N (U + 1) cap all_sent x.
Hypothesis Hon : sent_on isnY cap (set_out [] x1) x.
Hypothesis Hend : rc_end (cn_receiver x) = true.
Hypothesis Hrt : rt_timeout (cn_cfg x) = 1000.
Hypothesis Htime : cn_time_since_last_segment_received x = 0.
Hypothesis Hreach : reached N x.
Hypothesis Hy : drained N y.

Let Hpx : pumping S isnX N (U + 1) all_sent (cn_sender x) := ml_pump _ _ _ _ _ _ _ _ (sg_mail _ _ _ _ _ _ _ _ Hx).

Lemma ticks_una : una (cn_sender x) = N.
Proof. pose proof (pp_una _ _ _ _ _ _ Hpx). destruct Hreach. lia. Qed.

Lemma ticks_more : all_sent = false -> N < sd_next_seqno (cn_sender x).
Proof.
  intros Hns. destruct Hreach as [Hr _]. destruct (pp_more _ _ _ _ _ _ Hpx Hr) as [?|[_ Hf]]; [done|].
  pose proof (sent_all_next S _ (pp_ok _ _ _ _ _ _ Hpx) (pp_syn _ _ _ _ _ _ Hpx) Hf) as Hn.
  apply Z.eqb_neq in Hns. pose proof (pp_next _ _ _ _ _ _ Hpx). lia.
Qed.

Lemma ticks_window : all_sent = false -> closed = false -> sd_recv_wdn_sz (cn_sender x) = 0.
Proof.
  intros Hns Hcl. destruct (pp_full _ _ _ _ _ _ Hpx) as [?|[Hc Hf]]; [done|].
  pose proof (sk_recv_wdn _ _ (pp_ok _ _ _ _ _ _ Hpx)) as Hw. unfold is_u16 in Hw.
  pose proof (pp_budget _ _ _ _ _ _ Hpx Hns) as Hb. destruct (so_app _ _ _ _ Hon) as (_ & Htw & Hie).
  pose proof (fd_closed _ _ _ _ _ Hf1) as Hcl1. unfold stream_in in Hcl1. cbn in Hie. rewrite Hcl1, Hcl in Hie.
  assert (sd_fin_sent (cn_sender x) = false) as Hfs.
  { destruct (sd_fin_sent (cn_sender x)) eqn:Hfs; [|done]. pose proof (sk_fin _ _ (pp_ok _ _ _ _ _ _ Hpx) Hfs) as [? _]%eof_spec. congruence. }
  pose proof (unsent_next S _ (pp_ok _ _ _ _ _ _ Hpx) (pp_syn _ _ _ _ _ _ Hpx) Hfs) as Hn. rewrite Hc, (@zlen_nil byte) in Hn.
  destruct (pp_written _ _ _ _ _ _ Hpx) as [?|Hwr]; [congruence|]. lia.
Qed.

Lemma ticks_active_x : all_sent = false -> active x = true.
Proof.
  intros Hns%ticks_more. apply flight_active; [apply Hx|]. pose proof ticks_una as Hun. unfold una in Hun.
  unfold bytes_in_flight, TCPSender.bytes_in_flight. lia.
Qed.

Lemma ticks_x : active x = true -> ticked x (tick x 1000) 1000.
Proof. intros Ha. apply (tick_shape S); [apply Hpx| |done]. destruct Hreach as [_ ->]. lia. Qed.

Lemma ticks_y : active y = true ∧ ticked y (tick y 1000) 1000.
Proof.
  assert (active y = true) as Ha.
  { apply lingering_active; try apply Hy. rewrite (dr_time _ _ Hy), (dr_rt _ _ Hy). lia. }
  split; [done|]. apply (tick_shape []); [apply (dr_pump _ _ Hy)| |done]. rewrite (dr_retx _ _ Hy). lia.
Qed.

Lemma ticks_feeding : all_sent = false -> feeding S cap (tick x 1000) b closed.
Proof.
  intros Hns. pose proof (ticks_x (ticks_active_x Hns)) as Ht. destruct (tk_sender _ _ _ Ht) as (rto & n & el & Hsx & Hn).
  destruct (so_app _ _ _ _ Hon) as (_ & Htw & Hie). unfold stream_in in *. cbn in Htw, Hie.
  split; unfold stream_in; rewrite ?Hsx; cbn; try done.
  - rewrite <- Hsx, (tk_ok _ _ _ Ht). apply clear_queue_ok, sender_tick_ok, Hpx.
  - apply Hpx.
  - apply Hx.
  - pose proof (ticks_more Hns). pose proof ticks_una as Hun. unfold una in Hun. unfold bytes_in_flight, TCPSender.bytes_in_flight. rewrite Hsx. cbn. lia.
  - pose proof (so_cap _ _ _ _ Hon) as Hcp. unfold stream_in in Hcp. rewrite Hcp. apply (fd_cap _ _ _ _ _ Hf1).
  - apply Hf1.
  - rewrite Htw. apply (fd_rest _ _ _ _ _ Hf1).
  - rewrite Hie. apply (fd_closed _ _ _ _ _ Hf1).
  - apply Hf1.
  - by apply ticks_window.
Qed.

(** What [x] has put into its queue. *)
Lemma ticks_mail :
  active x = true ->
  Forall (posted S isnX N (quiet isnY cap) (cn_sender (tick x 1000))) (cn_segments_out (tick x 1000)) ∧
  (∀ p, p ∈ sd_outstanding_segments (cn_sender (tick x 1000)) -> ∃ r, stamp r p.2 ∈ cn_segments_out (tick x 1000)).
Proof.
  intros Ha. pose proof (ticks_x Ha) as Ht. destruct (tk_sender _ _ _ Ht) as (rto & n & el & Hsx & _).
  destruct (tk_out _ _ _ Ht) as (e & Hout & He). pose proof (sg_mail _ _ _ _ _ _ _ _ Hx) as Hml.
  destruct (ml_out _ _ _ _ _ _ _ _ Hml) as (new & Hn & Hnew). cbn [app] in Hn. pose proof (sg_quiet _ _ _ _ _ _ _ _ Hx) as Hq.
  assert (∀ p, p ∈ sd_outstanding_segments (cn_sender x) -> N < p.1) as Habove.
  { intros p Hin. destruct (chain_in _ _ _ _ _ _ (sk_chain _ _ (pp_ok _ _ _ _ _ _ Hpx)) Hin) as (c & Hc & Hpc & Hl & _).
    rewrite ticks_una in Hc. lia. }
  rewrite Hsx, Hout. split.
  - apply Forall_app; split; [rewrite Hn; exact Hnew|]. apply Forall_map, Forall_app; split.
    + eapply Forall_impl; [apply (ml_queue _ _ _ _ _ _ _ _ Hml)|]. intros seg Ho. by exists (cn_receiver x), seg.
    + destruct He as [->|(k & seg & mm & Ho & ->)]; [constructor|]. apply Forall_singleton. exists (cn_receiver x), seg. split_and!; [done|done|].
      assert ((k, seg) ∈ sd_outstanding_segments (cn_sender x)) as Hin by (rewrite Ho; by left).
      destruct (chain_in _ _ _ _ _ _ (sk_chain _ _ (pp_ok _ _ _ _ _ _ Hpx)) Hin) as (c & _ & _ & _ & _ & Hs). rewrite (pp_isn _ _ _ _ _ _ Hpx) in Hs.
      split; [by exists c|right]. exists k. split_and!; [exact Hin|by apply (Habove (k, seg))|]. apply (ml_pay _ _ _ _ _ _ _ _ Hml (k, seg) Hin (Habove _ Hin)).
  - intros p Hin. change (p ∈ sd_outstanding_segments (cn_sender x)) in Hin.
    destruct (ml_all _ _ _ _ _ _ _ _ Hml p Hin (Habove p Hin)) as [Hi|(r & _ & Hi)].
    + exists (cn_receiver x). apply elem_of_app. right. rewrite map_app. apply elem_of_app. left. by apply list_elem_of_fmap_2.
    + exists r. apply elem_of_app. by left.
Qed.

Lemma ticks_listening :
  listening (tick y 1000) ∧ sd_outstanding_segments (cn_sender (tick y 1000)) = sd_outstanding_segments (cn_sender y) ∧
  cn_receiver (tick y 1000) = cn_receiver y ∧ Forall (stamped (cn_receiver y)) (cn_segments_out (tick y 1000)) ∧
  (sd_outstanding_segments (cn_sender y) = [] -> Forall (λ seg, length_in_sequence_space seg = 0) (cn_segments_out (tick y 1000))).
Proof.
  destruct ticks_y as [_ Ht]. destruct (tk_sender _ _ _ Ht) as (rto & n & el & Hsy & Hn). rewrite (dr_retx _ _ Hy) in Hn.
  pose proof (dr_pump _ _ Hy) as Hp. destruct (tk_out _ _ _ Ht) as (e & Hout & He).
  split_and!; [|by rewrite Hsy|apply Ht|..].
  - split; unfold stream_in; rewrite ?Hsy; cbn; try apply Hp; try done.
    + rewrite <- Hsy, (tk_ok _ _ _ Ht). apply clear_queue_ok, sender_tick_ok, Hp.
    + apply (dr_error _ _ Hy).
    + rewrite (tk_linger _ _ _ Ht). apply (dr_linger _ _ Hy).
    + rewrite (tk_cfg _ _ _ Ht). apply (dr_rt _ _ Hy).
    + rewrite (tk_time _ _ _ Ht), (dr_time _ _ Hy). reflexivity.
  - rewrite Hout, (dr_out _ _ Hy). cbn [app]. apply Forall_map, Forall_app. split.
    + eapply Forall_impl; [apply (sk_queue _ _ (pp_ok _ _ _ _ _ _ Hp))|]. intros seg [abs Hs]. rewrite (pp_isn _ _ _ _ _ _ Hp) in Hs.
      by exists seg, abs.
    + destruct He as [->|(k & seg & mm & Ho & ->)]; [constructor|]. apply Forall_singleton.
      pose proof (sk_chain _ _ (pp_ok _ _ _ _ _ _ Hp)) as Hc. rewrite Ho, (pp_isn _ _ _ _ _ _ Hp) in Hc. apply chain_first in Hc.
      by eexists _, _.
  - intros Ho. rewrite Hout, (dr_out _ _ Hy). rewrite Ho in He. destruct He as [->|(k & seg & mm & ? & _)]; [|done].
    rewrite app_nil_r. cbn [app]. apply Forall_map. eapply Forall_impl; [apply (dr_queue _ _ Hy)|]. intros seg [Hz|Hz]; [|done]. cbn.
    by destruct (stamp_keeps (cn_receiver y) seg) as (_ & _ & _ & _ & _ & ->).
Qed.

(** The FIN of [y] is acknowledged in what [x] has put into its queue. *)
Lemma ticks_told : active x = true -> told isnY cap x -> Exists (answers isnY 2 2 true 2) (cn_segments_out (tick x 1000)).
Proof.
  intros Ha (r & seg & Hin & Hq & He). destruct (ticks_mail Ha) as [Hmail _]. rewrite Forall_forall in Hmail.
  destruct (tk_out _ _ _ (ticks_x Ha)) as (e & Hout & _).
  assert (stamp r seg ∈ cn_segments_out (tick x 1000)) as Hin' by (rewrite Hout; apply elem_of_app; by left).
  apply Exists_exists. exists (stamp r seg). split; [done|]. destruct (posted_answers _ _ _ (Hmail _ Hin')) as [a Hans].
  replace 2 with a at 3; [done|]. destruct (quiet_acks isnY cap ltac:(lia) r Hq) as (Hno & Hak & _). rewrite He in Hak.
  destruct (stamp_acks r seg _ Hno) as (_ & Hw & _). rewrite (an_ackno _ _ _ _ _ _ Hans), Hak in Hw.
  pose proof (an_range _ _ _ _ _ _ Hans). rewrite <- (unwrap_wrap a isnY 0), <- (unwrap_wrap 2 isnY 0) by lia. by rewrite Hw.
Qed.

Lemma ticks_gather :
  all_sent = false ->
  gathering S isnX (sd_outstanding_segments (cn_sender x)) N (sd_next_seqno (cn_sender x)) (N - 1 + cap) cap (cn_receiver y).
Proof.
  intros Hns. pose proof (dr_end _ _ Hy) as He. fold all_sent in He. rewrite Hns in He. destruct He as (He & Hie & Hoe).
  pose proof (dr_expected _ _ Hy) as Hex. apply Z.eqb_neq in Hns as HNe. pose proof (dr_ok _ _ Hy) as Hr.
  pose proof (ticks_more Hns) as Hmore. pose proof (dr_range _ _ Hy) as Hrange. pose proof (dr_contents _ _ Hy) as Hct.
  split; try apply Hy; try congruence; try lia; try done.
  - unfold upper. rewrite remaining_capacity_spec by apply (inv_out _ _ _ (ro_sr _ _ _ Hr)). pose proof (ro_cap _ _ _ Hr) as Hc.
    unfold inbound_stream, stream_out in *. rewrite Hct, Hc, (dr_cap _ _ Hy), (@zlen_nil byte). lia.
  - unfold inbound_stream in Hct. rewrite Hct, slice_nil by lia. done.
  - intros i Hi%Hrange. lia.
  - intros _ p Hp _ _ i Hi%Hrange. destruct (chain_in _ _ _ _ _ _ (sk_chain _ _ (pp_ok _ _ _ _ _ _ Hpx)) Hp) as (c & Hc & Hpc & Hl & _).
    rewrite ticks_una in Hc. lia.
Qed.

Lemma ticks_next :
  all_sent = false -> sd_outstanding_segments (cn_sender y) = [] ∨ told isnY cap x ->
  transferring (mkBench (tick x 1000) (tick y 1000) b closed (slice S 0 (N - 1))) ∧ una (cn_sender (tick x 1000)) = N.
Proof.
  intros Hns Hack. pose proof (ticks_active_x Hns) as Ha. pose proof (ticks_x Ha) as Ht.
  destruct (tk_sender _ _ _ Ht) as (rto & n & el & Hsx & Hn). destruct Hreach as [_ Hz]. rewrite Hz in Hn.
  assert (una (cn_sender (tick x 1000)) = N) as Hun by (rewrite Hsx; exact ticks_una).
  assert (sd_outstanding_segments (cn_sender (tick x 1000)) = sd_outstanding_segments (cn_sender x) ∧
    sd_next_seqno (cn_sender (tick x 1000)) = sd_next_seqno (cn_sender x)) as [Ho Hnx] by (by rewrite Hsx).
  split; [|done]. destruct (ticks_mail Ha) as [Hmail Hall]. destruct ticks_listening as (Hl & Hno & Hry & Hyo & _).
  split; cbn [bm_x bm_y bm_bytes_to_send bm_x_closed bm_string_received]; rewrite ?Hun, ?Ho, ?Hnx, ?Hry, ?Hno; try done.
  - by apply ticks_feeding.
  - rewrite Hsx. apply Hpx.
  - unfold stream_in. rewrite Hsx. apply (pp_full _ _ _ _ _ _ Hpx).
  - pose proof (pp_budget _ _ _ _ _ _ Hpx Hns) as Hb. rewrite Hsx. cbn. lia.
  - lia.
  - rewrite Hsx. cbn. lia.
  - rewrite (tk_receiver _ _ _ Ht). apply Hx.
  - by rewrite (tk_receiver _ _ _ Ht).
  - intros p Hp. apply Hall. by rewrite Ho.
  - by rewrite (tk_cfg _ _ _ Ht).
  - destruct Hack; [by left|right; by apply ticks_told].
  - by apply ticks_gather.
  - pose proof (dr_end _ _ Hy) as He. fold all_sent in He. rewrite Hns in He. apply He.
Qed.

(** After the last round. *)
Lemma last_x :
  all_sent = true ->
  sd_outstanding_segments (cn_sender x) = [] ∧ sd_fin_sent (cn_sender x) = true ∧ sd_next_seqno (cn_sender x) = N ∧ closed = true.
Proof.
  intros Hall. destruct (pp_all _ _ _ _ _ _ Hpx Hall) as [Hf Hn]. split_and!; try done.
  - pose proof (sk_chain _ _ (pp_ok _ _ _ _ _ _ Hpx)) as Hc. rewrite ticks_una, Hn in Hc. by apply chain_same in Hc.
  - pose proof (sk_fin _ _ (pp_ok _ _ _ _ _ _ Hpx) Hf) as [Hie _]%eof_spec. destruct (so_app _ _ _ _ Hon) as (_ & _ & Hie').
    pose proof (fd_closed _ _ _ _ _ Hf1) as Hc. unfold stream_in in Hc. cbn in Hie'. congruence.
Qed.

Lemma last_idle_x : all_sent = true -> idle S (tick x 1000) ∧ Forall (pure isnY 2) (cn_segments_out (tick x 1000)).
Proof.
  intros Hall. destruct (last_x Hall) as (Hno & Hf & Hn & _). pose proof (sg_quiet _ _ _ _ _ _ _ _ Hx) as Hq.
  assert (eof (inbound_stream x) = true) as Heof by (apply eof_spec; split; [by apply (qt_ended _ _ _ Hq)|apply Hq]).
  assert (∀ s' seg, sd_outstanding_segments s' = [] -> posted S isnX N (quiet isnY cap) s' seg -> pure isnY 2 seg) as Hpure.
  { intros s' seg Ho Hp. split; [|by eapply posted_answers]. destruct Hp as (r & seg0 & -> & _ & _ & [Hz|(k & Hk & _)]).
    - by destruct (stamp_keeps r seg0) as (_ & _ & _ & _ & _ & ->).
    - rewrite Ho in Hk. by apply elem_of_nil in Hk. }
  destruct (active x) eqn:Ha.
  - pose proof (ticks_x Ha) as Ht. destruct (tk_sender _ _ _ Ht) as (rto & n & el & Hsx & _). destruct (ticks_mail Ha) as [Hmail _]. split.
    + split; unfold stream_in, inbound_stream; rewrite ?Hsx, ?(tk_receiver _ _ _ Ht), ?(tk_cfg _ _ _ Ht), ?(tk_time _ _ _ Ht), ?Htime; cbn; try done; try apply Hpx; try apply Hx.
      rewrite <- Hsx, (tk_ok _ _ _ Ht). apply clear_queue_ok, sender_tick_ok, Hpx.
    + eapply Forall_impl; [exact Hmail|]. intros seg. apply Hpure. by rewrite Hsx.
  - assert (tick x 1000 = x) as -> by (unfold tick; by rewrite Ha). split.
    + split; try done; try apply Hpx; try apply Hx; [congruence|by rewrite Htime].
    + destruct (ml_out _ _ _ _ _ _ _ _ (sg_mail _ _ _ _ _ _ _ _ Hx)) as (new & -> & Hnew). cbn [app].
      eapply Forall_impl; [exact Hnew|]. intros seg. by apply Hpure.
Qed.

Lemma last_idle_y :
  all_sent = true -> sd_outstanding_segments (cn_sender y) = [] ->
  idle [] (tick y 1000) ∧ Forall (pure isnX N) (cn_segments_out (tick y 1000)).
Proof.
  intros Hall Ho. destruct ticks_listening as (Hl & Hno & Hry & Hst & Hz). specialize (Hz Ho).
  pose proof (dr_end _ _ Hy) as He. fold all_sent in He. rewrite Hall in He. pose proof (dr_ok _ _ Hy) as Hr. split.
  - split; unfold inbound_stream; rewrite ?Hry;
      [apply Hl|done|apply Hl|apply Hl|by rewrite Hno|intros _; apply Hl|apply Hl|apply Hy| |apply Hl|by rewrite (ls_time _ Hl)].
    apply eof_spec. split; [exact He|apply (dr_contents _ _ Hy)].
  - rewrite Forall_forall in Hz, Hst. apply Forall_forall. intros seg Hin. split; [by apply Hz|].
    destruct (Hst _ Hin) as (seg0 & abs & -> & Hs).
    assert (ackno (cn_receiver y) = Some (wrap N isnX)) as Hno'.
    { rewrite (ackno_spec _ isnX (ro_ack _ _ _ Hr)), (dr_syn _ _ Hy). by rewrite (dr_acked _ _ Hy). }
    destruct (stamp_acks _ seg0 _ Hno') as (H1 & H2 & H3). pose proof (advertised_u16 _ _ _ Hr) as Hw.
    destruct (stamp_keeps (cn_receiver y) seg0) as (_ & _ & _ & Hrst & _). exists N.
    split; try done; [rewrite Hrst; apply Hs|by rewrite H3|lia|]. right. split; [done|]. rewrite H3. unfold is_u16 in Hw. lia.
Qed.
End ticks.

Section round.
Context (m : bench).
Hypothesis Hm : transferring m.

Let s := cn_sender (bm_x m).
Let u := una s.
Let N := sd_next_seqno s.
Let U := u - 1 + cap.
Let out := sd_outstanding_segments s.

Lemma round_chain : chain S isnX u out N.
Proof. pose proof (sk_chain _ _ (fd_ok _ _ _ _ _ (tf_feed _ Hm))) as Hc. by rewrite (tf_isn _ Hm) in Hc. Qed.

Lemma round_range : 1 <= u < N ∧ N <= zlen S + 2 ∧ N <= U + 1.
Proof.
  pose proof (tf_una _ Hm) as Hu. pose proof (tf_feed _ Hm) as Hf. pose proof (next_bound _ _ (fd_ok _ _ _ _ _ Hf)) as Hn.
  pose proof (fd_flight _ _ _ _ _ Hf) as Hfl. pose proof (tf_budget _ Hm) as Hb. pose proof (chain_le _ _ _ _ _ round_chain) as Hle.
  pose proof (sk_recv_wdn _ _ (fd_ok _ _ _ _ _ Hf)) as Hw. unfold is_u16 in Hw.
  unfold u, N, U, bytes_in_flight, TCPSender.bytes_in_flight in *. fold s in Hu, Hfl, Hn, Hb, Hw.
  assert (una s ≠ sd_next_seqno s) by (unfold una in *; lia). lia.
Qed.

(** First half: the segments of [x] go to [y]. *)
Lemma round_collecting :
  collecting S isnX isnY out u N U cap (cn_segments_out (bm_y m)) (bm_y m).
Proof.
  pose proof (tf_listen _ Hm) as Hl. pose proof (listening_next _ Hl) as Hn.
  assert (mailing [] isnY 2 2 true (gathering S isnX out u N U cap) (cn_segments_out (bm_y m)) (bm_y m)) as Hml.
  { split.
    - rewrite <- (ls_isn _ Hl), <- Hn. apply finished_pumping; [apply Hl|done|apply Hl|apply Hl].
    - rewrite (ls_queue _ Hl). constructor.
    - exists []. by rewrite app_nil_r.
    - intros p Hin Hlt. destruct (chain_in _ _ _ _ _ _ (sk_chain _ _ (ls_ok _ Hl)) Hin) as (c & _ & _ & _ & ? & _). lia.
    - intros p Hin Hlt. destruct (chain_in _ _ _ _ _ _ (sk_chain _ _ (ls_ok _ Hl)) Hin) as (c & _ & _ & _ & ? & _). lia. }
  split; try apply Hl; [done|apply Hm| |]; rewrite ?(ls_time _ Hl), (ls_rt _ Hl); lia.
Qed.

Lemma round_first L :
  (∀ seg, seg ∈ L <-> seg ∈ cn_segments_out (bm_x m)) ->
  ∃ y, deliver (bm_y m) L = Ret y ∧
    collecting S isnX isnY out u N U cap (cn_segments_out (bm_y m)) y ∧ cn_cfg y = cn_cfg (bm_y m) ∧
    acked (cn_receiver y) = N ∧ sr_expected_index (rc_reassembler (cn_receiver y)) = Z.min (N - 1) (zlen S) ∧
    (if N =? zlen S + 2 then bs_input_ended (inbound_stream y) = true else rc_end (cn_receiver y) = false) ∧
    sd_outstanding_segments (cn_sender y) = [] ∧ sd_consecutive_retransmissions (cn_sender y) = 0 ∧
    answered_last S isnX out u N U cap y ∧ cn_time_since_last_segment_received y = 0.
Proof.
  intros HL. pose proof round_range as (Hu & HN & HNU). pose proof round_chain as Hch.
  pose proof (tf_feed _ Hm) as Hf. pose proof (tf_mail _ Hm) as Hmail. rewrite Forall_forall in Hmail.
  assert (Forall (from_sender S isnX isnY out u) L) as Hfrom.
  { apply Forall_forall. intros seg Hin%HL%Hmail. split; [|by eapply posted_answers].
    by apply (posted_letter s); [apply Hf|apply Hm|lia|]. }
  destruct (collect_batch S isnX isnY out u N U cap HS HisnX Hch ltac:(lia) HN ltac:(lia) ltac:(lia) _ (bm_y m) L round_collecting Hfrom)
    as (y & Hrun & Hc & Hd & Harr & Hack & Hans & Htime). rewrite Forall_forall in Harr.
  assert (∀ p, p ∈ out -> ∃ r, stamp r p.2 ∈ L) as Hall by (intros p [r Hr]%(tf_all _ Hm); exists r; by apply HL).
  destruct (gathering_complete S isnX out u N U cap HS Hch ltac:(lia) HN (cn_receiver y) (cg_gather _ _ _ _ _ _ _ _ _ _ Hc)) as (H1 & H2 & H3); [| |lia|].
  { intros p Hp i Hi. destruct (Hall p Hp) as [r Hr]. destruct (Harr _ Hr) as [Hrec _].
    destruct (stamp_keeps r p.2) as (_ & _ & _ & _ & Hpay & Hlen). destruct (chain_in _ _ _ _ _ _ Hch Hp) as (c & ? & ? & Hpos & ? & Hsent).
    rewrite Forall_forall in Hfrom. destruct (Hfrom _ Hr) as [[a Ha] _]. apply (Hrec a Ha). rewrite Hpay.
    destruct Ha as (_ & Hsa & _). assert (a = c) as -> by (eapply seg_of_inj; [exact HS|exact Hsa|by apply stamp_of, Hsent]). lia. }
  { intros p Hp Hfin. destruct (Hall p Hp) as [r Hr]. destruct (Harr _ Hr) as [_ He]. apply He. by destruct (stamp_keeps r p.2) as (_ & _ & -> & _). }
  assert (2 <= una (cn_sender y) ∧ sd_consecutive_retransmissions (cn_sender y) = 0) as [Hua Hrx].
  { destruct (tf_acked _ Hm) as [Ho|Hex].
    - pose proof (tf_listen _ Hm) as Hl. pose proof (sk_chain _ _ (ls_ok _ Hl)) as Hcy. rewrite Ho, (listening_next _ Hl) in Hcy. cbn in Hcy.
      pose proof (co_una _ _ _ _ _ _ _ _ _ Hd). pose proof (sk_retx _ _ (ls_ok _ Hl) Ho) as Hz.
      destruct (co_retx _ _ _ _ _ _ _ _ _ Hd); split; lia.
    - apply Hack. apply Exists_exists in Hex as (seg & Hin & Ha). apply Exists_exists. exists seg. split; [by apply HL|done]. }
  pose proof (ml_pump _ _ _ _ _ _ _ _ (cg_mail _ _ _ _ _ _ _ _ _ _ Hc)) as Hp. destruct (pp_all _ _ _ _ _ _ Hp eq_refl) as [_ Hny].
  destruct (chain_cover _ _ _ _ _ u Hch ltac:(lia)) as (p & Hin & _). destruct (Hall p Hin) as [r Hr].
  exists y. split_and!; try done; [apply Hd| | |apply Htime; intros ->; by apply elem_of_nil in Hr].
  - pose proof (sk_chain _ _ (pp_ok _ _ _ _ _ _ Hp)) as Hcy. pose proof (chain_le _ _ _ _ _ Hcy) as Hle.
    replace (una (cn_sender y)) with (sd_next_seqno (cn_sender y)) in Hcy by lia. by apply chain_same in Hcy.
  - apply Hans. apply Exists_exists. exists (stamp r p.2). split; [done|]. destruct (stamp_keeps r p.2) as (_ & _ & _ & _ & _ & ->).
    by destruct (chain_in _ _ _ _ _ _ Hch Hin) as (c & _ & _ & ? & _).
Qed.

(** Second half: the answers of [y] go to [x], which was filled before. *)
Context (bs : ByteStream) (b : Buffer) (closed : bool).
Hypothesis Hf1 : feeding S cap (with_stream (bm_x m) bs) b closed.
Hypothesis Hread : bs_total_read bs = bs_total_read (stream_in (bm_x m)).
Hypothesis Hfilled : closed = true ∨ zlen (contents bs) = cap.
Hypothesis Hsame : bm_x_closed m = true -> bs = stream_in (bm_x m).

Let all_sent := N =? zlen S + 2.

Lemma round_outstanding : out ≠ [].
Proof. intros Ho. pose proof round_chain as Hc. rewrite Ho in Hc. cbn in Hc. pose proof round_range. lia. Qed.

Lemma round_sending : sending S isnX isnY N (U + 1) cap all_sent (set_out [] (with_stream (bm_x m) bs)).
Proof.
  pose proof round_range as (Hu & HN & HNU). pose proof (fd_ok _ _ _ _ _ Hf1) as Hok. cbn in Hok. fold s in Hok.
  pose proof round_outstanding as Hne. pose proof (tf_budget _ Hm) as Hb. fold s N u in Hb.
  assert (all_sent = true -> sd_fin_sent s = true) as Hall.
  { unfold all_sent. intros He%Z.eqb_eq. destruct (sd_fin_sent s) eqn:Hfs; [done|].
    pose proof (unsent_next S (set_stream bs s) Hok (fd_syn _ _ _ _ _ Hf1) Hfs) as Hn. cbn in Hn. fold N in Hn.
    pose proof (st_written _ _ (sk_stream _ _ Hok)) as Hw. cbn in Hw. pose proof (zlen_nonneg (contents bs)). lia. }
  assert (pumping S isnX N (U + 1) all_sent (set_stream bs s)) as Hp.
  { split; cbn; change (una (set_stream bs s)) with u; fold N out; try done; try lia; [apply Hf1|apply Hm| |right; by eapply chain_last; [apply round_chain|]| | |by intros ?%Hall].
    - destruct (bm_x_closed m) eqn:Hc; [rewrite (Hsame eq_refl); apply Hm|left]. by apply (fd_window _ _ _ _ _ (tf_feed _ Hm)).
    - right. by apply (sk_max_lt _ _ Hok).
    - destruct closed eqn:Hcl; [left; apply (fd_closed _ _ _ _ _ Hf1)|right]. destruct Hfilled as [?|Hfull]; [done|].
      assert (sd_fin_sent s = false) as Hfs.
      { destruct (sd_fin_sent s) eqn:Hfs; [|done]. pose proof (sk_fin _ _ Hok Hfs) as [Hie _]%eof_spec.
        pose proof (fd_closed _ _ _ _ _ Hf1) as Hie'. cbn in *. congruence. }
      pose proof (unsent_next S (set_stream bs s) Hok (fd_syn _ _ _ _ _ Hf1) Hfs) as Hn. cbn in Hn. fold N in Hn. unfold U. lia. }
  split; [|apply Hm|apply Hf1]. split; cbn [cn_sender set_out with_stream set_sender cn_segments_out]; fold s; try done.
  - pose proof (fd_queue _ _ _ _ _ (tf_feed _ Hm)) as Hq. change (sd_segments_out (set_stream bs s) = []) in Hq. rewrite Hq. constructor.
  - exists []. done.
  - intros p Hin Hlt. destruct (chain_in _ _ _ _ _ _ round_chain Hin) as (c & _ & _ & _ & ? & _). lia.
  - intros p Hin Hlt. destruct (chain_in _ _ _ _ _ _ round_chain Hin) as (c & _ & _ & _ & ? & _). lia.
Qed.

Lemma round_answers y :
  collecting S isnX isnY out u N U cap (cn_segments_out (bm_y m)) y -> acked (cn_receiver y) = N ->
  answered_last S isnX out u N U cap y ->
  Forall (from_peer isnX isnY N (U + 1) all_sent) (cn_segments_out y) ∧
  Exists (answers isnX N (U + 1) all_sent N) (cn_segments_out y).
Proof.
  intros Hc Hak (r & seg & Hin & Hg & Hra). pose proof round_range as (Hu & HN & HNU). pose proof round_chain as Hch.
  assert (Forall (from_peer isnX isnY N (U + 1) all_sent) (cn_segments_out y)) as Hfrom.
  { destruct (ml_out _ _ _ _ _ _ _ _ (cg_mail _ _ _ _ _ _ _ _ _ _ Hc)) as (new & -> & Hnew). apply Forall_app; split.
    - eapply Forall_impl; [apply (tf_yout _ Hm)|]. intros x (seg0 & abs & -> & Hs).
      by apply (gathered_answers out u N U (cn_receiver (bm_y m)) seg0 abs Hch); [lia|lia|apply Hm|].
    - eapply Forall_impl; [exact Hnew|]. intros x (r0 & seg0 & -> & Hr0 & [[abs Hs] _]).
      by apply (gathered_answers out u N U r0 seg0 abs Hch); [lia|lia|..]. }
  split; [done|]. apply Exists_exists. exists (stamp r seg). split; [done|]. rewrite Forall_forall in Hfrom.
  destruct (Hfrom _ Hin) as [[a Ha] _]. replace N with a at 2; [done|].
  destruct (gathering_acks S isnX out u N U cap Hch ltac:(lia) HN r Hg ltac:(lia)) as (Hno & _).
  destruct (stamp_acks r seg _ Hno) as (_ & Hw & _). rewrite (an_ackno _ _ _ _ _ _ Ha), Hra, Hak in Hw.
  pose proof (an_range _ _ _ _ _ _ Ha). rewrite <- (unwrap_wrap a isnX 0), <- (unwrap_wrap N isnX 0) by lia. by rewrite Hw.
Qed.

Lemma round_exchange reorder :
  ∃ x y, exchange reorder (with_stream (bm_x m) bs) (bm_y m) (bm_string_received m) =
      Ret (x, y, slice S 0 (Z.min (N - 1) (zlen S))) ∧
    sending S isnX isnY N (U + 1) cap all_sent x ∧ sent_on isnY cap (set_out [] (with_stream (bm_x m) bs)) x ∧ reached N x ∧ drained N y ∧
    sd_outstanding_segments (cn_sender y) = [] ∧ cn_time_since_last_segment_received x = 0.
Proof.
  pose proof round_range as (Hu & HN & HNU).
  destruct (round_first (if reorder then reverse (cn_segments_out (bm_x m)) else cn_segments_out (bm_x m)))
    as (y & Hrun & Hc & Hcfg & Hak & Hexp & Hend & Hnone & Hrx & Hlast & Htime).
  { intros seg. destruct reorder; [apply elem_of_reverse|done]. }
  destruct (round_answers y Hc Hak Hlast) as [Hfrom Hex].
  destruct (take_batch S isnX isnY N (U + 1) cap all_sent HS ltac:(lia) ltac:(lia) HisnY ltac:(lia) _ (cn_segments_out y) round_sending Hfrom)
    as (x & Hrun2 & Hsend & Hon & Hreach & _ & Ht).
  pose proof (cg_gather _ _ _ _ _ _ _ _ _ _ Hc) as Hg.
  destruct (drain_spec x (set_out [] y) (bm_string_received m)) as (bs' & Hdrain & Hc' & Hie & Hrok); [apply Hg|apply Hg|].
  exists x, (set_inbound bs' (set_out [] y)). unfold exchange. cbn [with_stream set_sender cn_segments_out]. rewrite Hrun.
  cbn [mbind outcome_bind]. rewrite Hrun2. cbn [mbind outcome_bind]. cbv zeta. rewrite Hdrain. split_and!; [|done|done|by apply Hreach| |done|].
  - f_equal. f_equal. change (inbound_stream (set_out [] y)) with (stream_out (cn_receiver y)).
    rewrite (gt_contents _ _ _ _ _ _ _ _ Hg), (tf_received _ Hm), Hexp. fold s u. symmetry. apply slice_app; [lia|].
    pose proof (gt_low _ _ _ _ _ _ _ _ Hg). lia.
  - pose proof (ml_pump _ _ _ _ _ _ _ _ (cg_mail _ _ _ _ _ _ _ _ _ _ Hc)) as Hp.
    split; try done; try apply Hc; try apply Hg.
    { cbn. rewrite Hcfg. apply (ls_rt _ (tf_listen _ Hm)). }
    { eapply Forall_impl; [apply (ml_queue _ _ _ _ _ _ _ _ (cg_mail _ _ _ _ _ _ _ _ _ _ Hc))|]. intros seg [_ [?|(k & Hk & _)]]; [by left|right].
      cbn. intros Hz. rewrite Hz in Hk. by apply elem_of_nil in Hk. }
    fold all_sent in Hend |- *. destruct all_sent; [unfold inbound_stream; cbn; rewrite Hie; exact Hend|].
    destruct (gt_open _ _ _ _ _ _ _ _ Hg Hend) as [H1 H2]. split_and!; [exact Hend|exact H1|]. unfold inbound_stream. cbn. rewrite Hie. exact H2.
  - apply Ht; [apply (feeding_active _ _ _ _ _ Hf1)|]. intros Hz. rewrite Hz in Hex. by apply Exists_nil in Hex.
Qed.
End round.

Lemma tick_numbers N x :
  snd_ok S (cn_sender x) -> reached N x ->
  sd_isn (cn_sender (tick x 1000)) = sd_isn (cn_sender x) ∧ sd_next_seqno (cn_sender (tick x 1000)) = sd_next_seqno (cn_sender x).
Proof.
  intros Hs [_ Hz]. destruct (active x) eqn:Ha; [|unfold tick; by rewrite Ha].
  destruct (tk_sender _ _ _ (tick_shape S x 1000 Hs ltac:(lia) Ha)) as (rto & n & el & -> & _). done.
Qed.

(** A round gets the next part of [S] across, or the last one. *)
Lemma round_step reorder m :
  transferring m ->
  ∃ m', loop reorder m = Ret m' ∧
    (transferring m' ∧ una (cn_sender (bm_x m)) < una (cn_sender (bm_x m')) <= zlen S + 2 ∨ finished S m').
Proof.
  intros Hm. destruct (fill_x_spec S cap HS m (tf_feed _ Hm)) as (bs & b & closed & Hfill & Hf1 & _ & Hor & Hsame).
  destruct (round_exchange m Hm bs b closed Hf1 Hor Hsame reorder) as (x & y & Hrun & Hx & Hon & Hreach & Hy & Hnone & Ht).
  pose proof (round_range m Hm) as (Hu & HN & HNU). set (N := sd_next_seqno (cn_sender (bm_x m))) in *.
  set (U := una (cn_sender (bm_x m)) - 1 + cap) in *. set (x1 := with_stream (bm_x m) bs) in *.
  rewrite loop_phases, Hfill. cbn [mbind outcome_bind]. fold x1. rewrite Hrun. cbn [mbind outcome_bind].
  eexists. split; [reflexivity|].
  assert (rc_end (cn_receiver x) = true) as Hend by (apply (so_end _ _ _ _ Hon); apply (tf_end _ Hm)).
  assert (rt_timeout (cn_cfg x) = 1000) as Hrt by (rewrite (so_cfg _ _ _ _ Hon); apply (tf_rt _ Hm)).
  assert (N <= U + 1 <= N + cap) as HU by (unfold U; lia). assert (1 <= N <= zlen S + 2) as HN' by lia.
  destruct (N =? zlen S + 2) eqn:Hall.
  - right. apply Z.eqb_eq in Hall as HNe. rewrite Z.min_r by lia. rewrite <- Hall in Hx.
    destruct (last_x N U x1 x b closed Hf1 Hx Hon Hreach Hall) as (_ & _ & Hnx & Hcl).
    destruct (last_idle_x N U x1 x b closed Hf1 Hx Hon Hend Hrt Ht Hreach Hall) as [Hix Hxo].
    destruct (last_idle_y N y HN' Hy Hall Hnone) as [Hiy Hyo].
    pose proof (ml_pump _ _ _ _ _ _ _ _ (sg_mail _ _ _ _ _ _ _ _ Hx)) as Hp.
    destruct (tick_numbers N x (pp_ok _ _ _ _ _ _ Hp) Hreach) as [Hi1 Hi2]. destruct (ticks_listening N y Hy) as (Hl & _).
    split; cbn; try done; unfold incoming.
    + by rewrite (ls_isn _ Hl), (listening_next _ Hl).
    + by rewrite Hi1, Hi2, Hnx, (pp_isn _ _ _ _ _ _ Hp).
    + apply (fd_done _ _ _ _ _ Hf1 Hcl).
    + unfold slice, ztake, zdrop, zlen. rewrite take_ge; [done|]. rewrite length_drop. lia.
  - left. apply Z.eqb_neq in Hall as HNe. rewrite Z.min_l by lia. rewrite <- Hall in Hx.
    destruct (ticks_next N U x1 x y b closed HN' HU Hf1 Hx Hon Hend Hrt Hreach Hy Hall (or_introl Hnone)) as [Htr Hun].
    split; [done|]. cbn [bm_x]. lia.
Qed.

(** The loop that waits for the end of the stream ends, with [S] received. *)
Lemma transfer_finishes reorder m fuel :
  transferring m -> zlen S + 2 - una (cn_sender (bm_x m)) < Z.of_nat fuel ->
  ∃ m', loop_while not_finished fuel reorder m = Ret m' ∧ finished S m'.
Proof.
  revert m. induction fuel as [|fuel IH]; intros m Hm Hfuel.
  { pose proof (round_range m Hm). lia. }
  cbn [loop_while]. unfold not_finished at 1. assert (eof (inbound_stream (bm_y m)) = false) as ->.
  { apply not_true_iff_false. intros [He _]%eof_spec. destruct (gt_open _ _ _ _ _ _ _ _ (tf_gather _ Hm) (tf_open _ Hm)) as [_ Hno].
    unfold inbound_stream in He. congruence. }
  cbn [negb]. destruct (round_step reorder m Hm) as (m1 & -> & Hcase). cbn [mbind outcome_bind].
  destruct Hcase as [(Hm1 & Hlt)|Hfin]; [apply IH; [done|lia]|].
  exists m1. split; [|done]. destruct fuel; cbn [loop_while]; unfold not_finished at 1; rewrite (id_eof _ _ (fn_y _ _ Hfin)); done.
Qed.
End rounds.
