(* ===== verification/Opening.v ===== *)
(** The first two rounds of [tcp_benchmark]: both sides open at the same time,
    so the SYNs cross, both are retransmitted by the first tick, and the second
    round acknowledges them. *)
From S2P Require Import Prelude StdMap Buffer ByteStream StreamReassembler WrappingIntegers TCPSegment TCPReceiver TCPSender TCPState TCPConnection EndToEnd Transfer Exchange Format Program Benchmark Progress.

(** ** The sender with its SYN under way, and with its FIN *)

Definition sent_syn (bs : ByteStream) (isn : WrappingInt32) (rto n : Z) : TCPSender :=
  mkSender isn [] 1000 bs 1 [(1, syn_of isn)] 1 true false 1 0 0 0 rto n 0 true.

Definition fin_of (isn : WrappingInt32) : TCPSegment :=
  on_header (set_seqno (wrap 1 isn)) (on_header (set_fin true) default_segment).

Definition sent_fin (bs : ByteStream) (isn : WrappingInt32) (cap : Z) (q : list TCPSegment) : TCPSender :=
  mkSender isn q 1000 bs 2 [(2, fin_of isn)] 1 true true cap 1 (cap - 1) 1 1000 0 0 true.

Lemma syn_sent_seg S isn : sent_seg S isn 0 (syn_of isn).
Proof.
  pose proof (zlen_nonneg S). split; try done; [|cbn; auto with header].
  split; cbn; [done|done|lia|done].
Qed.

Lemma fin_sent_seg isn : sent_seg [] isn 1 (fin_of isn).
Proof.
  split; try done; [split; [done|by intros [? _]]|cbn; auto with header].
Qed.

Lemma sent_syn_ok S bs isn rto n :
  TCPSender.stream_of S bs -> bs_total_read bs = 0 -> snd_ok S (sent_syn bs isn rto n).
Proof.
  intros Hst Hr. split; cbn; try done; try (unfold is_u16; lia).
  split_and!; try done. apply syn_sent_seg.
Qed.

Lemma sent_syn_tick bs isn : TCPSender.tick (sent_syn bs isn 1000 0) 1000 = set_segments_out [syn_of isn] (sent_syn bs isn 2000 1).
Proof. reflexivity. Qed.

Lemma ended_eof cap : eof (end_input (new_ByteStream cap)) = true.
Proof. reflexivity. Qed.

(** [fill_window] with an empty stream that has ended sends the FIN. *)
Lemma fill_fin s :
  sd_syn s = true -> sd_fin_sent s = false -> buffer_size (sd_stream s) = 0 -> eof (sd_stream s) = true -> 0 < sd_recv_wdn_sz s ->
  fill_window s = Ret (set_fin_sent (send_segment (set_recv_wdn_sz (u16 (sd_recv_wdn_sz s - 1)) s) (on_header (set_fin true) default_segment))).
Proof.
  intros Hsyn Hf Hb He Hw. unfold fill_window. rewrite Hsyn. cbn [negb].
  assert (∀ fuel, fill_loop fuel s default_segment = Ret (s, default_segment)) as -> by (intros []; cbn [fill_loop]; by rewrite Hb).
  cbn [mbind outcome_bind]. by rewrite Hf, He, (proj2 (Z.ltb_lt 0 _) Hw).
Qed.

Section sender.
Context (isn : WrappingInt32) (cap : Z).
Hypothesis Hcap : 1 <= cap <= 65535.
Let bs := end_input (new_ByteStream cap).

Lemma ack_syn_fin rto n :
  ack_received (sent_syn bs isn rto n) (wrap 1 isn) cap = Ret (sent_fin bs isn cap [fin_of isn]).
Proof.
  unfold ack_received. cbn [sent_syn sd_isn sd_abs_ackno]. rewrite unwrap_wrap by lia. unfold next_seqno_absolute.
  change (sd_next_seqno (sent_syn bs isn rto n)) with 1. change (1 <? 1) with false. cbv iota.
  rewrite u64_id, (proj2 (Z.ltb_ge (1 + cap) 1)) by (unfold is_u64; lia).
  set (s1 := remove_acked (set_acked 1 cap (sent_syn bs isn rto n))). vm_compute in s1. subst s1. cbn [sd_next_seqno].
  rewrite (u64_id (1 + cap - 1)), u16_id by (unfold is_u64, is_u16; lia). replace (1 + cap - 1) with cap by lia.
  cbn [sd_wdn_sz set_recv_wdn_sz sd_recv_wdn_sz]. rewrite (proj2 (Z.eqb_neq cap 0)) by lia.
  set (s2 := restart_timer _). vm_compute in s2. subst s2. rewrite fill_fin by (done || cbn; lia). cbn -[u16 wrap Z.sub].
  rewrite u16_id by (unfold is_u16; lia). reflexivity.
Qed.

(** A repeated acknowledgment changes nothing. *)
Lemma ack_syn_again q : ack_received (sent_fin bs isn cap q) (wrap 1 isn) cap = Ret (sent_fin bs isn cap q).
Proof.
  unfold ack_received. cbn [sent_fin sd_isn sd_abs_ackno]. rewrite unwrap_wrap by lia. unfold next_seqno_absolute.
  change (sd_next_seqno (sent_fin bs isn cap q)) with 2. change (2 <? 1) with false. cbv iota.
  rewrite u64_id, (proj2 (Z.ltb_ge (1 + cap) 2)) by (unfold is_u64; lia).
  assert (remove_acked (set_acked 1 cap (sent_fin bs isn cap q)) = sent_fin bs isn cap q) as -> by reflexivity. cbn [sent_fin sd_next_seqno].
  rewrite u64_id, u16_id by (unfold is_u64, is_u16; lia). replace (1 + cap - 2) with (cap - 1) by lia.
  cbn [sent_fin sd_wdn_sz set_recv_wdn_sz sd_recv_wdn_sz]. rewrite (proj2 (Z.eqb_neq cap 0)) by lia. reflexivity.
Qed.

Lemma sent_fin_ok q : Forall (λ seg, ∃ abs, sent_seg [] isn abs seg) q -> snd_ok [] (sent_fin bs isn cap q).
Proof.
  intros Hq. assert (bs_ok bs) by (apply end_input_ok, new_ok; unfold is_u64; lia).
  split; cbn; try done; try (unfold is_u16; lia).
  split_and!; try done. apply fin_sent_seg.
Qed.
End sender.

(** ** The connections *)

Section opening.
Context (isnX isnY : WrappingInt32) (cap : Z).
Hypothesis HisnX : wint_ok isnX.
Hypothesis HisnY : wint_ok isnY.
Hypothesis Hcap : 1 <= cap <= 65535.

Let cfg := mkConfig 1000 cap cap None.
Let no_input := end_input (new_ByteStream cap).

(** After [connect] and [end_input_stream]. *)
Definition x0 : TCPConnection :=
  mkConnection cfg (new_TCPReceiver cap) (sent_syn (new_ByteStream cap) isnX 1000 0) [syn_of isnX] true 0 true.
Definition y0 : TCPConnection :=
  mkConnection cfg (new_TCPReceiver cap) (sent_syn no_input isnY 1000 0) [syn_of isnY] true 0 false.

(** After the first round. *)
Definition x1 (bs : ByteStream) : TCPConnection :=
  mkConnection cfg (listening_done cap isnY 0) (sent_syn bs isnX 2000 1)
    (map (stamp (listening_done cap isnY 0)) [empty_of (sent_syn bs isnX 1000 0); syn_of isnX]) true 1000 true.
Definition y1 : TCPConnection :=
  mkConnection cfg (listening_done cap isnX 0) (sent_syn no_input isnY 2000 1) [stamp (listening_done cap isnX 0) (syn_of isnY)] true 1000 false.

Lemma y0_syn : segment_received y0 (syn_of isnX) =
  Ret (mkConnection cfg (listening_done cap isnX 0) (sent_syn no_input isnY 1000 0) [syn_of isnY] true 0 false).
Proof.
  unfold segment_received. rewrite flight_active by done. cbn [cn_receiver cn_sender set_time y0 rst header syn_of on_header negb].
  rewrite (receive_syn cap isnX) by (done || by apply wrap_zero). fold (listening_done cap isnX 0). cbn -[fill_window].
  by rewrite closed_fill.
Qed.

Lemma x0_syn bs :
  bs_error bs = false ->
  segment_received (set_out [] (with_stream x0 bs)) (syn_of isnY) =
  Ret (mkConnection cfg (listening_done cap isnY 0) (sent_syn bs isnX 1000 0)
    [stamp (listening_done cap isnY 0) (empty_of (sent_syn bs isnX 1000 0))] true 0 true).
Proof.
  intros He. unfold segment_received. rewrite flight_active by done.
  cbn [cn_receiver cn_sender set_time x0 set_out with_stream set_sender rst header syn_of on_header negb].
  rewrite (receive_syn cap isnY) by (done || by apply wrap_zero). fold (listening_done cap isnY 0). reflexivity.
Qed.

(** The tick that follows retransmits both SYNs. *)
Lemma syn_tick r bs isn out init :
  bs_error bs = false ->
  tick (mkConnection cfg r (sent_syn bs isn 1000 0) out true 0 init) 1000 =
    mkConnection cfg r (sent_syn bs isn 2000 1) (out ++ [stamp r (syn_of isn)]) true 1000 init.
Proof.
  intros He. unfold tick. rewrite flight_active by done. cbn [negb cn_time_since_last_segment_received set_time cn_sender].
  rewrite sent_syn_tick. cbv zeta. by rewrite flush_buffer_spec.
Qed.

(** *** What [y] does in the second round *)

Lemma advertised_all isn cp : advertised (listening_done cap isn cp) = cap.
Proof.
  unfold advertised, window_size, listening_done. cbn -[u64 Z.sub Z.ltb]. change (buffer_size _) with 0.
  rewrite Z.sub_0_r, u64_id, (proj2 (Z.ltb_ge 65535 cap)) by (unfold is_u64; lia). done.
Qed.

Definition y_at (cp : Z) (s : TCPSender) (out : list TCPSegment) (t : Z) : TCPConnection :=
  mkConnection cfg (listening_done cap isnX cp) s (map (stamp (listening_done cap isnX 0)) out) true t false.

Lemma flush_y cp s q out t :
  flush_buffer (y_at cp (sent_fin s isnY cap q) out t) = y_at cp (sent_fin s isnY cap []) (out ++ q) t.
Proof. rewrite flush_buffer_spec. unfold y_at, set_out, set_sender. cbn -[stamp]. by rewrite map_app. Qed.

(** Segments of [x] that acknowledge the SYN. *)
Record greeting (seg : TCPSegment) : Prop := {
  gr_rst : rst (header seg) = false;
  gr_ack : ack (header seg) = true;
  gr_ackno : TCPSegment.ackno (header seg) = wrap 1 isnY;
  gr_win : win (header seg) = cap;
  gr_fin : fin (header seg) = false;
  gr_payload : str (payload seg) = []
}.

Lemma y_ack s q out t seg :
  greeting seg -> syn (header seg) = false -> seqno (header seg) = wrap 1 isnX ->
  ack_received s (wrap 1 isnY) cap = Ret (sent_fin no_input isnY cap q) -> active (y_at 0 s out t) = true ->
  segment_received (y_at 0 s out t) seg = Ret (y_at 1 (sent_fin no_input isnY cap []) (out ++ q) 0).
Proof.
  intros [Hr Ha Hno Hw Hf Hp] Hsyn Hq Hs Hact. unfold segment_received. rewrite Hact, Hr. cbn [negb cn_receiver set_time y_at].
  unfold listening_done at 1. rewrite receive_ack by done. fold (listening_done cap isnX 1).
  cbn [mbind outcome_bind cn_sender set_receiver set_time y_at]. rewrite Ha, Hno, Hw, Hs. cbn [mbind outcome_bind].
  unfold length_in_sequence_space. rewrite Hsyn, Hf, Hp. change (0 <? zlen [] + 0 + 0) with false. cbn [mbind outcome_bind].
  change (set_sender _ _) with (y_at 1 (sent_fin no_input isnY cap q) out 0). by rewrite flush_y.
Qed.

Lemma y_syn cp s q e q' out t seg :
  greeting seg -> syn (header seg) = true ->
  ack_received s (wrap 1 isnY) cap = Ret (sent_fin no_input isnY cap q) -> active (y_at cp s out t) = true ->
  q ++ [empty_of (sent_fin no_input isnY cap [])] = e :: q' ->
  segment_received (y_at cp s out t) seg = Ret (y_at cp (sent_fin no_input isnY cap q') (out ++ [e]) 0).
Proof.
  intros [Hr Ha Hno Hw Hf Hp] Hsyn Hs Hact Hq. unfold segment_received. rewrite Hact, Hr. cbn [negb cn_receiver set_time y_at].
  unfold TCPReceiver.segment_received. rewrite Hsyn. cbn [andb listening_done rc_syn].
  cbn [mbind outcome_bind cn_sender set_receiver set_time y_at]. rewrite Ha, Hno, Hw, Hs. cbn [mbind outcome_bind].
  unfold length_in_sequence_space. rewrite Hsyn, Hf, Hp. change (0 <? zlen [] + 1 + 0) with true. cbn [andb negb mbind outcome_bind].
  unfold send_reply, pop_segment. change (sd_segments_out _) with (q ++ [empty_of (sent_fin no_input isnY cap [])]). rewrite Hq.
  pose proof (reply_stamp (listening_done cap isnX cp) e (wrap 1 isnX) eq_refl) as Hst. cbv zeta in Hst |- *.
  cbn [cn_receiver set_sender set_receiver]. rewrite Hst. cbn -[stamp]. unfold y_at. by rewrite map_app.
Qed.

Lemma greeting_of seg :
  rst (header seg) = false -> fin (header seg) = false -> str (payload seg) = [] -> greeting (stamp (listening_done cap isnY 0) seg).
Proof.
  intros Hr Hf Hp. destruct (stamp_keeps (listening_done cap isnY 0) seg) as (_ & _ & H1 & H2 & H3 & _).
  destruct (stamp_acks (listening_done cap isnY 0) seg (wrap 1 isnY) eq_refl) as (H4 & H5 & H6).
  split; rewrite ?H3; try congruence. rewrite H6. apply advertised_all.
Qed.

Definition y2 : TCPConnection :=
  y_at 1 (sent_fin no_input isnY cap []) [syn_of isnY; fin_of isnY; empty_of (sent_fin no_input isnY cap [])] 0.

(** The acknowledgment and the SYN that [x] sent again, in either order. *)
Lemma y_second (reorder : bool) bs : deliver y1 (if reorder then reverse (cn_segments_out (x1 bs)) else cn_segments_out (x1 bs)) = Ret y2.
Proof.
  cbn [x1 cn_segments_out map]. set (a := stamp _ (empty_of _)). set (b := stamp _ (syn_of isnX)).
  assert (greeting a ∧ greeting b) as [Ha Hb] by (by split; apply greeting_of).
  assert (syn (header a) = false ∧ seqno (header a) = wrap 1 isnX ∧ syn (header b) = true) as (Ha1 & Ha2 & Hb1) by done. clearbody a b.
  change y1 with (y_at 0 (sent_syn no_input isnY 2000 1) [syn_of isnY] 1000).
  assert (∀ cp q out, active (y_at cp (sent_fin no_input isnY cap q) out 0) = true) as Hact by (intros; by apply flight_active).
  pose proof (ack_syn_fin isnY cap Hcap 2000 1) as H1. pose proof (ack_syn_again isnY cap Hcap) as H2. fold no_input in H1, H2.
  destruct reorder; cbn [reverse rev_append deliver].
  - change (reverse [a; b]) with [b; a]. cbn [deliver].
    erewrite y_syn by (done || by apply flight_active). cbn [mbind outcome_bind]. by erewrite y_ack.
  - erewrite y_ack by (done || by apply flight_active). cbn [mbind outcome_bind]. by erewrite y_syn.
Qed.

(** *** The first round *)

Section stream.
Context (S : list byte).
Hypothesis HS : zlen S + 2 < 2 ^ 31.

Lemma x0_feeding : feeding S cap x0 (Buffer_of_string S) false.
Proof.
  pose proof (zlen_nonneg S). assert (bs_ok (new_ByteStream cap)) by (apply new_ok; unfold is_u64; lia).
  split; try done; [|apply buffer_ok_of_string; lia|by rewrite str_of_string].
  apply sent_syn_ok; [|done]. split; try done; lia.
Qed.

Lemma x1_feeding bs bs0 b closed :
  feeding S cap (with_stream x0 bs) b closed -> bs_total_read bs = 0 -> bs = bs0 -> feeding S cap (x1 bs0) b closed.
Proof. intros [] Hr <-. split; try done. by apply sent_syn_ok; [apply fd_ok|]. Qed.

Lemma first_round reorder :
  ∃ bs b closed, loop reorder (mkBench x0 y0 (Buffer_of_string S) false []) = Ret (mkBench (x1 bs) y1 b closed []) ∧
    feeding S cap (x1 bs) b closed ∧ bs_total_read bs = 0.
Proof.
  destruct (fill_x_spec S cap HS (mkBench x0 y0 (Buffer_of_string S) false []) x0_feeding) as (bs & b & closed & Hfill & Hf & Hr & _ & _).
  exists bs, b, closed. rewrite loop_phases, Hfill. cbn [mbind outcome_bind bm_x bm_y bm_string_received].
  assert (bs_error bs = false) as He by apply (fd_error _ _ _ _ _ Hf).
  assert (exchange reorder (with_stream x0 bs) y0 [] = Ret
    (mkConnection cfg (listening_done cap isnY 0) (sent_syn bs isnX 1000 0) [stamp (listening_done cap isnY 0) (empty_of (sent_syn bs isnX 1000 0))] true 0 true,
     mkConnection cfg (listening_done cap isnX 0) (sent_syn no_input isnY 1000 0) [] true 0 false, [])) as ->.
  { unfold exchange. change (cn_segments_out (with_stream x0 bs)) with [syn_of isnX].
    assert ((if reorder then reverse [syn_of isnX] else [syn_of isnX]) = [syn_of isnX]) as -> by by destruct reorder.
    cbn [deliver]. rewrite y0_syn. cbn [mbind outcome_bind cn_segments_out deliver]. by rewrite x0_syn. }
  cbn [mbind outcome_bind]. rewrite !syn_tick by done. split_and!; [done| |done]. by eapply x1_feeding.
Qed.

(** *** The second round *)

Lemma listening_ok T isn cp : 0 <= cp <= 1 -> rcv_ok T isn (listening_done cap isn cp).
Proof.
  intros Hcp. pose proof (zlen_nonneg T). split; cbn; try done; [|lia]. apply new_sr_ok. unfold is_u64. lia.
Qed.

Lemma listening_quiet : quiet isnY cap (listening_done cap isnY 0).
Proof. split; try done. by apply listening_ok. Qed.

Lemma syn_pumping bs :
  TCPSender.stream_of S bs -> bs_total_read bs = 0 -> bs_input_ended bs = true ∨ zlen (contents bs) = cap ->
  pumping S isnX 1 (cap + 1) false (sent_syn bs isnX 2000 1).
Proof.
  intros Hst Hr Hend. pose proof (sent_syn_ok S bs isnX 2000 1 Hst Hr) as Hok. pose proof (st_read _ _ Hst).
  split; try done; cbn; change (una (sent_syn bs isnX 2000 1)) with 0; try lia; try (by left); try (by right).
  destruct Hend; [by left|right; lia].
Qed.

Lemma x1_sending bs b closed :
  feeding S cap (x1 bs) b closed -> bs_total_read bs = 0 -> closed = true ∨ zlen (contents bs) = cap ->
  sending S isnX isnY 1 (cap + 1) cap false (set_out [] (x1 bs)).
Proof.
  intros Hf Hr Hend. split; [|apply listening_quiet|apply (fd_error _ _ _ _ _ Hf)].
  assert (pumping S isnX 1 (cap + 1) false (sent_syn bs isnX 2000 1)) as Hp.
  { apply syn_pumping; [apply (sk_stream _ _ (fd_ok _ _ _ _ _ Hf))|done|]. destruct Hend as [->|?]; [left; apply (fd_closed _ _ _ _ _ Hf)|by right]. }
  split; cbn; [done|constructor|by exists []|..]; intros p ->%list_elem_of_singleton; cbn; lia.
Qed.

(** What [y] answers. *)
Lemma y2_answers seg abs :
  seg_of [] isnY abs seg -> rst (header seg) = false ->
  answers isnX 1 (cap + 1) false 1 (stamp (listening_done cap isnX 0) seg) ∧
  from_peer isnX isnY 1 (cap + 1) false (stamp (listening_done cap isnX 0) seg).
Proof.
  intros Hs Hr. destruct (stamp_acks (listening_done cap isnX 0) seg (wrap 1 isnX) eq_refl) as (H1 & H2 & H3).
  destruct (stamp_keeps (listening_done cap isnX 0) seg) as (_ & _ & _ & Hrst & _). rewrite advertised_all in H3.
  assert (answers isnX 1 (cap + 1) false 1 (stamp (listening_done cap isnX 0) seg)) as Ha.
  { split; try done; [rewrite H3; unfold is_u16; lia|]. left. lia. }
  split; [done|]. split; [by exists 1|]. exists abs. by apply stamp_of.
Qed.

Lemma y2_out : Forall (from_peer isnX isnY 1 (cap + 1) false) (cn_segments_out y2) ∧
  Exists (answers isnX 1 (cap + 1) false 1) (cn_segments_out y2).
Proof.
  assert (∀ seg abs, sent_seg [] isnY abs seg -> answers isnX 1 (cap + 1) false 1 (stamp (listening_done cap isnX 0) seg) ∧
    from_peer isnX isnY 1 (cap + 1) false (stamp (listening_done cap isnX 0) seg)) as Hans by (intros seg abs []; by eapply y2_answers).
  destruct (Hans _ _ (syn_sent_seg [] isnY)) as [A1 P1]. destruct (Hans _ _ (fin_sent_seg isnY)) as [_ P2].
  destruct (empty_sent [] (sent_fin no_input isnY cap [])) as [abs He]; [apply sent_fin_ok; [done|constructor]|].
  destruct (Hans _ _ He) as [_ P3]. split; [|by left]. constructor; [exact P1|]. constructor; [exact P2|]. by constructor.
Qed.

Lemma y2_drained : drained S isnX isnY cap 1 (set_out [] y2).
Proof.
  pose proof (sent_fin_ok isnY cap Hcap [] ltac:(constructor)) as Hok. pose proof (zlen_nonneg S).
  split; try done; [|by apply (listening_ok S isnX 1)|cbn -[Z.sub]; lia|..].
  - apply (finished_pumping [] (sent_fin no_input isnY cap [])); [exact Hok|change (zlen []) with 0; lia|done|done].
  - intros i [Hi|Hi]; [cbn in Hi; lia|by apply Exists_nil in Hi].
  - by rewrite (proj2 (Z.eqb_neq _ _)) by lia.
Qed.

Lemma second_round reorder bs b closed :
  feeding S cap (x1 bs) b closed -> bs_total_read bs = 0 ->
  ∃ m, loop reorder (mkBench (x1 bs) y1 b closed []) = Ret m ∧ transferring S isnX isnY cap m ∧ una (cn_sender (bm_x m)) = 1.
Proof.
  intros Hf Hr. destruct (fill_x_spec S cap HS (mkBench (x1 bs) y1 b closed []) Hf) as (bs' & b' & closed' & Hfill & Hf1 & Hr1 & Hor & _).
  cbn [bm_x] in *. change (with_stream (x1 bs) bs') with (x1 bs') in *. assert (bs_total_read bs' = 0) as Hr' by (rewrite Hr1; exact Hr).
  pose proof (x1_sending bs' b' closed' Hf1 Hr' Hor) as Hsend.
  destruct y2_out as [Hfrom Hex].
  destruct (take_batch S isnX isnY 1 (cap + 1) cap false HS ltac:(lia) ltac:(lia) HisnY ltac:(lia) _ (cn_segments_out y2) Hsend Hfrom)
    as (x & Hrun & Hx & Hon & Hreach & Hfin & Ht).
  rewrite loop_phases, Hfill. cbn [mbind outcome_bind bm_y bm_string_received].
  assert (exchange reorder (x1 bs') y1 [] = Ret (x, set_out [] y2, [])) as ->.
  { unfold exchange. rewrite y_second. cbn [mbind outcome_bind]. by rewrite Hrun. }
  cbn [mbind outcome_bind]. eexists. split; [reflexivity|].
  assert (rc_end (cn_receiver x) = true) as Hend by (apply Hfin; right; by left).
  assert (rt_timeout (cn_cfg x) = 1000) as Hrt by (by rewrite (so_cfg _ _ _ _ Hon)).
  assert (told isnY cap x) as Htold by by apply (so_told _ _ _ _ Hon).
  pose proof (zlen_nonneg S). assert ((1 =? zlen S + 2) = false) as Hns by (apply Z.eqb_neq; lia).
  destruct (ticks_next S isnX isnY cap Hcap 1 cap (x1 bs') x (set_out [] y2) b' closed') as [Htr Hun];
    [lia|lia|done|by rewrite Hns|done|done|done|by apply Hreach|apply y2_drained|done|by right|]. done.
Qed.
End stream.
End opening.
