(* ===== verification/Completion.v ===== *)
(** The rest of a run of [tcp_benchmark]: the rounds after the transfer, in which
    the connections wait and close, and the whole program. *)
From S2P Require Import Prelude StdMap Buffer ByteStream StreamReassembler WrappingIntegers TCPSegment TCPReceiver TCPSender TCPState TCPConnection EndToEnd Transfer Exchange Format Program Benchmark Progress Opening.

(** ** Closing *)

Lemma empty_received r seg :
  length_in_sequence_space seg = 0 -> rc_syn r = true ->
  ∃ r', TCPReceiver.segment_received r seg = Ret r' ∧ rc_syn r' = true ∧ contents (stream_out r') = contents (stream_out r) ∧
    (bs_input_ended (stream_out r) = true -> bs_input_ended (stream_out r') = true).
Proof.
  intros (Hp & Hf & Hs)%length_0 Hsyn. unfold TCPReceiver.segment_received, copy. rewrite Hp, Hf, Hs, Hsyn. cbn [andb]. cbv zeta.
  set (index := u64 _). clearbody index.
  assert (∀ e, push_substring (rc_reassembler r) [] index e = Ret (push_finish (rc_reassembler r) e)) as ->.
  { intros e. unfold push_substring, validate. change (zlen []) with 0. by destruct (remaining_capacity _ =? 0). }
  cbn [mbind outcome_bind]. eexists. split; [reflexivity|]. unfold stream_out, push_finish. cbn.
  split_and!; [done|by repeat case_match|by repeat case_match].
Qed.

Lemma no_flight_none T s : snd_ok T s -> sd_outstanding_segments s = [] -> sd_bytes_in_flight s = 0.
Proof. intros Hs Ho. pose proof (sk_chain _ _ Hs) as Hc. rewrite Ho in Hc. cbn in Hc. unfold una in Hc. lia. Qed.

(** An acknowledgment for a sender that has nothing more to send. *)
Lemma finished_ack T s a w :
  snd_ok T s -> zlen T + 2 < 2 ^ 31 -> sd_syn s = true -> sd_fin_sent s = true -> sd_outstanding_segments s = [] ->
  0 <= a <= sd_next_seqno s -> is_u16 w -> sd_next_seqno s <= a + w ->
  returns (ack_received s (wrap a (sd_isn s)) w) (λ s', snd_ok T s' ∧ sd_syn s' = true ∧ sd_fin_sent s' = true ∧
    sd_outstanding_segments s' = [] ∧ sd_segments_out s' = sd_segments_out s ∧ sd_isn s' = sd_isn s ∧
    sd_next_seqno s' = sd_next_seqno s ∧ bs_error (sd_stream s') = bs_error (sd_stream s)).
Proof.
  intros Hs HT Hsyn Hf Ho Ha Hw Hle. pose proof (finished_pumping T s Hs HT Hsyn Hf) as Hp. pose proof (next_bound _ _ Hs).
  eapply returns_mono; [apply (ack_step T (sd_isn s) (sd_next_seqno s) (sd_next_seqno s) true); try done; [lia|by right]|].
  intros s' (Hp' & (m & Hm) & _). destruct (pp_all _ _ _ _ _ _ Hp' eq_refl) as [Hf' Hn'].
  assert (m = []) as ->.
  { destruct m as [|p m]; [done|]. destruct (pd_new _ _ _ _ _ Hm p ltac:(by left)) as (Hin & Hlt & _).
    destruct (chain_in _ _ _ _ _ _ (sk_chain _ _ (pp_ok _ _ _ _ _ _ Hp')) Hin) as (c & _ & _ & _ & ? & _). lia. }
  split_and!; [apply Hp'|apply Hp'|done| |by rewrite (pd_queue _ _ _ _ _ Hm), app_nil_r|apply Hp'|done|apply (pd_error _ _ _ _ _ Hm)].
  destruct (sd_outstanding_segments s') as [|p l] eqn:Ho'; [done|].
  destruct (pd_from _ _ _ _ _ Hm p) as [Hin|Hin]; [rewrite Ho'; by left|rewrite Ho in Hin|]; by apply elem_of_nil in Hin.
Qed.

Section idle.
Context (T : list byte).

Definition same_numbers (c c' : TCPConnection) : Prop :=
  sd_isn (cn_sender c') = sd_isn (cn_sender c) ∧ sd_next_seqno (cn_sender c') = sd_next_seqno (cn_sender c).

Lemma idle_active c : idle T c -> active c = true -> cn_time_since_last_segment_received c < 10000 ∧ cn_linger_after_streams_finish c = true.
Proof.
  intros [] Ha. unfold active, error, bytes_in_flight, TCPSender.bytes_in_flight, time_since_last_segment_received in Ha.
  rewrite id_error, (no_flight_none T _ id_ok id_none), id_eof, id_rt in Ha.
  assert (eof (stream_in c) = true) as Heof by (apply (sk_fin _ _ id_ok id_fin)). rewrite Heof in Ha. cbn [andb Z.eqb] in Ha.
  destruct (cn_linger_after_streams_finish c); [|done]. cbn [negb] in Ha. split; [|done].
  destruct (Z.leb_spec (10 * 1000) (cn_time_since_last_segment_received c)); [done|lia].
Qed.

Lemma idle_take c seg :
  idle T c -> incoming c seg ->
  ∃ c', segment_received c seg = Ret c' ∧ idle T c' ∧ cn_segments_out c' = cn_segments_out c ∧ same_numbers c c'.
Proof.
  intros Hc [Hz [a Ha]]. destruct (active c) eqn:Hact; [|exists c; unfold segment_received; by rewrite Hact].
  pose proof Hc as []. destruct (empty_received (cn_receiver c) seg Hz id_rsyn) as (r & Hr & Hrs & Hct & Hie).
  destruct (finished_ack T (cn_sender c) a (win (header seg))) as (s & Hs & H1 & H2 & H3 & H4 & H5 & H6 & H7 & H8);
    try done; try apply Ha; [destruct (an_ends _ _ _ _ _ _ Ha) as [?|[_ ?]]; lia|].
  rewrite <- (an_ackno _ _ _ _ _ _ Ha) in Hs.
  destruct (synced_receive c seg r s Hact (an_rst _ _ _ _ _ _ Ha) (an_ack _ _ _ _ _ _ Ha) Hr Hrs Hs) as (c' & Hrun & Hrb).
  destruct Hrb as [Hrr (e & q & Hsq & Hout & Heq & _) Hcfg Ht Hl]. rewrite Hz, H5, (id_queue Hact) in Heq. cbn in Heq.
  apply app_nil in Heq as [-> ->]. exists c'. rewrite Hout, app_nil_r. split_and!; [done| |done|unfold same_numbers; by rewrite Hsq].
  apply eof_spec in id_eof as [He1 He2].
  split; unfold stream_in, inbound_stream; rewrite ?Hsq, ?Hrr, ?Hcfg, ?Ht; cbn; try done; [by apply clear_queue_ok|by rewrite H8|].
  apply eof_spec. rewrite Hct. by auto.
Qed.

Lemma incoming_same c c' : same_numbers c c' -> incoming c' = incoming c.
Proof. unfold incoming. by intros [-> ->]. Qed.

Lemma idle_batch c L :
  idle T c -> Forall (incoming c) L ->
  ∃ c', deliver c L = Ret c' ∧ idle T c' ∧ cn_segments_out c' = cn_segments_out c ∧ same_numbers c c'.
Proof.
  revert c. induction L as [|seg L IH]; intros c Hc HL; cbn [deliver]; [by exists c|]. apply Forall_cons in HL as [Hseg HL].
  destruct (idle_take c seg Hc Hseg) as (c1 & -> & Hc1 & Ho1 & Hn1). cbn [mbind outcome_bind]. rewrite <- (incoming_same _ _ Hn1) in HL.
  destruct (IH c1 Hc1 HL) as (c2 & Hrun & Hc2 & Ho2 & Hn2). exists c2. split_and!; [done|done|congruence|].
  destruct Hn1, Hn2. split; congruence.
Qed.

Lemma idle_set_out c q : idle T c -> idle T (set_out q c).
Proof. intros []. by split. Qed.

(** A tick only lets time pass. *)
Lemma idle_tick c :
  idle T c -> idle T (tick c 1000) ∧ cn_segments_out (tick c 1000) = cn_segments_out c ∧ same_numbers c (tick c 1000) ∧
    (active (tick c 1000) = true -> active c = true ∧ cn_time_since_last_segment_received (tick c 1000) = cn_time_since_last_segment_received c + 1000).
Proof.
  intros Hc. destruct (active c) eqn:Ha; [|assert (tick c 1000 = c) as -> by (unfold tick; by rewrite Ha); by rewrite Ha].
  destruct (idle_active c Hc Ha) as [Ht Hl]. pose proof Hc as [].
  pose proof (tick_shape T c 1000 id_ok ltac:(rewrite (sk_retx _ _ id_ok id_none); lia) Ha) as Htk.
  destruct (tk_sender _ _ _ Htk) as (rto & n & el & Hs & _). destruct (tk_out _ _ _ Htk) as (e & Hout & He).
  rewrite id_none in He. destruct He as [->|(k & seg & m & ? & _)]; [|done]. rewrite (id_queue Ha) in Hout. cbn in Hout. rewrite app_nil_r in Hout.
  assert (cn_time_since_last_segment_received (tick c 1000) = cn_time_since_last_segment_received c + 1000) as Htime
    by (rewrite (tk_time _ _ _ Htk), u64_id; [done|unfold is_u64; lia]).
  split_and!; [|done|unfold same_numbers; by rewrite Hs|by auto].
  split; unfold stream_in, inbound_stream; rewrite ?Hs, ?(tk_receiver _ _ _ Htk), ?(tk_cfg _ _ _ Htk), ?Htime; cbn; try done; [|lia].
  rewrite <- Hs, (tk_ok _ _ _ Htk). by apply clear_queue_ok, sender_tick_ok.
Qed.
End idle.

Section closing.
Context (S : list byte).

(** The closing exchange: nothing is left to write, and no segment is answered. *)
Lemma finished_round (reorder : bool) m :
  finished S m ->
  ∃ x y, deliver (set_out [] (bm_x m)) (cn_segments_out (bm_y m)) = Ret x ∧
    deliver (bm_y m) (if reorder then reverse (cn_segments_out (bm_x m)) else cn_segments_out (bm_x m)) = Ret y ∧
    loop reorder m = Ret (mkBench (tick x 1000) (tick (set_out [] y) 1000) (bm_bytes_to_send m) true S) ∧
    idle S x ∧ idle [] (set_out [] y) ∧ cn_segments_out x = [].
Proof.
  intros [Hx Hy Hxo Hyo Hc Hb Hr].
  destruct (idle_batch (@nil byte) (bm_y m) (if reorder then reverse (cn_segments_out (bm_x m)) else cn_segments_out (bm_x m)) Hy)
    as (y & Hrun & Hy' & Hout & _); [destruct reorder; [by apply Forall_reverse|done]|].
  destruct (idle_batch S (set_out [] (bm_x m)) (cn_segments_out (bm_y m)) (idle_set_out _ _ _ Hx) Hyo) as (x & Hrun2 & Hx' & Hout2 & _).
  exists x, y. split_and!; try done; [|by apply idle_set_out]. rewrite loop_phases. unfold fill_x.
  rewrite write_input_stop by by left. cbn [mbind outcome_bind]. rewrite Hc, andb_false_r. cbn [mbind outcome_bind].
  unfold exchange. rewrite Hrun. cbn [mbind outcome_bind]. rewrite Hout, Hrun2. cbn [mbind outcome_bind]. cbv zeta.
  rewrite buffer_size_contents. change (inbound_stream (set_out [] y)) with (inbound_stream y).
  destruct (proj1 (eof_spec _) (id_eof _ _ Hy')) as [_ ->]. cbn [Z.ltb Z.compare]. by rewrite Hr.
Qed.

(** Nothing is on the way, and both sides have waited for [k] seconds. *)
Record closing (k : Z) (m : bench) : Prop := {
  cl_done : finished S m;
  cl_xout : cn_segments_out (bm_x m) = [];
  cl_yout : cn_segments_out (bm_y m) = [];
  cl_x : active (bm_x m) = true -> k * 1000 <= cn_time_since_last_segment_received (bm_x m);
  cl_y : active (bm_y m) = true -> k * 1000 <= cn_time_since_last_segment_received (bm_y m)
}.

Lemma finished_closing reorder m : finished S m -> ∃ m', loop reorder m = Ret m' ∧ closing 0 m'.
Proof.
  intros Hm. destruct (finished_round reorder m Hm) as (x & y & _ & _ & Hrun & Hx & Hy & Hxo). eexists. split; [exact Hrun|].
  destruct (idle_tick _ x Hx) as (Hx' & Hox & _ & _). destruct (idle_tick _ (set_out [] y) Hy) as (Hy' & Hoy & _ & _).
  pose proof (id_time _ _ Hx'). pose proof (id_time _ _ Hy'). split; cbn; [|by rewrite Hox|by rewrite Hoy|lia|lia].
  split; cbn; try done; [rewrite Hox, Hxo; constructor|rewrite Hoy; constructor|apply Hm].
Qed.

Lemma closing_step reorder k m : closing k m -> ∃ m', loop reorder m = Ret m' ∧ closing (k + 1) m'.
Proof.
  intros Hm. destruct (finished_closing reorder m (cl_done _ _ Hm)) as (m' & Hrun & Hm'). exists m'. split; [done|].
  destruct (finished_round reorder m (cl_done _ _ Hm)) as (x & y & Hdx & Hdy & Hrun2 & Hx & Hy & _). rewrite Hrun in Hrun2. injection Hrun2 as ->.
  rewrite (cl_xout _ _ Hm) in Hdy. rewrite (cl_yout _ _ Hm) in Hdx. cbn in Hdx. destruct reorder; cbn in Hdy; injection Hdx as <-; injection Hdy as <-.
  all: destruct Hm' as [H1 H2 H3 _ _]; cbn in *; destruct (idle_tick _ _ Hx) as (_ & _ & _ & Htx); destruct (idle_tick _ _ Hy) as (_ & _ & _ & Hty).
  all: split; cbn; try done; [intros [Ha Ht]%Htx; pose proof (cl_x _ _ Hm Ha)|intros [Ha Ht]%Hty; pose proof (cl_y _ _ Hm Ha)]; cbn in *; lia.
Qed.

Lemma closing_inactive k m : closing k m -> 10 <= k -> either_active m = false.
Proof.
  intros Hm Hk. apply orb_false_iff. split; apply not_true_iff_false; intros Ha.
  - destruct (idle_active _ _ (fn_x _ _ (cl_done _ _ Hm)) Ha) as [Ht _]. pose proof (cl_x _ _ Hm Ha). lia.
  - destruct (idle_active _ _ (fn_y _ _ (cl_done _ _ Hm)) Ha) as [Ht _]. pose proof (cl_y _ _ Hm Ha). lia.
Qed.

Lemma closing_ends fuel reorder k m :
  closing k m -> 10 <= k + Z.of_nat fuel -> ∃ m', loop_while either_active fuel reorder m = Ret m' ∧ either_active m' = false.
Proof.
  revert k m. induction fuel as [|fuel IH]; intros k m Hm Hk; cbn [loop_while].
  - exists m. by rewrite (closing_inactive k m Hm) by lia.
  - destruct (either_active m) eqn:Ha; [|by exists m].
    destruct (closing_step reorder k m Hm) as (m1 & -> & Hm1). cbn [mbind outcome_bind]. apply (IH (k + 1) m1 Hm1). lia.
Qed.

(** The second loop ends: ten seconds after the last segment. *)
Lemma finished_ends fuel reorder m :
  finished S m -> (11 <= fuel)%nat -> ∃ m', loop_while either_active fuel reorder m = Ret m' ∧ either_active m' = false.
Proof.
  intros Hm Hf. destruct fuel as [|fuel]; [lia|]. cbn [loop_while]. destruct (either_active m) eqn:Ha; [|by exists m].
  destruct (finished_closing reorder m Hm) as (m1 & -> & Hm1). cbn [mbind outcome_bind]. apply (closing_ends fuel reorder 0 m1 Hm1). lia.
Qed.
End closing.

(** ** The whole program *)

Section run.
Context (cap : Z) (i : inputs).
Hypothesis Hcap : 1 <= cap <= 65535.
Hypothesis HS : zlen (in_string i) + 2 < 2 ^ 31.
Hypothesis HisnX : is_u32 (in_isn_x i).
Hypothesis HisnY : is_u32 (in_isn_y i).

Let cfg := mkConfig TIMEOUT_DFLT cap cap None.
Let x := x0 (mkWrap (in_isn_x i)) cap.
Let y := y0 (mkWrap (in_isn_y i)) cap.

Lemma start_spec : start cfg i = Ret (mkBench x y (Buffer_of_string (in_string i)) false []).
Proof. reflexivity. Qed.

Lemma loops_finish fuel reorder :
  zlen (in_string i) + 4 <= Z.of_nat fuel ->
  ∃ m, loop_while not_finished fuel reorder (mkBench x y (Buffer_of_string (in_string i)) false []) = Ret m ∧ finished (in_string i) m.
Proof.
  intros Hf. pose proof (zlen_nonneg (in_string i)). destruct fuel as [|[|fuel]]; [lia|lia|].
  destruct (first_round (mkWrap (in_isn_x i)) (mkWrap (in_isn_y i)) cap HisnX HisnY Hcap (in_string i) HS reorder) as (bs & b & closed & Hrun & Hfd & Hr).
  destruct (second_round (mkWrap (in_isn_x i)) (mkWrap (in_isn_y i)) cap HisnY Hcap (in_string i) HS reorder bs b closed Hfd Hr) as (m & Hrun2 & Hm & Hu).
  destruct (transfer_finishes (in_string i) (mkWrap (in_isn_x i)) (mkWrap (in_isn_y i)) cap HS HisnX HisnY Hcap reorder m fuel Hm) as (m' & Hrun3 & Hm'); [lia|].
  exists m'. split; [|done]. cbn [loop_while]. change (not_finished (mkBench x y _ _ _)) with true. cbv iota.
  fold x y in Hrun. rewrite Hrun. cbn [mbind outcome_bind]. change (not_finished (mkBench _ (y1 _ _ _) _ _ _)) with true. cbv iota.
  rewrite Hrun2. exact Hrun3.
Qed.

Lemma run_ends fuel reorder :
  zlen (in_string i) + 11 <= Z.of_nat fuel ->
  ∃ m m', loop_while not_finished fuel reorder (mkBench x y (Buffer_of_string (in_string i)) false []) = Ret m ∧
    bm_string_received m = in_string i ∧ loop_while either_active fuel reorder m = Ret m' ∧ either_active m' = false.
Proof.
  intros Hf. pose proof (zlen_nonneg (in_string i)). destruct (loops_finish fuel reorder) as (m & Hrun & Hm); [lia|].
  destruct (finished_ends (in_string i) fuel reorder m Hm) as (m' & Hrun2 & Ha); [lia|]. exists m, m'.
  split_and!; try done. apply Hm.
Qed.

Lemma main_loop_spec fuel reorder out err :
  zlen (in_string i) + 11 <= Z.of_nat fuel ->
  main_loop cfg fuel reorder i (mkIO out err) = Ret (Val tt, mkIO (out ++ throughput_line reorder i) err).
Proof.
  intros Hf. destruct (run_ends fuel reorder Hf) as (m & m' & H1 & H2 & H3 & _). unfold main_loop.
  rewrite start_spec, call_bind, H1, call_bind, H2, bool_decide_eq_true_2 by done. cbn [negb]. by rewrite cout_bind, H3, call_bind.
Qed.
End run.

(** C2: two connections deliver. For every capacity that fits the window field,
    every string, all initial sequence numbers, and batches of segments delivered
    in order or reversed, the first loop of the benchmark ends with exactly the
    string received, and the second ends with both connections closed; the number
    of rounds is bounded by the length of the string. *)
Theorem connections_deliver cap i reorder fuel :
  1 <= cap <= 65535 -> zlen (in_string i) + 2 < 2 ^ 31 -> is_u32 (in_isn_x i) -> is_u32 (in_isn_y i) ->
  zlen (in_string i) + 11 <= Z.of_nat fuel ->
  ∃ m0 m m', start (mkConfig TIMEOUT_DFLT cap cap None) i = Ret m0 ∧
    loop_while not_finished fuel reorder m0 = Ret m ∧ bm_string_received m = in_string i ∧
    loop_while either_active fuel reorder m = Ret m' ∧ active (bm_x m') = false ∧ active (bm_y m') = false.
Proof.
  intros Hcap HS HX HY Hf. destruct (run_ends cap i Hcap HS HX HY fuel reorder Hf) as (m & m' & H1 & H2 & H3 & [H4 H5]%orb_false_iff).
  eexists _, m, m'. split; [by apply start_spec|]. done.
Qed.

Definition sample_inputs (s : string) (d : Z) : inputs := mkInputs (chars s) 4294967290 7 d.

Lemma connections_deliver_witness :
  ∃ m0 m m', start (mkConfig TIMEOUT_DFLT 3 3 None) (sample_inputs "a string" 5) = Ret m0 ∧
    loop_while not_finished 19 true m0 = Ret m ∧ bm_string_received m = chars "a string" ∧
    loop_while either_active 19 true m = Ret m' ∧ active (bm_x m') = false ∧ active (bm_y m') = false.
Proof. apply (connections_deliver 3 (sample_inputs "a string" 5) true 19); vm_compute; done. Defined.

(** C32: the benchmark succeeds: whatever is sent, whatever the initial sequence
    numbers and however long it takes, both runs of [main_loop] end, the program
    prints its two lines and returns [EXIT_SUCCESS]. *)
Theorem benchmark_succeeds `{ErrorText} (first second : inputs) fuel :
  zlen (in_string first) = zlen (in_string second) -> zlen (in_string first) + 2 < 2 ^ 31 ->
  is_u32 (in_isn_x first) -> is_u32 (in_isn_y first) -> is_u32 (in_isn_x second) -> is_u32 (in_isn_y second) ->
  zlen (in_string first) + 11 <= Z.of_nat fuel ->
  benchmark_main fuel first second no_output =
    Ret (Val EXIT_SUCCESS, mkIO (throughput_line false first ++ throughput_line true second) []).
Proof.
  intros Hl HS H1 H2 H3 H4 Hf. unfold benchmark_main, try_catch, mbind, program_bind, default_TCPConfig, no_output.
  rewrite !main_loop_spec by (done || unfold DEFAULT_CAPACITY; lia). reflexivity.
Qed.

Lemma benchmark_succeeds_witness :
  benchmark_main (H := Build_ErrorText (λ _, []) (λ _, [])) 14 (sample_inputs "abc" 8) (sample_inputs "xyz" 16) no_output =
    Ret (Val EXIT_SUCCESS, mkIO (line "CPU-limited throughput                : 3.00 Gbit/s" ++
                                 line "CPU-limited throughput with reordering: 1.50 Gbit/s") []).
Proof.
  rewrite (benchmark_succeeds (H := Build_ErrorText (λ _, []) (λ _, [])) (sample_inputs "abc" 8) (sample_inputs "xyz" 16) 14);
    [reflexivity|vm_compute; done..].
Defined.
