(* ===== verification/Tcpdump.v ===== *)
(** [apps/udp_tcpdump.cc]: shows the TCP segments that captured UDP datagrams
    carry. The capture library is the class [Pcap] and the packets it delivers are
    an argument. A read outside the captured bytes is undefined behaviour. *)
From S2P Require Import Prelude Buffer WrappingIntegers Parser Checksum TCPSegment IPv4 Ethernet Format Printing Program.

(** What the program uses of libpcap, and of [inet_ntop] for IPv6. *)
Class Pcap := {
  (** an error text, or the link type of the handle *)
  pcap_open_live : option (list byte) -> list byte + Z;
  pcap_datalink_val_to_description : Z -> option (list byte);
  (** an error text, or success *)
  pcap_compile : list byte -> option (list byte);
  pcap_setfilter : list byte -> option (list byte);
  inet_ntop6 : list byte -> option (list byte)
}.

Definition DLT_NULL : Z := 0.
Definition DLT_EN10MB : Z := 1.
Definition DLT_RAW : Z := 12.
Definition DLT_LINUX_SLL : Z := 113.
Definition DLT_LINUX_SLL2 : Z := 276.

(** ** The command line *)

Definition show_usage (arg0 : list byte) (errmsg : option (list byte)) : program unit :=
  _ ← cout (chars "Usage: " ++ arg0 ++ line " [-i <intf>] [-F <file>] [-h|--help] <expression>" ++ [newline] ++
            line "  -i <intf>    only capture packets from <intf> (default: all)" ++ [newline] ++
            line "  -F <file>    reads in a filter expression from <file>" ++
            line "               <expression> is ignored if -F is supplied." ++ [newline] ++
            line "  -h, --help   show this message" ++ [newline] ++
            line "  <expression> a filter expression in pcap-filter(7) syntax");
  _ ← (match errmsg with Some m => cout (newline :: m) | None => mret tt end);
  cout [newline].

(** [args] are the arguments from [curr] on. *)
Definition check_arg (arg0 : list byte) (args : list (list byte)) (errmsg : string) : program unit :=
  if (length args <=? 1)%nat then _ ← show_usage arg0 (Some (chars errmsg)); exit 1 else mret tt.

(** Ends with the device and the arguments that were not read. *)
Fixpoint parse_arguments (fuel : nat) (arg0 : list byte) (args : list (list byte)) (dev : option (list byte))
    : program (option (list byte) * list (list byte)) :=
  match fuel with
  | O => diverges
  | S fuel =>
      if (0 <? length args)%nat then
        a ← arg args 0;
        if strncmp (chars "-i") a 3 then
          _ ← check_arg arg0 args "ERROR: -i requires an argument";
          d ← arg args 1;
          parse_arguments fuel arg0 (drop 2 args) (Some d)
        else if strncmp (chars "-h") a 3 || strncmp (chars "--help") a 7 then
          _ ← show_usage arg0 None; exit 0
        else mret (dev, args)
      else mret (dev, args)
  end.

(** ** Finding the datagram's payload *)

Definition byte_at (data : list byte) (i : Z) : outcome Z :=
  if i <? 0 then Undef else match data !! Z.to_nat i with Some b => Ret (byte_val b) | None => Undef end.

(** The [n] bytes at a pointer. *)
Definition bytes_at (data : list byte) (i n : Z) : outcome (list byte) :=
  if (0 <=? i) && (i + n <=? zlen data) then Ret (ztake n (zdrop i data)) else Undef.

(** An [int]. *)
Definition to_int (z : Z) : outcome Z := if (- 2 ^ 31 <=? z) && (z <? 2 ^ 31) then Ret z else Undef.

Definition inet4_addr (data : list byte) (i : Z) : outcome (list byte) :=
  addr ← bytes_at data i 4; Ret (inet_ntoa (be_val addr)).

Definition inet6_addr `{Pcap} (data : list byte) (i : Z) : outcome (list byte) :=
  addr ← bytes_at data i 16; Ret (default (chars "unknown") (inet_ntop6 addr)).

(** The walk over the extension headers: the offset behind them, or [-1]. *)
Fixpoint skip_headers (fuel : nat) (len : Z) (data : list byte) (nxt data_offset : Z) : program Z :=
  match fuel with
  | O => diverges
  | S fuel =>
      if negb (nxt =? 0x11) then
        if negb (nxt =? 0) && negb (nxt =? 43) && negb (nxt =? 60) then
          _ ← cerr (chars "Not UDP or fragmented; "); mret (-1)
        else
          nxt ← call (byte_at data data_offset);
          words ← call (byte_at data (data_offset + 1));
          data_offset ← call (to_int (data_offset + 8 * (1 + words)));
          end_of_next ← call (to_int (data_offset + 2));
          if len <? end_of_next then mret (-1) else skip_headers fuel len data nxt data_offset
      else mret data_offset
  end.

(** Returns the offset of the payload, or [-1], with [src_addr] and [dst_addr]. *)
Definition process_ipv4_ipv6 `{Pcap} (len : Z) (data : list byte) : program (Z * (list byte * list byte)) :=
  let failed := (-1, ([], [])) in
  if len <? 1 then mret failed
  else
    first ← call (byte_at data 0);
    let pt := Z.land first 0xf0 in
    if pt =? 0x40 then
      let data_offset := Z.land first 0x0f * 4 in
      if len <? data_offset then mret failed
      else
        proto ← call (byte_at data 9);
        if negb (proto =? 0x11) then _ ← cerr (chars "Not UDP; "); mret failed
        else
          src_addr ← call (inet4_addr data 12);
          dst_addr ← call (inet4_addr data 16);
          mret (data_offset + 8, (src_addr, dst_addr))
    else if pt =? 0x60 then
      if len <? 42 then mret failed
      else
        nxt ← call (byte_at data 6);
        data_offset ← skip_headers (Z.to_nat len) len data nxt 40;
        if data_offset =? -1 then mret failed
        else
          src_addr ← call (inet6_addr data 8);
          dst_addr ← call (inet6_addr data 24);
          off ← call (to_int (data_offset + 8));
          mret (off, (src_addr, dst_addr))
    else mret failed.

(** ** One packet *)

(** Where the datagram begins, by link type; [inl] is [continue], or [return]
    with a status. *)
Definition link_offset (dl_type : Z) (pkt : list byte) : program (option Z + Z) :=
  let caplen := zlen pkt in
  let malformed := _ ← cerr (line "[INFO] Skipping malformed packet."); mret (inl None) in
  let non_ip := _ ← cerr (line "[INFO] Skipping non-IP packet."); mret (inl None) in
  let ethertype i := hi ← call (byte_at pkt i); lo ← call (byte_at pkt (i + 1)); mret (Z.lor (Z.shiftl hi 8) lo) in
  let ip_only hdr_off pt := if negb (pt =? 0x0800) && negb (pt =? 0x86dd) then non_ip else mret (inr hdr_off) in
  if dl_type =? DLT_NULL then
    if caplen <? 4 then malformed
    else
      pt ← call (byte_at pkt 3);
      if negb (pt =? 2) && negb (pt =? 24) && negb (pt =? 28) && negb (pt =? 30) then non_ip else mret (inr 4)
  else if dl_type =? DLT_EN10MB then
    if caplen <? 14 then malformed else pt ← ethertype 12; ip_only 14 pt
  else if dl_type =? DLT_LINUX_SLL then
    if caplen <? 16 then malformed else pt ← ethertype 14; ip_only 16 pt
  else if dl_type =? DLT_LINUX_SLL2 then
    if caplen <? 20 then malformed else pt ← ethertype 0; ip_only 20 pt
  else if negb (dl_type =? DLT_RAW) then
    _ ← cerr (chars "Mysterious datalink type. Giving up."); mret (inl (Some EXIT_FAILURE))
  else mret (inr 0).

(** The text for a segment; numbers are filled up with zeros. *)
Definition flag_text (b : bool) (s : string) : list byte := if b then chars s else [].
Definition segment_line (src dst : list byte) (seg : TCPSegment) (res : ParseResult) (payload_len : Z) : list byte :=
  let tcp_hdr := header seg in
  let seqlen := u32 (length_in_sequence_space seg) in
  src ++ chars ":" ++ dec (sport tcp_hdr) ++ chars " > " ++ dst ++ chars ":" ++ dec (dport tcp_hdr) ++
  newline :: chars "    Flags [" ++
  flag_text (urg tcp_hdr) "U" ++ flag_text (psh tcp_hdr) "P" ++ flag_text (rst tcp_hdr) "R" ++
  flag_text (syn tcp_hdr) "S" ++ flag_text (fin tcp_hdr) "F" ++ flag_text (ack tcp_hdr) "." ++
  chars "] cksum 0x" ++ pad 4 x30 (hex (cksum tcp_hdr)) ++
  (if bool_decide (res = NoError) then chars " (correct)" else chars " (incorrect!)") ++
  chars " seq " ++ print_seqno 10 (seqno tcp_hdr) ++
  (if 0 <? seqlen then chars ":" ++ print_seqno 10 (wint_add (seqno tcp_hdr) seqlen) else []) ++
  chars " ack " ++ print_seqno 10 (ackno tcp_hdr) ++ chars " win " ++ dec (win tcp_hdr) ++
  chars " length " ++ dec payload_len ++ [newline].

(** [string(payload)] of a view of [len] bytes at [off]. *)
Definition string_of_view (pkt : list byte) (off len : Z) : outcome (list byte) :=
  if 2 ^ 63 - 1 <=? len then Throw (length_error "basic_string::_M_create") else bytes_at pkt off len.

(** The body of the loop: [None] goes on, [Some] returns from [main]. *)
Definition process_packet `{Pcap} (dl_type : Z) (pkt : list byte) : program (option Z) :=
  link ← link_offset dl_type pkt;
  match link with
  | inl r => mret r
  | inr hdr_off =>
      '(start_off, (src, dst)) ← process_ipv4_ipv6 (i32 (u64 (zlen pkt - hdr_off))) (zdrop hdr_off pkt);
      if start_off <? 0 then
        _ ← cerr (line "Error parsing IPv4/IPv6 packet. Skipping."); mret None
      else
        let payload_off := hdr_off + start_off in
        let payload_len := u64 (zlen pkt - payload_off) in
        payload ← call (string_of_view pkt payload_off payload_len);
        '(seg, res) ← call (segment_parse default_segment (Buffer_of_string payload) 0);
        _ ← (if (parse_result_code BadChecksum <? parse_result_code res)%nat
             then cout (chars "(did not recognize TCP header) src: " ++ src ++ chars " dst: " ++ dst ++ [newline])
             else cout (segment_line src dst seg res payload_len));
        text ← call (hexdump payload 8);
        _ ← cout text;
        mret None
  end.

(** ** [main] *)

Definition open_capture `{Pcap} (dev : option (list byte)) : program Z :=
  match pcap_open_live dev with
  | inl errbuf => _ ← cout (newline :: chars "Error initiating capture: " ++ errbuf ++ [newline]); exit 1
  | inr dlt =>
      let description : program (list byte) := match pcap_datalink_val_to_description dlt with Some s => mret s | None => undefined end in
      if negb (dlt =? DLT_RAW) && negb (dlt =? DLT_NULL) && negb (dlt =? DLT_EN10MB) && negb (dlt =? DLT_LINUX_SLL) &&
         negb (dlt =? DLT_LINUX_SLL2)
      then
        s ← description;
        _ ← cout (newline :: chars "Error: unsupported datalink type " ++ s ++ [newline]); exit 1
      else
        s ← description;
        _ ← cout (chars " (type: " ++ s ++ chars ")" ++ [newline]);
        mret dlt
  end.

(** Ends with the status of a [return], if there was one. *)
Definition set_filter `{Pcap} (expression : list (list byte)) : program (option Z) :=
  let filter_expression := concat (map (λ a, a ++ [x20]) expression) in
  _ ← cout (chars "Using filter expression: " ++ filter_expression ++ [newline]);
  match pcap_compile filter_expression with
  | Some e => _ ← cout (chars "Error compiling filter expression: " ++ e ++ [newline]); mret (Some EXIT_FAILURE)
  | None =>
      match pcap_setfilter filter_expression with
      | Some e => _ ← cout (chars "Error configuring packet filter: " ++ e ++ [newline]); mret (Some EXIT_FAILURE)
      | None => mret None
      end
  end.

(** The loop over what [pcap_next_ex] gives: [None] is a timeout; behind the
    list it gives a negative number. *)
Fixpoint capture_loop `{Pcap} (dl_type : Z) (packets : list (option (list byte))) : program (option Z) :=
  match packets with
  | [] => mret None
  | None :: packets => capture_loop dl_type packets
  | Some pkt :: packets =>
      r ← process_packet dl_type pkt;
      match r with
      | Some status => mret (Some status)
      | None => capture_loop dl_type packets
      end
  end.

(** After [pcap_close] the handle is gone: [pcap_geterr] reads freed memory. *)
Definition main `{Pcap} (argv : list (list byte)) (packets : list (option (list byte))) (next_ret : Z) : program Z :=
  arg0 ← arg argv 0;
  '(dev, expression) ← parse_arguments (S (length argv)) arg0 (tail argv) None;
  _ ← cout (match dev with
            | Some d => chars "Capturing on interface " ++ d
            | None => chars "Capturing on all interfaces"
            end);
  dl_type ← open_capture dev;
  failed ← set_filter expression;
  match failed with
  | Some status => mret status
  | None =>
      r ← capture_loop dl_type packets;
      match r with
      | Some status => mret status
      | None => if next_ret =? -1 then undefined else mret EXIT_SUCCESS
      end
  end.

(** ** Where the payload is *)

Lemma byte_at_ret data i : 0 <= i < zlen data -> ∃ v, byte_at data i = Ret v ∧ is_u8 v.
Proof.
  intros Hi. unfold byte_at. destruct (Z.ltb_spec i 0); [lia|].
  destruct (data !! Z.to_nat i) as [b|] eqn:Hb; [by exists (byte_val b); split; [|apply byte_val_range]|].
  apply lookup_ge_None in Hb. unfold zlen in Hi. lia.
Qed.

Lemma byte_at_app a v rest i : zlen a = i -> byte_at (a ++ be_bytes 1 v ++ rest) i = Ret (u8 v).
Proof.
  intros <-. unfold byte_at. pose proof (zlen_nonneg a). destruct (Z.ltb_spec (zlen a) 0); [lia|].
  unfold zlen. rewrite Nat2Z.id, lookup_app_r, Nat.sub_diag by done.
  change (be_bytes 1 v) with [byte_of (v / 1)]. rewrite Z.div_1_r. cbn [app lookup list_lookup]. by rewrite byte_val_of.
Qed.

Lemma bytes_at_ret data i n : 0 <= i -> 0 <= n -> i + n <= zlen data -> bytes_at data i n = Ret (slice data i (i + n)).
Proof.
  intros Hi Hn Hl. unfold bytes_at, slice. destruct (Z.leb_spec 0 i); [|lia]. destruct (Z.leb_spec (i + n) (zlen data)); [|lia].
  cbn [andb]. by replace (i + n - i) with n by lia.
Qed.

Lemma slice_mid {A} (a m rest : list A) i j : zlen a = i -> i + zlen m = j -> slice (a ++ m ++ rest) i j = m.
Proof.
  intros <- <-. unfold slice. replace (zlen a + zlen m - zlen a) with (zlen m) by lia.
  rewrite zdrop_app_ge, Z.sub_diag, zdrop_le_0 by lia. rewrite ztake_app_le by lia. by apply ztake_ge.
Qed.

Lemma to_int_ret z : - 2 ^ 31 <= z < 2 ^ 31 -> to_int z = Ret z.
Proof. intros Hz. unfold to_int. destruct (Z.leb_spec (- 2 ^ 31) z), (Z.ltb_spec z (2 ^ 31)); try lia. done. Qed.

(** The extension headers of an IPv6 packet between [off], where a header of
    type [nxt] begins, and the UDP header at [stop]; each names the type of the
    next one and its own length in its first two bytes. *)
Inductive extensions (data : list byte) : Z -> Z -> Z -> Prop :=
| ext_udp off : extensions data 0x11 off off
| ext_skip nxt off nxt' words stop :
    nxt = 0 ∨ nxt = 43 ∨ nxt = 60 ->
    byte_at data off = Ret nxt' -> byte_at data (off + 1) = Ret words ->
    off + 8 * (1 + words) + 2 <= zlen data ->
    extensions data nxt' (off + 8 * (1 + words)) stop ->
    extensions data nxt off stop.

(** The packet carries a UDP datagram from [src] to [dst], whose payload begins
    at [off]. *)
Inductive udp_at `{Pcap} (data : list byte) (off : Z) (src dst : list byte) : Prop :=
| udp_v4 first :
    byte_at data 0 = Ret first -> Z.land first 0xf0 = 0x40 -> Z.land first 0x0f * 4 <= zlen data ->
    byte_at data 9 = Ret 0x11 -> off = Z.land first 0x0f * 4 + 8 ->
    src = inet_ntoa (be_val (slice data 12 16)) -> dst = inet_ntoa (be_val (slice data 16 20)) ->
    udp_at data off src dst
| udp_v6 first nxt stop :
    byte_at data 0 = Ret first -> Z.land first 0xf0 = 0x60 -> 42 <= zlen data ->
    byte_at data 6 = Ret nxt -> extensions data nxt 40 stop -> off = stop + 8 ->
    src = default (chars "unknown") (inet_ntop6 (slice data 8 24)) ->
    dst = default (chars "unknown") (inet_ntop6 (slice data 24 40)) ->
    udp_at data off src dst.

(** Long enough for the fields the program reads without looking at the
    length. *)
Definition v4_long_enough (data : list byte) : Prop :=
  ∀ first, byte_at data 0 = Ret first -> Z.land first 0xf0 = 0x40 -> 20 <= zlen data.

Lemma extensions_inv data nxt off stop : extensions data nxt off stop ->
  (nxt = 0x11 ∧ stop = off) ∨
  (nxt ≠ 0x11 ∧ (nxt = 0 ∨ nxt = 43 ∨ nxt = 60) ∧ ∃ nxt' words, byte_at data off = Ret nxt' ∧ byte_at data (off + 1) = Ret words ∧
    off + 8 * (1 + words) + 2 <= zlen data ∧ extensions data nxt' (off + 8 * (1 + words)) stop).
Proof. destruct 1 as [|nxt off nxt' words stop Hn]; [by left|right]. split_and!; [lia|done|eauto 10]. Qed.

Lemma skip_headers_spec data fuel nxt off w :
  zlen data < 2 ^ 31 - 4096 -> 0 <= off -> off + 2 <= zlen data -> zlen data - off < Z.of_nat fuel ->
  gives (skip_headers fuel (zlen data) data nxt off) w (λ e w', io_out w' = io_out w ∧
    ((e = -1 ∧ ∀ stop, ¬ extensions data nxt off stop) ∨ (off <= e ∧ e + 2 <= zlen data ∧ extensions data nxt off e))).
Proof.
  intros Hlt. revert nxt off w. induction fuel as [|fuel IH]; intros nxt off w Hoff Hle Hf; [lia|].
  cbn [skip_headers]. destruct (Z.eqb_spec nxt 0x11) as [->|Hne]; cbn [negb].
  { apply gives_ret. split; [done|]. right. split_and!; [lia|done|constructor]. }
  destruct (decide (nxt = 0 ∨ nxt = 43 ∨ nxt = 60)) as [Hn|Hn].
  - replace (negb (nxt =? 0) && negb (nxt =? 43) && negb (nxt =? 60)) with false
      by (destruct (Z.eqb_spec nxt 0), (Z.eqb_spec nxt 43), (Z.eqb_spec nxt 60); done || lia).
    destruct (byte_at_ret data off) as (nxt' & Hb & Hu); [lia|]. destruct (byte_at_ret data (off + 1)) as (words & Hb' & Hu'); [lia|].
    unfold is_u8 in *. rewrite Hb, Hb'.
    assert (∀ stop, off + 8 * (1 + words) + 2 <= zlen data ∧ extensions data nxt' (off + 8 * (1 + words)) stop <-> extensions data nxt off stop) as Hiff.
    { intros stop. split; [intros [? ?]; by eapply ext_skip|]. intros He. apply extensions_inv in He as [[]|(_ & _ & n & wd & H1 & H2 & ? & ?)]; [done|].
      rewrite Hb in H1. rewrite Hb' in H2. by simplify_eq. }
    unfold gives. rewrite !call_bind, to_int_ret, call_bind, to_int_ret, call_bind by lia.
    destruct (Z.ltb_spec (zlen data) (off + 8 * (1 + words) + 2)).
    + apply gives_ret. split; [done|]. left. split; [done|]. intros stop He. apply Hiff in He as [? _]. lia.
    + eapply gives_mono; [apply IH; lia|]. intros e w' [Ho [[-> Hno]|(? & ? & ?)]]; (split; [done|]).
      * left. split; [done|]. intros stop He. apply Hiff in He as [_ He]. by eapply Hno.
      * right. split_and!; [lia|done|]. by apply Hiff.
  - replace (negb (nxt =? 0) && negb (nxt =? 43) && negb (nxt =? 60)) with true
      by (destruct (Z.eqb_spec nxt 0), (Z.eqb_spec nxt 43), (Z.eqb_spec nxt 60); done || tauto).
    unfold gives. rewrite cerr_bind. apply gives_ret. split; [done|]. left. split; [done|].
    intros stop He. by apply extensions_inv in He as [[? _]|(_ & ? & _)].
Qed.

(** Executes calls whose results are known. *)
Ltac run_calls := rewrite ?call_bind, ?cout_bind, ?cerr_bind, ?ret_bind; cbv beta.

Lemma pt_cases first : Z.land first 0xf0 = 0x40 ∨ Z.land first 0xf0 = 0x60 ∨
  ((Z.land first 0xf0 =? 0x40) = false ∧ (Z.land first 0xf0 =? 0x60) = false).
Proof. destruct (Z.eqb_spec (Z.land first 0xf0) 0x40); [tauto|]. destruct (Z.eqb_spec (Z.land first 0xf0) 0x60); tauto. Qed.

Lemma udp_at_inv `{Pcap} data off src dst first : udp_at data off src dst -> byte_at data 0 = Ret first ->
  (Z.land first 0xf0 = 0x40 ∧ Z.land first 0x0f * 4 <= zlen data ∧ byte_at data 9 = Ret 0x11) ∨
  (Z.land first 0xf0 = 0x60 ∧ 42 <= zlen data ∧ ∃ nxt stop, byte_at data 6 = Ret nxt ∧ extensions data nxt 40 stop).
Proof.
  destruct 1 as [f Hf|f nxt stop Hf]; intros He; rewrite He in Hf; injection Hf as <-; [left|right]; split_and!; try done. eauto.
Qed.

(** The header walk: on every packet in which an IPv4 header is not cut off,
    the function stays within the captured bytes and ends; it returns the offset
    of the UDP payload with both addresses if the packet carries UDP, and -1
    otherwise. *)
Lemma process_ipv4_ipv6_spec `{Pcap} data w :
  zlen data < 2 ^ 31 - 4096 -> v4_long_enough data ->
  gives (process_ipv4_ipv6 (zlen data) data) w (λ '(off, (src, dst)) w', io_out w' = io_out w ∧
    ((off = -1 ∧ ∀ off' src' dst', ¬ udp_at data off' src' dst') ∨ (0 <= off < 2 ^ 31 ∧ udp_at data off src dst))).
Proof.
  intros Hlt Hlong. unfold process_ipv4_ipv6. destruct (Z.ltb_spec (zlen data) 1) as [Hz|Hz].
  { apply gives_ret. split; [done|]. left. split; [done|]. rewrite (zlen_0_nil data) by lia. by destruct 1. }
  destruct (byte_at_ret data 0) as (first & Hfirst & Hu); [lia|]. rewrite Hfirst. unfold gives. run_calls.
  pose proof (λ off src dst Hudp, udp_at_inv data off src dst first Hudp Hfirst) as Hinv.
  destruct (pt_cases first) as [Hpt|[Hpt|[H4 H6]]].
  - specialize (Hlong first Hfirst Hpt). rewrite Hpt, Z.eqb_refl.
    assert (0 <= Z.land first 0x0f < 16) as Hh by (change 0x0f with (Z.ones 4); rewrite Z.land_ones by lia; apply Z.mod_pos_bound; lia).
    destruct (Z.ltb_spec (zlen data) (Z.land first 0x0f * 4)).
    { apply gives_ret. split; [done|]. left. split; [done|]. intros off src dst [[]|[]]%Hinv; lia. }
    destruct (byte_at_ret data 9) as (proto & Hproto & _); [lia|]. rewrite Hproto. run_calls.
    destruct (Z.eqb_spec proto 0x11) as [->|Hne]; cbn [negb].
    + unfold inet4_addr. rewrite !bytes_at_ret by lia. unfold mbind at 2 4, outcome_bind. run_calls.
      apply gives_ret. split; [done|]. right. split; [lia|]. by eapply udp_v4.
    + run_calls. apply gives_ret. split; [done|]. left. split; [done|].
      intros off src dst [(_ & _ & Hp)|[]]%Hinv; [|lia]. rewrite Hproto in Hp. by injection Hp.
  - rewrite Hpt, Z.eqb_refl. change (0x60 =? 0x40) with false. cbv iota.
    destruct (Z.ltb_spec (zlen data) 42).
    { apply gives_ret. split; [done|]. left. split; [done|]. intros off src dst [[]|[_ []]]%Hinv; lia. }
    destruct (byte_at_ret data 6) as (nxt & Hnxt & _); [lia|]. rewrite Hnxt. run_calls.
    eapply gives_bind; [apply (skip_headers_spec data); lia|]. cbv beta. intros e w' [Ho [[-> Hno]|(He & Hle & Hext)]].
    + apply gives_ret. split; [done|]. left. split; [done|]. intros off src dst [[]|(_ & _ & n & stop & Hn & Hx)]%Hinv; [lia|].
      rewrite Hnxt in Hn. injection Hn as <-. by eapply Hno.
    + destruct (Z.eqb_spec e (-1)); [lia|]. unfold inet6_addr. rewrite !bytes_at_ret by lia. rewrite to_int_ret by lia.
      unfold mbind at 2 4, outcome_bind. unfold gives. run_calls. apply gives_ret. split; [done|]. right. split; [lia|]. by eapply udp_v6.
  - rewrite H4, H6. apply gives_ret. split; [done|]. left. split; [done|]. intros off src dst [[Hp _]|[Hp _]]%Hinv; rewrite Hp in *; done.
Qed.

(** ** Packets *)

Definition link_size (dl_type : Z) : Z :=
  if dl_type =? DLT_NULL then 4 else if dl_type =? DLT_EN10MB then 14 else if dl_type =? DLT_LINUX_SLL then 16
  else if dl_type =? DLT_LINUX_SLL2 then 20 else 0.
Definition known_link (dl_type : Z) : Prop := dl_type ∈ [DLT_NULL; DLT_EN10MB; DLT_RAW; DLT_LINUX_SLL; DLT_LINUX_SLL2].

(** A packet within the snapshot length of the capture, whose IPv4 and UDP
    headers are not cut off. *)
Definition packet_ok `{Pcap} (dl_type : Z) (pkt : list byte) : Prop :=
  let data := zdrop (link_size dl_type) pkt in
  zlen pkt <= 65535 ∧ v4_long_enough data ∧ ∀ off src dst, udp_at data off src dst -> off <= zlen data.

Lemma ethertype_gives pkt i w (Q : Z -> io -> Prop) :
  0 <= i -> i + 2 <= zlen pkt -> (∀ pt, Q pt w) ->
  gives (hi ← call (byte_at pkt i); lo ← call (byte_at pkt (i + 1)); mret (Z.lor (Z.shiftl hi 8) lo)) w Q.
Proof.
  intros Hi Hl HQ. destruct (byte_at_ret pkt i) as (hi & -> & _); [lia|]. destruct (byte_at_ret pkt (i + 1)) as (lo & -> & _); [lia|].
  unfold gives. run_calls. by apply gives_ret.
Qed.

Lemma link_offset_gives dl_type pkt w : known_link dl_type ->
  gives (link_offset dl_type pkt) w (λ r w', io_out w' = io_out w ∧
    match r with inl r => r = None | inr hdr_off => hdr_off = link_size dl_type ∧ hdr_off <= zlen pkt end).
Proof.
  intros Hdl. pose proof (zlen_nonneg pkt). unfold link_offset.
  assert (∀ s, gives (_ ← cerr (line s); mret (inl (B := Z) (@None Z))) w (λ r w', io_out w' = io_out w ∧
    match r with inl r => r = None | inr hdr_off => hdr_off = link_size dl_type ∧ hdr_off <= zlen pkt end)) as Hskip.
  { intros s. unfold gives. run_calls. by apply gives_ret. }
  unfold known_link in Hdl. rewrite !elem_of_cons, elem_of_nil in Hdl.
  destruct Hdl as [->|[->|[->|[->|[->|[]]]]]]; cbn [Z.eqb Pos.eqb DLT_NULL DLT_EN10MB DLT_RAW DLT_LINUX_SLL DLT_LINUX_SLL2 negb];
    try match goal with |- context [zlen pkt <? ?n] => destruct (Z.ltb_spec (zlen pkt) n); [apply Hskip|] end.
  - destruct (byte_at_ret pkt 3) as (pt & -> & _); [lia|]. unfold gives. run_calls. case_match; [apply Hskip|]. by apply gives_ret.
  - eapply gives_bind; [apply (ethertype_gives pkt 12 w (λ _ w', w' = w)); done || lia|]. cbv beta. intros pt w' ->. case_match; [apply Hskip|]. by apply gives_ret.
  - by apply gives_ret.
  - eapply gives_bind; [apply (ethertype_gives pkt 14 w (λ _ w', w' = w)); done || lia|]. cbv beta. intros pt w' ->. case_match; [apply Hskip|]. by apply gives_ret.
  - eapply gives_bind; [apply (ethertype_gives pkt 0 w (λ _ w', w' = w)); done || lia|]. cbv beta. intros pt w' ->. case_match; [apply Hskip|]. by apply gives_ret.
Qed.

Lemma payload_string pkt off : 0 <= off <= zlen pkt -> zlen pkt <= 65535 ->
  string_of_view pkt off (u64 (zlen pkt - off)) = Ret (zdrop off pkt).
Proof.
  intros Ho Hl. unfold string_of_view. rewrite u64_id by (unfold is_u64; lia). destruct (Z.leb_spec (2 ^ 63 - 1) (zlen pkt - off)); [lia|].
  rewrite bytes_at_ret by lia. unfold slice. rewrite ztake_ge; [done|]. rewrite zlen_zdrop_le by lia. lia.
Qed.

Lemma process_packet_survives `{Pcap} dl_type pkt w : known_link dl_type -> packet_ok dl_type pkt ->
  gives (process_packet dl_type pkt) w (λ r _, r = None).
Proof.
  intros Hdl (Hlen & Hlong & Hcut). unfold process_packet. eapply gives_bind; [by apply link_offset_gives|].
  intros [r|hdr_off] w' [_ Hr]; [by apply gives_ret|]. destruct Hr as [-> Hle].
  assert (0 <= link_size dl_type) by (unfold link_size; repeat case_match; lia).
  set (data := zdrop (link_size dl_type) pkt) in *. assert (zlen data = zlen pkt - link_size dl_type) as Hd by (by apply zlen_zdrop_le).
  pose proof (zlen_nonneg data). rewrite u64_id by (unfold is_u64; lia). unfold i32. rewrite Z.mod_small by lia.
  replace (_ + 2 ^ 31 - 2 ^ 31) with (zlen data) by lia.
  eapply gives_bind; [apply process_ipv4_ipv6_spec; [lia|done]|]. intros [off [src dst]] w'' [_ [[-> _]|[Hoff Hudp]]].
  - unfold gives. run_calls. by apply gives_ret.
  - destruct (Z.ltb_spec off 0); [lia|]. pose proof (Hcut off src dst Hudp). rewrite payload_string by lia. unfold gives. run_calls.
    set (payload := zdrop _ pkt). assert (zlen payload <= 65535) as Hp by (subst payload; rewrite zlen_zdrop; lia).
    destruct (segment_parse_safe default_segment (Buffer_of_string payload) 0) as ([seg res] & -> & _);
      [apply new_parser_at; lia|unfold is_u32; lia|]. run_calls. eapply gives_bind with (P := λ _ _, True).
    + case_match; by apply gives_cout.
    + intros _ w3 _. destruct (hexdump_returns payload 8) as [text ->]; [lia|]. unfold gives. run_calls. by apply gives_ret.
Qed.

Lemma capture_loop_survives `{Pcap} dl_type packets w : known_link dl_type ->
  (∀ pkt, Some pkt ∈ packets -> packet_ok dl_type pkt) -> gives (capture_loop dl_type packets) w (λ r _, r = None).
Proof.
  intros Hdl. revert w. induction packets as [|[pkt|] packets IH]; intros w Hok; cbn [capture_loop].
  - by apply gives_ret.
  - eapply gives_bind; [apply process_packet_survives; [done|apply Hok; left]|]. cbv beta. intros r w' ->. apply IH. intros. apply Hok. by right.
  - apply IH. intros. apply Hok. by right.
Qed.

(** ** A segment that is shown *)

(** The link-layer header of an IPv4 packet. That of a loopback device holds the
    address family in the byte order of the host: the program looks at the byte
    where it is on a big-endian one (see [loopback_skipped]). *)
Inductive link_header : Z -> list byte -> Prop :=
| link_raw : link_header DLT_RAW []
| link_loopback hdr : zlen hdr = 3 -> link_header DLT_NULL (hdr ++ be_bytes 1 2)
| link_ethernet h : eth_header_ok h -> eth_type h = TYPE_IPv4 -> link_header DLT_EN10MB (eth_header_serialize h)
| link_cooked hdr : zlen hdr = 14 -> link_header DLT_LINUX_SLL (hdr ++ be_bytes 1 8 ++ be_bytes 1 0)
| link_cooked2 hdr : zlen hdr = 18 -> link_header DLT_LINUX_SLL2 (be_bytes 1 8 ++ be_bytes 1 0 ++ hdr).

Lemma ethertype_ipv4 a rest w : (hi ← call (byte_at (a ++ be_bytes 1 8 ++ be_bytes 1 0 ++ rest) (zlen a));
    lo ← call (byte_at (a ++ be_bytes 1 8 ++ be_bytes 1 0 ++ rest) (zlen a + 1)); mret (Z.lor (Z.shiftl hi 8) lo)) w = Ret (Val 0x0800, w).
Proof.
  rewrite (byte_at_app a 8 _ (zlen a)) by done. rewrite (app_assoc a). rewrite (byte_at_app (a ++ be_bytes 1 8) 0 rest) by (by rewrite zlen_app). done.
Qed.

Lemma link_offset_ipv4 dl_type hdr rest w : link_header dl_type hdr ->
  link_offset dl_type (hdr ++ rest) w = Ret (Val (inr (zlen hdr)), w).
Proof.
  pose proof (zlen_nonneg rest). destruct 1 as [|hdr Hl|h Hh Ht|hdr Hl|hdr Hl]; unfold link_offset;
    cbn [Z.eqb Pos.eqb DLT_NULL DLT_EN10MB DLT_RAW DLT_LINUX_SLL DLT_LINUX_SLL2 negb]; [done|..].
  - rewrite <- app_assoc, !zlen_app, !zlen_be_bytes, Hl. destruct (Z.ltb_spec (3 + (Z.of_nat 1 + zlen rest)) 4); [lia|].
    rewrite byte_at_app by done. done.
  - rewrite eth_header_serialize_spec, zlen_app, zlen_eth_header_bytes by done. destruct (Z.ltb_spec (14 + zlen rest) 14); [lia|].
    assert (∃ a, zlen a = 12 ∧ eth_header_bytes h ++ rest = a ++ be_bytes 1 8 ++ be_bytes 1 0 ++ rest) as (a & Ha & ->).
    { destruct Hh as [Hd Hs _]. exists (address_bytes (eth_dst h) ++ address_bytes (eth_src h)).
      rewrite zlen_app, !zlen_address_bytes by done. split; [done|]. unfold eth_header_bytes. rewrite Ht. by rewrite <- !app_assoc. }
    unfold mbind at 1, program_bind at 1. rewrite <- Ha. by rewrite ethertype_ipv4.
  - rewrite <- !app_assoc, !zlen_app, !zlen_be_bytes, Hl. destruct (Z.ltb_spec (14 + (Z.of_nat 1 + (Z.of_nat 1 + zlen rest))) 16); [lia|].
    unfold mbind at 1, program_bind at 1. rewrite <- Hl. rewrite ethertype_ipv4, Hl. done.
  - rewrite <- !app_assoc, !zlen_app, !zlen_be_bytes, Hl. destruct (Z.ltb_spec (Z.of_nat 1 + (Z.of_nat 1 + (18 + zlen rest))) 20); [lia|].
    unfold mbind at 1, program_bind at 1. pose proof (ethertype_ipv4 [] (hdr ++ rest) w) as Ht. cbn [app] in Ht. change (zlen []) with 0 in Ht. by rewrite Ht.
Qed.

(** On a little-endian host, an IPv4 packet of a loopback device is taken for
    something else and skipped. *)
Theorem loopback_skipped rest w :
  link_offset DLT_NULL (be_bytes 1 2 ++ replicate 3 x00 ++ rest) w =
    Ret (Val (inl None), mkIO (io_out w) (io_err w ++ line "[INFO] Skipping non-IP packet.")).
Proof.
  unfold link_offset. cbn [Z.eqb DLT_NULL]. rewrite !zlen_app, zlen_be_bytes. pose proof (zlen_nonneg rest). change (zlen (replicate 3 x00)) with 3.
  destruct (Z.ltb_spec (Z.of_nat 1 + (3 + zlen rest)) 4); [lia|].
  change (be_bytes 1 2 ++ replicate 3 x00 ++ rest) with ([x02; x00; x00] ++ be_bytes 1 0 ++ rest). by rewrite byte_at_app.
Qed.

Lemma ip_header_fields h rest : ip_header_ok h ->
  byte_at (ip_header_bytes h ++ rest) 0 = Ret (64 + ip_hlen h) ∧ byte_at (ip_header_bytes h ++ rest) 9 = Ret (ip_proto h) ∧
  bytes_at (ip_header_bytes h ++ rest) 12 4 = Ret (be_bytes 4 (ip_src h)) ∧
  bytes_at (ip_header_bytes h ++ rest) 16 4 = Ret (be_bytes 4 (ip_dst h)).
Proof.
  intros Hh. pose proof (zlen_nonneg rest). pose proof (ipk_hlen _ Hh). pose proof (ipk_proto _ Hh).
  assert (20 <= zlen (ip_header_bytes h ++ rest)) as Hl by (rewrite zlen_app, zlen_ip_header_bytes by lia; lia).
  rewrite !bytes_at_ret by lia.
  set (front := be_bytes 1 (ip_tos h) ++ be_bytes 2 (ip_len h) ++ be_bytes 2 (ip_id h) ++ be_bytes 2 (ip_fo_val h) ++ be_bytes 1 (ip_ttl h)).
  set (pad := replicate (Z.to_nat (4 * ip_hlen h - 20)) x00 ++ rest).
  assert (ip_header_bytes h ++ rest = be_bytes 1 (64 + ip_hlen h) ++ front ++ be_bytes 1 (ip_proto h) ++ be_bytes 2 (ip_cksum h) ++
    be_bytes 4 (ip_src h) ++ be_bytes 4 (ip_dst h) ++ pad) as ->
    by (unfold ip_header_bytes, ip_front, ip_back, front, pad; by rewrite <- !app_assoc).
  assert (zlen front = 8) as Hf by (unfold front; by rewrite !zlen_app, !zlen_be_bytes). clearbody front pad. split_and!.
  - etransitivity; [exact (byte_at_app [] (64 + ip_hlen h) _ 0 eq_refl)|]. rewrite u8_id; [done|unfold is_u8; lia].
  - rewrite app_assoc, byte_at_app by (rewrite zlen_app, zlen_be_bytes; lia). by rewrite u8_id.
  - f_equal. rewrite app_assoc, (app_assoc (_ ++ _)), (app_assoc ((_ ++ _) ++ _)). apply slice_mid; rewrite ?zlen_app, !zlen_be_bytes; lia.
  - f_equal. rewrite app_assoc, (app_assoc (_ ++ _)), (app_assoc ((_ ++ _) ++ _)), (app_assoc (((_ ++ _) ++ _) ++ _)).
    apply slice_mid; rewrite ?zlen_app, !zlen_be_bytes; lia.
Qed.

Lemma segment_line_cong src dst seg seg' res n :
  header seg = header seg' -> str (payload seg) = str (payload seg') -> segment_line src dst seg res n = segment_line src dst seg' res n.
Proof. intros Hh Hp. unfold segment_line, length_in_sequence_space. by rewrite Hh, Hp. Qed.

Lemma inet4_addr_bytes data i ip : bytes_at data i 4 = Ret (be_bytes 4 ip) -> is_u32 ip -> inet4_addr data i = Ret (inet_ntoa ip).
Proof. intros Hb Hip. unfold inet4_addr. rewrite Hb. unfold mbind, outcome_bind. by rewrite be_val_bytes_id. Qed.

(** An IPv4 datagram whose protocol is UDP. *)
Lemma process_ipv4 `{Pcap} h rest w : ip_header_ok h -> ip_proto h = 17 ->
  process_ipv4_ipv6 (zlen (ip_header_bytes h ++ rest)) (ip_header_bytes h ++ rest) w =
    Ret (Val (4 * ip_hlen h + 8, (inet_ntoa (ip_src h), inet_ntoa (ip_dst h))), w).
Proof.
  intros Hh Hp. destruct (ip_header_fields h rest Hh) as (H0 & H9 & H12 & H16). pose proof (ipk_hlen _ Hh).
  pose proof (ipk_src _ Hh). pose proof (ipk_dst _ Hh).
  assert (4 * ip_hlen h <= zlen (ip_header_bytes h ++ rest)) as Hl
    by (rewrite zlen_app, zlen_ip_header_bytes by lia; pose proof (zlen_nonneg rest); lia).
  unfold process_ipv4_ipv6. destruct (Z.ltb_spec (zlen (ip_header_bytes h ++ rest)) 1); [lia|].
  destruct (first_byte_spec h (ipk_ver _ Hh) ltac:(lia)) as (_ & Hver & Hhl).
  assert (Z.land (64 + ip_hlen h) 0xf0 = 0x40) as Hpt.
  { assert (ip_hlen h ∈ seqZ 0 16) as Hin by (apply elem_of_seqZ; lia). revert Hin. generalize (ip_hlen h). clear. apply Forall_forall. repeat constructor. }
  rewrite H0. run_calls. rewrite Hpt, Z.eqb_refl, Hhl. destruct (Z.ltb_spec (zlen (ip_header_bytes h ++ rest)) (ip_hlen h * 4)); [lia|].
  rewrite H9, Hp. run_calls. cbn [Z.eqb Pos.eqb negb]. rewrite (inet4_addr_bytes _ _ _ H12), (inet4_addr_bytes _ _ _ H16) by done.
  run_calls. by rewrite Z.mul_comm.
Qed.


Definition sample_pcap : Pcap := {|
  pcap_open_live := λ _, inr DLT_RAW;
  pcap_datalink_val_to_description := λ _, Some (chars "Raw IP");
  pcap_compile := λ _, None;
  pcap_setfilter := λ _, None;
  inet_ntop6 := λ _, Some (chars "::1")
|}.
Definition sample_udp_header : IPv4Header :=
  mkIPv4Header 4 5 0 51 0 true false 0 64 17 0 167772161 167772162.
Lemma sample_udp_header_ok : ip_header_ok sample_udp_header.
Proof. split; cbn; unfold_uint; lia. Qed.


(** ** The whole program *)

(** The first argument of the filter is not taken for an option. *)
Definition no_option (expression : list (list byte)) : Prop :=
  match expression with
  | a :: _ => strncmp (chars "-i") a 3 = false ∧ strncmp (chars "-h") a 3 = false ∧ strncmp (chars "--help") a 7 = false
  | [] => True
  end.
Definition device_args (dev : option (list byte)) : list (list byte) :=
  match dev with Some d => [chars "-i"; d] | None => [] end.

Lemma parse_arguments_end fuel arg0 expression dev w : no_option expression ->
  parse_arguments (S fuel) arg0 expression dev w = Ret (Val (dev, expression), w).
Proof. destruct expression as [|a expression]; [done|]. intros (H1 & H2 & H3). cbn. unfold mbind, program_bind, arg, mret, program_ret. cbn. by rewrite H1, H2, H3. Qed.

Lemma parse_arguments_spec arg0 dev expression w : no_option expression ->
  parse_arguments (S (S (length (device_args dev ++ expression)))) arg0 (device_args dev ++ expression) None w = Ret (Val (dev, expression), w).
Proof. intros Hn. destruct dev as [d|]; [|by apply parse_arguments_end]. etransitivity; [|apply (parse_arguments_end (S (S (length expression))) arg0 expression (Some d) w Hn)]. done. Qed.


Definition sample_packet : list byte :=
  ip_header_bytes sample_udp_header ++ replicate 8 x00 ++ chars "not a segment".

Lemma sample_packet_ok : packet_ok (H := sample_pcap) DLT_RAW sample_packet.
Proof.
  unfold packet_ok. change (zdrop (link_size DLT_RAW) sample_packet) with sample_packet. split_and!; [by vm_compute|by intros f _ _; vm_compute|].
  destruct 1 as [f Hf _ _ _ -> _ _|f nxt stop Hf Hpt]; vm_compute in Hf; injection Hf as <-; [by vm_compute|done].
Qed.


(** ** Where the program fails *)

(** The conditions on the packets are needed. The first byte of an IPv4 packet
    alone makes the program read outside the packet; a datagram that ends with its
    IPv4 header makes the length of the payload wrap around, and the exception of
    the string that long leaves [main]; when the capture ends in an error, the
    message is taken from a handle that was closed. *)
Theorem tcpdump_fails :
  let run packets next_ret := main (H := sample_pcap) [chars "udp_tcpdump"] packets next_ret no_output in
  run [Some [x40]] (-2) = Undef ∧
  (∃ w, run [Some (ip_header_bytes sample_udp_header)] (-2) = Ret (Raised (length_error "basic_string::_M_create"), w)) ∧
  run [] (-1) = Undef.
Proof. cbv zeta. split_and!; [by vm_compute| |by vm_compute]. eexists. by vm_compute. Qed.

(** A segment with a wrong checksum is shown as incorrect, but with the fields
    of an empty header: the parser has read none. *)
Lemma bad_checksum_shown_empty `{Pcap} src dst payload w v n :
  value (add (new_InternetChecksum 0) payload) = Ret v -> v ≠ 0 ->
  segment_parse default_segment (Buffer_of_string payload) 0 = Ret (default_segment, BadChecksum) ∧
  cout (segment_line src dst default_segment BadChecksum n) w =
    Ret (Val tt, mkIO (io_out w ++ src ++ chars ":0 > " ++ dst ++ chars ":0" ++ newline ::
      chars "    Flags [] cksum 0x0000 (incorrect!) seq 0 ack 0 win 0 length " ++ dec n ++ [newline]) (io_err w)).
Proof.
  intros Hv Hne. split; [|done]. unfold segment_parse. rewrite str_of_string, Hv. unfold mbind, outcome_bind.
  by destruct (Z.eqb_spec v 0).
Qed.

(** The option that reads the filter from a file is announced but not
    recognized: its name and its argument become part of the filter. *)
Example filter_file_not_read :
  ∃ w, main (H := sample_pcap) [chars "udp_tcpdump"; chars "-F"; chars "f.txt"] [] (-2) no_output = Ret (Val EXIT_SUCCESS, w) ∧
    io_out w = chars "Capturing on all interfaces (type: Raw IP)" ++ newline :: chars "Using filter expression: -F f.txt " ++ [newline].
Proof. eexists. split; by vm_compute. Qed.
