(* ===== verification/Tun.v ===== *)
(** [util/tun.hh], [util/tun.cc]: TUN and TAP devices; [apps/tun.cc], which
    shows the packets that arrive on one. What the system calls return is an
    argument. *)
From S2P Require Import Prelude Buffer Parser Checksum TCPSegment IPv4 Format Printing Address Adapters FileDescriptor Program.

Definition IFF_TUN : Z := 1.
Definition IFF_TAP : Z := 2.
Definition IFF_NO_PI : Z := 0x1000.
Definition IFNAMSIZ : Z := 16.

(** The fields of [ifreq] that are used. *)
Record ifreq := mkIfreq {
  ifr_name : list byte;
  ifr_flags : Z
}.

(** The characters before the terminating zero. *)
Fixpoint c_chars (s : list byte) : list byte :=
  match s with
  | [] => []
  | c :: s => if bool_decide (c = x00) then [] else c :: c_chars s
  end.

(** [strncpy(dst, src, n)] into an array: copies up to the zero of the source,
    and fills the rest of the [n] bytes with zeros. *)
Definition strncpy (dst src : list byte) (n : Z) : list byte :=
  let s := ztake n (c_chars src) in
  s ++ replicate (Z.to_nat (n - zlen s)) x00 ++ zdrop n dst.

Definition tun_request (devname : list byte) (is_tun : bool) : ifreq :=
  let tun_req := mkIfreq (replicate (Z.to_nat IFNAMSIZ) x00) (Z.lor (if is_tun then IFF_TUN else IFF_TAP) IFF_NO_PI) in
  let name := strncpy (ifr_name tun_req) devname (IFNAMSIZ - 1) in
  mkIfreq (<[Z.to_nat (IFNAMSIZ - 1) := x00]> name) (ifr_flags tun_req).

(** The constructor: [ioctl] is given the request, what it returns depends on
    it. *)
Definition new_TunTapFD (devname : list byte) (is_tun : bool) (opened : sysret) (ioctl : ifreq -> sysret) : outcome FDWrapper :=
  fd ← SystemCall "open" opened 0;
  f ← new_FDWrapper fd;
  _ ← SystemCall "ioctl" (ioctl (tun_request devname is_tun)) 0;
  Ret f.
Definition new_TunFD (devname : list byte) : sysret -> (ifreq -> sysret) -> outcome FDWrapper := new_TunTapFD devname true.
Definition new_TapFD (devname : list byte) : sysret -> (ifreq -> sysret) -> outcome FDWrapper := new_TunTapFD devname false.

(** ** The program *)

(** The loop for one packet. *)
Definition show_packet (buffer : list byte) : program unit :=
  _ ← cout ([newline; newline] ++ line "***" ++ line "*** Got packet:" ++ line "***");
  text ← call (hexdump buffer 0);
  _ ← cout text;
  _ ← cout (chars "attempting to parse as ipv4 datagram... ");
  '(ip_dgram, res) ← call (datagram_parse default_datagram (Buffer_of_string buffer));
  if negb (bool_decide (res = NoError)) then cout (line "failed.")
  else
    let h := dg_header ip_dgram in
    _ ← cout (chars "success! totlen=" ++ dec (ip_len h) ++ line ", IPv4 header contents:");
    _ ← cout (ip_to_string h);
    if negb (ip_proto h =? PROTO_TCP) then cout (newline :: line "Not TCP, skipping.")
    else
      _ ← cout (newline :: chars "Attempting to parse as a TCP segment... ");
      b ← call (to_Buffer (dg_payload ip_dgram));
      '(tcp_seg, res) ← call (segment_parse default_segment b (pseudo_cksum h));
      if negb (bool_decide (res = NoError)) then cout (line "failed.")
      else
        _ ← cout (chars "success! payload len=" ++ dec (size (payload tcp_seg)) ++ line ", TCP header contents:");
        cout (tcp_to_string (header tcp_seg) ++ [newline]).

(** [reads] are the results of the calls of [read]; with none left the program
    waits. *)
Fixpoint packet_loop (tun : FDWrapper) (reads : list (sysret * list byte)) : program unit :=
  match reads with
  | [] => diverges
  | (r, data) :: reads =>
      '(tun, buffer) ← call (fd_read tun (2 ^ 64 - 1) r data);
      _ ← show_packet buffer;
      packet_loop tun reads
  end.

Definition tun_main `{ErrorText} (opened : sysret) (ioctl : ifreq -> sysret) (reads : list (sysret * list byte)) : program Z :=
  try_catch
    (tun ← call (new_TunFD (chars "tun144") opened ioctl);
     _ ← packet_loop tun reads;
     mret EXIT_SUCCESS)
    (λ e, _ ← cout (chars "Exception: " ++ what e ++ [newline]); mret EXIT_FAILURE).

(** ** Theorems *)

Lemma zlen_strncpy dst src n : 0 <= n <= zlen dst -> zlen (strncpy dst src n) = zlen dst.
Proof.
  intros Hn. unfold strncpy. rewrite !zlen_app, zlen_replicate, zlen_zdrop, zlen_ztake. pose proof (zlen_nonneg (c_chars src)). lia.
Qed.

Lemma c_chars_id s : c_string s -> c_chars s = s.
Proof.
  induction s as [|c s IH]; [done|]. intros Hs. cbn. rewrite bool_decide_false by (intros ->; apply Hs; by left).
  f_equal. apply IH. intros Hin. apply Hs. by right.
Qed.

(** The name in the request: terminated, and cut after fifteen characters. *)
Lemma tun_request_name devname is_tun : c_string devname ->
  ifr_name (tun_request devname is_tun) = ztake 15 devname ++ replicate (Z.to_nat (16 - zlen (ztake 15 devname))) x00.
Proof.
  intros Hc. unfold tun_request, strncpy. cbn [ifr_name]. rewrite c_chars_id by done. unfold IFNAMSIZ. change (16 - 1) with 15.
  set (s := ztake 15 devname). assert (zlen s <= 15) as Hs by (unfold s; rewrite zlen_ztake; lia). pose proof (zlen_nonneg s).
  change (zdrop 15 (replicate (Z.to_nat 16) x00)) with [x00].
  rewrite (insert_app_r_alt) by (unfold zlen in *; lia). f_equal. rewrite insert_app_r_alt by (rewrite length_replicate; unfold zlen in *; lia).
  rewrite length_replicate. replace (Z.to_nat 15 - length s - Z.to_nat (15 - zlen s))%nat with 0%nat by (unfold zlen in *; lia).
  cbn [insert list_insert]. rewrite <- replicate_cons_app. rewrite <- replicate_S. f_equal. lia.
Qed.

(** Equal requests for devices whose names agree in fifteen characters. *)
Example long_names_collide :
  tun_request (chars "a-long-name-of-tun1") true = tun_request (chars "a-long-name-of-tun2") true.
Proof. reflexivity. Qed.

(** Whatever bytes a packet has, it is shown without exception or undefined
    behaviour. *)
Lemma show_packet_any buffer w : zlen buffer < 2 ^ 31 -> gives (show_packet buffer) w (λ _ _, True).
Proof.
  intros Hlt. unfold show_packet, gives. rewrite cout_bind. destruct (hexdump_returns buffer 0 Hlt) as [text ->].
  rewrite call_bind, !cout_bind. destruct (datagram_parse_any buffer) as ([d res] & -> & _ & _ & b & Hpl & Hb); [lia|].
  rewrite call_bind. case_match; [by apply gives_cout|]. rewrite !cout_bind. case_match; [by apply gives_cout|].
  rewrite cout_bind, Hpl. cbn [to_Buffer]. rewrite call_bind.
  destruct (segment_parse_safe default_segment b (pseudo_cksum (dg_header d)) Hb (u32_range _)) as ([seg r] & -> & _).
  rewrite call_bind. case_match; [by apply gives_cout|]. rewrite cout_bind. by apply gives_cout.
Qed.

Lemma packet_loop_any tun packets reads w : Forall (λ p, zlen p <= BUFFER_SIZE) packets ->
  ∃ tun' w', packet_loop tun (map (λ p, (sys_ok (zlen p), p)) packets ++ reads) w = packet_loop tun' reads w'.
Proof.
  intros Hp. revert tun w. induction Hp as [|p packets Hl Hp IH]; intros tun w; [by exists tun, w|]. unfold BUFFER_SIZE in Hl.
  cbn [map app packet_loop]. rewrite fd_read_ok by (unfold BUFFER_SIZE; lia). rewrite call_bind. set (tun1 := register_read _).
  unfold mbind, program_bind. destruct (show_packet_any p w) as ([] & w1 & -> & _); [lia|]. apply IH.
Qed.

Lemma new_TunTapFD_ok devname is_tun fd : 0 <= fd < 2 ^ 31 ->
  new_TunTapFD devname is_tun (sys_ok fd) (λ _, sys_ok 0) = Ret (mkFD fd false false 0 0).
Proof.
  intros Hfd. unfold new_TunTapFD. rewrite !SystemCall_ok by lia. unfold mbind, outcome_bind, new_FDWrapper.
  destruct (Z.ltb_spec fd 0); [lia|]. done.
Qed.

(** The program on any packets: it shows them all, and ends only with an error
    of [read], which it reports, in status 1. *)
Theorem tun_main_any `{ErrorText} fd packets errno :
  0 <= fd < 2 ^ 31 -> errno ≠ 0 -> Forall (λ p, zlen p <= BUFFER_SIZE) packets ->
  ∃ shown, tun_main (sys_ok fd) (λ _, sys_ok 0) (map (λ p, (sys_ok (zlen p), p)) packets ++ [(mkSys (-1) errno, [])]) no_output =
    Ret (Val EXIT_FAILURE, mkIO (io_out shown ++ chars "Exception: " ++ (chars "read: " ++ strerror errno) ++ [newline]) (io_err shown)).
Proof.
  intros Hfd He Hp. unfold tun_main, try_catch, new_TunFD. rewrite new_TunTapFD_ok, call_bind by done.
  unfold mbind at 1, program_bind at 1.
  destruct (packet_loop_any (mkFD fd false false 0 0) packets [(mkSys (-1) errno, [])] no_output Hp) as (tun & w & ->).
  exists w. cbn [packet_loop]. unfold fd_read, SystemCall. change (0 <=? i32 (sys_ret (mkSys (-1) errno))) with false. cbn [orb sys_errno].
  destruct (Z.eqb_spec errno 0); [done|]. done.
Qed.

Definition sample_errors : ErrorText := {| strerror := λ _, chars "Input/output error"; gai_strerror := λ _, chars "error" |}.

Lemma tun_main_any_witness :
  ∃ shown, tun_main (H := sample_errors) (sys_ok 3) (λ _, sys_ok 0)
      (map (λ p, (sys_ok (zlen p), p)) [minimal_packet; [x40]; []] ++ [(mkSys (-1) 5, [])]) no_output =
    Ret (Val EXIT_FAILURE, mkIO (io_out shown ++ chars "Exception: " ++ (chars "read: " ++ strerror (ErrorText := sample_errors) 5) ++ [newline]) (io_err shown)).
Proof.
  apply (tun_main_any (H := sample_errors) 3 [minimal_packet; [x40]; []] 5).
  - lia.
  - discriminate.
  - repeat constructor; vm_compute; discriminate.
Defined.

(** A segment that an adapter wrote to a device is shown with both headers. *)
Lemma show_packet_segment a seg w : base_ok a -> segment_ok seg ->
  ∃ packet text d c c', tun_write a seg = Ret (packet, addressed a seg) ∧ wrap_tcp_in_ip a seg = Ret (d, addressed a seg) ∧
    hexdump (concatenate packet) 0 = Ret text ∧
    gives (show_packet (concatenate packet)) w (λ _ w', io_out w' = io_out w ++
      [newline; newline] ++ line "***" ++ line "*** Got packet:" ++ line "***" ++ text ++ chars "attempting to parse as ipv4 datagram... " ++
      (chars "success! totlen=" ++ dec (ip_len (dg_header d)) ++ line ", IPv4 header contents:") ++
      ip_to_string (set_ip_cksum c (dg_header d)) ++ (newline :: chars "Attempting to parse as a TCP segment... ") ++
      (chars "success! payload len=" ++ dec (zlen (str (payload seg))) ++ line ", TCP header contents:") ++
      tcp_to_string (set_cksum c' (header (addressed a seg))) ++ [newline]).
Proof.
  intros Ha Hs. destruct (wrap_spec a seg Ha Hs) as (d & c' & Hw & Hd & _ & Hh & Hparse).
  destruct (tun_write_safe a seg Ha Hs) as (d' & Hw' & _ & Htw). rewrite Hw in Hw'. injection Hw' as <-.
  destruct (datagram_parse_wire default_datagram d Hd) as (d' & c & Hdp & Hh' & _ & (buf & Hpl & Hat) & _).
  destruct (Hparse default_segment buf Hat) as ([seg' res] & Hsp & -> & Hsh & Hstr).
  assert (zlen (concatenate (dg_wire d)) < 2 ^ 31) as Hlt.
  { pose proof Hd as [Hhd Hl]. unfold dg_wire. cbn [concatenate]. rewrite str_of_string, zlen_app, zlen_ip_header_bytes by (cbn; pose proof (ipk_hlen _ Hhd); lia).
    cbn [ip_hlen set_ip_cksum]. pose proof (ipk_len _ Hhd) as Hu. unfold is_u16 in Hu. lia. }
  destruct (hexdump_returns _ 0 Hlt) as [text Htext]. exists (dg_wire d), text, d, c, c'. split_and!; [done|done|done|].
  unfold show_packet, gives. rewrite cout_bind, Htext, call_bind, !cout_bind, Hdp, call_bind. rewrite bool_decide_true by done. cbn [negb].
  rewrite !cout_bind, Hh'. replace (ip_proto (set_ip_cksum c (dg_header d)) =? PROTO_TCP) with true by (by rewrite Hh). cbn [negb].
  rewrite cout_bind, Hpl. cbn [to_Buffer]. rewrite call_bind. change (pseudo_cksum (set_ip_cksum c (dg_header d))) with (pseudo_cksum (dg_header d)).
  rewrite Hsp, call_bind. rewrite bool_decide_true by done. cbn [negb]. rewrite cout_bind. apply gives_cout.
  unfold size. rewrite Hstr, Hsh. cbn [io_out]. by rewrite <- !app_assoc.
Qed.
