(* ===== verification/SocketThread.v ===== *)
(** The rest of [tcp_sponge_socket.cc]: how a [TCPSpongeSocket] is made and
    taken down, with the thread that runs the connection, and the two sockets
    whose configuration is fixed. *)
From S2P Require Import Prelude Buffer WrappingIntegers TCPSegment TCPSender TCPState TCPConnection Ethernet Random Format Address NetworkInterface Adapters FileDescriptor EventLoop Kernel SpongeSocket Program Tun.

(** ** Construction *)

(** [fds] is what [socketpair] stores. *)
Definition socket_pair_helper (r : sysret) (fds : Z * Z) : outcome (FDWrapper * FDWrapper) :=
  _ ← SystemCall "socketpair" r 0;
  first ← new_FDWrapper fds.1;
  second ← new_FDWrapper fds.2;
  Ret (first, second).

(** The owner's and the thread's end; the options are those of each, and the
    thread's end is made non-blocking, with the flags given to [fcntl]. *)
Definition new_TCPSpongeSocket (data_socket_pair : FDWrapper * FDWrapper) (owner_options thread_options : sockopt * sockopt)
    (getfl setfl : sysret) : outcome (FDWrapper * FDWrapper * Z) :=
  owner ← LocalStreamSocket_of_fd data_socket_pair.1 owner_options.1 owner_options.2;
  thread_data ← LocalStreamSocket_of_fd data_socket_pair.2 thread_options.1 thread_options.2;
  flags ← set_blocking false getfl setfl;
  Ret (owner, thread_data, flags).

Section thread.
Context {A : Type} `{FdAdapter A} `{ErrorText} (chunk room : @socket_state A _ -> Z).

(** ** The thread *)

(** [_tcp_main], for what each iteration of its loop is given; while there is
    more to come it does not return. [shut] is what [shutdown] returns. *)
Definition tcp_main (inputs : list ((list Z -> poll_result) * bool * Z)) (base_time : Z) (owner : FDWrapper) (shut : sysret)
    (rules : list (@Rule socket_state sock_fd)) (w : option (@socket_state A _)) : program FDWrapper :=
  try_catch
    (match w with
     | None => call (Throw (runtime_error "no TCP"))
     | Some w =>
         '(running, rules, w) ← call (tcp_loop (λ _, true) inputs base_time rules w);
         if running : bool then diverges
         else
           '(owner, _, _, _) ← call (tcp_main_end owner shut w);
           _ ← when (negb (active (ss_tcp w)))
                 (cerr (chars "DEBUG: TCP connection finished " ++
                        (if state_eqb (state (ss_tcp w)) (of_state RESET) then chars "uncleanly" else line "cleanly.")));
           mret owner
     end)
    (λ e, _ ← cerr (chars "Exception in TCPConnection runner thread: " ++ what e ++ [newline]); call (Throw e)).

(** An exception that leaves the function of a thread ends the program. *)
Definition ABORTED : Z := 134.
Definition join (thread : program FDWrapper) : program FDWrapper := λ w,
  match thread w with
  | Ret (Raised _, w) => Ret (Exited ABORTED, w)
  | r => r
  end.

(** [thread] is what a joinable thread does, for the owner's descriptor. *)
Definition wait_until_closed (owner : FDWrapper) (shut : sysret) (thread : option (FDWrapper -> program FDWrapper)) : program FDWrapper :=
  owner ← call (socket_shutdown owner SHUT_RDWR shut);
  match thread with
  | Some thread =>
      _ ← cerr (chars "DEBUG: Waiting for clean shutdown... ");
      owner ← join (thread owner);
      _ ← cerr (line "done.");
      mret owner
  | None => mret owner
  end.

(** [_abort] is set before the thread is joined. *)
Definition destroy_socket (owner : FDWrapper) (thread : option (bool -> FDWrapper -> program FDWrapper)) : program FDWrapper :=
  try_catch
    (match thread with
     | Some thread => _ ← cerr (line "Warning: unclean shutdown of TCPSpongeSocket"); join (thread true owner)
     | None => mret owner
     end)
    (λ e, _ ← cerr (chars "Exception destructing TCPSpongeSocket: " ++ what e ++ [newline]); mret owner).
End thread.

(** ** The sockets with fixed configurations *)

Section fixed.
Context `{Resolver} {R : Type} `{RandomGenerator R}.

Definition random_port (g : R) : list byte * R := let '(x, g) := rand_next g in (dec (u16 x), g).

(** [opened] and [ioctl] are the results of opening the device. *)
Definition new_CS144TCPSocket (opened : sysret) (ioctl : ifreq -> sysret) : outcome (FDWrapper * TunAdapter) :=
  tun ← new_TunFD (chars "tun144") opened ioctl;
  Ret (tun, mkTun new_FdAdapterBase).

(** The configuration both [connect]s use, for their own address. *)
Definition fixed_config (local : list byte) (address : Address) (g : R) : outcome (TCPConfig * FdAdapterConfig * R) :=
  let tcp_config := mkConfig 100 DEFAULT_CAPACITY DEFAULT_CAPACITY None in
  let '(port, g) := random_port g in
  source ← Address_named local port;
  Ret (tcp_config, mkFdAdapterConfig source address (loss_rate_dn default_config) (loss_rate_up default_config), g).

Definition CS144_connect (address : Address) (g : R) (thread_data device : FDWrapper) (a : TunAdapter) : outcome (@socket_state TunAdapter _ * R) :=
  '(tcp_config, multiplexer_config, g) ← fixed_config (chars "169.254.144.9") address g;
  let '(random, g) := rand_next (R := R) g in
  w ← sponge_connect None tcp_config multiplexer_config random thread_data device a;
  Ret (w, g).

Definition LOCAL_TAP_IP_ADDRESS : list byte := chars "169.254.10.9".
Definition LOCAL_TAP_NEXT_HOP_ADDRESS : list byte := chars "169.254.10.1".

(** The constructor, with the frame that the adapter writes. *)
Definition new_FullStackSocket (opened : sysret) (ioctl : ifreq -> sysret) (g : R)
    : outcome (FDWrapper * EthernetAdapter * list BufferList * R) :=
  tap ← new_TapFD (chars "tap10") opened ioctl;
  let '(eth, g) := random_private_ethernet_address g in
  ip ← Address_named LOCAL_TAP_IP_ADDRESS (chars "0");
  next_hop ← Address_named LOCAL_TAP_NEXT_HOP_ADDRESS (chars "0");
  let '(a, written) := new_EthernetAdapter eth ip next_hop in
  Ret (tap, a, written, g).

Definition FullStack_connect (address : Address) (g : R) (thread_data device : FDWrapper) (a : EthernetAdapter) : outcome (@socket_state EthernetAdapter _ * R) :=
  '(tcp_config, multiplexer_config, g) ← fixed_config LOCAL_TAP_IP_ADDRESS address g;
  let '(random, g) := rand_next (R := R) g in
  w ← sponge_connect None tcp_config multiplexer_config random thread_data device a;
  Ret (w, g).
End fixed.

(** ** The end of the thread *)

Section ends.
Context {A : Type} `{FdAdapter A} `{ErrorText}.
Implicit Types (rules : list (@Rule (@socket_state A _) sock_fd)) (ws : @socket_state A _).

Lemma shutdown_ok owner : socket_shutdown owner SHUT_RDWR (sys_ok 0) = Ret (register_write (register_read owner)).
Proof. done. Qed.

(** An exception in the loop of the thread is reported and ends the program
    while the owner waits for the thread. *)
Theorem thread_exception_aborts inputs base_time owner rules ws e w :
  tcp_loop (λ _, true) inputs base_time rules ws = Throw e ->
  wait_until_closed owner (sys_ok 0) (Some (λ owner, tcp_main inputs base_time owner (sys_ok 0) rules (Some ws))) w =
    Ret (Exited ABORTED, mkIO (io_out w) (io_err w ++ chars "DEBUG: Waiting for clean shutdown... " ++
      chars "Exception in TCPConnection runner thread: " ++ what e ++ [newline])).
Proof.
  intros Hloop. unfold wait_until_closed. rewrite shutdown_ok, call_bind, cerr_bind. unfold mbind at 1, program_bind at 1.
  unfold join, tcp_main, try_catch. unfold mbind at 1, program_bind at 1. rewrite Hloop. cbn [call].
  rewrite cerr_bind. cbn [call io_out io_err]. by rewrite <- app_assoc.
Qed.

(** When the loop has ended because nothing is left to do, the owner's end is
    shut down in both directions and [wait_until_closed] returns. *)
Lemma wait_until_closed_returns inputs base_time owner rules rules' ws ws' w :
  tcp_loop (λ _, true) inputs base_time rules ws = Ret (false, rules', ws') ->
  gives (wait_until_closed owner (sys_ok 0) (Some (λ owner, tcp_main inputs base_time owner (sys_ok 0) rules (Some ws)))) w
    (λ f w', f = register_write (register_read (register_write (register_read owner))) ∧ io_out w' = io_out w).
Proof.
  intros Hloop. unfold wait_until_closed, gives. rewrite shutdown_ok, call_bind, cerr_bind.
  eapply gives_bind with (P := λ f w', f = register_write (register_read (register_write (register_read owner))) ∧ io_out w' = io_out w).
  - assert (∃ w', tcp_main inputs base_time (register_write (register_read owner)) (sys_ok 0) rules (Some ws) (mkIO (io_out w) (io_err w ++ chars "DEBUG: Waiting for clean shutdown... ")) =
      Ret (Val (register_write (register_read (register_write (register_read owner)))), w') ∧ io_out w' = io_out w) as (w' & Hm & Ho).
    { unfold tcp_main, try_catch. rewrite Hloop, call_bind. unfold tcp_main_end. rewrite shutdown_ok. cbn [mbind outcome_bind]. rewrite call_bind.
      destruct (active (ss_tcp ws')); cbn [negb when]; [by eexists|]. rewrite cerr_bind. by eexists. }
    unfold join, gives. rewrite Hm. by eexists _, w'.
  - intros f w' [-> Ho]. unfold gives. rewrite cerr_bind. apply gives_ret. by split.
Qed.
End ends.

(** ** The full stack *)

Section full_stack.
Context `{Resolver} {R : Type} `{RandomGenerator R}.

(** The texts of the fixed addresses. *)
Lemma fixed_address text ip p : inet_aton (chars text) = Some ip -> is_u16 p -> Address_named (chars text) (dec p) = Ret (Address_of_ip ip p).
Proof.
  intros Hip Hp. unfold Address_named, resolve_address, getaddrinfo. rewrite Hip.
  unfold numeric_service, dec. rewrite <- (app_nil_r (print_uint 10 p)), scan_print by (done || uint_lia). by rewrite u16_id.
Qed.

Lemma fixed_config_spec text ip address (g : R) : inet_aton (chars text) = Some ip ->
  ∃ p g', is_u16 p ∧ fixed_config (chars text) address g =
    Ret (mkConfig 100 DEFAULT_CAPACITY DEFAULT_CAPACITY None, mkFdAdapterConfig (Address_of_ip ip p) address 0 0, g').
Proof.
  intros Hip. unfold fixed_config, random_port. destruct (rand_next g) as [x g']. exists (u16 x), g'. split; [apply u16_range|].
  rewrite (fixed_address text ip) by (done || apply u16_range). done.
Qed.

(** [connect] with a fresh connection leaves it in [SYN_SENT], with the adapter
    configured. *)
Lemma sponge_connect_syn {A} `{FdAdapter A} c c_ad random thread_data device (a : A) :
  returns (sponge_connect None c c_ad random thread_data device a) (λ w,
    ss_datagram_adapter w = adapter_set_config c_ad a ∧ state (ss_tcp w) = of_state SYN_SENT ∧ cn_cfg (ss_tcp w) = c).
Proof. eexists. split; [reflexivity|]. done. Qed.

(** The socket over the full stack starts a connection from its fixed
    address, whatever the generator draws: the interface has a private Ethernet
    address, the next hop is the gateway, the port is random, the timeout is 100
    milliseconds, and a SYN is about to be sent. *)
Theorem full_stack_connects (g : R) fd thread_data address :
  0 <= fd < 2 ^ 31 ->
  ∃ eth p a written g1, private_address eth ∧ is_u16 p ∧
    a = mkEthernetAdapter new_FdAdapterBase (new_NetworkInterface eth (Address_of_ip 2851998217 0)) (Address_of_ip 2851998209 0) ∧
    new_FullStackSocket (sys_ok fd) (λ _, sys_ok 0) g = Ret (mkFD fd false false 0 0, a, written, g1) ∧
    returns (FullStack_connect address g1 thread_data (mkFD fd false false 0 0) a) (λ '(w, _),
      ss_datagram_adapter w = adapter_set_config (mkFdAdapterConfig (Address_of_ip 2851998217 p) address 0 0) a ∧
      state (ss_tcp w) = of_state SYN_SENT ∧ rt_timeout (cn_cfg (ss_tcp w)) = 100).
Proof.
  intros Hfd. destruct (private_address_spec g) as (eth & g1 & Heth & Hpriv).
  destruct (fixed_config_spec "169.254.10.9" 2851998217 address g1 eq_refl) as (p & g2 & Hp & Hc).
  eexists eth, p, _, _, g1. split_and!; [done|done|reflexivity| |].
  - unfold new_FullStackSocket, new_TapFD. rewrite new_TunTapFD_ok by done. cbn [mbind outcome_bind]. by rewrite Heth.
  - unfold FullStack_connect, LOCAL_TAP_IP_ADDRESS. rewrite Hc. cbn [mbind outcome_bind]. destruct (rand_next g2) as [x g3].
    eapply returns_bind; [apply sponge_connect_syn|]. cbv beta. intros w (Ha & Hs & Hcfg). apply returns_ret. by rewrite Hcfg.
Qed.
End full_stack.

Lemma full_stack_connects_witness :
  ∃ eth p a written g1, private_address eth ∧ is_u16 p ∧
    a = mkEthernetAdapter new_FdAdapterBase (new_NetworkInterface eth (Address_of_ip 2851998217 0)) (Address_of_ip 2851998209 0) ∧
    new_FullStackSocket (H := no_lookup) (sys_ok 3) (λ _, sys_ok 0) (7 : Z) = Ret (mkFD 3 false false 0 0, a, written, g1) ∧
    returns (FullStack_connect (H := no_lookup) (Address_of_ip 16909060 80) g1 (mkFD 4 false false 0 0) (mkFD 3 false false 0 0) a) (λ '(w, _),
      ss_datagram_adapter w = adapter_set_config (mkFdAdapterConfig (Address_of_ip 2851998217 p) (Address_of_ip 16909060 80) 0 0) a ∧
      state (ss_tcp w) = of_state SYN_SENT ∧ rt_timeout (cn_cfg (ss_tcp w)) = 100).
Proof. apply (full_stack_connects (H := no_lookup) (7 : Z)). lia. Defined.
