(* ===== verification/Options.v ===== *)
(** The command lines of the programs of [src/apps]: the loop over the options
    that precede host and port, which [tcp_ipv4], [tcp_udp] and [tcp_ip_ethernet]
    share up to their tables of options, and the conversion of a loss rate, for
    which [strtof] and binary32 arithmetic are those of [SpecFloat]. *)
From Stdlib Require Import Floats.SpecFloat.
From S2P Require Import Prelude Format Program.

(** ** Loss rates *)

(** The significand of a number: its digits without the point, how many of them
    stand behind it, how many there are, and the rest. *)
Definition scan_point (base : Z) (s : list byte) : Z * Z * Z * list byte :=
  let '(m, rest) := scan base s 0 in
  let whole := zlen s - zlen rest in
  match rest with
  | x2e :: s' =>
      let '(m, rest') := scan base s' m in
      let fraction := zlen s' - zlen rest' in
      if 0 <? whole + fraction then (m, fraction, whole + fraction, rest') else (0, 0, 0, s)
  | _ => (m, 0, whole, rest)
  end.

(** The exponent behind the letter [lower] or [upper], or 0. *)
Definition scan_exponent (lower upper : byte) (s : list byte) : Z :=
  match s with
  | c :: s =>
      if bool_decide (c = lower) || bool_decide (c = upper) then
        let '(sign, s) := match s with x2d :: s' => (-1, s') | x2b :: s' => (1, s') | _ => (1, s) end in
        sign * (scan 10 s 0).1
      else 0
  | [] => 0
  end.

(** The binary32 number nearest to [m * b ^ e]. *)
Definition round32 (neg : bool) (m b e : Z) : spec_float :=
  match m * b ^ Z.max 0 e, b ^ Z.max 0 (- e) with
  | Zpos num, Zpos den => SFdiv 24 128 (S754_finite neg num 0) (S754_finite false den 0)
  | _, _ => S754_zero neg
  end.

Definition to_lower (c : byte) : byte := if (65 <=? byte_val c) && (byte_val c <=? 90) then byte_of (byte_val c + 32) else c.
Definition begins (word : string) (s : list byte) : bool := bool_decide (take (length (chars word)) (map to_lower s) = chars word).

(** [strtof(s, nullptr)] *)
Definition strtof (s : list byte) : spec_float :=
  let s := skip_spaces s in
  let '(neg, s) := match s with x2d :: s' => (true, s') | x2b :: s' => (false, s') | _ => (false, s) end in
  if begins "inf" s then S754_infinity neg
  else if begins "nan" s then S754_nan
  else
    let hexadecimal := match s with
                       | x30 :: (x78 | x58) :: s' => let '(_, _, n, _) := scan_point 16 s' in 0 <? n
                       | _ => false
                       end in
    if hexadecimal then
      let '(m, fraction, _, rest) := scan_point 16 (drop 2 s) in
      round32 neg m 2 (scan_exponent x70 x50 rest - 4 * fraction)
    else
      let '(m, fraction, _, rest) := scan_point 10 s in
      round32 neg m 10 (scan_exponent x65 x45 rest - fraction).

(** [static_cast<uint16_t>(f)]: the fraction is cut off, and a value that does
    not fit is undefined. *)
Definition float_to_u16 (f : spec_float) : outcome Z :=
  match f with
  | S754_zero _ => Ret 0
  | S754_finite neg m e =>
      let n := if 0 <=? e then Zpos m * 2 ^ e else Zpos m / 2 ^ (- e) in
      if (if neg then n =? 0 else n <=? 65535) then Ret n else Undef
  | _ => Undef
  end.

(** [static_cast<T>(static_cast<float>(numeric_limits<T>::max()) * lossrate)] *)
Definition loss_rate (text : list byte) : outcome Z :=
  float_to_u16 (SFmul 24 128 (round32 false 65535 10 0) (strtof text)).

Example loss_rates :
  map loss_rate (map chars ["0"; "0.5"; ".1"; "1"; "25e-2"; "0x.8"; "abc"; "2"; "-1"; "nan"]) =
  [Ret 0; Ret 32767; Ret 6553; Ret 65535; Ret 16383; Ret 32767; Ret 0; Undef; Undef; Undef].
Proof. reflexivity. Qed.

(** ** Options *)

Section options.
(** [S] is what the options set. *)
Context {S : Type}.

(** A branch of the loop: an option without argument, one with an argument (and
    the message when it is missing), or the one that asks for help. *)
Inductive branch :=
| Flag (set : S -> S)
| Value (err : string) (set : list byte -> S -> outcome S)
| Help.

(** The branches in the order of the tests, each [strncmp] with the name and
    the number of characters. *)
Definition table := list (string * nat * branch).

Fixpoint find_branch (t : table) (a : list byte) : option branch :=
  match t with
  | [] => None
  | (name, n, b) :: t => if strncmp (chars name) a n then Some b else find_branch t a
  end.

Context (t : table) (show_usage : option (list byte) -> program unit).

(** [args] are the arguments from [curr] on. *)
Definition check_argc (args : list (list byte)) (err : string) : program unit :=
  if (length args <=? 3)%nat then _ ← show_usage (Some (chars err)); exit 1 else mret tt.

(** The loop ends with what was set and the arguments that are left. *)
Fixpoint option_loop (fuel : nat) (args : list (list byte)) (s : S) : program (S * list (list byte)) :=
  match fuel with
  | O => diverges
  | Datatypes.S fuel =>
      if (2 <? length args)%nat then
        a ← arg args 0;
        match find_branch t a with
        | Some (Flag set) => option_loop fuel (drop 1 args) (set s)
        | Some (Value err set) =>
            _ ← check_argc args err;
            v ← arg args 1;
            s ← call (set v s);
            option_loop fuel (drop 2 args) s
        | Some Help => _ ← show_usage None; exit 0
        | None => _ ← show_usage (Some (chars "ERROR: unrecognized option " ++ a)); exit 1
        end
      else mret (s, args)
  end.

(** The grammar of the options. *)
Inductive reads : list (list byte) -> S -> S -> Prop :=
| reads_end s : reads [] s s
| reads_flag a set args s s' : find_branch t a = Some (Flag set) -> reads args (set s) s' -> reads (a :: args) s s'
| reads_value a err set v args s s1 s' :
    find_branch t a = Some (Value err set) -> set v s = Ret s1 -> reads args s1 s' -> reads (a :: v :: args) s s'.

(** [usage m] is what [show_usage] prints for the message [m]. *)
Context (usage : option (list byte) -> list byte).
Context (usage_prints : ∀ m w, show_usage m w = Ret (Val tt, mkIO (io_out w ++ usage m) (io_err w))).

Lemma arg_bind {B} args i a (k : list byte -> program B) w : args !! i = Some a -> (arg args i ≫= k) w = k a w.
Proof. intros Ha. unfold arg, mbind, program_bind. by rewrite Ha. Qed.

(** The options of the grammar are read. *)
Lemma option_loop_reads opts s s' fuel pos w :
  reads opts s s' -> length pos = 2%nat -> (length opts < fuel)%nat -> option_loop fuel (opts ++ pos) s w = Ret (Val (s', pos), w).
Proof.
  intros Hr Hp. revert fuel. induction Hr as [s|a set args s s' Hb Hr IH|a err set v args s s1 s' Hb Hs Hr IH];
    intros [|fuel] Hf; try (simpl in Hf; lia); cbn [option_loop].
  - cbn [app]. by rewrite Hp.
  - cbn [app length]. rewrite length_app, Hp. destruct (Nat.ltb_spec 2 (Datatypes.S (length args + 2))); [|lia].
    rewrite (arg_bind _ 0 a) by done. rewrite Hb. cbn [drop]. apply IH. simpl in Hf. lia.
  - cbn [app length]. rewrite length_app, Hp. destruct (Nat.ltb_spec 2 (Datatypes.S (Datatypes.S (length args + 2)))); [|lia].
    rewrite (arg_bind _ 0 a) by done. rewrite Hb. unfold check_argc. cbn [length]. rewrite length_app, Hp.
    destruct (Nat.leb_spec (Datatypes.S (Datatypes.S (length args + 2))) 3); [lia|]. rewrite ret_bind, (arg_bind _ 1 v) by done.
    rewrite Hs, call_bind. cbn [drop]. apply IH. simpl in Hf. lia.
Qed.

(** Setting a value throws nothing; it may be undefined. *)
Definition values_defined : Prop := ∀ a err set v s,
  find_branch t a = Some (Value err set) -> set v s = Undef ∨ ∃ s', set v s = Ret s'.

(** Why the loop refuses the arguments that are left, of which more than two are:
    the first asks for help, or lacks its value, or is not known. With the message
    and the status of the program. *)
Inductive refusal : list (list byte) -> option (list byte) -> Z -> Prop :=
| refuse_help a args : find_branch t a = Some Help -> refusal (a :: args) None 0
| refuse_value a err set args : find_branch t a = Some (Value err set) -> (length (a :: args) <= 3)%nat -> refusal (a :: args) (Some (chars err)) 1
| refuse_unknown a args : find_branch t a = None -> refusal (a :: args) (Some (chars "ERROR: unrecognized option " ++ a)) 1.

(** How the loop can end, on any command line that has host and port: the
    options were of the grammar and nothing was printed; those up to the refusal
    were, and the usage was printed with the message; or the value of an option
    after some of the grammar is undefined. *)
Inductive loop_end (args : list (list byte)) (s : S) (w : io) : outcome (ended (S * list (list byte)) * io) -> Prop :=
| end_read opts pos s' : args = opts ++ pos -> length pos = 2%nat -> reads opts s s' -> loop_end args s w (Ret (Val (s', pos), w))
| end_usage opts rest s' m status : args = opts ++ rest -> (2 < length rest)%nat -> reads opts s s' -> refusal rest m status ->
    loop_end args s w (Ret (Exited status, mkIO (io_out w ++ usage m) (io_err w)))
| end_undefined opts a err set v rest s' : args = opts ++ a :: v :: rest -> (2 <= length rest)%nat -> reads opts s s' ->
    find_branch t a = Some (Value err set) -> set v s' = Undef -> loop_end args s w Undef.

Lemma usage_exit (m : option (list byte)) status args s w :
  (2 < length args)%nat -> refusal args m status -> loop_end args s w ((_ ← show_usage m; exit status) w).
Proof. intros Hl Hr. unfold mbind, program_bind. rewrite usage_prints. by eapply (end_usage _ _ _ [] args); [..|constructor|]. Qed.

Lemma loop_end_cons pre args s0 s w r :
  (∀ opts s', reads opts s s' -> reads (pre ++ opts) s0 s') -> loop_end args s w r -> loop_end (pre ++ args) s0 w r.
Proof.
  intros Hpre [opts pos s' -> Hp Hr|opts rest s' m status -> Hl Hr Href|opts a err set v rest s' -> Hl Hr Hb Hu].
  - eapply (end_read _ _ _ (pre ++ opts)); [by rewrite <- app_assoc|done|by apply Hpre].
  - eapply (end_usage _ _ _ (pre ++ opts)); [by rewrite <- app_assoc|done|by apply Hpre|done].
  - eapply (end_undefined _ _ _ (pre ++ opts)); [by rewrite <- app_assoc|done|by apply Hpre|done|done].
Qed.

Lemma option_loop_ends fuel args s w :
  values_defined -> (2 <= length args)%nat -> (length args < fuel)%nat -> loop_end args s w (option_loop fuel args s w).
Proof.
  intros Hv. revert args s. induction fuel as [|fuel IH]; intros args s Hl Hf; [lia|]. cbn [option_loop].
  destruct (Nat.ltb_spec 2 (length args)) as [Hlt|Hge].
  2:{ eapply (end_read _ _ _ []); [done|lia|constructor]. }
  destruct args as [|a args]; [simpl in Hl; lia|]. rewrite (arg_bind _ 0 a) by done.
  destruct (find_branch t a) as [[set|err set|]|] eqn:Hb; [..|by apply usage_exit, refuse_unknown].
  - cbn [drop]. rewrite drop_0. apply (loop_end_cons [a] args s (set s)); [intros; by eapply reads_flag|]. apply IH; cbn [length] in *; lia.
  - unfold check_argc. destruct (Nat.leb_spec (length (a :: args)) 3) as [Hle|Hgt].
    + unfold mbind, program_bind. rewrite usage_prints. by eapply (end_usage _ _ _ [] (a :: args)); [..|constructor|eapply refuse_value].
    + destruct args as [|v args]; [simpl in Hgt; lia|]. rewrite ret_bind, (arg_bind _ 1 v) by done. cbn [drop]. rewrite drop_0.
      destruct (Hv a err set v s Hb) as [Hu|[s1 Hs]].
      * unfold mbind, program_bind, call. rewrite Hu. eapply (end_undefined _ _ _ []); [done|cbn [length] in *; lia|constructor|done|done].
      * rewrite Hs, call_bind. apply (loop_end_cons [a; v] args s s1); [intros; by eapply reads_value|]. apply IH; cbn [length] in *; lia.
  - by apply usage_exit, refuse_help.
Qed.

(** The options up to a refusal are read, and the rest is refused. *)
Lemma option_loop_refuses opts rest s s' m status fuel w :
  (2 < length rest)%nat -> reads opts s s' -> refusal rest m status -> (length opts < fuel)%nat ->
  option_loop fuel (opts ++ rest) s w = Ret (Exited status, mkIO (io_out w ++ usage m) (io_err w)).
Proof.
  intros Hp Hr Href. revert fuel. induction Hr as [s|a set args s s' Hb Hr IH|a err set v args s s1 s' Hb Hs Hr IH];
    intros [|fuel] Hf; try (simpl in Hf; lia); cbn [option_loop].
  - cbn [app]. destruct (Nat.ltb_spec 2 (length rest)); [|lia].
    destruct Href as [a args Hb|a err set args Hb Hlen|a args Hb]; rewrite (arg_bind _ 0 a) by done; rewrite Hb; unfold check_argc.
    + unfold mbind, program_bind. by rewrite usage_prints.
    + destruct (Nat.leb_spec (length (a :: args)) 3); [|lia]. unfold mbind, program_bind. by rewrite usage_prints.
    + unfold mbind, program_bind. by rewrite usage_prints.
  - cbn [app length]. rewrite length_app. destruct (Nat.ltb_spec 2 (Datatypes.S (length args + length rest))); [|lia].
    rewrite (arg_bind _ 0 a) by done. rewrite Hb. cbn [drop]. apply IH. simpl in Hf. lia.
  - cbn [app length]. rewrite length_app. destruct (Nat.ltb_spec 2 (Datatypes.S (Datatypes.S (length args + length rest)))); [|lia].
    rewrite (arg_bind _ 0 a) by done. rewrite Hb. unfold check_argc. cbn [length]. rewrite length_app.
    destruct (Nat.leb_spec (Datatypes.S (Datatypes.S (length args + length rest))) 3); [lia|]. rewrite ret_bind, (arg_bind _ 1 v) by done.
    rewrite Hs, call_bind. cbn [drop]. apply IH. simpl in Hf. lia.
Qed.
End options.
