(* ===== verification/Apps.v ===== *)
(** The programs [apps/tcp_ipv4.cc], [apps/tcp_udp.cc], [apps/tcp_ip_ethernet.cc],
    [apps/tcp_native.cc] and [apps/webget.cc], and the two sockets with fixed
    configurations of [tcp_sponge_socket.cc]. What happens between the start of a
    connection and its end, which [SpongeSocket] and [StreamCopy] model step by
    step, is an argument of the programs, as are the results of system calls. *)
From S2P Require Import Prelude Buffer WrappingIntegers TCPSegment TCPSender TCPConnection Ethernet Random Format Address NetworkInterface Adapters FileDescriptor EventLoop Kernel SpongeSocket Program Options Tun SocketThread.

(** ** Configurations *)

(** The locals of [get_config]. *)
Record settings := mkSettings {
  st_fsm : TCPConfig;
  st_loss_dn : Z;
  st_loss_up : Z;
  st_listen : bool;
  st_source_address : list byte;
  st_source_port : list byte;
  st_next_hop : list byte;
  st_device : option (list byte)
}.

Definition set_listen (s : settings) : settings :=
  mkSettings (st_fsm s) (st_loss_dn s) (st_loss_up s) true (st_source_address s) (st_source_port s) (st_next_hop s) (st_device s).
Definition set_source_address (v : list byte) (s : settings) : outcome settings :=
  Ret (mkSettings (st_fsm s) (st_loss_dn s) (st_loss_up s) (st_listen s) v (st_source_port s) (st_next_hop s) (st_device s)).
Definition set_source_port (v : list byte) (s : settings) : outcome settings :=
  Ret (mkSettings (st_fsm s) (st_loss_dn s) (st_loss_up s) (st_listen s) (st_source_address s) v (st_next_hop s) (st_device s)).
Definition set_next_hop (v : list byte) (s : settings) : outcome settings :=
  Ret (mkSettings (st_fsm s) (st_loss_dn s) (st_loss_up s) (st_listen s) (st_source_address s) (st_source_port s) v (st_device s)).
Definition set_device (v : list byte) (s : settings) : outcome settings :=
  Ret (mkSettings (st_fsm s) (st_loss_dn s) (st_loss_up s) (st_listen s) (st_source_address s) (st_source_port s) (st_next_hop s) (Some v)).
Definition set_fsm (c : TCPConfig) (s : settings) : settings :=
  mkSettings c (st_loss_dn s) (st_loss_up s) (st_listen s) (st_source_address s) (st_source_port s) (st_next_hop s) (st_device s).
(** The result of [strtol] is converted to the type of the field. *)
Definition set_window (v : list byte) (s : settings) : outcome settings :=
  let c := st_fsm s in Ret (set_fsm (mkConfig (rt_timeout c) (u64 (strtol v)) (send_capacity c) (fixed_isn c)) s).
Definition set_timeout (v : list byte) (s : settings) : outcome settings :=
  let c := st_fsm s in Ret (set_fsm (mkConfig (u16 (strtol v)) (recv_capacity c) (send_capacity c) (fixed_isn c)) s).
Definition set_loss_up (v : list byte) (s : settings) : outcome settings :=
  r ← loss_rate v;
  Ret (mkSettings (st_fsm s) (st_loss_dn s) r (st_listen s) (st_source_address s) (st_source_port s) (st_next_hop s) (st_device s)).
Definition set_loss_dn (v : list byte) (s : settings) : outcome settings :=
  r ← loss_rate v;
  Ret (mkSettings (st_fsm s) r (st_loss_up s) (st_listen s) (st_source_address s) (st_source_port s) (st_next_hop s) (st_device s)).

Definition initial (address port next_hop : list byte) : settings :=
  mkSettings default_TCPConfig 0 0 false address port next_hop None.

(** The usage messages: the lines that differ between the programs, between
    their common head and the message. *)
Definition usage_text (argv0 : list byte) (lines : list byte) (msg : option (list byte)) : program unit :=
  _ ← cout (chars "Usage: " ++ argv0 ++ line " [options] <host> <port>" ++ [newline] ++
            line "   Option                                                          Default" ++
            line "   --                                                              --" ++ [newline] ++ lines);
  _ ← (match msg with Some m => cout m | None => mret tt end);
  cout [newline].

Definition listen_lines : list byte :=
  line "   -l              Server (listen) mode.                           (client mode)" ++
  line "                   In server mode, <host>:<port> is the address to bind." ++ [newline].
Definition window_lines : list byte :=
  chars "   -w <winsz>      Use a window of <winsz> bytes                   " ++ dec MAX_PAYLOAD_SIZE ++ [newline; newline] ++
  chars "   -t <tmout>      Set rt_timeout to tmout                         " ++ dec TIMEOUT_DFLT ++ [newline; newline].
Definition loss_lines : list byte :=
  line "   -Lu <loss>      Set uplink loss to <rate> (float in 0..1)       (no loss)" ++
  line "   -Ld <loss>      Set downlink loss to <rate> (float in 0..1)     (no loss)" ++ [newline].

(** ** tcp_ipv4 *)

Definition TUN_DFLT : list byte := chars "tun144".
Definition LOCAL_ADDRESS_TUN : list byte := chars "169.254.144.9".

Definition ipv4_usage (argv0 : list byte) : option (list byte) -> program unit :=
  usage_text argv0
    (listen_lines ++
     chars "   -a <addr>       Set source address (client mode only)           " ++ LOCAL_ADDRESS_TUN ++ [newline] ++
     line "   -s <port>       Set source port (client mode only)              (random)" ++ [newline] ++ window_lines ++
     chars "   -d <tundev>     Connect to tun <tundev>                         " ++ TUN_DFLT ++ [newline; newline] ++ loss_lines ++
     line "   -h              Show this message." ++ [newline]).

Definition ipv4_table : @table settings :=
  [("-l", 3%nat, Flag set_listen);
   ("-a", 3%nat, Value "ERROR: -a requires one argument." set_source_address);
   ("-s", 3%nat, Value "ERROR: -s requires one argument." set_source_port);
   ("-w", 3%nat, Value "ERROR: -w requires one argument." set_window);
   ("-t", 3%nat, Value "ERROR: -t requires one argument." set_timeout);
   ("-d", 3%nat, Value "ERROR: -t requires one argument." set_device);
   ("-Lu", 3%nat, Value "ERROR: -Lu requires one argument." set_loss_up);
   ("-Ld", 3%nat, Value "ERROR: -Lu requires one argument." set_loss_dn);
   ("-h", 3%nat, Help)].

Section programs.
Context `{Resolver} `{ErrorText} {R : Type} `{RandomGenerator R}.

Definition ipv4_get_config (argv : list (list byte)) (g : R) : program (TCPConfig * FdAdapterConfig * bool * option (list byte) * R) :=
  argv0 ← arg argv 0;
  let '(port_dflt, g) := random_port g in
  '(s, args) ← option_loop ipv4_table (ipv4_usage argv0) (S (length argv)) (tail argv) (initial LOCAL_ADDRESS_TUN port_dflt []);
  p ← arg args 1;
  if st_listen s then
    src ← call (Address_named (chars "0") p);
    if port src =? 0 then
      _ ← ipv4_usage argv0 (Some (chars "ERROR: listen port cannot be zero in server mode.")); exit 1
    else mret (st_fsm s, mkFdAdapterConfig src (destination default_config) (st_loss_dn s) (st_loss_up s), true, st_device s, g)
  else
    h ← arg args 0;
    dst ← call (Address_named h p);
    src ← call (Address_named (st_source_address s) (st_source_port s));
    mret (st_fsm s, mkFdAdapterConfig src dst (st_loss_dn s) (st_loss_up s), false, st_device s, g).

(** [connect] or [listen_and_accept] on a fresh socket, whose two ends and
    device are given. *)
Definition start_socket {A} `{FdAdapter A} (listen : bool) (c_fsm : TCPConfig) (c_filt : FdAdapterConfig) (random : Z)
    (thread_data device : FDWrapper) (a : A) : outcome socket_state :=
  if listen then sponge_listen None c_fsm c_filt random thread_data device a
  else sponge_connect None c_fsm c_filt random thread_data device a.

(** What the programs with a sponge socket share: too few arguments, exceptions,
    and the way a connection is started and run. ([tcp_udp] calls [exit] with the
    same status where the others return it.) *)
Definition socket_main (argv : list (list byte)) (usage : list byte -> option (list byte) -> program unit) (run : program unit) : program Z :=
  try_catch
    (if (length argv <? 3)%nat then
       argv0 ← arg argv 0; _ ← usage argv0 (Some (chars "ERROR: required arguments are missing.")); mret EXIT_FAILURE
     else _ ← run; mret EXIT_SUCCESS)
    (λ e, _ ← cerr (chars "Exception: " ++ what e ++ [newline]); mret EXIT_FAILURE).

(** [open_tun] is the constructor of the device, [pair] that of the socket, which
    gives the owner's and the thread's end, and [live] the life of the socket from
    its start to the return of [wait_until_closed]. *)
Definition ipv4_main (argv : list (list byte)) (g : R) (open_tun : list byte -> outcome FDWrapper) (pair : outcome (FDWrapper * FDWrapper))
    (live : FDWrapper -> @socket_state (LossyFdAdapter R TunAdapter) _ -> program unit) : program Z :=
  socket_main argv ipv4_usage
    ('(c_fsm, c_filt, listen, dev, g) ← ipv4_get_config argv g;
     tun ← call (open_tun (default TUN_DFLT dev));
     '(owner, thread_data) ← call pair;
     let '(random, g) := rand_next (R := R) g in
     w ← call (start_socket listen c_fsm c_filt random thread_data tun (mkLossy g (mkTun new_FdAdapterBase)));
     live owner w).

(** ** tcp_udp *)

Definition udp_usage (argv0 : list byte) : option (list byte) -> program unit :=
  usage_text argv0 (listen_lines ++ window_lines ++ loss_lines ++ line "   -h              Show this message and quit." ++ [newline]).

Definition udp_table : @table settings :=
  [("-l", 3%nat, Flag set_listen);
   ("-w", 3%nat, Value "ERROR: -w requires one argument." set_window);
   ("-t", 3%nat, Value "ERROR: -t requires one argument." set_timeout);
   ("-Lu", 3%nat, Value "ERROR: -Lu requires one argument." set_loss_up);
   ("-Ld", 3%nat, Value "ERROR: -Lu requires one argument." set_loss_dn);
   ("-h", 3%nat, Help)].

(** The last two arguments are counted from the end of [argv]. *)
Definition udp_get_config (argv : list (list byte)) : program (TCPConfig * FdAdapterConfig * bool) :=
  argv0 ← arg argv 0;
  '(s, _) ← option_loop udp_table (udp_usage argv0) (S (length argv)) (tail argv) (initial [] [] []);
  p ← arg argv (length argv - 1);
  if st_listen s then
    src ← call (Address_named (chars "0") p);
    mret (st_fsm s, mkFdAdapterConfig src (destination default_config) (st_loss_dn s) (st_loss_up s), true)
  else
    h ← arg argv (length argv - 2);
    dst ← call (Address_named h p);
    mret (st_fsm s, mkFdAdapterConfig (source default_config) dst (st_loss_dn s) (st_loss_up s), false).

(** [bound] is what [bind] to an address returns. *)
Definition udp_main (argv : list (list byte)) (g : R) (opened : sysret) (bound : Address -> sysret) (pair : outcome (FDWrapper * FDWrapper))
    (live : FDWrapper -> @socket_state (LossyFdAdapter R UDPAdapter) _ -> program unit) : program Z :=
  socket_main argv udp_usage
    ('(c_fsm, c_filt, listen) ← udp_get_config argv;
     udp_sock ← call (new_UDPSocket opened);
     _ ← (if listen : bool then call (socket_bind (bound (source c_filt))) else mret tt);
     '(owner, thread_data) ← call pair;
     let '(random, g) := rand_next (R := R) g in
     w ← call (start_socket listen c_fsm c_filt random thread_data udp_sock (mkLossy g (mkUDP new_FdAdapterBase)));
     live owner w).

(** ** tcp_ip_ethernet *)

Definition TAP_DFLT : list byte := chars "tap10".
Definition LOCAL_ADDRESS_TAP : list byte := chars "169.254.10.9".
Definition GATEWAY_DFLT : list byte := chars "169.254.10.1".

Definition eth_usage (argv0 : list byte) : option (list byte) -> program unit :=
  usage_text argv0
    (chars "   -a <addr>       Set IP source address (client mode only)        " ++ LOCAL_ADDRESS_TAP ++ [newline] ++
     line "   -s <port>       Set TCP source port (client mode only)          (random)" ++ [newline] ++
     chars "   -n <addr>       Set IP next-hop address                         " ++ GATEWAY_DFLT ++ [newline] ++ window_lines ++
     chars "   -d <tapdev>     Connect to tap <tapdev>                         " ++ TAP_DFLT ++ [newline; newline] ++
     line "   -h              Show this message." ++ [newline]).

Definition eth_table : @table settings :=
  [("-a", 3%nat, Value "ERROR: -a requires one argument." set_source_address);
   ("-s", 3%nat, Value "ERROR: -s requires one argument." set_source_port);
   ("-n", 3%nat, Value "ERROR: -n requires one argument." set_next_hop);
   ("-w", 3%nat, Value "ERROR: -w requires one argument." set_window);
   ("-t", 3%nat, Value "ERROR: -t requires one argument." set_timeout);
   ("-d", 3%nat, Value "ERROR: -t requires one argument." set_device);
   ("-h", 3%nat, Help)].

Definition eth_get_config (argv : list (list byte)) (g : R) : program (TCPConfig * FdAdapterConfig * Address * list byte * R) :=
  argv0 ← arg argv 0;
  let '(port_dflt, g) := random_port g in
  '(s, args) ← option_loop eth_table (eth_usage argv0) (S (length argv)) (tail argv) (initial LOCAL_ADDRESS_TAP port_dflt GATEWAY_DFLT);
  h ← arg args 0;
  p ← arg args 1;
  dst ← call (Address_named h p);
  src ← call (Address_named (st_source_address s) (st_source_port s));
  next_hop ← call (Address_named (st_next_hop s) (chars "0"));
  mret (st_fsm s, mkFdAdapterConfig src dst 0 0, next_hop, default TAP_DFLT (st_device s), g).

Definition eth_main (argv : list (list byte)) (g : R) (open_tap : list byte -> outcome FDWrapper) (pair : outcome (FDWrapper * FDWrapper))
    (live : FDWrapper -> @socket_state EthernetAdapter _ -> program unit) : program Z :=
  socket_main argv eth_usage
    (let '(local_ethernet_address, g) := random_private_ethernet_address g in
     '(c_fsm, c_filt, next_hop, dev, g) ← eth_get_config argv g;
     tap ← call (open_tap dev);
     let a := (new_EthernetAdapter local_ethernet_address (source c_filt) next_hop).1 in
     '(owner, thread_data) ← call pair;
     let '(random, g) := rand_next (R := R) g in
     w ← call (start_socket false c_fsm c_filt random thread_data tap a);
     live owner w).

(** ** tcp_native *)

Definition native_usage (argv0 : list byte) : program unit :=
  cerr (chars "Usage: " ++ argv0 ++ line " [-l] <host> <port>" ++ [newline] ++
        line "  -l specifies listen mode; <host>:<port> is the listening address.").

(** What the kernel answers to the calls on the sockets. *)
Record native_kernel := mkNative {
  nk_socket : sysret;
  nk_setsockopt : sysret;
  nk_bind : Address -> sysret;
  nk_listen : sysret;
  nk_accept : sysret;
  nk_options : sockopt * sockopt;
  nk_connect : Address -> sysret
}.

Definition server_socket (k : native_kernel) (host service : list byte) : outcome FDWrapper :=
  listening_socket ← new_TCPSocket (nk_socket k);
  _ ← set_reuseaddr (nk_setsockopt k);
  address ← Address_named host service;
  _ ← socket_bind (nk_bind k address);
  _ ← socket_listen (nk_listen k);
  '(_, conn) ← tcp_accept listening_socket (nk_accept k) (nk_options k).1 (nk_options k).2;
  Ret conn.

Definition client_socket (k : native_kernel) (host service : list byte) : outcome FDWrapper :=
  connecting_socket ← new_TCPSocket (nk_socket k);
  address ← Address_named host service;
  _ ← socket_connect (nk_connect k address);
  Ret connecting_socket.

(** [copy] is [bidirectional_stream_copy]. *)
Definition native_main (argv : list (list byte)) (k : native_kernel) (copy : FDWrapper -> program unit) : program Z :=
  try_catch
    (server_mode ← (if (length argv <? 3)%nat then mret false else a ← arg argv 1; mret (strncmp (chars "-l") a 3));
     if (length argv <? 3)%nat || ((server_mode : bool) && (length argv <? 4)%nat) then
       argv0 ← arg argv 0; _ ← native_usage argv0; mret EXIT_FAILURE
     else
       socket ← (if server_mode then host ← arg argv 2; service ← arg argv 3; call (server_socket k host service)
                 else host ← arg argv 1; service ← arg argv 2; call (client_socket k host service));
       _ ← copy socket;
       mret EXIT_SUCCESS)
    (λ e, _ ← cerr (chars "Exception: " ++ what e ++ [newline]); mret EXIT_FAILURE).

(** ** webget *)

Definition crlf : list byte := [x0d; x0a].
Definition http_request (host path : list byte) : list byte :=
  chars "GET " ++ path ++ chars " HTTP/1.1" ++ crlf ++ chars "Host: " ++ host ++ crlf ++ chars "Connection: close" ++ crlf ++ crlf.

(** The loop that prints until the end of file; [reads] are the results of
    [read], and with none left the call blocks. *)
Fixpoint print_response (reads : list (sysret * list byte)) (socket : FDWrapper) : program FDWrapper :=
  if negb (fd_eof socket) then
    match reads with
    | [] => diverges
    | (r, data) :: reads =>
        '(socket, text) ← call (fd_read socket (2 ^ 64 - 1) r data);
        _ ← cout text;
        print_response reads socket
    end
  else mret socket.

(** [connect] gives the owner's end of a connected socket, [writes] are the
    results of [writev], and [close] is [wait_until_closed]. The bytes written are
    returned. *)
Definition get_URL (host path : list byte) (connect : Address -> program FDWrapper) (writes : list sysret)
    (reads : list (sysret * list byte)) (close : FDWrapper -> program unit) : program (list byte) :=
  address ← call (Address_named host (chars "http"));
  tcp_socket ← connect address;
  '(tcp_socket, _, sent) ← call (fd_write tcp_socket [http_request host path] true writes);
  tcp_socket ← print_response reads tcp_socket;
  _ ← close tcp_socket;
  _ ← cerr (chars "Function called: get_URL(" ++ host ++ chars ", " ++ path ++ line ").");
  _ ← cerr (line "Warning: get_URL() has not been implemented yet.");
  mret sent.

Definition webget_main (argv : list (list byte)) (url : list byte -> list byte -> program (list byte)) : program Z :=
  try_catch
    (if (length argv <=? 0)%nat then exit ABORTED
     else if negb (length argv =? 3)%nat then
       argv0 ← arg argv 0;
       _ ← cerr (chars "Usage: " ++ argv0 ++ line " HOST PATH");
       _ ← cerr (x09 :: chars "Example: " ++ argv0 ++ line " stanford.edu /class/cs144");
       mret EXIT_FAILURE
     else
       host ← arg argv 1;
       path ← arg argv 2;
       _ ← url host path;
       mret EXIT_SUCCESS)
    (λ e, _ ← cerr (what e ++ [newline]); mret EXIT_FAILURE).
End programs.

(** ** Command lines *)

(** What a usage message prints. *)
Definition usage_output (argv0 lines : list byte) (msg : option (list byte)) : list byte :=
  chars "Usage: " ++ argv0 ++ line " [options] <host> <port>" ++ [newline] ++
  line "   Option                                                          Default" ++
  line "   --                                                              --" ++ [newline] ++ lines ++ default [] msg ++ [newline].

Lemma usage_text_prints argv0 lines msg w :
  usage_text argv0 lines msg w = Ret (Val tt, mkIO (io_out w ++ usage_output argv0 lines msg) (io_err w)).
Proof.
  unfold usage_text, usage_output. rewrite cout_bind. destruct msg; unfold mbind, program_bind, cout, mret, program_ret; cbn [io_out io_err default];
    by rewrite <- !app_assoc, ?app_nil_l.
Qed.

Lemma loss_rate_defined v : loss_rate v = Undef ∨ ∃ r, loss_rate v = Ret r.
Proof. unfold loss_rate, float_to_u16. repeat case_match; eauto. Qed.

(** Every branch with a value sets it, or the value is a loss rate out of
    range. *)
Lemma tables_defined t : t ∈ [ipv4_table; udp_table; eth_table] -> values_defined t.
Proof.
  intros Ht a err set v s. rewrite !elem_of_cons, elem_of_nil in Ht.
  destruct Ht as [->|[->|[->|[]]]]; unfold ipv4_table, udp_table, eth_table; cbn [find_branch];
    repeat (match goal with |- context [strncmp ?x ?y ?n] => destruct (strncmp x y n) end);
    intros [= <- <-]; try (right; eexists; reflexivity);
    unfold set_loss_up, set_loss_dn; destruct (loss_rate_defined v) as [->|[r ->]]; eauto.
Qed.



(** ** Configurations that are read *)

Lemma Address_named_ntoa `{Resolver} ip p : is_u32 ip -> is_u16 p -> Address_named (inet_ntoa ip) (dec p) = Ret (Address_of_ip ip p).
Proof.
  intros Hip Hp. unfold Address_named, resolve_address, getaddrinfo. rewrite inet_aton_ntoa by done.
  unfold numeric_service, dec. rewrite <- (app_nil_r (print_uint 10 p)), scan_print by (done || uint_lia). by rewrite u16_id.
Qed.

Lemma Address_named_any `{Resolver} p : is_u16 p -> Address_named (chars "0") (dec p) = Ret (Address_of_ip 0 p).
Proof.
  intros Hp. unfold Address_named, resolve_address, getaddrinfo. change (inet_aton (chars "0")) with (Some 0).
  unfold numeric_service, dec. rewrite <- (app_nil_r (print_uint 10 p)), scan_print by (done || uint_lia). by rewrite u16_id.
Qed.

(** The options of [tcp_ipv4] with the values they stand for. *)
Inductive ipv4_option :=
| OptListen
| OptAddress (ip : Z)
| OptPort (p : Z)
| OptWindow (n : Z)
| OptTimeout (n : Z)
| OptDevice (dev : list byte)
| OptLossUp (text : list byte) (rate : Z)
| OptLossDn (text : list byte) (rate : Z).

Definition option_ok (o : ipv4_option) : Prop :=
  match o with
  | OptListen | OptDevice _ => True
  | OptAddress ip => is_u32 ip
  | OptPort p => is_u16 p
  | OptWindow n => 0 <= n < 2 ^ 63
  | OptTimeout n => is_u16 n
  | OptLossUp text rate | OptLossDn text rate => loss_rate text = Ret rate
  end.

(** How they are spelled: numbers in decimal, addresses in dotted notation. *)
Definition spell (o : ipv4_option) : list (list byte) :=
  match o with
  | OptListen => [chars "-l"]
  | OptAddress ip => [chars "-a"; inet_ntoa ip]
  | OptPort p => [chars "-s"; dec p]
  | OptWindow n => [chars "-w"; dec n]
  | OptTimeout n => [chars "-t"; dec n]
  | OptDevice dev => [chars "-d"; dev]
  | OptLossUp text _ => [chars "-Lu"; text]
  | OptLossDn text _ => [chars "-Ld"; text]
  end.

(** A configuration, and what an option makes of it. *)
Record choices := mkChoices {
  ch_listen : bool;
  ch_address : Z;
  ch_port : Z;
  ch_window : Z;
  ch_timeout : Z;
  ch_device : option (list byte);
  ch_loss_up : Z;
  ch_loss_dn : Z
}.

Definition choose (c : choices) (o : ipv4_option) : choices :=
  let '(mkChoices listen address port window timeout device up dn) := c in
  match o with
  | OptListen => mkChoices true address port window timeout device up dn
  | OptAddress ip => mkChoices listen ip port window timeout device up dn
  | OptPort p => mkChoices listen address p window timeout device up dn
  | OptWindow n => mkChoices listen address port n timeout device up dn
  | OptTimeout n => mkChoices listen address port window n device up dn
  | OptDevice dev => mkChoices listen address port window timeout (Some dev) up dn
  | OptLossUp _ rate => mkChoices listen address port window timeout device rate dn
  | OptLossDn _ rate => mkChoices listen address port window timeout device up rate
  end.

(** Without options: a client at 169.254.144.9, from the port [p]. *)
Definition default_choices (p : Z) : choices := mkChoices false 2852032521 p DEFAULT_CAPACITY TIMEOUT_DFLT None 0 0.

Definition choices_config (c : choices) : TCPConfig := mkConfig (ch_timeout c) (ch_window c) DEFAULT_CAPACITY None.
Definition choices_settings (c : choices) : settings :=
  mkSettings (choices_config c) (ch_loss_dn c) (ch_loss_up c) (ch_listen c) (inet_ntoa (ch_address c)) (dec (ch_port c)) [] (ch_device c).

Lemma spelled_reads opts c :
  Forall option_ok opts -> reads ipv4_table (concat (map spell opts)) (choices_settings c) (choices_settings (foldl choose c opts)).
Proof.
  intros Ho. revert c. induction Ho as [|o opts Ho _ IH]; intros c; [constructor|]. cbn [map concat foldl]. specialize (IH (choose c o)).
  destruct c as [listen address port window timeout device up dn].
  destruct o; cbn [spell app option_ok choose] in *; unfold is_u16 in *; [eapply reads_flag; [reflexivity|exact IH]|..];
    (eapply reads_value; [reflexivity| |exact IH]); unfold set_window, set_timeout, set_loss_up, set_loss_dn; rewrite ?strtol_dec, ?Ho by lia;
    rewrite ?u64_id, ?u16_id by (unfold is_u64, is_u16; lia); reflexivity.
Qed.

Definition choices_ok (c : choices) : Prop := is_u32 (ch_address c) ∧ is_u16 (ch_port c).

Lemma choose_ok opts c : Forall option_ok opts -> choices_ok c -> choices_ok (foldl choose c opts).
Proof.
  intros Ho. revert c. induction Ho as [|o opts Ho _ IH]; intros c Hc; [done|]. apply IH. destruct c, Hc. by destruct o.
Qed.

(** C40: A configuration survives the command line of [tcp_ipv4]. Take any options,
    in any order and repeated or not, spelled with the numbers in decimal, the
    addresses in dotted notation and the loss rates as any text of their value,
    followed by a host in dotted notation and a port. What is read back, without
    any lookup of names and without output, is the configuration they stand for,
    each option overriding what was set before: in client mode with the host and
    port as destination and the chosen source; in server mode (where the host and
    the chosen source are not used) with the port as source at address 0.0.0.0 and
    no destination, and the usage and status 1 instead if the port is 0. *)
Theorem ipv4_config_roundtrip `{Resolver} {R : Type} `{RandomGenerator R} (g : R) argv0 opts dst dport w :
  Forall option_ok opts -> is_u32 dst -> is_u16 dport ->
  ∃ p g', random_port g = (dec p, g') ∧ is_u16 p ∧
    let c := foldl choose (default_choices p) opts in
    ipv4_get_config (argv0 :: concat (map spell opts) ++ [inet_ntoa dst; dec dport]) g w =
      if ch_listen c then
        if dport =? 0 then (_ ← ipv4_usage argv0 (Some (chars "ERROR: listen port cannot be zero in server mode.")); exit 1) w
        else Ret (Val (choices_config c, mkFdAdapterConfig (Address_of_ip 0 dport) (Address_of_ip 0 0) (ch_loss_dn c) (ch_loss_up c), true,
                       ch_device c, g'), w)
      else
        Ret (Val (choices_config c, mkFdAdapterConfig (Address_of_ip (ch_address c) (ch_port c)) (Address_of_ip dst dport)
                    (ch_loss_dn c) (ch_loss_up c), false, ch_device c, g'), w).
Proof.
  intros Ho Hd Hdp. unfold ipv4_get_config, random_port. rewrite (arg_bind _ 0 argv0) by done. destruct (rand_next g) as [x g'].
  pose proof (u16_range x) as Hp. exists (u16 x), g'. split; [done|]. split; [done|]. set (p := u16 x) in *. clearbody p. cbn [tail].
  change (initial LOCAL_ADDRESS_TUN (dec p) []) with (choices_settings (default_choices p)).
  pose proof (spelled_reads opts (default_choices p) Ho) as Hr. destruct (choose_ok opts (default_choices p) Ho) as [Ha Hpo]; [by split|].
  set (c := foldl choose (default_choices p) opts) in *. clearbody c. cbv zeta. unfold mbind at 1, program_bind at 1.
  erewrite option_loop_reads; [|exact Hr|done|cbn [length]; rewrite length_app; lia]. cbv iota beta.
  rewrite (arg_bind _ 1 (dec dport)) by done. cbn [st_listen choices_settings]. destruct (ch_listen c).
  - rewrite Address_named_any, call_bind by done. cbn [port Address_of_ip ad_port]. by destruct (dport =? 0).
  - rewrite (arg_bind _ 0 (inet_ntoa dst)) by done. cbn [st_source_address st_source_port choices_settings].
    by rewrite !Address_named_ntoa, !call_bind by done.
Qed.

Definition sample_resolver : Resolver := {| lookup_host := λ _, inl EAI_NONAME; lookup_service := λ s, if bool_decide (s = chars "http") then inr 80 else inl EAI_NONAME |}.

(** A client with every option set, the window twice, and a server. *)
Definition sample_options : list ipv4_option :=
  [OptAddress 167772161; OptWindow 1; OptPort 4000; OptLossUp (chars "0.5") 32767; OptWindow 5000; OptTimeout 300; OptDevice (chars "tun5"); OptLossDn (chars ".1") 6553].

Lemma ipv4_config_roundtrip_witness :
  (∃ g', ipv4_get_config (H := sample_resolver) (chars "tcp_ipv4" :: concat (map spell sample_options) ++ [inet_ntoa 167772162; dec 80]) (42 : Z) no_output =
    Ret (Val (mkConfig 300 5000 DEFAULT_CAPACITY None,
              mkFdAdapterConfig (Address_of_ip 167772161 4000) (Address_of_ip 167772162 80) 6553 32767, false, Some (chars "tun5"), g'), no_output)) ∧
  (∃ g', ipv4_get_config (H := sample_resolver) (chars "tcp_ipv4" :: concat (map spell [OptTimeout 200; OptListen]) ++ [inet_ntoa 0; dec 90]) (42 : Z) no_output =
    Ret (Val (mkConfig 200 DEFAULT_CAPACITY DEFAULT_CAPACITY None,
              mkFdAdapterConfig (Address_of_ip 0 90) (Address_of_ip 0 0) 0 0, true, None, g'), no_output)).
Proof.
  split.
  - destruct (ipv4_config_roundtrip (H := sample_resolver) (42 : Z) (chars "tcp_ipv4") sample_options 167772162 80 no_output) as (p & g' & _ & _ & Hrun).
    + repeat constructor; cbn; unfold_uint; lia.
    + unfold_uint. lia.
    + unfold_uint. lia.
    + exists g'. exact Hrun.
  - destruct (ipv4_config_roundtrip (H := sample_resolver) (42 : Z) (chars "tcp_ipv4") [OptTimeout 200; OptListen] 0 90 no_output) as (p & g' & _ & _ & Hrun).
    + repeat constructor; cbn; unfold_uint; lia.
    + unfold_uint. lia.
    + unfold_uint. lia.
    + exists g'. exact Hrun.
Defined.

(** Options whose name only begins with the four characters of a loss option
    are taken for it; a timeout is cut to sixteen bits, and a negative window
    becomes a huge one. *)
Example options_misread :
  let s := initial LOCAL_ADDRESS_TUN (chars "1") [] in
  let read a v := option_loop ipv4_table (ipv4_usage (chars "tcp_ipv4")) 10 [chars a; chars v; chars "h"; chars "1"] s no_output in
  (∃ s', read "-Lunch" "0.5" = Ret (Val (s', [chars "h"; chars "1"]), no_output) ∧ st_loss_up s' = 32767) ∧
  (∃ s', read "-t" "70000" = Ret (Val (s', [chars "h"; chars "1"]), no_output) ∧ rt_timeout (st_fsm s') = 4464) ∧
  (∃ s', read "-w" "-1" = Ret (Val (s', [chars "h"; chars "1"]), no_output) ∧ recv_capacity (st_fsm s') = 2 ^ 64 - 1).
Proof. cbv zeta. split_and!; eexists; split; reflexivity. Qed.

(** In server mode the host of [tcp_ipv4] is not looked at, although the usage
    message calls it the address to bind. *)
Example listen_host_ignored :
  ∃ c g, ipv4_get_config (H := sample_resolver) [chars "tcp_ipv4"; chars "-l"; chars "10.1.2.3"; chars "90"] (1 : Z) no_output =
    Ret (Val (c, mkFdAdapterConfig (Address_of_ip 0 90) (Address_of_ip 0 0) 0 0, true, None, g), no_output).
Proof. eexists _, _. reflexivity. Qed.

(** ** webget *)

Lemma print_response_spec chunks rest socket w :
  fd_eof socket = false -> Forall (λ c, c ≠ [] ∧ zlen c <= BUFFER_SIZE) chunks ->
  gives (print_response (map (λ c, (sys_ok (zlen c), c)) chunks ++ (sys_ok 0, []) :: rest) socket) w
    (λ _ w', w' = mkIO (io_out w ++ concat chunks) (io_err w)).
Proof.
  intros He Hc. revert socket w He. induction Hc as [|c chunks [Hne Hl] Hc IH]; intros socket w He; unfold gives; cbn [map app print_response]; rewrite He; cbn [negb].
  - change 0 with (zlen (@nil byte)). rewrite fd_read_ok by (by vm_compute). rewrite call_bind, cout_bind. cbn [andb].
    assert (∀ reads f, fd_eof f = true -> print_response reads f = mret f) as Hend by (intros [|[]] f Hf; cbn; by rewrite Hf).
    rewrite Hend by done. apply gives_ret. by destruct w.
  - rewrite fd_read_ok by (unfold BUFFER_SIZE in *; lia). rewrite call_bind, cout_bind.
    replace (zlen c =? 0) with false by (symmetry; apply Z.eqb_neq; intros H0; apply Hne, zlen_0_nil; lia). rewrite andb_false_r.
    eapply gives_mono; [apply IH; done|]. cbv beta. intros _ w' ->. cbn [io_out io_err concat]. by rewrite app_assoc.
Qed.

(** C36: [webget] sends the request, however the kernel splits it, and prints the
    response, however it arrives, up to the end of the stream, and nothing else;
    it succeeds in spite of its warning that it is not implemented. *)
Theorem webget_prints_response `{Resolver} `{ErrorText} argv0 host path address connect socket writes chunks rest close :
  Address_named host (chars "http") = Ret address -> zlen (http_request host path) < 2 ^ 31 ->
  (∀ w, gives (connect address) w (λ s w', s = socket ∧ io_out w' = io_out w)) -> fd_eof socket = false ->
  writes_all writes (zlen (http_request host path)) -> Forall (λ c, c ≠ [] ∧ zlen c <= BUFFER_SIZE) chunks ->
  (∀ s w, gives (close s) w (λ _ w', io_out w' = io_out w)) ->
  let url host path := get_URL host path connect writes (map (λ c, (sys_ok (zlen c), c)) chunks ++ (sys_ok 0, []) :: rest) close in
  gives (url host path) no_output (λ sent w, sent = http_request host path ∧ io_out w = concat chunks) ∧
  gives (webget_main [argv0; host; path] url) no_output (λ status w, status = EXIT_SUCCESS ∧ io_out w = concat chunks).
Proof.
  intros Ha Hlen Hconnect He Hw Hc Hclose url.
  assert (gives (url host path) no_output (λ sent w, sent = http_request host path ∧ io_out w = concat chunks)) as Hurl.
  { unfold url, get_URL. rewrite Ha. unfold gives. rewrite call_bind. eapply gives_bind; [apply Hconnect|]. cbv beta. intros s w [-> Ho].
    destruct (write_loop_all writes socket [http_request host path] 0 []) as ([[s' n] sent] & Hwr & _ & Hsent); [cbn; lia|lia|cbn; lia|by cbn; rewrite Z.add_0_r|].
    assert (fd_eof s' = false) as He' by (rewrite <- He; by eapply write_loop_eof).
    unfold fd_write. rewrite Hwr. unfold gives. rewrite call_bind. eapply gives_bind; [by apply print_response_spec|]. cbv beta. intros s'' w' ->.
    eapply gives_bind; [apply Hclose|]. cbv beta. intros _ w'' Ho''. unfold gives. rewrite !cerr_bind. apply gives_ret. split.
    - rewrite Hsent. cbn. by rewrite app_nil_r.
    - cbn [io_out]. rewrite Ho''. cbn [io_out]. by rewrite Ho. }
  split; [done|]. destruct Hurl as (sent & w & Hr & _ & Ho). exists EXIT_SUCCESS, w. split; [|done].
  unfold webget_main, try_catch. cbn [length Nat.leb Nat.eqb negb]. rewrite (arg_bind _ 1 host), (arg_bind _ 2 path) by done.
  unfold mbind at 1, program_bind at 1. by rewrite Hr.
Qed.

Definition sample_connect (_ : Address) : program FDWrapper := mret (mkFD 5 false false 0 0).

Lemma webget_prints_response_witness :
  let host := chars "10.0.0.1" in
  let path := chars "/" in
  let chunks := [chars "HTTP/1.1 200"; chars " OK"] in
  let url host path := get_URL (H := sample_resolver) host path sample_connect [sys_ok 10; sys_ok 43]
    (map (λ c, (sys_ok (zlen c), c)) chunks ++ (sys_ok 0, []) :: []) (λ _, mret tt) in
  gives (url host path) no_output (λ sent w, sent = http_request host path ∧ io_out w = concat chunks) ∧
  gives (webget_main (H0 := sample_errors) [chars "webget"; host; path] url) no_output (λ status w, status = EXIT_SUCCESS ∧ io_out w = concat chunks).
Proof.
  intros host path chunks.
  apply (webget_prints_response (H := sample_resolver) (H0 := sample_errors) (chars "webget") host path (Address_of_ip 167772161 80)
           sample_connect (mkFD 5 false false 0 0)).
  - reflexivity.
  - reflexivity.
  - intros w. by apply gives_ret.
  - reflexivity.
  - exists 10. split; [done|]. split; [done|]. right. exists 43. split; [done|]. split; [done|]. by left.
  - repeat constructor; try discriminate.
  - intros s w. by apply gives_ret.
Defined.

Example request_text : http_request (chars "h") (chars "/x") =
  chars "GET /x HTTP/1.1" ++ crlf ++ chars "Host: h" ++ crlf ++ chars "Connection: close" ++ crlf ++ crlf.
Proof. reflexivity. Qed.
